(* ===== verification/_CoqProject ===== *)
-Q . S2P
Prelude.v
Text.v
Effect.v
Nibbles.v
Mpt.v
MptWf.v
MptSpec.v
MptHash.v
RlpCodec.v
MptProof.v
Types.v
Interfaces.v
Request.v
Queue.v
Lru.v
Pool.v
Ballot.v
ChainSpec.v
Input.v
Blob.v
Eip4844.v
ProtocolInstance.v
MemDb.v
ProviderDb.v
Rpc.v
Builder.v
Raiko.v
L1Data.v
Preflight.v
Backend.v
Actor.v
SgxGuest.v
SgxProver.v
SgxProcess.v
SgxQuote.v
SgxSetup.v
Risc0.v
Sp1.v
Auth.v
Server.v
Routes.v
Options.v
Pipeline.v
