(* ===== verification/Prelude.v ===== *)
(** * Raiko: a verification development

    Raiko proves the execution of Taiko and Ethereum blocks. A guest program
    (in a zkVM or an SGX enclave) rebuilds the parent state from Merkle proofs,
    executes a block or a batch, computes its state root, and commits to the
    hash of a protocol instance that the contracts on chain check. A host
    server accepts requests, keeps them in a pool and a queue, and runs provers
    in the background. This library models the guest's own logic and the
    request handling of the host, and proves what makes them correct. Names of
    files below are relative to the root of the repository's sources.

    ** The parts, in the order of the files

    - [Prelude]: outcomes of Rust functions (a value, an error, a panic) with
      their monad, machine integers, indexing, tactics, hint databases and
      shared lemmas. [Text]: numbers in text. [Effect]: functions with a state
      that may fail.
    - [Nibbles], [Mpt], [MptWf], [MptSpec], [MptHash], [RlpCodec], [MptProof]:
      the Merkle Patricia trie of [lib/src/primitives/mpt.rs]. A node is its
      data and its cached reference, as [MptNode]; [insert] and [delete] return
      the node after the call with the result, so an error leaves a visible
      state. [MptWf] has the canonical form and the effect of one call;
      [MptSpec] the finite map a trie holds and the refinement to it; [MptHash]
      encodings, references, cache coherence and hashes; [MptProof] the linking
      and resolution of EIP-1186 proofs ([proofs_to_tries]). [RlpCodec] gives
      concrete instances of the hash and codec classes.
    - [Types], [Request]: proof types, statuses, proofs ([lib/src/proof_type.rs],
      [lib/src/prover.rs], [taskdb/src/lib.rs]); the keys and entities of
      requests and their image ids ([reqpool/src/request.rs], [utils.rs]).
    - [Interfaces]: the errors of the host library, request options as JSON and
      their merging, and the conversions to requests ([core/src/interfaces.rs],
      [merge] of [core/src/lib.rs]).
    - [Queue]: the three priority queues ([reqactor/src/queue.rs]), against a
      list with priorities.
    - [Lru], [Pool]: the interface of the LRU cache library with an instance,
      and the request pool over its memory or Redis backend
      ([reqpool/src/pool.rs], [backend.rs], [memory_backend.rs]).
    - [Ballot]: the random choice of provers and its Poisson rate limiter
      ([ballot/src/lib.rs], [poisson.rs]), on IEEE doubles; the clock is an
      argument.
    - [ChainSpec], [Input]: fork activation and verifier addresses
      ([lib/src/consts.rs]); guest inputs and the proposal events of three forks
      ([lib/src/input.rs], [lib/src/input/*.rs]).
    - [Blob], [Eip4844]: transaction data from blobs and call data
      ([lib/src/utils.rs]); blob commitments ([lib/src/primitives/eip4844.rs]).
    - [ProtocolInstance]: the metadata rebuilt from executed blocks, the checks
      of blobs and chain specifications and the instance hash
      ([lib/src/protocol_instance.rs]).
    - [MemDb], [Builder]: the in-memory database and its commit
      ([lib/src/mem_db.rs]); loading the verified parent state, execution, state
      root, and the chain of a batch ([lib/src/builder.rs]).
    - [ProviderDb]: the database that answers an optimistic execution with
      placeholders, collects what was missing and is executed again
      ([core/src/provider/db.rs], [execute_txs]), over an arbitrary provider whose
      answers may fail at any time. [Rpc]: the provider that asks a node in
      batches ([core/src/provider/rpc.rs]).
    - [Raiko]: the expected output of a block or batch, the native prover and
      the dispatch to provers ([core/src/lib.rs], [core/src/prover.rs]).
    - [L1Data]: the proposal of a block or batch on L1, its headers and blobs
      ([core/src/preflight/util.rs]). [Preflight]: the input of a block or a
      batch ([core/src/preflight/mod.rs], [lru.rs]); what concurrent tasks share
      is a cache of states, and a task is a program of loads and saves of it, run
      alone or under a schedule with others.
    - [Backend]: the jobs of the backend ([reqactor/src/backend.rs]): making an
      input, proving a block or a batch from a given or a new input, aggregating.
    - [Actor]: the request actor and the scheduling loop of the backend
      ([reqactor/src/actor.rs], [backend.rs]) as a step relation: clients, the
      loop and running jobs interleave at lock boundaries.
    - [SgxGuest]: the enclave's key, its proofs and the aggregation of proofs
      along a chain of keys ([provers/sgx/guest/src/*.rs]), as operations on the
      files and devices of the enclave.
    - [SgxProver], [SgxProcess]: the provers that run the enclave as a process
      or ask a server ([provers/sgx/prover/src/lib.rs], [local_prover.rs],
      [remote_prover.rs]) over a machine with processes, files and HTTP; the
      command line of the guest ([provers/sgx/guest/src/main.rs]) as a process of
      that machine.
    - [SgxQuote], [SgxSetup]: the parser of attestation quotes and the
      registration of the enclave on chain ([sgx_register_utils.rs]), and the
      setup that writes the instance ids ([provers/sgx/setup/src/*.rs]).
    - [Risc0], [Sp1]: the drivers of the zkVM provers
      ([provers/risc0/driver/src/*.rs], [provers/sp1/driver/src/lib.rs],
      [remote_contract_verify.rs]) and their guest programs
      ([provers/*/guest/src/block.rs], [batch.rs], [aggregation.rs]): proving on a
      service, on the network or on this machine, the cache of receipts and the
      clients that are kept, conversion to SNARKs, aggregation and cancellation.
    - [Auth]: API keys, rate limits and the middleware of the server
      ([host/src/server/auth.rs]), alone and as steps of concurrent requests.
    - [Server]: the endpoints of both versions and of the administration
      ([host/src/server/handler.rs], [utils.rs], [api/*.rs]) as functions of the
      actor, which other requests may change before each locked section. [Routes]:
      the routers of all versions, with the layers around each handler.
    - [Options]: the options of the host, their merge with the configuration file
      and what the host is started with ([host/src/lib.rs], [bin/main.rs]), and the
      cache of inputs ([cache.rs]).
    - [Pipeline]: the commands that build the guest programs, their environment,
      and the placement of what they build ([pipeline/src/*.rs]).

    ** How the parts interact

    [Builder] calls [Blob] for the transactions, [MemDb] for the state and the
    trie of [Mpt] for roots; [ProtocolInstance] takes the executed header or
    blocks and the same [Input]; [SgxGuest] runs both and signs the instance
    hash. [Preflight] makes the [Input] that all of them read: it asks [L1Data]
    for the proposal, runs [ProviderDb] over [Rpc], and builds tries with
    [MptProof]; [ProviderDb] is proved against the class [Honest] of providers,
    and [Rpc] meets it. [Raiko] computes with [Builder] and [ProtocolInstance] what
    the guest should output. [Actor] holds a [Pool], a [Queue] and a
    [Ballot]; a job of the backend is an abstract outcome there, and the one of
    [Backend], which runs [Preflight] and [Raiko], in its own file. [Server] calls
    [Actor] for each request and is guarded by [Auth]. [SgxProver] is a prover for
    [Raiko] and runs [SgxGuest] through the class [GuestHost] of machines on which
    the prover's command starts the guest; [SgxSetup] bootstraps it, registers
    what [SgxQuote] parses and writes the ids that [SgxProver] reads. The guests of
    [Risc0] and [Sp1] run [Builder] and [ProtocolInstance] as the enclave does, and
    their drivers are provers for [Raiko]; [Sp1] relies on [Raiko] for the hash that
    is expected.

    ** What the theorems show

    - Tries: on full tries insertion and deletion refine a finite map, are
      total and keep the canonical form, and the root hash is a function of the
      contents; on sparse tries they never panic and leave everything else as
      it was; cached references are never stale; decoding inverts encoding;
      tries built from proofs commit to the claimed roots, and resolution
      terminates on acyclic stores.
    - Blocks: the database is the verified parent state; the state root is the
      hash of that state with exactly the executed changes; a committed block
      reads back; batch blocks form a chain over verified states.
    - Instances: a constructed instance binds the proof to the proposal; equal
      instance hashes are for the same statement; a batch does not bind its
      blob data ([ProtocolInstance.batch_instance_ignores_blobs]).
    - Blobs: decoding inverts the blob encoding for every payload, never panics
      on a full blob, and deals transactions to blocks in order.
    - Preflight: the data that optimistic executions collect is true and enough
      to execute again, with the changes of an execution on the chain; the loop
      ends when the provider answers, and may not when it refuses batches
      ([ProviderDb.Example.preflight_livelock]); the inputs of blocks and batches
      are true and the shared cache holds only true states under every
      interleaving; batched proof requests are complete; the blobs prepared for a
      batch are those of its proposal and pass the guest's check, which for
      versioned hashes checks nothing ([L1Data.versioned_hash_batch_unchecked]).
    - Host: the output that the host expects is the guest's; merging request
      options is overriding field by field.
    - Requests: the queue refines its specification and keeps its invariant; no
      key has two jobs at once in any interleaving; what [act], the pool and the
      ballot return on every branch; rate limits hold. Three theorems exhibit
      unwanted behaviour ([Queue.prune_pending_duplicates],
      [Actor.late_registration_drops_proof], [Ballot.certain_draw_misses_one]).
    - Jobs and endpoints: an input made ahead is the one the proof would have
      made; a block or batch is proved only from its own input, an aggregation
      only from the proofs of all its parts, whatever others do meanwhile; a
      paused server submits nothing. [Server.ServerExample] shows a pruned request
      that runs twice.
    - Enclave: a returned proof is the signature of the executed input's
      instance hash by the enclave's key; aggregation signs only chains of keys
      that end at the enclave, and accepts every list of its own proofs. The local
      prover returns what the enclave computed for the same input, and gives it
      back its own proofs to aggregate; a quote is parsed exactly when it has the
      format; after a setup every fork with a verifier has the id that this
      verifier issued. An id of more than 32 bits makes every proof fail.
    - zkVMs: a batch proof of RISC Zero carries a genuine receipt of the batch
      program with the expected hash, from the service or from the cache; one of SP1
      has the hash the host expects although the driver compares nothing; proofs
      made by either driver aggregate to the key of the batch program and the hashes
      in order; the clients that SP1 keeps have the keys of their programs after any
      calls. A SNARK that the contract refuses is returned
      ([Risc0.refused_snark_returned]), and a profiled run never returns
      ([Sp1.profiling_never_returns]).
    - Start and build: a configuration file fills only the options that the command
      line leaves out and that have no default; every route but those of health and
      metrics is authenticated; a guest is built in a clean environment.
    - API keys: which requests are forwarded or rejected, and that a key's limit
      per minute holds under every interleaving, up to the skew of the clock.

    ** Conventions

    A [w]-bit integer is a [Z] with its wrap-around written out where the
    release build wraps; [usize] has 64 bits. Hash maps are finite maps, and a
    loop over one is a loop over its entries in some order; where the order
    could matter a theorem says that it does not. Debug assertions, logging and
    metrics are left out. Errors keep their message where the code returns one.

    Third-party code is a parameter: a type class of operations ([Keccak],
    [AlloyRlp], [RlpParser], [LruCache], [KzgLib], [ProtocolLib], [EvmAccounts],
    [BlockLib], [Secp], [RpcClient], [L1Lib], [Machine], [SgxLib], [GuestLib],
    [SetupMachine], [SetupLib], [Risc0Lib], [Bonsai], [Sp1Lib], [Sp1Machine]) with its documented laws as a second class, and a
    concrete instance of both for the witnesses.

    Fuel: [MptProof.resolve_nodes] takes the number of jumps into the node store
    it may make; [resolve_nodes_terminates] gives a bound that is always enough
    on an acyclic store. The parser of [RlpCodec] takes three times the length of
    its input. [ProviderDb.execute_txs] takes the number of executions that are
    waited for; 100 are enough when the provider answers
    ([Preflight.preflight_returns]). [Rpc.proof_loop] takes the number of pending
    requests, each of its batches making at least one. [Risc0] takes the number of
    polls of the proving service that are waited for: the service decides how long
    it runs, so a call may have no result for any number. Every other recursion is
    structural.

    ** Not modelled

    Metrics, logging, the parsing of the words of command lines, the listener of the
    server, the documentation of the API and the harness of the guests' tests: I/O
    around the modelled code. The clients of nodes, the EVM, the consensus checks,
    KZG, compression, the zkVMs and their SDKs are libraries; the operators that
    replace precompiles in the zkVMs call their curves and hashes. Serialisation
    derived by serde is modelled for request and host options and for prover
    parameters, and taken as lossless elsewhere. *)

From stdpp Require Import base list list_numbers gmap strings fin_maps.
From Stdlib Require Import ZArith Lia.

Declare Scope raiko_scope.
Delimit Scope raiko_scope with raiko.

(** ** Outcomes of Rust functions

    A Rust function returns a value, returns an error through [Result], or
    panics (a failed [assert!], an index out of range, an [unwrap] of nothing). *)
Inductive outcome (E A : Type) : Type :=
| Ok (a : A)
| Err (e : E)
| Panic.
Arguments Ok {E A} a.
Arguments Err {E A} e.
Arguments Panic {E A}.

#[global] Instance outcome_ret {E} : MRet (outcome E) := fun A a => Ok a.
#[global] Instance outcome_bind {E} : MBind (outcome E) :=
  fun A B f m => match m with Ok a => f a | Err e => Err e | Panic => Panic end.
#[global] Instance outcome_fmap {E} : FMap (outcome E) :=
  fun A B f m => match m with Ok a => Ok (f a) | Err e => Err e | Panic => Panic end.

#[global] Instance outcome_eq_dec {E A} `{EqDecision E, EqDecision A} :
  EqDecision (outcome E A).
Proof. solve_decision. Defined.

(** [Option::unwrap] and [Option::ok_or]. *)
Definition unwrap {E A} (o : option A) : outcome E A :=
  match o with Some a => Ok a | None => Panic end.

Definition ok_or {E A} (o : option A) (e : E) : outcome E A :=
  match o with Some a => Ok a | None => Err e end.

(** [Result::map_err]. *)
Definition map_err {E F A} (f : E -> F) (m : outcome E A) : outcome F A :=
  match m with Ok a => Ok a | Err e => Err (f e) | Panic => Panic end.

(** [Result::unwrap]. *)
Definition unwrap_ok {E F A} (m : outcome E A) : outcome F A :=
  match m with Ok a => Ok a | _ => Panic end.

(** [assert!(b)] and an early [return Err(e)] guarded by a condition. *)
Definition assert {E} (b : bool) : outcome E () := if b then Ok () else Panic.
Definition ensure {E} (b : bool) (e : E) : outcome E () := if b then Ok () else Err e.

(** [iter.map(f).collect::<Result<Vec<_>, _>>()]: the first error wins. *)
Fixpoint collect {E A B} (f : A -> outcome E B) (l : list A) : outcome E (list B) :=
  match l with
  | [] => Ok []
  | a :: l' =>
      match f a with
      | Ok b => match collect f l' with Ok bs => Ok (b :: bs) | Err e => Err e | Panic => Panic end
      | Err e => Err e
      | Panic => Panic
      end
  end.

Definition is_ok {E A} (m : outcome E A) : bool :=
  match m with Ok _ => true | _ => false end.

(** ** Machine integers

    A [w]-bit unsigned integer is a [Z]; arithmetic of the release profile
    wraps, so each operation that can overflow is written with [wrap]. *)
Definition wrap (w : Z) (z : Z) : Z := z mod 2 ^ w.
Definition wrap8 : Z -> Z := wrap 8.
Definition wrap32 : Z -> Z := wrap 32.
Definition wrap64 : Z -> Z := wrap 64.
Definition u64_max : Z := 2 ^ 64 - 1.
Definition u64b (z : Z) : bool := bool_decide (0 <= z < 2 ^ 64)%Z.

(** [u64::saturating_sub], [u64::saturating_add]. *)
Definition saturating_sub (a b : Z) : Z := Z.max 0 (a - b).
Definition saturating_add64 (a b : Z) : Z := Z.min u64_max (a + b).

Abbreviation bytes := (list Z) (only parsing).

Definition is_byte (b : Z) : bool := (0 <=? b)%Z && (b <? 256)%Z.
Definition is_nibble (b : Z) : bool := (0 <=? b)%Z && (b <? 16)%Z.

(** ** Access to one element of an array

    [index_with f oob l i] applies [f] to the [i]-th element and is [oob] when
    the index is out of range; [alter_with] also writes the element back. Both
    are structural in the list, so a recursive function may use them to descend
    into the children of a node. *)
Definition index_with {A B} (f : A -> B) (oob : B) : list A -> nat -> B :=
  fix go l i :=
    match l, i with
    | [], _ => oob
    | a :: _, O => f a
    | _ :: l', S i' => go l' i'
    end.

Definition alter_with {A R} (f : A -> A * R) (oob : R) : list A -> nat -> list A * R :=
  fix go l i :=
    match l, i with
    | [], _ => ([], oob)
    | a :: l', O => let '(a', r) := f a in (a' :: l', r)
    | a :: l', S i' => let '(l'', r) := go l' i' in (a :: l'', r)
    end.

(** [slice::strip_prefix]. *)
Fixpoint strip_prefix {A} `{EqDecision A} (p l : list A) : option (list A) :=
  match p, l with
  | [], _ => Some l
  | x :: p', y :: l' => if decide (x = y) then strip_prefix p' l' else None
  | _ :: _, [] => None
  end.

(** ** Automation *)
Create HintDb raiko.
Create Rewrite HintDb raiko.

(** Split every boolean conjunction and reflect every boolean test in the context. *)
Ltac breflect :=
  repeat match goal with
  | H : (_ && _)%bool = true |- _ => apply andb_prop in H; destruct H
  | H : (_ && _)%bool = false |- _ => apply andb_false_iff in H
  | H : (_ || _)%bool = false |- _ => apply orb_false_iff in H; destruct H
  | H : Is_true _ |- _ => apply Is_true_true in H
  | H : negb _ = true |- _ => apply negb_true_iff in H
  | H : negb _ = false |- _ => apply negb_false_iff in H
  | H : (_ <? _)%Z = true |- _ => apply Z.ltb_lt in H
  | H : (_ <? _)%Z = false |- _ => apply Z.ltb_ge in H
  | H : (_ <=? _)%Z = true |- _ => apply Z.leb_le in H
  | H : (_ <=? _)%Z = false |- _ => apply Z.leb_gt in H
  | H : (_ =? _)%Z = true |- _ => apply Z.eqb_eq in H
  | H : (_ =? _)%Z = false |- _ => apply Z.eqb_neq in H
  | H : (_ <? _)%nat = true |- _ => apply Nat.ltb_lt in H
  | H : (_ <? _)%nat = false |- _ => apply Nat.ltb_ge in H
  | H : (_ <=? _)%nat = true |- _ => apply Nat.leb_le in H
  | H : (_ <=? _)%nat = false |- _ => apply Nat.leb_gt in H
  | H : (_ =? _)%nat = true |- _ => apply Nat.eqb_eq in H
  | H : (_ =? _)%nat = false |- _ => apply Nat.eqb_neq in H
  | H : bool_decide _ = true |- _ => apply bool_decide_eq_true in H
  | H : bool_decide _ = false |- _ => apply bool_decide_eq_false in H
  end.

(** Case analysis on every match of the goal, with trivial branches closed. *)
Ltac crush_match := repeat (case_match; simplify_eq/=; try done).

(** Invert a bind that succeeded. *)
Ltac bind_inv :=
  repeat match goal with
  | H : mbind _ ?m = Ok _ |- _ =>
      let E := fresh "Eb" in destruct m eqn:E; cbn in H; try discriminate H
  | H : Ok _ = Ok _ |- _ => injection H as H
  end; subst.

(** ** Shared lemmas *)
Lemma index_with_lookup {A B} (f : A -> B) oob l i :
  index_with f oob l i = match l !! i with Some a => f a | None => oob end.
Proof. revert i; induction l as [|a l IH]; intros [|i]; simpl; auto. Qed.

Lemma alter_with_lookup {A R} (f : A -> A * R) oob l i :
  alter_with f oob l i =
  match l !! i with Some a => (<[i := (f a).1]> l, (f a).2) | None => (l, oob) end.
Proof.
  revert i; induction l as [|a l IH]; intros [|i]; simpl; auto.
  - by destruct (f a).
  - rewrite IH. by destruct (l !! i).
Qed.

Lemma strip_prefix_Some {A} `{EqDecision A} (p l t : list A) :
  strip_prefix p l = Some t <-> l = p ++ t.
Proof.
  revert l; induction p as [|x p IH]; intros [|y l]; simpl; split; intros H;
    repeat case_decide; simplify_eq/=; auto.
  - f_equal. by apply IH.
  - by apply IH.
Qed.

Lemma strip_prefix_app {A} `{EqDecision A} (p t : list A) :
  strip_prefix p (p ++ t) = Some t.
Proof. by apply strip_prefix_Some. Qed.

Lemma strip_prefix_None {A} `{EqDecision A} (p l : list A) :
  strip_prefix p l = None <-> ~ exists t, l = p ++ t.
Proof.
  split.
  - intros H [t ->]. by rewrite strip_prefix_app in H.
  - intros H. destruct (strip_prefix p l) as [t|] eqn:E; auto.
    apply strip_prefix_Some in E. exfalso; eauto.
Qed.

Lemma strip_prefix_assoc {A} `{EqDecision A} (p q l : list A) :
  strip_prefix (p ++ q) l = (strip_prefix p l ≫= strip_prefix q).
Proof.
  revert l; induction p as [|x p IH]; intros l; simpl; auto.
  destruct l as [|y l]; auto. case_decide; auto.
Qed.

Lemma collect_length {E A B} (f : A -> outcome E B) l r :
  collect f l = Ok r -> length r = length l.
Proof.
  revert r; induction l as [|a l IH]; simpl; intros r H; simplify_eq; auto.
  repeat case_match; simplify_eq/=. f_equal; auto.
Qed.

Lemma ensure_Ok {E} b (e : E) u : ensure b e = Ok u -> b = true.
Proof. by destruct b. Qed.

Lemma assert_Ok {E} b u : assert (E := E) b = Ok u -> b = true.
Proof. by destruct b. Qed.

Lemma wrap_small w z : (0 <= z < 2 ^ w)%Z -> wrap w z = z.
Proof. intros; unfold wrap; by rewrite Z.mod_small. Qed.

Lemma wrap_range w z : (0 <= w)%Z -> (0 <= wrap w z < 2 ^ w)%Z.
Proof. intros; unfold wrap; apply Z.mod_pos_bound, Z.pow_pos_nonneg; lia. Qed.

#[export] Hint Resolve wrap_range : raiko.
#[export] Hint Rewrite @index_with_lookup @alter_with_lookup @strip_prefix_app : raiko.
