(* ===== verification/Text.v ===== *)
(** * Text: decimal numbers and separators

    The parts of the standard library's string handling that requests and
    settings go through: [str::parse] of unsigned integers, their [Display], and
    [str::split] at a character. *)
From stdpp Require Import base list list_numbers strings.
From Stdlib Require Import ZArith Lia Ascii.
From S2P Require Import Prelude.
Local Open Scope Z_scope.

(** ** Unsigned integers in decimal *)

(** The digits of a [w]-bit integer after those read into [acc]; any other
    character and a value of more than [w] bits are errors. *)
Fixpoint parse_digits (w acc : Z) (s : string) : option Z :=
  match s with
  | EmptyString => Some acc
  | String c s' =>
      let d := Z.of_nat (nat_of_ascii c) - 48 in
      if (0 <=? d) && (d <=? 9) && (10 * acc + d <? 2 ^ w) then parse_digits w (10 * acc + d) s' else None
  end.

(** [str::parse] for an unsigned type of [w] bits: an optional plus sign and at
    least one digit. *)
Definition parse_uint (w : Z) (s : string) : option Z :=
  match s with
  | EmptyString => None
  | String c s' =>
      if bool_decide (c = "+"%char)
      then match s' with EmptyString => None | _ => parse_digits w 0 s' end
      else parse_digits w 0 s
  end.
Definition parse_u32 : string -> option Z := parse_uint 32.
Definition parse_u64 : string -> option Z := parse_uint 64.

Definition digit (d : Z) : ascii := ascii_of_nat (Z.to_nat (48 + d)).

(** [Display] of an unsigned integer: the digits of [z] in front of [acc]; [fuel]
    bounds their number. *)
Fixpoint print_digits (fuel : nat) (z : Z) (acc : string) : string :=
  match fuel with
  | O => acc
  | S f => let acc' := String (digit (z mod 10)) acc in
           if z / 10 =? 0 then acc' else print_digits f (z / 10) acc'
  end.

(** Twenty digits are enough for 64 bits. *)
Definition print_u64 (z : Z) : string := print_digits 20 z "".

(** [str::split] at a character. *)
Fixpoint split_at (c : ascii) (cur s : string) : list string :=
  match s with
  | EmptyString => [cur]
  | String x s' => if bool_decide (x = c) then cur :: split_at c "" s' else split_at c (cur +:+ String x "") s'
  end.
Definition split (c : ascii) (s : string) : list string := split_at c "" s.

(** ** Round trip *)
Lemma digit_value d : 0 <= d <= 9 -> Z.of_nat (nat_of_ascii (digit d)) - 48 = d.
Proof.
  intros. unfold digit. rewrite nat_ascii_embedding by lia. lia.
Qed.

Lemma digit_not_plus d : 0 <= d <= 9 -> digit d <> "+"%char.
Proof.
  intros Hd E. pose proof (digit_value d Hd) as H. rewrite E in H.
  replace (Z.of_nat (nat_of_ascii "+"%char)) with 43 in H by reflexivity. lia.
Qed.

(** Reading the digits of [z] shifts what was read before by as many places. *)
Lemma parse_print_digits w fuel z acc rest :
  0 <= z < 10 ^ Z.of_nat fuel -> 0 <= acc -> (0 < fuel)%nat ->
  exists k, 0 < k /\ 10 ^ (k - 1) <= Z.max 1 z /\ z < 10 ^ k /\
    (acc * 10 ^ k + z < 2 ^ w -> parse_digits w acc (print_digits fuel z rest) = parse_digits w (acc * 10 ^ k + z) rest).
Proof.
  revert z rest; induction fuel as [|f IH]; intros z rest Hz Ha Hf; [lia|].
  pose proof (Z.div_mod z 10 ltac:(lia)) as Hdm. pose proof (Z.mod_pos_bound z 10 ltac:(lia)) as Hm.
  cbn [print_digits]. destruct (Z.eqb_spec (z / 10) 0) as [E|E].
  - exists 1. split_and!; [lia|cbn; lia|cbn; lia|]. intros Hlt. cbn [parse_digits].
    rewrite digit_value by lia. rewrite Z.pow_1_r in *.
    replace (10 * acc + z mod 10) with (acc * 10 + z) by lia.
    rewrite (proj2 (Z.leb_le _ _)), (proj2 (Z.leb_le _ _)), (proj2 (Z.ltb_lt _ _)) by lia. done.
  - assert (0 <= z / 10) by (apply Z.div_pos; lia).
    destruct f as [|f']; [cbn in Hz; assert (z / 10 = 0) by (apply Z.div_small; lia); lia|].
    destruct (IH (z / 10) (String (digit (z mod 10)) rest)) as (k & Hk & Hlo & Hhi & IH'); [|lia|lia|].
    { split; [lia|]. apply Z.div_lt_upper_bound; [lia|]. rewrite <- Z.pow_succ_r by lia.
      replace (Z.succ (Z.of_nat (S f'))) with (Z.of_nat (S (S f'))) by lia. lia. }
    exists (k + 1). replace (k + 1 - 1) with k by lia. rewrite Z.pow_add_r, Z.pow_1_r by lia.
    assert (0 < 10 ^ k) by (apply Z.pow_pos_nonneg; lia).
    split_and!; [lia| |lia|].
    + replace k with (Z.succ (k - 1)) at 1 by lia. rewrite Z.pow_succ_r by lia. nia.
    + intros Hlt. rewrite IH' by nia. cbn [parse_digits]. rewrite digit_value by lia.
      replace (10 * (acc * 10 ^ k + z / 10) + z mod 10) with (acc * (10 ^ k * 10) + z) by nia.
      rewrite (proj2 (Z.leb_le _ _)), (proj2 (Z.leb_le _ _)), (proj2 (Z.ltb_lt _ _)) by lia. done.
Qed.

Lemma parse_uint_digits w c s : c <> "+"%char -> parse_uint w (String c s) = parse_digits w 0 (String c s).
Proof. intros. unfold parse_uint. by rewrite bool_decide_eq_false_2. Qed.

(** The first character printed is a digit, and so is every other. *)
Definition is_digit (c : ascii) : bool :=
  let d := Z.of_nat (nat_of_ascii c) - 48 in (0 <=? d) && (d <=? 9).

Fixpoint all_digits (s : string) : bool :=
  match s with EmptyString => true | String c s' => is_digit c && all_digits s' end.

Lemma print_digits_all fuel z acc : 0 <= z -> all_digits acc = true -> all_digits (print_digits fuel z acc) = true.
Proof.
  revert z acc; induction fuel as [|f IH]; intros z acc Hz Ha; [done|]. cbn [print_digits].
  assert (all_digits (String (digit (z mod 10)) acc) = true) as Hc.
  { cbn. unfold is_digit. pose proof (Z.mod_pos_bound z 10 ltac:(lia)). rewrite digit_value by lia.
    rewrite (proj2 (Z.leb_le _ _)), (proj2 (Z.leb_le _ _)) by lia. done. }
  case_match; [done|]. apply IH; [apply Z.div_pos; lia|done].
Qed.

Lemma print_digits_cons fuel z acc : exists c s, print_digits (S fuel) z acc = String c s.
Proof.
  revert z acc; induction fuel as [|f IH]; intros z acc; cbn [print_digits]; case_match; eauto.
Qed.

Lemma is_digit_not c d : is_digit c = true -> is_digit d = false -> c <> d.
Proof. congruence. Qed.

(** Twenty digits hold any integer of at most 64 bits. *)
Lemma parse_print_uint w z : 0 <= z < 2 ^ w -> w <= 64 -> parse_uint w (print_u64 z) = Some z.
Proof.
  intros Hz Hw. unfold print_u64.
  pose proof (print_digits_all 20 z "" ltac:(lia) eq_refl) as Hd.
  destruct (print_digits_cons 19 z "") as (c & s & E). rewrite E in Hd. cbn in Hd. breflect.
  rewrite E, parse_uint_digits by (eapply is_digit_not; [done|reflexivity]). rewrite <- E.
  destruct (parse_print_digits w 20 z 0 "") as (k & _ & _ & _ & Hp); [|lia|lia|].
  - split; [lia|]. assert (2 ^ 64 < 10 ^ Z.of_nat 20) by reflexivity.
    assert (2 ^ w <= 2 ^ 64) by (apply Z.pow_le_mono_r; lia). lia.
  - rewrite Hp by lia. done.
Qed.

Lemma parse_print_u64 z : 0 <= z < 2 ^ 64 -> parse_u64 (print_u64 z) = Some z.
Proof. intros. by apply parse_print_uint. Qed.
Lemma parse_print_u32 z : 0 <= z < 2 ^ 32 -> parse_u32 (print_u64 z) = Some z.
Proof. intros. by apply parse_print_uint. Qed.

(** What a narrow type reads a wider one reads too, and it fits the narrow one. *)
Lemma parse_digits_wider w w' acc s v : w <= w' -> acc < 2 ^ w ->
  parse_digits w acc s = Some v -> parse_digits w' acc s = Some v /\ v < 2 ^ w.
Proof.
  intros Hw. assert (2 ^ w <= 2 ^ w') by (apply Z.pow_le_mono_r; lia).
  revert acc; induction s as [|c s IH]; intros acc Ha Hp; cbn [parse_digits] in *; [by simplify_eq|].
  case_match eqn:E; [|done]. breflect.
  rewrite !(proj2 (Z.leb_le _ _)) by lia. rewrite (proj2 (Z.ltb_lt _ _)) by lia. cbn. by apply IH.
Qed.

Lemma parse_u32_wide z : 2 ^ 32 <= z < 2 ^ 64 -> parse_u32 (print_u64 z) = None.
Proof.
  intros Hz. pose proof (parse_print_u64 z ltac:(lia)) as Hp. unfold parse_u32, parse_u64, print_u64 in *.
  pose proof (print_digits_all 20 z "" ltac:(lia) eq_refl) as Hd.
  destruct (print_digits_cons 19 z "") as (c & s & E). rewrite E in Hd, Hp |- *. cbn in Hd. breflect.
  rewrite parse_uint_digits in Hp |- * by (eapply is_digit_not; [done|reflexivity]).
  destruct (parse_digits 32 0 (String c s)) as [v|] eqn:Ev; [|done].
  apply (parse_digits_wider 32 64) in Ev as [Ev ?]; [|lia|lia]. simplify_eq. lia.
Qed.

Lemma append_nil_r s : s +:+ "" = s.
Proof. induction s as [|c s IH]; [done|]. change (String c (s +:+ "") = String c s). by rewrite IH. Qed.

Lemma append_cons c s t : String c s +:+ t = String c (s +:+ t).
Proof. done. Qed.

Lemma append_assoc s t u : (s +:+ t) +:+ u = s +:+ (t +:+ u).
Proof. induction s as [|c s IH]; [done|]. by rewrite !append_cons, IH. Qed.

Lemma split_at_nosep c cur s : all_digits s = true -> is_digit c = false -> split_at c cur s = [cur +:+ s].
Proof.
  revert cur; induction s as [|x s IH]; intros cur Hs Hc; cbn in *; [by rewrite append_nil_r|].
  breflect. rewrite bool_decide_eq_false_2 by (by eapply is_digit_not).
  rewrite IH by done. by rewrite append_assoc.
Qed.

Lemma split_at_sep c cur s t : all_digits s = true -> is_digit c = false ->
  split_at c cur (s +:+ String c t) = (cur +:+ s) :: split_at c "" t.
Proof.
  revert cur; induction s as [|x s IH]; intros cur Hs Hc.
  - change ("" +:+ String c t) with (String c t). cbn. rewrite bool_decide_eq_true_2 by done. by rewrite append_nil_r.
  - rewrite append_cons. cbn in *. breflect. rewrite bool_decide_eq_false_2 by (by eapply is_digit_not).
    rewrite IH by done. by rewrite append_assoc.
Qed.

(** Two numbers printed with a separator that is not a digit split back. *)
Lemma split_two c x y : 0 <= x -> 0 <= y -> is_digit c = false ->
  split c (print_u64 x +:+ String c (print_u64 y)) = [print_u64 x; print_u64 y].
Proof.
  intros. unfold split, print_u64.
  rewrite split_at_sep, split_at_nosep by (done || by apply print_digits_all). done.
Qed.
