(* ===== verification/Effect.v ===== *)
(** * Effect: functions with a state that may fail

    A method that mutates its receiver and returns a [Result] is a function of
    the state: it returns the state after the call with the outcome, so an error
    or a panic leaves a visible state. *)
From stdpp Require Import base list.
From S2P Require Import Prelude.

Definition St (S E A : Type) : Type := S -> S * outcome E A.

#[global] Instance st_ret {S E} : MRet (St S E) := fun A a s => (s, Ok a).
#[global] Instance st_bind {S E} : MBind (St S E) := fun A B f m s =>
  match m s with
  | (s', Ok a) => f a s'
  | (s', Err x) => (s', Err x)
  | (s', Panic) => (s', Panic)
  end.

(** A computation that does not touch the state, or only reads it. *)
Definition lift {S E A} (m : outcome E A) : St S E A := fun s => (s, m).
Definition reads {S E A} (f : S -> outcome E A) : St S E A := fun s => (s, f s).
Definition gets {S E A} (f : S -> A) : St S E A := fun s => (s, Ok (f s)).
Definition modify {S E} (f : S -> S) : St S E () := fun s => (f s, Ok ()).

(** A computation on a part of the state that may fail; the part is written back
    only when it succeeds. *)
Definition updates {S E} (f : S -> outcome E S) : St S E () := fun s =>
  match f s with Ok s' => (s', Ok ()) | Err x => (s, Err x) | Panic => (s, Panic) end.

(** [let _ = f()]: an error is dropped, a panic is not. *)
Definition ignore {E A} (m : outcome E A) : outcome E () :=
  match m with Panic => Panic | _ => Ok () end.

(** Map the error, as [?] does with [From]. *)
Definition map_st_err {S E F A} (f : E -> F) (m : St S E A) : St S F A := fun s =>
  let '(s', r) := m s in (s', map_err f r).

Lemma st_bind_Ok {S E A B} (f : A -> St S E B) (m : St S E A) s s' b :
  mbind f m s = (s', Ok b) -> exists s1 a, m s = (s1, Ok a) /\ f a s1 = (s', Ok b).
Proof. unfold mbind, st_bind. destruct (m s) as [s1 [a|x|]]; intros; simplify_eq; eauto. Qed.

(** Invert an operation that succeeded, step by step. *)
Ltac op_inv :=
  repeat match goal with
  | H : mbind _ _ _ = (_, Ok _) |- _ => apply st_bind_Ok in H as (? & ? & ? & H); cbn beta iota in H
  | H : lift _ _ = _ |- _ => unfold lift in H
  | H : reads _ _ = _ |- _ => unfold reads in H
  | H : gets _ _ = _ |- _ => unfold gets in H
  | H : modify _ _ = _ |- _ => unfold modify in H
  | H : (_, _) = (_, _) |- _ => injection H as ? ?; subst
  | H : mret _ _ = (_, _) |- _ => unfold mret, st_ret in H
  end.
