(* ===== verification/Nibbles.v ===== *)
(** Nibble paths of the Merkle Patricia trie: the conversions between keys,
    nibble lists and hex-prefix encoded paths of [lib/src/primitives/mpt.rs]
    ([to_nibs], [to_encoded_path], [prefix_nibs], [lcp]), with the round trip
    of the path encoding and the specification of the common prefix. *)

From stdpp Require Import base list list_numbers.
From Stdlib Require Import ZArith Lia.
From S2P Require Import Prelude.
Open Scope Z_scope.

(** The loop of [to_nibs] and of the tail of [prefix_nibs]: two pushes per byte. *)
Fixpoint to_nibs (slice : bytes) : list Z :=
  match slice with
  | [] => []
  | byte :: rest => Z.shiftr byte 4 :: Z.land byte 0xf :: to_nibs rest
  end.

(** [nibs.chunks_exact(2).map(|byte| (byte[0] << 4) + byte[1])] on [u8]. *)
Fixpoint pack_nibs (nibs : list Z) : bytes :=
  match nibs with
  | a :: b :: rest => wrap8 (wrap8 (Z.shiftl a 4) + b) :: pack_nibs rest
  | _ => []
  end.

Definition to_encoded_path (nibs : list Z) (is_leaf : bool) : bytes :=
  let prefix := (if is_leaf then 1 else 0) * 0x20 in
  match nibs with
  | n0 :: rest =>
      if negb (Nat.even (length nibs))
      then wrap8 (prefix + wrap8 (0x10 + n0)) :: pack_nibs rest
      else prefix :: pack_nibs nibs
  | [] => prefix :: pack_nibs nibs
  end.

(** [lcp]: the first index at which the zipped slices differ. *)
Fixpoint lcp_from (i : nat) (a b : list Z) : option nat :=
  match a, b with
  | x :: a', y :: b' => if negb (x =? y) then Some i else lcp_from (S i) a' b'
  | _, _ => None
  end.

Definition lcp (a b : list Z) : nat :=
  match lcp_from 0 a b with
  | Some i => i
  | None => Nat.min (length a) (length b)
  end.

(** [prefix_nibs]: [split_first().unwrap()] panics on the empty path. *)
Definition prefix_nibs {E} (prefix : bytes) : outcome E (list Z) :=
  match prefix with
  | [] => Panic
  | extension :: tail =>
      let is_odd := negb (Z.land extension (Z.shiftl 1 4) =? 0) in
      Ok ((if is_odd then [Z.land extension 0xf] else []) ++ to_nibs tail)
  end.

Abbreviation nibbles l := (Forall (fun n : Z => 0 <= n < 16) l) (only parsing).
Abbreviation bytes_ok l := (Forall (fun n : Z => 0 <= n < 256) l) (only parsing).

(** ** Facts about bits of bytes *)
Lemma land_15_mod b : Z.land b 0xf = b mod 16.
Proof. change 0xf with (Z.ones 4). by rewrite Z.land_ones by lia. Qed.

Lemma shiftr_4_div b : Z.shiftr b 4 = b / 16.
Proof. by rewrite Z.shiftr_div_pow2 by lia. Qed.

Lemma nibs_of_packed a b :
  0 <= a < 16 -> 0 <= b < 16 ->
  wrap8 (wrap8 (Z.shiftl a 4) + b) = 16 * a + b.
Proof.
  intros. rewrite Z.shiftl_mul_pow2 by lia. unfold wrap8, wrap.
  rewrite (Z.mod_small (a * 2 ^ 4)) by lia. rewrite Z.mod_small; lia.
Qed.

Lemma to_nibs_nibbles slice : bytes_ok slice -> nibbles (to_nibs slice).
Proof.
  induction 1 as [|b l Hb _ IH]; simpl; auto.
  rewrite land_15_mod, shiftr_4_div. repeat constructor; auto; try lia.
  all: try (apply Z.mod_pos_bound; lia).
  - apply Z.div_pos; lia.
  - apply Z.div_lt_upper_bound; lia.
Qed.

Lemma to_nibs_length slice : length (to_nibs slice) = (2 * length slice)%nat.
Proof. induction slice; simpl; lia. Qed.

Lemma to_nibs_inj s t : bytes_ok s -> bytes_ok t -> to_nibs s = to_nibs t -> s = t.
Proof.
  intros Hs; revert t; induction Hs as [|b s Hb Hs IH]; intros [|c t] Ht Heq;
    simpl in *; simplify_eq; auto.
  inversion Ht; subst. f_equal; auto.
  rewrite !land_15_mod, !shiftr_4_div in *.
  rewrite (Z.div_mod b 16), (Z.div_mod c 16) by lia. lia.
Qed.

Lemma to_nibs_pack nibs :
  nibbles nibs -> Nat.even (length nibs) = true -> to_nibs (pack_nibs nibs) = nibs.
Proof.
  revert nibs. fix IH 1. intros [|a [|b rest]] Hn He; simpl in *; auto; try done.
  inversion Hn as [|? ? Ha Hn']; inversion Hn' as [|? ? Hb Hr]; subst.
  rewrite nibs_of_packed, IH, land_15_mod, shiftr_4_div by auto.
  rewrite <- (Z.div_unique (16 * a + b) 16 a b), <- (Z.mod_unique (16 * a + b) 16 a b); auto; lia.
Qed.

Lemma pack_nibs_bytes nibs : nibbles nibs -> bytes_ok (pack_nibs nibs).
Proof.
  revert nibs. fix IH 1. intros [|a [|b rest]] Hn; simpl; auto.
  inversion Hn as [|? ? Ha Hn']; inversion Hn' as [|? ? Hb Hr]; subst.
  constructor; auto. rewrite nibs_of_packed; lia.
Qed.

(** The bits of the flag byte: bit 4 is the parity, bit 5 the leaf flag. *)
Lemma flag_byte n (odd leaf : bool) :
  0 <= n < 16 ->
  let b := (if leaf then 1 else 0) * 0x20 + ((if odd then 0x10 else 0) + n) in
  negb (Z.land b (Z.shiftl 1 4) =? 0) = odd /\ Z.land b 0xf = n /\
  negb (Z.land b (Z.shiftl 2 4) =? 0) = leaf /\ 0 <= b < 64.
Proof.
  intros Hn. destruct n as [|p|p]; [|do 4 try destruct p as [p|p|]|]; try lia;
    destruct odd, leaf; vm_compute; repeat split; congruence.
Qed.

(** The path encoding as one flag byte followed by packed nibbles. *)
Lemma to_encoded_path_shape nibs leaf :
  nibbles nibs ->
  exists n (odd : bool) rest,
    0 <= n < 16 /\ nibbles rest /\ Nat.even (length rest) = true /\
    nibs = (if odd then [n] else []) ++ rest /\ (odd = false -> n = 0) /\
    to_encoded_path nibs leaf =
      ((if leaf then 1 else 0) * 0x20 + ((if odd then 0x10 else 0) + n)) :: pack_nibs rest.
Proof.
  intros Hn. destruct nibs as [|n0 rest].
  - exists 0, false, []. repeat split; auto; try lia.
    unfold to_encoded_path. simpl. f_equal. destruct leaf; reflexivity.
  - unfold to_encoded_path. inversion Hn as [|? ? H0 Hr]; subst.
    destruct (Nat.even (length (n0 :: rest))) eqn:He; cbn [negb].
    + exists 0, false, (n0 :: rest). repeat split; auto; try lia.
      f_equal. destruct leaf; reflexivity.
    + exists n0, true, rest. split_and!; auto; try lia; try done.
      * change (length (n0 :: rest)) with (S (length rest)) in He.
        rewrite Nat.even_succ, <- Nat.negb_even in He. by apply negb_false_iff in He.
      * f_equal. unfold wrap8. rewrite !wrap_small; destruct leaf; try lia;
          rewrite !wrap_small; lia.
Qed.

(** Decoding an encoded path gives the nibbles back. *)
Lemma prefix_nibs_encoded {E} nibs leaf :
  nibbles nibs -> @prefix_nibs E (to_encoded_path nibs leaf) = Ok nibs.
Proof.
  intros Hn. destruct (to_encoded_path_shape nibs leaf Hn)
    as (n & odd & rest & Hr & Hrest & He & -> & Hz & ->).
  destruct (flag_byte n odd leaf Hr) as (Hodd & Hlow & _ & _).
  unfold prefix_nibs. cbv zeta. rewrite Hodd, Hlow, to_nibs_pack by auto. reflexivity.
Qed.

(** The flag bit tested by the decoder tells leaves from extensions. *)
Lemma to_encoded_path_flag nibs leaf :
  nibbles nibs ->
  exists b rest, to_encoded_path nibs leaf = b :: rest /\
    negb (Z.land b (Z.shiftl 2 4) =? 0) = leaf.
Proof.
  intros Hn. destruct (to_encoded_path_shape nibs leaf Hn)
    as (n & odd & rest & Hr & _ & _ & -> & _ & ->).
  eexists _, _. split; [reflexivity|]. by destruct (flag_byte n odd leaf Hr) as (_ & _ & ? & _).
Qed.

Lemma to_encoded_path_bytes nibs leaf : nibbles nibs -> bytes_ok (to_encoded_path nibs leaf).
Proof.
  intros Hn. destruct (to_encoded_path_shape nibs leaf Hn)
    as (n & odd & rest & Hr & Hrest & _ & -> & _ & ->).
  destruct (flag_byte n odd leaf Hr) as (_ & _ & _ & ?).
  constructor; [lia | by apply pack_nibs_bytes].
Qed.

(** ** The longest common prefix *)
Lemma lcp_from_shift i a b :
  lcp_from i a b = match lcp_from 0 a b with Some k => Some (i + k)%nat | None => None end.
Proof.
  revert i b; induction a as [|x a IH]; intros i [|y b]; simpl; auto.
  destruct (negb (x =? y)); [by rewrite Nat.add_0_r|].
  rewrite (IH (S i)), (IH 1%nat). destruct (lcp_from 0 a b); simpl; auto.
Qed.

Lemma lcp_cons x y a b : lcp (x :: a) (y :: b) = if x =? y then S (lcp a b) else 0%nat.
Proof.
  unfold lcp; simpl. destruct (x =? y); simpl; auto.
  rewrite lcp_from_shift. by destruct (lcp_from 0 a b).
Qed.

(** [lcp] splits both lists after a shared prefix; the remainders, when both
    are non-empty, start with different elements. *)
Lemma lcp_split a b :
  exists p a' b', a = p ++ a' /\ b = p ++ b' /\ length p = lcp a b /\
    match a', b' with x :: _, y :: _ => x <> y | _, _ => True end.
Proof.
  revert b; induction a as [|x a IH]; intros b.
  - by exists [], [], b.
  - destruct b as [|y b]; [by exists [], (x :: a), []|].
    rewrite lcp_cons. destruct (x =? y) eqn:E; breflect; subst.
    + destruct (IH b) as (p & a' & b' & -> & -> & Hl & Hd).
      exists (y :: p), a', b'. repeat split; auto. simpl; congruence.
    + by exists [], (x :: a), (y :: b).
Qed.
