(* ===== verification/Mpt.v ===== *)
(** The sparse Merkle Patricia trie of [lib/src/primitives/mpt.rs]: node data,
    lookup, insertion and deletion as the code writes them, the well-formedness
    invariant of the trie, and the lemmas that relate each operation to lookup.
    Encoding, references and hashes are in [MptHash]. *)

From stdpp Require Import base list list_numbers strings.
From Stdlib Require Import ZArith Lia.
From S2P Require Import Prelude Nibbles.
Open Scope Z_scope.

(** ** Data *)
Inductive DecoderError : Type :=
| Custom (msg : string)
| RlpIncorrectListLen
| OtherDecoderError (code : Z).

Inductive Error : Type :=
| NodeNotResolved (digest : bytes)
| ValueInBranch
| Rlp (code : Z)
| LegacyRlp (e : DecoderError).

Inductive MptNodeReference : Type :=
| Bytes (b : bytes)
| RefDigest (digest : bytes).

Inductive MptNode : Type :=
| mkMptNode (data : MptNodeData) (cached_reference : option MptNodeReference)
with MptNodeData : Type :=
| Null
| Branch (children : list (option MptNode))
| Leaf (prefix value : bytes)
| Extension (prefix : bytes) (child : MptNode)
| Digest (digest : bytes).

Definition data (n : MptNode) : MptNodeData := let '(mkMptNode d _) := n in d.
Definition cached_reference (n : MptNode) : option MptNodeReference :=
  let '(mkMptNode _ c) := n in c.

(** [impl From<MptNodeData> for MptNode] and the derived [Default]. *)
Definition from (value : MptNodeData) : MptNode := mkMptNode value None.
Definition default : MptNode := from Null.

#[global] Instance MptNodeReference_eq_dec : EqDecision MptNodeReference.
Proof. solve_decision. Defined.
#[global] Instance DecoderError_eq_dec : EqDecision DecoderError.
Proof. solve_decision. Defined.
#[global] Instance Error_eq_dec : EqDecision Error.
Proof. solve_decision. Defined.

(** ** Operations *)
Definition invalidate_ref_cache (n : MptNode) : MptNode := mkMptNode (data n) None.
Definition clear (n : MptNode) : MptNode :=
  invalidate_ref_cache (mkMptNode Null (cached_reference n)).

Definition is_empty (n : MptNode) : bool :=
  match data n with Null => true | _ => false end.
Definition is_digest (n : MptNode) : bool :=
  match data n with Digest _ => true | _ => false end.

Definition nibs (n : MptNode) : outcome Error (list Z) :=
  match data n with
  | Null | Branch _ | Digest _ => Ok []
  | Leaf prefix _ | Extension prefix _ => prefix_nibs prefix
  end.

Fixpoint get_internal (n : MptNode) (key_nibs : list Z) {struct n} :
    outcome Error (option bytes) :=
  let '(mkMptNode data _) := n in
  match data with
  | Null => Ok None
  | Branch nodes =>
      match key_nibs with
      | i :: tail =>
          index_with (fun child => match child with
                                   | Some node => get_internal node tail
                                   | None => Ok None
                                   end) Panic nodes (Z.to_nat i)
      | [] => Ok None
      end
  | Leaf prefix value =>
      self_nibs ← prefix_nibs prefix;
      Ok (if decide (self_nibs = key_nibs) then Some value else None)
  | Extension prefix node =>
      self_nibs ← prefix_nibs prefix;
      match strip_prefix self_nibs key_nibs with
      | Some tail => get_internal node tail
      | None => Ok None
      end
  | Digest digest => Err (NodeNotResolved digest)
  end.

Definition get (n : MptNode) (key : bytes) : outcome Error (option bytes) :=
  get_internal n (to_nibs key).

(** [children.iter_mut().enumerate().filter(|(_, n)| n.is_some())]. *)
Fixpoint remaining (index : nat) (children : list (option MptNode)) : list (nat * MptNode) :=
  match children with
  | [] => []
  | Some node :: rest => (index, node) :: remaining (S index) rest
  | None :: rest => remaining (S index) rest
  end.

(** The end of the branch case of [delete_internal]: a branch with one child
    left becomes a leaf or an extension. *)
Definition collapse (children : list (option MptNode)) : outcome Error MptNodeData :=
  match remaining 0 children with
  | [] => Panic
  | [(index, orphan)] =>
      match data orphan with
      | Leaf prefix orphan_value =>
          tail ← prefix_nibs prefix;
          Ok (Leaf (to_encoded_path (Z.of_nat index :: tail) true) orphan_value)
      | Extension prefix orphan_child =>
          tail ← prefix_nibs prefix;
          Ok (Extension (to_encoded_path (Z.of_nat index :: tail) false) orphan_child)
      | Branch _ | Digest _ =>
          Ok (Extension (to_encoded_path [Z.of_nat index] false) orphan)
      | Null => Panic
      end
  | _ => Ok (Branch children)
  end.

(** The end of the extension case of [delete_internal]: an extension keeps
    pointing to a branch or a digest. *)
Definition merge_extension (prefix : bytes) (self_nibs : list Z) (child : MptNode) :
    outcome Error MptNodeData :=
  match data child with
  | Null => Ok Null
  | Leaf child_prefix value =>
      tail ← prefix_nibs child_prefix;
      Ok (Leaf (to_encoded_path (self_nibs ++ tail) true) value)
  | Extension child_prefix node =>
      tail ← prefix_nibs child_prefix;
      Ok (Extension (to_encoded_path (self_nibs ++ tail) false) node)
  | Branch _ | Digest _ => Ok (Extension prefix child)
  end.

(** The last two statements of the mutators: store the new data, drop the
    cached reference and return [Ok(true)]. *)
Definition updated (n : MptNode) (d : outcome Error MptNodeData) :
    MptNode * outcome Error bool :=
  match d with
  | Ok d => (invalidate_ref_cache (mkMptNode d (cached_reference n)), Ok true)
  | Err e => (n, Err e)
  | Panic => (n, Panic)
  end.

(** [&mut self] is state passing: the node after the call and the result. *)
Fixpoint delete_internal (n : MptNode) (key_nibs : list Z) {struct n} :
    MptNode * outcome Error bool :=
  let '(mkMptNode data cache) := n in
  match data with
  | Null => (n, Ok false)
  | Branch children =>
      match key_nibs with
      | i :: tail =>
          let '(children', r) :=
            alter_with
              (fun child =>
                 match child with
                 | Some node =>
                     let '(node', r) := delete_internal node tail in
                     match r with
                     | Ok true => (if is_empty node' then None else Some node', Ok true)
                     | _ => (Some node', r)
                     end
                 | None => (None, Ok false)
                 end) Panic children (Z.to_nat i) in
          match r with
          | Ok true => updated (mkMptNode (Branch children') cache) (collapse children')
          | _ => (mkMptNode (Branch children') cache, r)
          end
      | [] => (n, Err ValueInBranch)
      end
  | Leaf prefix _ =>
      match prefix_nibs prefix with
      | Ok self_nibs =>
          if decide (self_nibs = key_nibs) then updated n (Ok Null) else (n, Ok false)
      | Err e => (n, Err e)
      | Panic => (n, Panic)
      end
  | Extension prefix child =>
      match prefix_nibs prefix with
      | Ok self_nibs =>
          match strip_prefix self_nibs key_nibs with
          | Some tail =>
              let '(child', r) := delete_internal child tail in
              match r with
              | Ok true =>
                  updated (mkMptNode (Extension prefix child') cache)
                          (merge_extension prefix self_nibs child')
              | _ => (mkMptNode (Extension prefix child') cache, r)
              end
          | None => (n, Ok false)
          end
      | Err e => (n, Err e)
      | Panic => (n, Panic)
      end
  | Digest digest => (n, Err (NodeNotResolved digest))
  end.

Definition delete (n : MptNode) (key : bytes) : MptNode * outcome Error bool :=
  delete_internal n (to_nibs key).

(** [children[i as usize] = child]: an index out of range panics. *)
Definition set_child (children : list (option MptNode)) (i : Z) (child : MptNode) :
    outcome Error (list (option MptNode)) :=
  if (Z.to_nat i <? length children)%nat
  then Ok (<[Z.to_nat i := Some child]> children) else Panic.

(** The code both split cases of [insert_internal] share: a fresh branch with
    the existing node and the new leaf, below an extension for the common part. *)
Definition fork (self_nibs key_nibs : list Z) (common_len : nat) (existing : MptNode)
    (value : bytes) : outcome Error MptNodeData :=
  s ← unwrap (self_nibs !! common_len);
  children ← set_child (replicate 16 None) s existing;
  k ← unwrap (key_nibs !! common_len);
  children ← set_child children k
    (from (Leaf (to_encoded_path (drop (S common_len) key_nibs) true) value));
  let branch := Branch children in
  Ok (if (0 <? common_len)%nat
      then Extension (to_encoded_path (take common_len self_nibs) false) (from branch)
      else branch).

Fixpoint insert_internal (n : MptNode) (key_nibs : list Z) (value : bytes) {struct n} :
    MptNode * outcome Error bool :=
  let '(mkMptNode data cache) := n in
  match data with
  | Null => updated n (Ok (Leaf (to_encoded_path key_nibs true) value))
  | Branch children =>
      match key_nibs with
      | i :: tail =>
          let '(children', r) :=
            alter_with
              (fun child =>
                 match child with
                 | Some node =>
                     let '(node', r) := insert_internal node tail value in (Some node', r)
                 | None => (Some (from (Leaf (to_encoded_path tail true) value)), Ok true)
                 end) Panic children (Z.to_nat i) in
          match r with
          | Ok true => updated (mkMptNode (Branch children') cache) (Ok (Branch children'))
          | _ => (mkMptNode (Branch children') cache, r)
          end
      | [] => (n, Err ValueInBranch)
      end
  | Leaf prefix old_value =>
      match prefix_nibs prefix with
      | Ok self_nibs =>
          let common_len := lcp self_nibs key_nibs in
          if ((common_len =? length self_nibs) && (common_len =? length key_nibs))%nat then
            if decide (old_value = value) then (n, Ok false)
            else updated n (Ok (Leaf prefix value))
          else if ((common_len =? length self_nibs) || (common_len =? length key_nibs))%nat then
            (n, Err ValueInBranch)
          else
            updated n (fork self_nibs key_nibs common_len
              (from (Leaf (to_encoded_path (drop (S common_len) self_nibs) true) old_value)) value)
      | Err e => (n, Err e)
      | Panic => (n, Panic)
      end
  | Extension prefix existing_child =>
      match prefix_nibs prefix with
      | Ok self_nibs =>
          let common_len := lcp self_nibs key_nibs in
          if (common_len =? length self_nibs)%nat then
            let '(child', r) := insert_internal existing_child (drop common_len key_nibs) value in
            match r with
            | Ok true =>
                updated (mkMptNode (Extension prefix child') cache) (Ok (Extension prefix child'))
            | _ => (mkMptNode (Extension prefix child') cache, r)
            end
          else if (common_len =? length key_nibs)%nat then (n, Err ValueInBranch)
          else
            let split_point := S common_len in
            updated n (fork self_nibs key_nibs common_len
              (if (split_point <? length self_nibs)%nat
               then from (Extension (to_encoded_path (drop split_point self_nibs) false) existing_child)
               else existing_child) value)
      | Err e => (n, Err e)
      | Panic => (n, Panic)
      end
  | Digest digest => (n, Err (NodeNotResolved digest))
  end.

(** [insert] asserts that the value is not empty; [insert_rlp_encoded] does not. *)
Definition insert (n : MptNode) (key value : bytes) : MptNode * outcome Error bool :=
  match value with
  | [] => (n, Panic)
  | _ => insert_internal n (to_nibs key) value
  end.

Definition insert_rlp_encoded (n : MptNode) (key value : bytes) : MptNode * outcome Error bool :=
  insert_internal n (to_nibs key) value.

(** [size]: the number of traversable nodes. *)
Fixpoint size (n : MptNode) : nat :=
  let '(mkMptNode data _) := n in
  match data with
  | Null | Digest _ => 0
  | Branch children =>
      foldr Nat.add 0 (map (fun c => match c with Some m => size m | None => 0 end) children) + 1
  | Leaf _ _ => 1
  | Extension _ child => size child + 1
  end%nat.
