(* ===== verification/MptWf.v ===== *)
(** The invariant of the trie of [Mpt] and what the operations do to it: an
    induction principle over nodes, the canonical-form predicate [wf], lookup on
    each node shape, and the behaviour of [fork], [collapse], [merge_extension],
    [insert_internal] and [delete_internal] on well-formed nodes. *)

From stdpp Require Import base list list_numbers strings.
From Stdlib Require Import ZArith Lia.
From S2P Require Import Prelude Nibbles Mpt.
Open Scope Z_scope.

(** ** Invariant *)

(** A stored path is the encoding of some nibbles with the flag of its node kind. *)
Definition path_ok (leaf : bool) (p : bytes) : bool :=
  match prefix_nibs (E := Error) p with
  | Ok ns => forallb is_nibble ns && bool_decide (p = to_encoded_path ns leaf)
  | _ => false
  end.

Definition is_branch (n : MptNode) : bool :=
  match data n with Branch _ => true | _ => false end.

(** Canonical form: sixteen children of which at least two are present and
    none is empty; an extension has a non-empty path and points to a branch or
    a digest. *)
Fixpoint wf (n : MptNode) : bool :=
  let '(mkMptNode data _) := n in
  match data with
  | Null | Digest _ => true
  | Leaf prefix _ => path_ok true prefix
  | Extension prefix child =>
      path_ok false prefix && bool_decide (prefix_nibs (E := Error) prefix <> Ok [])
      && (is_branch child || is_digest child) && wf child
  | Branch children =>
      (length children =? 16)%nat && (2 <=? length (remaining 0 children))%nat
      && forallb (fun c => match c with Some m => wf m && negb (is_empty m) | None => true end)
           children
  end.

(** No part of the trie is truncated to its digest. *)
Fixpoint resolved (n : MptNode) : bool :=
  let '(mkMptNode data _) := n in
  match data with
  | Digest _ => false
  | Null | Leaf _ _ => true
  | Extension _ child => resolved child
  | Branch children => forallb (fun c => match c with Some m => resolved m | None => true end) children
  end.

(** Every key below the node has the same number [l] of nibbles. *)
Fixpoint uniform (l : nat) (n : MptNode) {struct n} : bool :=
  let '(mkMptNode data _) := n in
  match data with
  | Null | Digest _ => true
  | Leaf prefix _ =>
      match prefix_nibs (E := Error) prefix with Ok ns => (length ns =? l)%nat | _ => false end
  | Extension prefix child =>
      match prefix_nibs (E := Error) prefix with
      | Ok ns => (length ns <? l)%nat && uniform (l - length ns) child
      | _ => false
      end
  | Branch children =>
      match l with
      | O => false
      | S l' => forallb (fun c => match c with Some m => uniform l' m | None => true end) children
      end
  end.

(** ** Induction over nodes *)
Section node_ind.
Variable P : MptNode -> Prop.
Hypothesis HNull : forall c, P (mkMptNode Null c).
Hypothesis HBranch : forall cs c,
  (forall i m, cs !! i = Some (Some m) -> P m) -> P (mkMptNode (Branch cs) c).
Hypothesis HLeaf : forall p v c, P (mkMptNode (Leaf p v) c).
Hypothesis HExt : forall p m c, P m -> P (mkMptNode (Extension p m) c).
Hypothesis HDigest : forall d c, P (mkMptNode (Digest d) c).

Fixpoint node_ind' (n : MptNode) : P n.
Proof using All.
  destruct n as [[| cs | p v | p m | d] c]; [apply HNull | | apply HLeaf | apply HExt, node_ind' | apply HDigest].
  apply HBranch. induction cs as [|o cs IH]; [intros [|i] m Hi; discriminate Hi|].
  intros [|i] m Hi; simpl in Hi.
  - destruct o as [o|]; [|discriminate Hi]. injection Hi as <-. apply node_ind'.
  - apply (IH i m Hi).
Defined.
End node_ind.

(** Close a goal that follows from the shape of a node. *)
Ltac by_shape m :=
  destruct m as [[] ?]; unfold is_branch, is_digest, is_empty in *; cbn in *; congruence.

(** ** Paths *)
Lemma forallb_nibbles l : forallb is_nibble l = true <-> nibbles l.
Proof.
  rewrite forallb_forall, Forall_forall. unfold is_nibble.
  setoid_rewrite list_elem_of_In. setoid_rewrite andb_true_iff.
  setoid_rewrite Z.leb_le. setoid_rewrite Z.ltb_lt. done.
Qed.

Lemma path_ok_iff leaf p :
  path_ok leaf p = true <-> exists ns, nibbles ns /\ p = to_encoded_path ns leaf.
Proof.
  unfold path_ok. split.
  - destruct (prefix_nibs p) as [ns| |] eqn:E; try done. intros H; breflect.
    exists ns. by rewrite <- forallb_nibbles.
  - intros (ns & Hn & ->). rewrite prefix_nibs_encoded by done.
    rewrite bool_decide_true by done. by rewrite (proj2 (forallb_nibbles _)).
Qed.

Lemma path_ok_encoded leaf ns : nibbles ns -> path_ok leaf (to_encoded_path ns leaf) = true.
Proof. intros; apply path_ok_iff; eauto. Qed.

(** ** Shapes *)
Lemma remaining_lookup cs j i m :
  (i, m) ∈ remaining j cs <-> exists k, cs !! k = Some (Some m) /\ i = (j + k)%nat.
Proof.
  revert j; induction cs as [|[o|] cs IH]; intros j; simpl.
  - rewrite elem_of_nil. split; [done|]. intros (k & Hk & _). by destruct k.
  - rewrite elem_of_cons, IH. split.
    + intros [Heq|(k & Hk & ->)].
      * exists 0%nat. simplify_eq. split; [done|lia].
      * exists (S k). split; [done|lia].
    + intros ([|k] & Hk & ->); simplify_eq/=.
      * left. f_equal. lia.
      * right. exists k. split; [done|lia].
  - rewrite IH. split.
    + intros (k & Hk & ->). exists (S k). split; [done|lia].
    + intros ([|k] & Hk & ->); simplify_eq/=. exists k. split; [done|lia].
Qed.

Lemma remaining_NoDup cs j : NoDup (remaining j cs).*1.
Proof.
  revert j; induction cs as [|[o|] cs IH]; intros j; simpl; [constructor| |auto].
  constructor; auto. intros ([i m] & Heq & Hin)%list_elem_of_fmap. simpl in Heq; subst i.
  apply remaining_lookup in Hin as (k & _ & Hk). lia.
Qed.

Lemma wf_branch cs c :
  wf (mkMptNode (Branch cs) c) = true <->
  length cs = 16%nat /\ (2 <= length (remaining 0 cs))%nat /\
  (forall i m, cs !! i = Some (Some m) -> wf m = true /\ is_empty m = false).
Proof.
  cbn [wf]. rewrite !andb_true_iff, Nat.eqb_eq, Nat.leb_le, forallb_forall. split.
  - intros [[Hl Hr] H]. split_and!; auto. intros i m Hi.
    assert (wf m && negb (is_empty m) = true) as Hm.
    { apply (H (Some m)), list_elem_of_In. by eapply list_elem_of_lookup_2. }
    breflect. done.
  - intros (Hl & Hr & H). split_and!; auto. intros [m|]; [|done]. rewrite <- list_elem_of_In.
    intros [i Hi]%list_elem_of_lookup. destruct (H i m Hi) as [-> ->]. done.
Qed.

Lemma wf_leaf p v c :
  wf (mkMptNode (Leaf p v) c) = true <-> exists ns, nibbles ns /\ p = to_encoded_path ns true.
Proof. apply path_ok_iff. Qed.

Lemma wf_ext p m c :
  wf (mkMptNode (Extension p m) c) = true <->
  (exists ns, nibbles ns /\ ns <> [] /\ p = to_encoded_path ns false) /\
  (is_branch m || is_digest m) = true /\ wf m = true.
Proof.
  cbn [wf]. rewrite !andb_true_iff, path_ok_iff, bool_decide_eq_true. split.
  - intros [[[(ns & Hn & ->) Hne] Hk] Hm]. split_and!; auto.
    exists ns. split_and!; auto. intros ->. by rewrite prefix_nibs_encoded in Hne.
  - intros [(ns & Hn & Hne & ->) [Hk Hm]]. split_and!; auto.
    + by exists ns.
    + rewrite prefix_nibs_encoded by done. congruence.
Qed.

Lemma wf_cache d c c' : wf (mkMptNode d c) = wf (mkMptNode d c').
Proof. reflexivity. Qed.

(** ** Lookup on each shape *)
Definition get_child (o : option MptNode) (k : list Z) : outcome Error (option bytes) :=
  match o with Some m => get_internal m k | None => Ok None end.

Lemma get_cache d c k : get_internal (mkMptNode d c) k = get_internal (from d) k.
Proof. reflexivity. Qed.

Lemma get_leaf ns v c k :
  nibbles ns ->
  get_internal (mkMptNode (Leaf (to_encoded_path ns true) v) c) k =
  Ok (if decide (ns = k) then Some v else None).
Proof. intros H. cbn [get_internal]. by rewrite prefix_nibs_encoded. Qed.

Lemma get_ext ns m c k :
  nibbles ns ->
  get_internal (mkMptNode (Extension (to_encoded_path ns false) m) c) k =
  match strip_prefix ns k with Some t => get_internal m t | None => Ok None end.
Proof. intros H. cbn [get_internal]. by rewrite prefix_nibs_encoded. Qed.

Lemma get_branch cs c k :
  get_internal (mkMptNode (Branch cs) c) k =
  match k with
  | [] => Ok None
  | i :: t => match cs !! Z.to_nat i with Some o => get_child o t | None => Panic end
  end.
Proof.
  destruct k as [|i t]; auto. cbn [get_internal]. rewrite index_with_lookup.
  destruct (cs !! Z.to_nat i) as [[m|]|]; auto.
Qed.

(** The index of a nibble is in range of the sixteen children. *)
Lemma nibble_lookup (cs : list (option MptNode)) i :
  length cs = 16%nat -> 0 <= i < 16 -> exists o, cs !! Z.to_nat i = Some o.
Proof. intros Hl Hi. apply lookup_lt_is_Some. lia. Qed.

(** ** Building blocks of the mutators *)
Lemma remaining_two cs i j a b :
  i <> j -> cs !! i = Some (Some a) -> cs !! j = Some (Some b) ->
  (2 <= length (remaining 0 cs))%nat.
Proof.
  intros Hij Hi Hj.
  assert ((i, a) ∈ remaining 0 cs) as H1 by (apply remaining_lookup; eauto).
  assert ((j, b) ∈ remaining 0 cs) as H2 by (apply remaining_lookup; eauto).
  destruct (remaining 0 cs) as [|x [|y l]]; simpl; try lia.
  - by apply elem_of_nil in H1.
  - apply list_elem_of_singleton in H1, H2. congruence.
Qed.

(** A branch of two different nibbles. *)
Lemma two_children s x a b :
  0 <= s < 16 -> 0 <= x < 16 -> s <> x ->
  wf a = true -> is_empty a = false -> wf b = true -> is_empty b = false ->
  let cs := <[Z.to_nat x := Some b]> (<[Z.to_nat s := Some a]> (replicate 16 None)) in
  wf (from (Branch cs)) = true /\
  (forall i, 0 <= i < 16 ->
     cs !! Z.to_nat i = Some (if decide (i = x) then Some b else if decide (i = s) then Some a else None)).
Proof.
  intros Hs Hx Hne Wa Ea Wb Eb cs.
  assert (Hl : length cs = 16%nat) by (unfold cs; by rewrite !length_insert, length_replicate).
  assert (Hlook : forall i, 0 <= i < 16 -> cs !! Z.to_nat i =
    Some (if decide (i = x) then Some b else if decide (i = s) then Some a else None)).
  { intros i Hi. unfold cs. repeat case_decide; subst.
    - rewrite list_lookup_insert_eq; [done|rewrite length_insert, length_replicate; lia].
    - rewrite list_lookup_insert_ne, list_lookup_insert_eq by (rewrite ?length_replicate; lia). done.
    - rewrite !list_lookup_insert_ne by lia. apply lookup_replicate_2. lia. }
  split; [|done]. apply wf_branch. split_and!; [done| |].
  - apply (remaining_two cs (Z.to_nat x) (Z.to_nat s) b a); [lia| |]; rewrite Hlook by lia;
      repeat case_decide; done.
  - intros i m Hi. assert (i < 16)%nat by (rewrite <- Hl; by eapply lookup_lt_Some).
    rewrite <- (Nat2Z.id i), Hlook in Hi by lia. repeat case_decide; simplify_eq; auto.
Qed.

Lemma wf_new_leaf ns v : nibbles ns -> wf (from (Leaf (to_encoded_path ns true) v)) = true.
Proof. intros; apply wf_leaf; eauto. Qed.

(** [fork] at the first differing nibble. *)
Lemma fork_spec p s st x kt existing v :
  nibbles p -> 0 <= s < 16 -> 0 <= x < 16 -> nibbles kt -> s <> x ->
  wf existing = true -> is_empty existing = false ->
  exists d, fork (p ++ s :: st) (p ++ x :: kt) (length p) existing v = Ok d /\
    wf (from d) = true /\ is_empty (from d) = false /\
    forall k, nibbles k -> get_internal (from d) k =
      if decide (k = p ++ x :: kt) then Ok (Some v)
      else match strip_prefix (p ++ [s]) k with Some t => get_internal existing t | None => Ok None end.
Proof.
  intros Hp Hs Hx Hkt Hne We Ee. unfold fork.
  rewrite !list_lookup_middle by done. unfold set_child.
  cbn [unwrap mbind outcome_bind]. rewrite length_replicate. replace (Z.to_nat s <? 16)%nat with true by (symmetry; apply Nat.ltb_lt; lia).
  cbn [mbind outcome_bind]. rewrite length_insert, length_replicate.
  replace (Z.to_nat x <? 16)%nat with true by (symmetry; apply Nat.ltb_lt; lia).
  cbn [mbind outcome_bind].
  replace (drop (S (length p)) (p ++ x :: kt)) with kt
    by (rewrite drop_app_ge by lia; by replace (S (length p) - length p)%nat with 1%nat by lia).
  rewrite take_app_length.
  set (leaf := from (Leaf (to_encoded_path kt true) v)).
  destruct (two_children s x existing leaf) as [Wb Hlook]; auto.
  { by apply wf_new_leaf. }
  set (cs := <[Z.to_nat x := _]> _) in *.
  assert (Hbr : forall k, nibbles k -> get_internal (from (Branch cs)) k =
    if decide (k = x :: kt) then Ok (Some v)
    else match strip_prefix [s] k with Some t => get_internal existing t | None => Ok None end).
  { intros [|i t] Hk; unfold from; rewrite get_branch; [done|]. inversion Hk; subst.
    rewrite Hlook by lia. cbn [strip_prefix].
    destruct (decide (i = x)) as [->|Hix].
    - cbn [get_child]. unfold leaf, from. rewrite get_leaf by done.
      rewrite (decide_False (P := s = x)) by done. repeat case_decide; congruence.
    - rewrite (decide_False (P := i :: t = x :: kt)) by congruence.
      destruct (decide (i = s)) as [->|His]; [by rewrite decide_True|by rewrite decide_False]. }
  destruct (0 <? length p)%nat eqn:El; breflect.
  - eexists. split; [reflexivity|]. split_and!; [apply wf_ext| |].
    + split_and!; auto. exists p. split_and!; auto. intros ->; simpl in El; lia.
    + done.
    + intros k Hk. unfold from at 1. rewrite get_ext, strip_prefix_assoc by done.
      destruct (strip_prefix p k) as [t|] eqn:Ep.
      * apply strip_prefix_Some in Ep as ->. apply Forall_app in Hk as [_ Hk].
        rewrite Hbr by done. cbn [mbind option_bind].
        repeat case_decide; simplify_eq; auto.
      * rewrite strip_prefix_None in Ep. rewrite decide_False; [done|].
        intros ->. eauto.
  - destruct p; [|simpl in El; lia]. eexists. split; [reflexivity|]. by split_and!.
Qed.

(** An extended path: prepending nibbles to a leaf, an extension or a branch. *)
Lemma extend_spec ns m :
  nibbles ns -> ns <> [] -> wf m = true -> is_empty m = false ->
  exists d,
    match data m with
    | Leaf p v => tail ← prefix_nibs p; Ok (Leaf (to_encoded_path (ns ++ tail) true) v)
    | Extension p c => tail ← prefix_nibs p; Ok (Extension (to_encoded_path (ns ++ tail) false) c)
    | Branch _ | Digest _ => Ok (Extension (to_encoded_path ns false) m)
    | Null => Panic
    end = Ok (E := Error) d /\
    wf (from d) = true /\ is_empty (from d) = false /\
    forall k, get_internal (from d) k =
      match strip_prefix ns k with Some t => get_internal m t | None => Ok None end.
Proof.
  intros Hns Hne Wm Em. destruct m as [[|cs|p v|p c|dg] cache]; cbn [data]; try done.
  - eexists. split; [reflexivity|]. split_and!; [|done|].
    + apply wf_ext. split_and!; eauto.
    + intros k. by apply get_ext.
  - apply wf_leaf in Wm as (tl & Htl & ->). rewrite prefix_nibs_encoded by done. cbn [mbind outcome_bind].
    assert (nibbles (ns ++ tl)) by (by apply Forall_app). eexists. split; [reflexivity|].
    split_and!; [by apply wf_new_leaf|done|].
    intros k. unfold from. rewrite get_leaf by done.
    destruct (strip_prefix ns k) as [t|] eqn:Es.
    + apply strip_prefix_Some in Es as ->. rewrite get_leaf by done.
      repeat case_decide; simplify_eq; auto.
    + rewrite decide_False; [done|]. intros <-. by rewrite strip_prefix_app in Es.
  - apply wf_ext in Wm as ((tl & Htl & Htne & ->) & Hk & Wc).
    rewrite prefix_nibs_encoded by done. cbn [mbind outcome_bind].
    assert (nibbles (ns ++ tl)) by (by apply Forall_app). eexists. split; [reflexivity|].
    split_and!; [|done|].
    + apply wf_ext. split_and!; auto. exists (ns ++ tl). split_and!; auto. by destruct ns.
    + intros k. unfold from. rewrite get_ext, strip_prefix_assoc by done.
      destruct (strip_prefix ns k) as [t|]; cbn [mbind option_bind]; [by rewrite get_ext|done].
  - eexists. split; [reflexivity|]. split_and!; [|done|].
    + apply wf_ext. split_and!; eauto.
    + intros k. by apply get_ext.
Qed.

(** [collapse] keeps lookups and restores the invariant. *)
Lemma collapse_spec cs :
  length cs = 16%nat -> (1 <= length (remaining 0 cs))%nat ->
  (forall i m, cs !! i = Some (Some m) -> wf m = true /\ is_empty m = false) ->
  exists d, collapse cs = Ok d /\ wf (from d) = true /\ is_empty (from d) = false /\
    forall k, nibbles k -> get_internal (from d) k = get_internal (from (Branch cs)) k.
Proof.
  intros Hl Hr Hc. unfold collapse.
  destruct (remaining 0 cs) as [|[i m] [|y l]] eqn:Er; simpl in Hr; [lia| |].
  - assert (cs !! i = Some (Some m)) as Hi.
    { assert ((i, m) ∈ remaining 0 cs) as Hin by (rewrite Er; by left).
      apply remaining_lookup in Hin as (k & Hk & ->). done. }
    assert (i < 16)%nat by (rewrite <- Hl; by eapply lookup_lt_Some).
    assert (Hothers : forall j o, cs !! j = Some (Some o) -> j = i).
    { intros j o Hj. assert ((j, o) ∈ remaining 0 cs) as Hin by (apply remaining_lookup; eauto).
      rewrite Er in Hin. apply list_elem_of_singleton in Hin. congruence. }
    destruct (Hc i m Hi) as [Wm Em].
    destruct (extend_spec [Z.of_nat i] m) as (d & Hd & Wd & Ed & Hg); auto.
    { repeat constructor; lia. }
    exists d. split_and!; [exact Hd|exact Wd|exact Ed|].
    intros k Hk. rewrite Hg. unfold from. rewrite get_branch.
    destruct k as [|j t]; [done|]. inversion Hk; subst. simpl.
    destruct (nibble_lookup cs j Hl) as [o Ho]; [done|]. rewrite Ho.
    case_decide as Hd'.
    + subst j. rewrite Nat2Z.id in Ho. by simplify_eq/=.
    + destruct o as [o|]; [|done]. apply Hothers in Ho. lia.
  - eexists. split; [reflexivity|]. split_and!; auto.
    apply wf_branch. split_and!; auto. rewrite Er. simpl; lia.
Qed.

Lemma merge_extension_spec ns m :
  nibbles ns -> ns <> [] -> wf m = true ->
  exists d, merge_extension (to_encoded_path ns false) ns m = Ok d /\ wf (from d) = true /\
    forall k, get_internal (from d) k =
      match strip_prefix ns k with Some t => get_internal m t | None => Ok None end.
Proof.
  intros Hns Hne Wm. destruct (is_empty m) eqn:Em.
  - destruct m as [[] ?]; try done. exists Null. split_and!; auto.
    intros k. simpl. by destruct (strip_prefix ns k).
  - destruct (extend_spec ns m) as (d & Hd & Wd & Ed & Hg); auto.
    exists d. split_and!; auto. by destruct m as [[] ?].
Qed.

(** ** Replacing one child of a branch *)
Lemma remaining_two_inv cs :
  (2 <= length (remaining 0 cs))%nat ->
  exists i j a b, i <> j /\ cs !! i = Some (Some a) /\ cs !! j = Some (Some b).
Proof.
  intros H. pose proof (remaining_NoDup cs 0) as Hnd.
  destruct (remaining 0 cs) as [|[i a] [|[j b] l]] eqn:Er; simpl in H; try lia.
  assert ((i, a) ∈ remaining 0 cs) as H1 by (rewrite Er; by left).
  assert ((j, b) ∈ remaining 0 cs) as H2 by (rewrite Er; right; by left).
  apply remaining_lookup in H1 as (i' & ? & ->). apply remaining_lookup in H2 as (j' & ? & ->).
  exists i', j', a, b. split_and!; auto. intros ->.
  simpl in Hnd. apply NoDup_cons in Hnd as [Hni _]. apply Hni. by left.
Qed.

Lemma wf_branch_set cs c i m :
  wf (mkMptNode (Branch cs) c) = true -> wf m = true -> is_empty m = false ->
  forall c', wf (mkMptNode (Branch (<[i := Some m]> cs)) c') = true.
Proof.
  rewrite wf_branch. intros (Hl & Hr & Hc) Wm Em c'. apply wf_branch. split_and!.
  - by rewrite length_insert.
  - apply remaining_two_inv in Hr as (j1 & j2 & a & b & Hne & H1 & H2).
    assert (forall j o, cs !! j = Some (Some o) -> exists o', <[i := Some m]> cs !! j = Some (Some o')) as Hk.
    { intros j o Hj. destruct (decide (i = j)) as [->|].
      - exists m. apply list_lookup_insert_eq. by eapply lookup_lt_Some.
      - exists o. by rewrite list_lookup_insert_ne. }
    destruct (Hk _ _ H1) as [a' Ha], (Hk _ _ H2) as [b' Hb]. by eapply remaining_two.
  - intros j m' Hj. destruct (decide (i = j)) as [->|].
    + rewrite list_lookup_insert_eq in Hj; [by simplify_eq|].
      rewrite <- (length_insert cs j (Some m)). by eapply lookup_lt_Some.
    + rewrite list_lookup_insert_ne in Hj by done. eauto.
Qed.

Lemma get_branch_set cs c c' i o j t :
  length cs = 16%nat -> 0 <= i < 16 -> 0 <= j < 16 ->
  get_internal (mkMptNode (Branch (<[Z.to_nat i := o]> cs)) c) (j :: t) =
  if decide (j = i) then get_child o t else get_internal (mkMptNode (Branch cs) c') (j :: t).
Proof.
  intros Hl Hi Hj. rewrite !get_branch. case_decide.
  - subst j. rewrite list_lookup_insert_eq by lia. done.
  - rewrite list_lookup_insert_ne by lia. done.
Qed.

(** ** Equations of the mutators on branches *)
Definition insert_child (o : option MptNode) (tail : list Z) (value : bytes) :
    option MptNode * outcome Error bool :=
  match o with
  | Some node => let '(node', r) := insert_internal node tail value in (Some node', r)
  | None => (Some (from (Leaf (to_encoded_path tail true) value)), Ok true)
  end.

Definition delete_child (o : option MptNode) (tail : list Z) :
    option MptNode * outcome Error bool :=
  match o with
  | Some node =>
      let '(node', r) := delete_internal node tail in
      match r with
      | Ok true => (if is_empty node' then None else Some node', Ok true)
      | _ => (Some node', r)
      end
  | None => (None, Ok false)
  end.

Lemma insert_branch cs c i t v o :
  cs !! Z.to_nat i = Some o ->
  insert_internal (mkMptNode (Branch cs) c) (i :: t) v =
  let '(o', r) := insert_child o t v in
  let cs' := <[Z.to_nat i := o']> cs in
  match r with Ok true => (from (Branch cs'), Ok true) | _ => (mkMptNode (Branch cs') c, r) end.
Proof.
  intros Hi. cbn [insert_internal]. rewrite alter_with_lookup, Hi.
  change (match o with Some _ => _ | None => _ end) with (insert_child o t v).
  by destruct (insert_child o t v) as [o' [[]| |]].
Qed.

Lemma delete_branch cs c i t o :
  cs !! Z.to_nat i = Some o ->
  delete_internal (mkMptNode (Branch cs) c) (i :: t) =
  let '(o', r) := delete_child o t in
  let cs' := <[Z.to_nat i := o']> cs in
  match r with
  | Ok true => updated (mkMptNode (Branch cs') c) (collapse cs')
  | _ => (mkMptNode (Branch cs') c, r)
  end.
Proof.
  intros Hi. cbn [delete_internal]. rewrite alter_with_lookup, Hi.
  change (match o with Some _ => _ | None => _ end) with (delete_child o t).
  by destruct (delete_child o t) as [o' [[]| |]].
Qed.

(** ** Insertion *)

(** What one call of [insert_internal] guarantees. *)
Definition insert_post (n : MptNode) (k : list Z) (v : bytes) (n' : MptNode)
    (r : outcome Error bool) : Prop :=
  match r with
  | Ok true =>
      wf n' = true /\ is_empty n' = false /\ (is_branch n = true -> is_branch n' = true) /\
      get_internal n k <> Ok (Some v) /\
      forall k', nibbles k' ->
        get_internal n' k' = if decide (k' = k) then Ok (Some v) else get_internal n k'
  | Ok false => n' = n /\ get_internal n k = Ok (Some v)
  | Err e => n' = n /\ (e = ValueInBranch \/ get_internal n k = Err e)
  | Panic => False
  end.

(** Expose the data stored by a mutator and the clauses of its postcondition. *)
Ltac open_post := unfold updated, invalidate_ref_cache, insert_post; cbn [data].

Lemma insert_branch_post cs c i t v o :
  wf (mkMptNode (Branch cs) c) = true -> 0 <= i < 16 -> nibbles t ->
  cs !! Z.to_nat i = Some o ->
  (forall m, o = Some m -> let '(m', r) := insert_internal m t v in insert_post m t v m' r) ->
  let '(n', r) := insert_internal (mkMptNode (Branch cs) c) (i :: t) v in
  insert_post (mkMptNode (Branch cs) c) (i :: t) v n' r.
Proof.
  intros W Hi Ht Ho IH. rewrite (insert_branch _ _ _ _ _ _ Ho).
  pose proof W as (Hl & _ & Hc)%wf_branch.
  assert (Hset : forall m, wf m = true -> is_empty m = false -> get_child o t <> Ok (Some v) ->
    (forall k', nibbles k' -> get_internal m k' = if decide (k' = t) then Ok (Some v) else get_child o k') ->
    insert_post (mkMptNode (Branch cs) c) (i :: t) v (from (Branch (<[Z.to_nat i:=Some m]> cs))) (Ok true)).
  { intros m Wm Em Hold Hg. split_and!; auto; [by eapply wf_branch_set|by rewrite get_branch, Ho|].
    intros [|j t'] Hk; [done|]. inversion Hk; subst. unfold from.
    rewrite (get_branch_set _ _ c) by done. case_decide as Hji; [subst j|by rewrite decide_False by congruence].
    cbn [get_child]. rewrite Hg by done. rewrite get_branch, Ho. repeat case_decide; congruence. }
  destruct o as [m|]; cbn [insert_child].
  - specialize (IH m eq_refl). destruct (insert_internal m t v) as [m' [[]| |]]; simpl in *; auto.
    + destruct IH as (Wm & Em & _ & Hold & Hg). by apply Hset.
    + destruct IH as [-> Hg]. rewrite list_insert_id by done. rewrite index_with_lookup, Ho. done.
    + destruct IH as [-> Hg]. by rewrite list_insert_id, index_with_lookup, Ho.
  - apply Hset; [by apply wf_new_leaf|done|done|]. intros k' Hk'. unfold from. rewrite get_leaf by done.
    simpl. repeat case_decide; congruence.
Qed.

(** The four cases of the comparison of a stored path with a key. *)
Lemma lcp_cases (a b : list Z) :
  (a = b /\ lcp a b = length a /\ lcp a b = length b) \/
  (exists x t, b = a ++ x :: t /\ lcp a b = length a /\ lcp a b <> length b) \/
  (exists x t, a = b ++ x :: t /\ lcp a b <> length a /\ lcp a b = length b) \/
  (exists p x s y t, a = p ++ x :: s /\ b = p ++ y :: t /\ x <> y /\
     lcp a b = length p /\ lcp a b <> length a /\ lcp a b <> length b).
Proof.
  destruct (lcp_split a b) as (p & a' & b' & -> & -> & <- & Hd).
  rewrite !length_app. destruct a' as [|x a'], b' as [|y b']; rewrite ?app_nil_r; simpl.
  - left. split_and!; auto; lia.
  - right; left. exists y, b'. split_and!; auto; lia.
  - right; right; left. exists x, a'. split_and!; auto; lia.
  - right; right; right. exists p, x, a', y, b'. split_and!; auto; lia.
Qed.

Lemma lcp_prefix (ns t : list Z) : lcp ns (ns ++ t) = length ns.
Proof.
  destruct (lcp_cases ns (ns ++ t)) as [(_ & ? & _)|[(? & ? & _ & ? & _)|
    [(x & t' & Heq & _)|(p & x & s & y & t' & Ha & Hb & Hxy & _)]]]; auto.
  - apply (f_equal length) in Heq. rewrite !length_app in Heq. simpl in Heq. lia.
  - rewrite Ha, <- app_assoc in Hb. apply app_inv_head in Hb. cbn in Hb. congruence.
Qed.

Lemma insert_leaf_post p old c k v :
  wf (mkMptNode (Leaf p old) c) = true -> nibbles k ->
  let '(n', r) := insert_internal (mkMptNode (Leaf p old) c) k v in
  insert_post (mkMptNode (Leaf p old) c) k v n' r.
Proof.
  intros W Hk. apply wf_leaf in W as (ns & Hns & ->). cbn [insert_internal].
  rewrite prefix_nibs_encoded by done. cbv zeta.
  destruct (lcp_cases ns k) as [(-> & H1 & H2)|[(x & t & -> & H1 & H2)|
    [(x & t & -> & H1 & H2)|(p & x & s & y & t & -> & -> & Hne & Hl & H1 & H2)]]].
  - rewrite H1, Nat.eqb_refl. cbn [andb]. case_decide; cbn.
    + split; [done|]. subst. rewrite prefix_nibs_encoded by done. cbn. by rewrite decide_True.
    + rewrite prefix_nibs_encoded by done. cbn [mbind outcome_bind]. rewrite decide_True by done.
      split_and!; try done; [by apply path_ok_encoded|congruence|]. intros k' Hk'. repeat case_decide; congruence.
  - rewrite H1, Nat.eqb_refl. rewrite H1 in H2. apply Nat.eqb_neq in H2. rewrite H2. by split; [|left].
  - rewrite H2, Nat.eqb_refl, orb_true_r. rewrite H2 in H1. apply Nat.eqb_neq in H1. rewrite H1.
    by split; [|left].
  - apply Nat.eqb_neq in H1, H2. rewrite H1, H2. cbn [andb orb]. rewrite Hl.
    replace (drop (S (length p)) (p ++ x :: s)) with s
      by (rewrite drop_app_ge by lia; by replace (S (length p) - length p)%nat with 1%nat by lia).
    apply Forall_app in Hns as [Hp Hs]. apply Forall_app in Hk as [_ Ht].
    inversion Hs; inversion Ht; subst.
    destruct (fork_spec p x s y t (from (Leaf (to_encoded_path s true) old)) v)
      as (d & -> & Wd & Ed & Hg); auto; [by apply wf_new_leaf|].
    open_post. split_and!; auto; [done| |].
    { rewrite get_leaf by (apply Forall_app; auto). case_decide; [|done]. simplify_eq. }
    intros k' Hk'. change (mkMptNode d None) with (from d).
    rewrite Hg by done. case_decide; [done|].
    rewrite get_leaf, strip_prefix_assoc by (apply Forall_app; auto).
    destruct (strip_prefix p k') as [t'|] eqn:Ep; cbn [mbind option_bind].
    + apply strip_prefix_Some in Ep as ->. destruct t' as [|z t']; cbn [strip_prefix].
      * rewrite decide_False; [done|]. intros Heq. simplify_eq.
      * destruct (decide (x = z)) as [->|].
        -- unfold from. rewrite get_leaf by done. repeat case_decide; simplify_eq; done.
        -- rewrite decide_False; [done|]. intros Heq. simplify_eq.
    + rewrite decide_False; [done|]. intros <-. by rewrite strip_prefix_app in Ep.
Qed.


(** Insertion below an extension whose path is a prefix of the key. *)
Lemma insert_ext_descend ns m c t v :
  nibbles ns -> ns <> [] -> (is_branch m || is_digest m) = true -> nibbles t ->
  (let '(m', r) := insert_internal m t v in insert_post m t v m' r) ->
  let '(n', r) := insert_internal (mkMptNode (Extension (to_encoded_path ns false) m) c) (ns ++ t) v in
  insert_post (mkMptNode (Extension (to_encoded_path ns false) m) c) (ns ++ t) v n' r.
Proof.
  intros Hns Hne Hkind Ht IH. cbn [insert_internal]. rewrite prefix_nibs_encoded by done. cbv zeta.
  rewrite lcp_prefix, Nat.eqb_refl, drop_app_length.
  destruct (insert_internal m t v) as [m' [[]| |]] eqn:Ei; simpl in IH.
  - destruct IH as (Wm' & Em' & Hbr & Hold & Hg).
    assert (is_branch m = true) as Hb.
    { by_shape m. }
    open_post. split; [|split; [|split; [|split]]]; [|reflexivity|intros Hf; discriminate Hf| |].
    + apply wf_ext. split_and!; eauto. by rewrite Hbr.
    + by rewrite get_ext, strip_prefix_app.
    + intros k' Hk'. rewrite !get_ext by done.
      destruct (strip_prefix ns k') as [t'|] eqn:Es.
      * apply strip_prefix_Some in Es as ->. apply Forall_app in Hk' as [_ Hk'].
        rewrite Hg by done. repeat case_decide; simplify_eq; done.
      * rewrite decide_False; [done|]. intros ->. by rewrite strip_prefix_app in Es.
  - destruct IH as [-> Hg]. cbn [insert_post]. split; [done|].
    by rewrite get_ext, strip_prefix_app by done.
  - destruct IH as [-> Hg]. cbn [insert_post]. split; [done|].
    by rewrite get_ext, strip_prefix_app by done.
  - done.
Qed.

Lemma insert_ext_post p m c k v :
  wf (mkMptNode (Extension p m) c) = true -> nibbles k ->
  (forall k', nibbles k' -> let '(m', r) := insert_internal m k' v in insert_post m k' v m' r) ->
  let '(n', r) := insert_internal (mkMptNode (Extension p m) c) k v in
  insert_post (mkMptNode (Extension p m) c) k v n' r.
Proof.
  intros W Hk IH. apply wf_ext in W as ((ns & Hns & Hnne & ->) & Hkind & Wm).
  destruct (lcp_cases ns k) as [(<- & _)|[(x & t & -> & _)|
    [(x & t & -> & H1 & H2)|(p & x & s & y & t & -> & -> & Hne & Hl & H1 & H2)]]].
  - pose proof (insert_ext_descend ns m c [] v) as Hd. rewrite app_nil_r in Hd.
    apply Hd; auto. apply (IH []). constructor.
  - apply Forall_app in Hk as [_ Ht]. apply insert_ext_descend; auto. by apply IH.
  - cbn [insert_internal]. rewrite prefix_nibs_encoded by done. cbv zeta.
    apply Nat.eqb_neq in H1. apply Nat.eqb_eq in H2. rewrite H1, H2.
    by split; [|left].
  - cbn [insert_internal]. rewrite prefix_nibs_encoded by done. cbv zeta.
    apply Nat.eqb_neq in H1, H2. rewrite H1, H2, Hl.
    replace (drop (S (length p)) (p ++ x :: s)) with s
      by (rewrite drop_app_ge by lia; by replace (S (length p) - length p)%nat with 1%nat by lia).
    pose proof Hns as [Hp Hs]%Forall_app. pose proof Hk as [_ Ht]%Forall_app.
    inversion Hs; inversion Ht; subst.
    match goal with |- context [fork _ _ _ ?e _] => set (ex := e) end.
    assert (wf ex = true /\ is_empty ex = false /\
      forall k', get_internal ex k' = match strip_prefix s k' with Some t' => get_internal m t' | None => Ok None end)
      as (Wx & Ex & Hgx).
    { unfold ex. rewrite length_app. destruct s as [|z s].
      - rewrite (proj2 (Nat.ltb_ge _ _)) by (simpl; lia). split_and!; auto. by_shape m.
      - rewrite (proj2 (Nat.ltb_lt _ _)) by (simpl; lia). split_and!; auto.
        + apply wf_ext. split_and!; auto. exists (z :: s). by split_and!.
        + intros k'. by apply get_ext. }
    destruct (fork_spec p x s y t ex v) as (d & -> & Wd & Ed & Hg); auto.
    open_post. split_and!; auto; [done| |].
    { rewrite get_ext by done. case_match eqn:Es; [|done]. apply strip_prefix_Some in Es.
      rewrite <- app_assoc in Es. apply app_inv_head in Es. cbn in Es. congruence. }
    intros k' Hk'. change (mkMptNode d None) with (from d). rewrite Hg by done. case_decide; [done|].
    rewrite get_ext by done. change (x :: s) with ([x] ++ s). rewrite (app_assoc p), (strip_prefix_assoc (p ++ [x])).
    destruct (strip_prefix (p ++ [x]) k') as [t'|]; cbn [mbind option_bind]; auto.
Qed.

Lemma insert_internal_post n k v :
  wf n = true -> nibbles k ->
  let '(n', r) := insert_internal n k v in insert_post n k v n' r.
Proof.
  revert k. induction n as [c|cs c IH|p old c|p m c IH|d c] using node_ind'; intros k W Hk.
  - cbn [insert_internal]. open_post. split_and!; try done.
    + by apply path_ok_encoded.
    + intros k' Hk'. rewrite get_leaf by done. simpl. repeat case_decide; congruence.
  - destruct k as [|i t]; [by split; [|left]|]. inversion Hk; subst.
    pose proof W as (Hl & _ & Hc)%wf_branch. destruct (nibble_lookup cs i Hl) as [o Ho]; [done|].
    apply insert_branch_post with o; auto. intros m ->. apply IH with (Z.to_nat i); auto.
    by eapply Hc.
  - by apply insert_leaf_post.
  - apply insert_ext_post; auto. intros k' Hk'. apply IH; auto. by apply wf_ext in W as (_ & _ & ?).
  - by split; [|right].
Qed.

(** ** Deletion *)

(** What one call of [delete_internal] guarantees. *)
Definition delete_post (n : MptNode) (k : list Z) (n' : MptNode) (r : outcome Error bool) : Prop :=
  match r with
  | Ok true =>
      wf n' = true /\ (exists v, get_internal n k = Ok (Some v)) /\
      forall k', nibbles k' ->
        get_internal n' k' = if decide (k' = k) then Ok None else get_internal n k'
  | Ok false => n' = n /\ get_internal n k = Ok None
  | Err e => n' = n /\ (e = ValueInBranch \/ get_internal n k = Err e)
  | Panic => False
  end.

(** The children of a branch after one child was replaced by the rest of it. *)
Lemma collapse_after_delete cs c i (o : option MptNode) :
  wf (mkMptNode (Branch cs) c) = true ->
  (forall m, o = Some m -> wf m = true /\ is_empty m = false) ->
  let cs' := <[i := o]> cs in
  length cs' = 16%nat /\ (1 <= length (remaining 0 cs'))%nat /\
  (forall j m, cs' !! j = Some (Some m) -> wf m = true /\ is_empty m = false).
Proof.
  rewrite wf_branch. intros (Hl & Hr & Hc) Ho cs'. split_and!.
  - unfold cs'. by rewrite length_insert.
  - apply remaining_two_inv in Hr as (j1 & j2 & a & b & Hne & H1 & H2).
    assert (exists j m, cs' !! j = Some (Some m)) as (j & m & Hj).
    { unfold cs'. destruct (decide (i = j1)) as [->|].
      - exists j2, b. by rewrite list_lookup_insert_ne.
      - exists j1, a. by rewrite list_lookup_insert_ne. }
    assert ((j, m) ∈ remaining 0 cs') as Hin by (apply remaining_lookup; eauto).
    destruct (remaining 0 cs'); [by apply elem_of_nil in Hin|simpl; lia].
  - intros j m Hj. unfold cs' in Hj. destruct (decide (i = j)) as [->|].
    + rewrite list_lookup_insert_eq in Hj; [by simplify_eq; eauto|].
      rewrite <- (length_insert cs j o). by eapply lookup_lt_Some.
    + rewrite list_lookup_insert_ne in Hj by done. eauto.
Qed.

Lemma get_empty m k : is_empty m = true -> get_internal m k = Ok None.
Proof. by_shape m. Qed.

Lemma delete_branch_post cs c i t o :
  wf (mkMptNode (Branch cs) c) = true -> 0 <= i < 16 -> nibbles t ->
  cs !! Z.to_nat i = Some o ->
  (forall m, o = Some m -> let '(m', r) := delete_internal m t in delete_post m t m' r) ->
  let '(n', r) := delete_internal (mkMptNode (Branch cs) c) (i :: t) in
  delete_post (mkMptNode (Branch cs) c) (i :: t) n' r.
Proof.
  intros W Hi Ht Ho IH. rewrite (delete_branch _ _ _ _ _ Ho).
  pose proof W as (Hl & _ & _)%wf_branch.
  destruct o as [m|]; cbn [delete_child].
  2: { cbn [delete_post]. by rewrite list_insert_id, get_branch, Ho by done. }
  specialize (IH m eq_refl). destruct (delete_internal m t) as [m' [[]| |]]; simpl in IH.
  - destruct IH as (Wm & (v & Hv) & Hg).
    set (o' := if is_empty m' then None else Some m').
    assert (Ho' : forall k', get_child o' k' = get_internal m' k').
    { intros k'. unfold o'. destruct (is_empty m') eqn:Em; [by rewrite get_empty|done]. }
    destruct (collapse_after_delete cs c (Z.to_nat i) o' W) as (Hl' & Hr' & Hc').
    { unfold o'. intros m'' Hm. destruct (is_empty m') eqn:Em; simplify_eq; done. }
    destruct (collapse_spec _ Hl' Hr' Hc') as (d & -> & Wd & _ & Hgd).
    unfold updated, invalidate_ref_cache, delete_post. cbn [data]. split_and!; [exact Wd| |].
    + exists v. by rewrite get_branch, Ho.
    + intros [|j t'] Hk; change (mkMptNode d None) with (from d); rewrite Hgd by done; [done|].
      inversion Hk; subst. unfold from. rewrite (get_branch_set _ _ c) by done.
      case_decide as Hji; [subst j|by rewrite decide_False by congruence].
      rewrite Ho', Hg, get_branch, Ho by done. cbn [get_child]. repeat case_decide; congruence.
  - destruct IH as [-> Hg]. cbn [delete_post]. by rewrite list_insert_id, get_branch, Ho.
  - destruct IH as [-> Hg]. cbn [delete_post]. by rewrite list_insert_id, get_branch, Ho.
  - done.
Qed.

Lemma delete_ext_post p m c k :
  wf (mkMptNode (Extension p m) c) = true -> nibbles k ->
  (forall k', nibbles k' -> let '(m', r) := delete_internal m k' in delete_post m k' m' r) ->
  let '(n', r) := delete_internal (mkMptNode (Extension p m) c) k in
  delete_post (mkMptNode (Extension p m) c) k n' r.
Proof.
  intros W Hk IH. apply wf_ext in W as ((ns & Hns & Hnne & ->) & Hkind & Wm).
  cbn [delete_internal]. rewrite prefix_nibs_encoded by done.
  destruct (strip_prefix ns k) as [t|] eqn:Es.
  2: { cbn [delete_post]. by rewrite get_ext, Es. }
  pose proof Es as ->%strip_prefix_Some. apply Forall_app in Hk as [_ Ht]. specialize (IH t Ht).
  destruct (delete_internal m t) as [m' [[]| |]]; simpl in IH.
  - destruct IH as (Wm' & (v & Hv) & Hg).
    destruct (merge_extension_spec ns m') as (d & -> & Wd & Hgd); auto.
    unfold updated, invalidate_ref_cache, delete_post. cbn [data]. split_and!; [exact Wd| |].
    + exists v. by rewrite get_ext, Es.
    + intros k' Hk'. change (mkMptNode d None) with (from d). rewrite Hgd, get_ext by done.
      destruct (strip_prefix ns k') as [t'|] eqn:Es'.
      * apply strip_prefix_Some in Es' as ->. apply Forall_app in Hk' as [_ Ht'].
        rewrite Hg by done. repeat case_decide; simplify_eq; done.
      * rewrite decide_False; [done|]. intros ->. by rewrite strip_prefix_app in Es'.
  - destruct IH as [-> Hg]. cbn [delete_post]. by rewrite get_ext, Es.
  - destruct IH as [-> Hg]. cbn [delete_post]. by rewrite get_ext, Es.
  - done.
Qed.

Lemma delete_internal_post n k :
  wf n = true -> nibbles k ->
  let '(n', r) := delete_internal n k in delete_post n k n' r.
Proof.
  revert k. induction n as [c|cs c IH|p old c|p m c IH|d c] using node_ind'; intros k W Hk.
  - done.
  - destruct k as [|i t]; [by split; [|left]|]. inversion Hk; subst.
    pose proof W as (Hl & _ & Hc)%wf_branch. destruct (nibble_lookup cs i Hl) as [o Ho]; [done|].
    apply delete_branch_post with o; auto. intros m ->. apply IH with (Z.to_nat i); auto.
    by eapply Hc.
  - apply wf_leaf in W as (ns & Hns & ->). cbn [delete_internal].
    rewrite prefix_nibs_encoded by done. case_decide; subst.
    + unfold updated, invalidate_ref_cache, delete_post. cbn [data]. split_and!; [done| |].
      * exists old. rewrite get_leaf by done. by rewrite decide_True.
      * intros k' Hk'. rewrite get_leaf by done. simpl. repeat case_decide; congruence.
    + cbn [delete_post]. rewrite get_leaf by done. by rewrite decide_False.
  - apply delete_ext_post; auto. intros k' Hk'. apply IH; auto. by apply wf_ext in W as (_ & _ & ?).
  - by split; [|right].
Qed.
