(* ===== verification/MptSpec.v ===== *)
(** What the trie of [Mpt] promises: the finite map of its entries, the
    refinement of lookup, insertion and deletion to that map, the errors on
    sparse tries, and canonicity (the shape of a trie is determined by its
    contents, so the order of updates does not matter). *)

From stdpp Require Import base list list_numbers gmap fin_maps strings sorting.
From Stdlib Require Import ZArith Lia.
From S2P Require Import Prelude Nibbles Mpt MptWf.
Open Scope Z_scope.

(** ** The contents of a trie *)
Definition prefix_entries (p : list Z) (l : list (list Z * bytes)) : list (list Z * bytes) :=
  map (fun kv => (p ++ kv.1, kv.2)) l.

Definition branch_entries (f : MptNode -> list (list Z * bytes)) :
    nat -> list (option MptNode) -> list (list Z * bytes) :=
  fix go i cs :=
    match cs with
    | [] => []
    | Some m :: cs' => prefix_entries [Z.of_nat i] (f m) ++ go (S i) cs'
    | None :: cs' => go (S i) cs'
    end.

Fixpoint entries (n : MptNode) : list (list Z * bytes) :=
  let '(mkMptNode data _) := n in
  match data with
  | Null | Digest _ => []
  | Leaf prefix value =>
      match prefix_nibs (E := Error) prefix with Ok ns => [(ns, value)] | _ => [] end
  | Extension prefix child =>
      match prefix_nibs (E := Error) prefix with
      | Ok ns => prefix_entries ns (entries child)
      | _ => []
      end
  | Branch children =>
      branch_entries entries 0 children
  end.

Definition contents (n : MptNode) : gmap (list Z) bytes := list_to_map (entries n).

(** The trie without its cached references. *)
Fixpoint strip (n : MptNode) : MptNode :=
  let '(mkMptNode data _) := n in
  from match data with
       | Branch children =>
           Branch (map (fun o => match o with Some m => Some (strip m) | None => None end) children)
       | Extension prefix child => Extension prefix (strip child)
       | d => d
       end.

(** All keys of the trie are key lengths of [l] bytes. *)
Definition fixed_keys (l : nat) (n : MptNode) : Prop :=
  map_Forall (fun k _ => length k = (2 * l)%nat) (contents n).

(** ** Lookup on resolved tries *)
Lemma resolved_child cs c i m :
  resolved (mkMptNode (Branch cs) c) = true -> cs !! i = Some (Some m) -> resolved m = true.
Proof.
  cbn [resolved]. rewrite forallb_forall. intros R Hi.
  apply (R (Some m)), list_elem_of_In. by eapply list_elem_of_lookup_2.
Qed.

Lemma resolved_total n k :
  wf n = true -> resolved n = true -> nibbles k -> exists o, get_internal n k = Ok o.
Proof.
  revert k. induction n as [c|cs c IH|p v c|p m c IH|d c] using node_ind'; intros k W R Hk.
  - by exists None.
  - rewrite get_branch. destruct k as [|i t]; [by eexists|]. inversion Hk; subst.
    pose proof W as (Hl & _ & Hc)%wf_branch. destruct (nibble_lookup cs i Hl) as [[m|] Ho]; [done| |];
      rewrite Ho; simpl; [|by eexists].
    apply (IH _ _ Ho); eauto using resolved_child. by eapply Hc.
  - apply wf_leaf in W as (ns & Hns & ->). rewrite get_leaf by done. by eexists.
  - apply wf_ext in W as ((ns & Hns & _ & ->) & _ & Wm). rewrite get_ext by done.
    destruct (strip_prefix ns k) as [t|] eqn:Es; [|by eexists].
    apply strip_prefix_Some in Es as ->. apply Forall_app in Hk as [_ ?]. by apply IH.
  - done.
Qed.

Lemma total_resolved n :
  wf n = true -> (forall k, nibbles k -> exists o, get_internal n k = Ok o) -> resolved n = true.
Proof.
  induction n as [c|cs c IH|p v c|p m c IH|d c] using node_ind'; intros W T; try done.
  - cbn [resolved]. apply forallb_forall. intros [m|] Hin; [|done].
    rewrite <- list_elem_of_In in Hin. apply list_elem_of_lookup in Hin as [i Hi].
    pose proof W as (Hl & _ & Hc)%wf_branch.
    assert (i < 16)%nat by (rewrite <- Hl; by eapply lookup_lt_Some).
    apply (IH i); [done|by eapply Hc|]. intros k Hk.
    destruct (T (Z.of_nat i :: k)) as [o Ho]; [constructor; [lia|done]|].
    rewrite get_branch, Nat2Z.id, Hi in Ho. eauto.
  - apply wf_ext in W as ((ns & Hns & _ & ->) & _ & Wm). apply IH; auto. intros k Hk.
    destruct (T (ns ++ k)) as [o Ho]; [by apply Forall_app|].
    rewrite get_ext, strip_prefix_app in Ho by done. eauto.
  - destruct (T []) as [o Ho]; [constructor|done].
Qed.

(** A non-empty resolved trie holds a key. *)
Lemma nonempty_key n :
  wf n = true -> resolved n = true -> is_empty n = false ->
  exists k v, nibbles k /\ get_internal n k = Ok (Some v).
Proof.
  induction n as [c|cs c IH|p v c|p m c IH|d c] using node_ind'; intros W R E; try done.
  - pose proof W as (Hl & Hr & Hc)%wf_branch.
    apply remaining_two_inv in Hr as (i & _ & a & _ & _ & Hi & _).
    destruct (Hc i a Hi) as [Wa Ea].
    destruct (IH i a Hi Wa (resolved_child _ _ _ _ R Hi) Ea) as (k & v & Hk & Hg).
    assert (i < 16)%nat by (rewrite <- Hl; by eapply lookup_lt_Some).
    exists (Z.of_nat i :: k), v. split; [constructor; [lia|done]|].
    by rewrite get_branch, Nat2Z.id, Hi.
  - apply wf_leaf in W as (ns & Hns & ->). exists ns, v. rewrite get_leaf by done. by rewrite decide_True.
  - apply wf_ext in W as ((ns & Hns & _ & ->) & Hkind & Wm).
    destruct IH as (k & v & Hk & Hg); auto; [by_shape m|].
    exists (ns ++ k), v. split; [by apply Forall_app|]. by rewrite get_ext, strip_prefix_app.
Qed.

(** A resolved branch holds two keys with different first nibbles. *)
Lemma branch_two_keys cs c :
  wf (mkMptNode (Branch cs) c) = true -> resolved (mkMptNode (Branch cs) c) = true ->
  exists i j s t v w, i <> j /\ nibbles (i :: s) /\ nibbles (j :: t) /\
    get_internal (mkMptNode (Branch cs) c) (i :: s) = Ok (Some v) /\
    get_internal (mkMptNode (Branch cs) c) (j :: t) = Ok (Some w).
Proof.
  intros W R. pose proof W as (Hl & Hr & Hc)%wf_branch.
  apply remaining_two_inv in Hr as (i & j & a & b & Hne & Hi & Hj).
  destruct (Hc _ _ Hi) as [Wa Ea], (Hc _ _ Hj) as [Wb Eb].
  destruct (nonempty_key a) as (s & v & Hs & Hv); eauto using resolved_child.
  destruct (nonempty_key b) as (t & w & Ht & Hw); eauto using resolved_child.
  assert (i < 16 /\ j < 16)%nat by (rewrite <- Hl; split; by eapply lookup_lt_Some).
  exists (Z.of_nat i), (Z.of_nat j), s, t, v, w.
  rewrite !get_branch, !Nat2Z.id, Hi, Hj. split_and!; auto; try lia; constructor; auto; lia.
Qed.

(** ** Canonicity *)
Definition has (n : MptNode) (k : list Z) : Prop :=
  exists v, get_internal n k = Ok (Some v).

Lemma ext_two_keys ns m c :
  nibbles ns -> (is_branch m || is_digest m) = true -> wf m = true -> resolved m = true ->
  exists i j s t, i <> j /\ nibbles (ns ++ i :: s) /\ nibbles (ns ++ j :: t) /\
    has (mkMptNode (Extension (to_encoded_path ns false) m) c) (ns ++ i :: s) /\
    has (mkMptNode (Extension (to_encoded_path ns false) m) c) (ns ++ j :: t).
Proof.
  intros Hns Hk Wm Rm. destruct m as [[|cs| | |d] c']; try done.
  destruct (branch_two_keys cs c' Wm Rm) as (i & j & s & t & v & w & Hne & Hi & Hj & Hv & Hw).
  exists i, j, s, t. split_and!; [done|by apply Forall_app|by apply Forall_app| |];
    unfold has; rewrite get_ext, strip_prefix_app by done; eauto.
Qed.

Lemma has_ext_inv ns m c k :
  nibbles ns -> has (mkMptNode (Extension (to_encoded_path ns false) m) c) k -> exists t, k = ns ++ t.
Proof.
  intros Hns [v Hv]. rewrite get_ext in Hv by done.
  destruct (strip_prefix ns k) as [t|] eqn:Es; [|done]. exists t. by apply strip_prefix_Some.
Qed.

Lemma has_leaf_inv ns v c k :
  nibbles ns -> has (mkMptNode (Leaf (to_encoded_path ns true) v) c) k -> k = ns.
Proof. intros Hns [w Hw]. rewrite get_leaf in Hw by done. case_decide; congruence. Qed.

(** A list that is a prefix of two lists forking after [p] is a prefix of [p]. *)
Lemma fork_prefix (q p s t u w : list Z) i j :
  i <> j -> p ++ i :: s = q ++ u -> p ++ j :: t = q ++ w -> exists r, p = q ++ r.
Proof.
  revert p; induction q as [|x q IH]; intros p Hne H1 H2; [by exists p|].
  destruct p as [|y p]; simplify_eq/=. destruct (IH p Hne) as [r ->]; auto. by exists r.
Qed.

Lemma has_equiv n m k :
  (forall k, nibbles k -> get_internal n k = get_internal m k) -> nibbles k -> has n k -> has m k.
Proof. unfold has. intros H Hk. by rewrite H. Qed.

Lemma equiv_children cs ds c c' i o p :
  (forall k, nibbles k -> get_internal (mkMptNode (Branch cs) c) k = get_internal (mkMptNode (Branch ds) c') k) ->
  (i < 16)%nat -> cs !! i = Some o -> ds !! i = Some p ->
  forall k, nibbles k -> get_child o k = get_child p k.
Proof.
  intros H Hi Ho Hp k Hk. specialize (H (Z.of_nat i :: k)).
  rewrite !get_branch, !Nat2Z.id, Ho, Hp in H. apply H. constructor; [lia|done].
Qed.

Definition strip_child (o : option MptNode) : option MptNode :=
  match o with Some m => Some (strip m) | None => None end.

(** Equal children of two branches, from the hypothesis on the first one's. *)
Lemma strip_branch_eq cs ds c c' :
  wf (mkMptNode (Branch cs) c) = true -> resolved (mkMptNode (Branch cs) c) = true ->
  wf (mkMptNode (Branch ds) c') = true -> resolved (mkMptNode (Branch ds) c') = true ->
  (forall k, nibbles k -> get_internal (mkMptNode (Branch cs) c) k = get_internal (mkMptNode (Branch ds) c') k) ->
  (forall i a b, cs !! i = Some (Some a) -> ds !! i = Some (Some b) ->
     (forall k, nibbles k -> get_internal a k = get_internal b k) -> strip a = strip b) ->
  map strip_child cs = map strip_child ds.
Proof.
  intros W R W' R' Heq IH.
  pose proof W as (Hl & _ & Hc)%wf_branch. pose proof W' as (Hl' & _ & Hc')%wf_branch.
  apply list_eq. intros i. rewrite !list_lookup_fmap.
  destruct (cs !! i) as [o|] eqn:Ho, (ds !! i) as [p|] eqn:Hp; simpl; auto.
  2: { apply lookup_lt_Some in Ho. apply lookup_ge_None in Hp. lia. }
  2: { apply lookup_lt_Some in Hp. apply lookup_ge_None in Ho. lia. }
  assert (i < 16)%nat by (rewrite <- Hl; by eapply lookup_lt_Some).
  pose proof (equiv_children _ _ _ _ _ _ _ Heq H Ho Hp) as He. f_equal.
  destruct o as [a|], p as [b|]; cbn [get_child strip_child] in *; auto.
  - f_equal. by apply (IH i).
  - destruct (Hc _ _ Ho) as [Wa Ea].
    destruct (nonempty_key a Wa (resolved_child _ _ _ _ R Ho) Ea) as (k & v & Hk & Hv).
    by rewrite He in Hv.
  - destruct (Hc' _ _ Hp) as [Wb Eb].
    destruct (nonempty_key b Wb (resolved_child _ _ _ _ R' Hp) Eb) as (k & v & Hk & Hv).
    by rewrite <- He in Hv.
Qed.

Lemma canonical_branch cs c m :
  (forall i a, cs !! i = Some (Some a) -> forall m, wf a = true -> resolved a = true ->
     wf m = true -> resolved m = true ->
     (forall k, nibbles k -> get_internal a k = get_internal m k) -> strip a = strip m) ->
  wf (mkMptNode (Branch cs) c) = true -> resolved (mkMptNode (Branch cs) c) = true ->
  wf m = true -> resolved m = true ->
  (forall k, nibbles k -> get_internal (mkMptNode (Branch cs) c) k = get_internal m k) ->
  strip (mkMptNode (Branch cs) c) = strip m.
Proof.
  intros IH W R W' R' Heq.
  destruct (branch_two_keys cs c W R) as (i & j & s & t & v & w & Hne & Hi & Hj & Hv & Hw).
  rewrite Heq in Hv, Hw by done. destruct m as [[|ds|p u|p m|d] c']; try done.
  - cbn [strip]. do 2 f_equal. apply (strip_branch_eq cs ds c c'); auto.
    intros l a b Ha Hb Hab. pose proof W as (_ & _ & Hc)%wf_branch. pose proof W' as (_ & _ & Hc')%wf_branch.
    apply (IH l); auto.
    + by eapply Hc.
    + by apply (resolved_child _ _ _ _ R Ha).
    + by eapply Hc'.
    + by apply (resolved_child _ _ _ _ R' Hb).
  - apply wf_leaf in W' as (ns & Hns & ->).
    pose proof (has_leaf_inv _ _ _ _ Hns (ex_intro _ _ Hv)).
    pose proof (has_leaf_inv _ _ _ _ Hns (ex_intro _ _ Hw)). congruence.
  - apply wf_ext in W' as ((ns & Hns & Hnne & ->) & _ & _).
    destruct (has_ext_inv _ _ _ _ Hns (ex_intro _ _ Hv)) as [a Ha].
    destruct (has_ext_inv _ _ _ _ Hns (ex_intro _ _ Hw)) as [b Hb].
    destruct ns; simplify_eq/=.
Qed.

Lemma canonical_leaf p v c m :
  wf (mkMptNode (Leaf p v) c) = true -> resolved (mkMptNode (Leaf p v) c) = true ->
  wf m = true -> resolved m = true ->
  (forall k, nibbles k -> get_internal (mkMptNode (Leaf p v) c) k = get_internal m k) ->
  strip (mkMptNode (Leaf p v) c) = strip m.
Proof.
  intros W R W' R' Heq.
  apply wf_leaf in W as (ns & Hns & ->).
  assert (Hone : forall k, nibbles k -> has m k -> k = ns).
  { intros k Hk Hm. apply (has_leaf_inv ns v c); auto.
    apply (has_equiv m); auto. intros; symmetry; auto. }
  destruct m as [[|ds|p u|p m|d] c']; try done.
  - specialize (Heq ns Hns). rewrite get_leaf in Heq by done. by rewrite decide_True in Heq.
  - destruct (branch_two_keys ds c' W' R') as (i & j & s & t & x & y & Hne & Hi & Hj & Hx & Hy).
    pose proof (Hone _ Hi (ex_intro _ _ Hx)). pose proof (Hone _ Hj (ex_intro _ _ Hy)). congruence.
  - apply wf_leaf in W' as (ns' & Hns' & ->). pose proof (Heq ns Hns) as He.
    rewrite !get_leaf in He by done. rewrite decide_True in He by done. case_decide; simplify_eq. done.
  - apply wf_ext in W' as ((ns' & Hns' & _ & ->) & Hk' & Wm').
    destruct (ext_two_keys ns' m c' Hns' Hk' Wm' R') as (i & j & s & t & Hne & Hi & Hj & Hx & Hy).
    pose proof (Hone _ Hi Hx). pose proof (Hone _ Hj Hy). simplify_eq.
Qed.

Lemma canonical_ext p n c m :
  (forall m, wf n = true -> resolved n = true -> wf m = true -> resolved m = true ->
     (forall k, nibbles k -> get_internal n k = get_internal m k) -> strip n = strip m) ->
  wf (mkMptNode (Extension p n) c) = true -> resolved (mkMptNode (Extension p n) c) = true ->
  wf m = true -> resolved m = true ->
  (forall k, nibbles k -> get_internal (mkMptNode (Extension p n) c) k = get_internal m k) ->
  strip (mkMptNode (Extension p n) c) = strip m.
Proof.
  intros IH W R W' R' Heq.
  apply wf_ext in W as ((ns & Hns & Hnne & ->) & Hkind & Wn).
  destruct (ext_two_keys ns n c Hns Hkind Wn R) as (i & j & s & t & Hne & Hi & Hj & Hx & Hy).
  apply (has_equiv _ m) in Hx, Hy; auto. destruct m as [[|ds|p u|p m|d] c'].
  - by destruct Hx.
  - destruct (branch_two_keys ds c' W' R') as (i' & j' & s' & t' & x & y & Hne' & Hi' & Hj' & Hv & Hw).
    rewrite <- Heq in Hv, Hw by done.
    destruct (has_ext_inv _ _ _ _ Hns (ex_intro _ _ Hv)) as [a Ha].
    destruct (has_ext_inv _ _ _ _ Hns (ex_intro _ _ Hw)) as [b Hb]. destruct ns; simplify_eq/=.
  - apply wf_leaf in W' as (ns' & Hns' & ->).
    pose proof (has_leaf_inv _ _ _ _ Hns' Hx). pose proof (has_leaf_inv _ _ _ _ Hns' Hy). simplify_eq.
  - apply wf_ext in W' as ((ns' & Hns' & _ & ->) & Hk' & Wm').
    assert (ns' = ns) as ->.
    { destruct (has_ext_inv _ _ _ _ Hns' Hx) as [a Ha], (has_ext_inv _ _ _ _ Hns' Hy) as [b Hb].
      destruct (fork_prefix ns' ns s t a b i j) as [r ->]; auto.
      destruct (ext_two_keys ns' m c' Hns' Hk' Wm' R') as (i' & j' & s' & t' & Hne' & Hi' & Hj' & Hx' & Hy').
      apply (has_equiv _ (mkMptNode (Extension (to_encoded_path (ns' ++ r) false) n) c)) in Hx', Hy'; auto;
        try (intros; symmetry; auto).
      destruct (has_ext_inv _ _ _ _ Hns Hx') as [a' Ha'], (has_ext_inv _ _ _ _ Hns Hy') as [b' Hb'].
      destruct (fork_prefix (ns' ++ r) ns' s' t' a' b' i' j') as [q Hq]; auto.
      rewrite <- app_assoc in Hq. apply (f_equal length) in Hq. rewrite !length_app in Hq.
      destruct r; [by rewrite app_nil_r|simpl in Hq; lia]. }
    cbn [strip]. do 2 f_equal. apply IH; auto. intros k Hk.
    specialize (Heq (ns ++ k)). rewrite !get_ext, strip_prefix_app in Heq by done.
    apply Heq. by apply Forall_app.
  - done.
Qed.

Lemma canonical_internal n m :
  wf n = true -> resolved n = true -> wf m = true -> resolved m = true ->
  (forall k, nibbles k -> get_internal n k = get_internal m k) -> strip n = strip m.
Proof.
  revert m. induction n as [c|cs c IH|p v c|p n c IH|d c] using node_ind'; intros m W R W' R' Heq; try done.
  - destruct (is_empty m) eqn:E; [by_shape m|].
    destruct (nonempty_key m W' R' E) as (k & v & Hk & Hv). by rewrite <- Heq in Hv.
  - by apply canonical_branch.
  - by apply canonical_leaf.
  - apply canonical_ext; auto.
Qed.

(** ** Contents *)
Lemma elem_of_prefix_entries p l k v :
  (k, v) ∈ prefix_entries p l <-> exists t, k = p ++ t /\ (t, v) ∈ l.
Proof.
  unfold prefix_entries. rewrite list_elem_of_fmap. split.
  - intros ([t w] & Heq & Hin). simplify_eq/=. eauto.
  - intros (t & -> & Hin). by exists (t, v).
Qed.

Lemma elem_of_branch_entries f i cs k v :
  (k, v) ∈ branch_entries f i cs <->
  exists j m t, cs !! j = Some (Some m) /\ k = Z.of_nat (i + j) :: t /\ (t, v) ∈ f m.
Proof.
  revert i; induction cs as [|o cs IH]; intros i; cbn [branch_entries].
  - rewrite elem_of_nil. split; [done|]. by intros ([|j] & m & t & Hj & _).
  - assert ((k, v) ∈ branch_entries f (S i) cs <->
      exists j m t, (o :: cs) !! S j = Some (Some m) /\ k = Z.of_nat (i + S j) :: t /\ (t, v) ∈ f m) as Hrec.
    { rewrite IH. by setoid_rewrite Nat.add_succ_comm. }
    destruct o as [m|]; [rewrite elem_of_app, elem_of_prefix_entries|]; rewrite Hrec; split.
    + intros [(t & -> & Hin)|(j & m' & t & Hj & -> & Hin)].
      * exists 0%nat, m, t. by rewrite Nat.add_0_r.
      * by exists (S j), m', t.
    + intros ([|j] & m' & t & Hj & -> & Hin); simplify_eq/=.
      * left. exists t. by rewrite Nat.add_0_r.
      * right. by exists j, m', t.
    + intros (j & m' & t & Hj & -> & Hin). by exists (S j), m', t.
    + intros ([|j] & m' & t & Hj & -> & Hin); simplify_eq/=. by exists j, m', t.
Qed.

Lemma entries_spec n k v :
  wf n = true -> (k, v) ∈ entries n <-> nibbles k /\ get_internal n k = Ok (Some v).
Proof.
  revert k. induction n as [c|cs c IH|p old c|p m c IH|d c] using node_ind'; intros k W.
  - simpl. rewrite elem_of_nil. split; [done|by intros [_ ?]].
  - cbn [entries]. rewrite elem_of_branch_entries, get_branch.
    pose proof W as (Hl & _ & Hc)%wf_branch. split.
    + intros (j & m & t & Hj & -> & Hin). simpl. rewrite Nat2Z.id, Hj.
      assert (j < 16)%nat by (rewrite <- Hl; by eapply lookup_lt_Some).
      apply (IH j m Hj) in Hin as [Ht Hg]; [|by eapply Hc]. split; [constructor; [lia|done]|done].
    + intros [Hk Hg]. destruct k as [|i t]; [done|]. inversion Hk; subst.
      destruct (cs !! Z.to_nat i) as [[m|]|] eqn:Hi; try done.
      exists (Z.to_nat i), m, t. split_and!; [done| |].
      * simpl. by rewrite Z2Nat.id by lia.
      * apply (IH _ _ Hi); [by eapply Hc|done].
  - apply wf_leaf in W as (ns & Hns & ->). cbn [entries]. rewrite prefix_nibs_encoded, get_leaf by done.
    rewrite list_elem_of_singleton. split.
    + intros [= -> ->]. by rewrite decide_True.
    + intros [_ Hg]. case_decide; congruence.
  - apply wf_ext in W as ((ns & Hns & _ & ->) & _ & Wm). cbn [entries].
    rewrite prefix_nibs_encoded, get_ext, elem_of_prefix_entries by done. split.
    + intros (t & -> & Hin). apply IH in Hin as [Ht Hg]; auto.
      rewrite strip_prefix_app. split; [by apply Forall_app|done].
    + intros [Hk Hg]. destruct (strip_prefix ns k) as [t|] eqn:Es; [|done].
      apply strip_prefix_Some in Es as ->. apply Forall_app in Hk as [_ Ht].
      exists t. split; [done|]. by apply IH.
  - simpl. rewrite elem_of_nil. split; [done|by intros [_ ?]].
Qed.

Lemma contents_lookup n k v :
  wf n = true -> contents n !! k = Some v <-> nibbles k /\ get_internal n k = Ok (Some v).
Proof.
  intros W. rewrite <- entries_spec by done. unfold contents. split.
  - apply elem_of_list_to_map_2.
  - intros Hin. apply elem_of_list_to_map_1'; [|done].
    intros y Hy. apply entries_spec in Hin as [_ H1], Hy as [_ H2]; auto. congruence.
Qed.

Lemma get_contents n k :
  wf n = true -> resolved n = true -> nibbles k -> get_internal n k = Ok (contents n !! k).
Proof.
  intros W R Hk. destruct (resolved_total n k W R Hk) as [[v|] Hg]; rewrite Hg; f_equal.
  - symmetry. by apply contents_lookup.
  - destruct (contents n !! k) as [v|] eqn:E; [|done].
    apply contents_lookup in E as [_ E]; [congruence|done].
Qed.

(** ** Conflicts: when a mutator reports a value in a branch *)
Definition conflict (n : MptNode) (k : list Z) : Prop :=
  exists k' x t, nibbles k' /\ has n k' /\ (k = k' ++ x :: t \/ k' = k ++ x :: t).

Lemma conflict_branch cs c i m t :
  (i < 16)%nat -> cs !! i = Some (Some m) -> conflict m t ->
  conflict (mkMptNode (Branch cs) c) (Z.of_nat i :: t).
Proof.
  intros Hi Hm (k' & x & u & Hk' & [v Hv] & Hor). exists (Z.of_nat i :: k'), x, u. split_and!.
  - constructor; [lia|done].
  - exists v. by rewrite get_branch, Nat2Z.id, Hm.
  - destruct Hor as [->| ->]; auto.
Qed.

Lemma conflict_ext ns c m t :
  nibbles ns -> conflict m t ->
  conflict (mkMptNode (Extension (to_encoded_path ns false) m) c) (ns ++ t).
Proof.
  intros Hns (k' & x & u & Hk' & [v Hv] & Hor). exists (ns ++ k'), x, u. split_and!.
  - by apply Forall_app.
  - exists v. by rewrite get_ext, strip_prefix_app.
  - destruct Hor as [->| ->]; [left|right]; by rewrite <- app_assoc.
Qed.

Lemma conflict_branch_nil cs c :
  wf (mkMptNode (Branch cs) c) = true -> resolved (mkMptNode (Branch cs) c) = true ->
  conflict (mkMptNode (Branch cs) c) [].
Proof.
  intros W R. destruct (branch_two_keys cs c W R) as (i & _ & s & _ & v & _ & _ & Hi & _ & Hv & _).
  exists (i :: s), i, s. split_and!; auto. by exists v.
Qed.


Lemma updated_fork_err n s k l e v n' err : updated n (fork s k l e v) <> (n', Err err).
Proof.
  unfold updated, fork, set_child, unwrap. intros H.
  repeat (case_match; simplify_eq/=; try done).
Qed.

Lemma insert_conflict n k v n' :
  wf n = true -> resolved n = true -> nibbles k ->
  insert_internal n k v = (n', Err ValueInBranch) -> conflict n k.
Proof.
  revert k n'. induction n as [c|cs c IH|p old c|p m c IH|d c] using node_ind'; intros k n' W R Hk Hi; try done.
  - destruct k as [|i t]; [by apply conflict_branch_nil|]. inversion Hk; subst.
    pose proof W as (Hl & _ & Hc)%wf_branch. destruct (nibble_lookup cs i Hl) as [o Ho]; [done|].
    rewrite (insert_branch _ _ _ _ _ _ Ho) in Hi. destruct o as [m|]; cbn [insert_child] in Hi; [|done].
    destruct (insert_internal m t v) as [m' r] eqn:Em.
    destruct r as [[]|e|]; simplify_eq. rewrite <- (Z2Nat.id i) by lia.
    apply conflict_branch with m; [lia|done|]. destruct (Hc _ _ Ho).
    by apply (IH _ _ Ho t m'); eauto using resolved_child.
  - apply wf_leaf in W as (ns & Hns & ->). cbn [insert_internal] in Hi.
    rewrite prefix_nibs_encoded in Hi by done. cbv zeta in Hi.
    assert (has (mkMptNode (Leaf (to_encoded_path ns true) old) c) ns) as Hh
      by (exists old; rewrite get_leaf by done; by rewrite decide_True).
    destruct (lcp_cases ns k) as [(-> & H1 & H2)|[(x & t & -> & H1 & H2)|
      [(x & t & -> & H1 & H2)|(p & x & s & y & t & -> & -> & Hne & Hl & H1 & H2)]]].
    + rewrite H1, Nat.eqb_refl in Hi. cbn [andb] in Hi. case_decide; by simplify_eq/=.
    + exists ns, x, t. auto.
    + exists (k ++ x :: t), x, t. auto.
    + apply Nat.eqb_neq in H1, H2. rewrite H1, H2 in Hi. by apply updated_fork_err in Hi.
  - pose proof W as ((ns & Hns & Hnne & ->) & Hkind & Wm)%wf_ext. cbn [insert_internal] in Hi.
    rewrite prefix_nibs_encoded in Hi by done. cbv zeta in Hi.
    destruct (lcp_cases ns k) as [(-> & H1 & _)|[(x & t & -> & H1 & _)|
      [(x & t & -> & H1 & H2)|(p & x & s & y & t & -> & -> & Hne & Hl & H1 & H2)]]].
    + rewrite H1, Nat.eqb_refl, drop_all in Hi. destruct (insert_internal m [] v) as [m' r] eqn:Em.
      destruct r as [[]|e|]; simplify_eq. rewrite <- (app_nil_r k) at 2. apply conflict_ext; eauto.
    + rewrite H1, Nat.eqb_refl, drop_app_length in Hi. apply Forall_app in Hk as [_ Ht].
      destruct (insert_internal m (x :: t) v) as [m' r] eqn:Em.
      destruct r as [[]|e|]; simplify_eq. apply conflict_ext; eauto.
    + destruct (nonempty_key _ W R eq_refl) as (k' & w & Hk' & Hw).
      destruct (has_ext_inv _ _ _ _ Hns (ex_intro _ _ Hw)) as [u ->]. rewrite <- app_assoc in *.
      exists (k ++ (x :: t) ++ u), x, (t ++ u). split_and!; auto. by exists w.
    + apply Nat.eqb_neq in H1, H2. rewrite H1, H2 in Hi. by apply updated_fork_err in Hi.
Qed.

Lemma updated_err n d n' e : updated n d = (n', Err e) -> d = Err e.
Proof. destruct d; simpl; congruence. Qed.

Lemma collapse_no_err cs e : collapse cs <> Err e.
Proof.
  unfold collapse, prefix_nibs. repeat (case_match; simplify_eq/=; try done).
Qed.

Lemma merge_no_err p ns m e : merge_extension p ns m <> Err e.
Proof. unfold merge_extension, prefix_nibs. repeat (case_match; simplify_eq/=; try done). Qed.

Lemma delete_conflict n k n' :
  wf n = true -> resolved n = true -> nibbles k ->
  delete_internal n k = (n', Err ValueInBranch) -> conflict n k.
Proof.
  revert k n'. induction n as [c|cs c IH|p old c|p m c IH|d c] using node_ind'; intros k n' W R Hk Hd; try done.
  - destruct k as [|i t]; [by apply conflict_branch_nil|]. inversion Hk; subst.
    pose proof W as (Hl & _ & Hc)%wf_branch. destruct (nibble_lookup cs i Hl) as [o Ho]; [done|].
    rewrite (delete_branch _ _ _ _ _ Ho) in Hd. destruct o as [m|]; cbn [delete_child] in Hd; [|done].
    destruct (delete_internal m t) as [m' r] eqn:Em.
    destruct r as [[]|e|]; simplify_eq; [by apply updated_err, collapse_no_err in Hd|].
    rewrite <- (Z2Nat.id i) by lia. destruct (Hc _ _ Ho).
    apply conflict_branch with m; [lia|done|]. by apply (IH _ _ Ho t m'); eauto using resolved_child.
  - apply wf_leaf in W as (ns & Hns & ->). cbn [delete_internal] in Hd.
    rewrite prefix_nibs_encoded in Hd by done. by case_decide.
  - apply wf_ext in W as ((ns & Hns & Hnne & ->) & Hkind & Wm). cbn [delete_internal] in Hd.
    rewrite prefix_nibs_encoded in Hd by done.
    destruct (strip_prefix ns k) as [t|] eqn:Es; [|done]. apply strip_prefix_Some in Es as ->.
    apply Forall_app in Hk as [_ Ht]. destruct (delete_internal m t) as [m' r] eqn:Em.
    destruct r as [[]|e|]; simplify_eq; [by apply updated_err, merge_no_err in Hd|].
    apply conflict_ext; eauto.
Qed.

(** ** The map interface *)

(** A well-formed trie of which no part is truncated, with keys of [l] bytes. *)
Definition full_trie (l : nat) (n : MptNode) : Prop :=
  wf n = true /\ resolved n = true /\ fixed_keys l n.

(** A loop that inserts a list of entries and ignores the flags. *)
Fixpoint inserts (n : MptNode) (l : list (bytes * bytes)) : MptNode :=
  match l with
  | [] => n
  | (key, value) :: l' => inserts (insert n key value).1 l'
  end.

Lemma fixed_keys_no_conflict l n k :
  full_trie l n -> length k = (2 * l)%nat -> ~ conflict n k.
Proof.
  intros (W & _ & F) Hl (k' & x & t & Hk' & [v Hv] & Hor).
  assert (contents n !! k' = Some v) as Hc by (by apply contents_lookup).
  apply F in Hc. destruct Hor as [->| ->]; rewrite length_app in *; simpl in *; lia.
Qed.

Lemma contents_ext (n' : MptNode) (f : gmap (list Z) bytes) :
  wf n' = true -> resolved n' = true ->
  (forall k v, f !! k = Some v -> nibbles k) ->
  (forall k, nibbles k -> get_internal n' k = Ok (f !! k)) -> contents n' = f.
Proof.
  intros W R Hf Hg. apply map_eq. intros k. apply option_eq. intros v.
  rewrite contents_lookup by done. split.
  - intros [Hk Hv]. rewrite Hg in Hv by done. congruence.
  - intros Hv. pose proof (Hf _ _ Hv). rewrite Hg by done. by rewrite Hv.
Qed.

Lemma resolved_no_err n k e :
  wf n = true -> resolved n = true -> nibbles k -> get_internal n k <> Err e.
Proof. intros W R Hk. destruct (resolved_total n k W R Hk) as [o ->]. done. Qed.

Lemma key_length l key : length key = l -> length (to_nibs key) = (2 * l)%nat.
Proof. intros <-. apply to_nibs_length. Qed.


(** The contents after an update that changes lookups to those of a map. *)
Lemma full_update (l : nat) (n' : MptNode) (f : gmap (list Z) bytes) :
  wf n' = true ->
  (forall k v, f !! k = Some v -> nibbles k /\ length k = (2 * l)%nat) ->
  (forall k, nibbles k -> get_internal n' k = Ok (f !! k)) ->
  full_trie l n' /\ contents n' = f.
Proof.
  intros W' Hf Hg.
  assert (R' : resolved n' = true) by (apply total_resolved; eauto).
  assert (Hc : contents n' = f) by (apply contents_ext; auto; intros k v Hv; by apply Hf in Hv as [? _]).
  split_and!; auto. split_and!; auto. unfold fixed_keys. rewrite Hc. intros k v Hv. by apply Hf in Hv as [_ ?].
Qed.

Lemma full_keys l n k v :
  full_trie l n -> contents n !! k = Some v -> nibbles k /\ length k = (2 * l)%nat.
Proof.
  intros (W & _ & Hfix) Hv. split; [by apply contents_lookup in Hv as [? _]|by eapply Hfix].
Qed.

Lemma insert_full l n key v :
  full_trie l n -> bytes_ok key -> length key = l ->
  exists n', insert_internal n (to_nibs key) v =
      (n', Ok (negb (bool_decide (contents n !! to_nibs key = Some v)))) /\
    full_trie l n' /\ contents n' = <[to_nibs key := v]> (contents n).
Proof.
  intros F Hb Hl. pose proof F as (W & R & _). pose proof (to_nibs_nibbles _ Hb) as Hk.
  pose proof (insert_internal_post n (to_nibs key) v W Hk) as Hp.
  destruct (insert_internal n (to_nibs key) v) as [n' r] eqn:Ei.
  exists n'. pose proof (get_contents n _ W R Hk) as Hgk. destruct r as [[]|e|]; simpl in Hp.
  - destruct Hp as (W' & _ & _ & Hold & Hg). rewrite bool_decide_false by congruence.
    split; [done|]. apply (full_update l); auto.
    + intros k w Hkw. apply lookup_insert_Some in Hkw as [[<- _]|[_ Hkw]]; [|by eapply full_keys].
      split; [done|by apply key_length].
    + intros k' Hk'. rewrite Hg by done. case_decide; [subst; by rewrite lookup_insert_eq|].
      rewrite lookup_insert_ne by done. by apply get_contents.
  - destruct Hp as [-> Hg]. rewrite Hgk in Hg. injection Hg as Hg.
    rewrite bool_decide_true, insert_id by done. done.
  - destruct Hp as [-> [->|Hg]]; [|by apply resolved_no_err in Hg].
    apply insert_conflict in Ei; auto. by eapply fixed_keys_no_conflict in Ei; [|done|apply key_length].
  - done.
Qed.

Lemma delete_full l n key :
  full_trie l n -> bytes_ok key -> length key = l ->
  exists n', delete_internal n (to_nibs key) =
      (n', Ok (bool_decide (is_Some (contents n !! to_nibs key)))) /\
    full_trie l n' /\ contents n' = base.delete (to_nibs key) (contents n).
Proof.
  intros F Hb Hl. pose proof F as (W & R & _). pose proof (to_nibs_nibbles _ Hb) as Hk.
  pose proof (delete_internal_post n (to_nibs key) W Hk) as Hp.
  destruct (delete_internal n (to_nibs key)) as [n' r] eqn:Ei.
  exists n'. pose proof (get_contents n _ W R Hk) as Hgk. destruct r as [[]|e|]; simpl in Hp.
  - destruct Hp as (W' & [v Hv] & Hg). rewrite Hgk in Hv. injection Hv as Hv.
    rewrite bool_decide_true by eauto. split; [done|]. apply (full_update l); auto.
    + intros k w Hkw. apply lookup_delete_Some in Hkw as [_ Hkw]. by eapply full_keys.
    + intros k' Hk'. rewrite Hg by done. case_decide; [subst; by rewrite lookup_delete_eq|].
      rewrite lookup_delete_ne by done. by apply get_contents.
  - destruct Hp as [-> Hg]. rewrite Hgk in Hg. injection Hg as Hg.
    rewrite bool_decide_false by (rewrite Hg; apply is_Some_None). by rewrite delete_id.
  - destruct Hp as [-> [->|Hg]]; [|by apply resolved_no_err in Hg].
    apply delete_conflict in Ei; auto. by eapply fixed_keys_no_conflict in Ei; [|done|apply key_length].
  - done.
Qed.

(** ** Properties *)

(** C1: on a fully resolved well-formed trie whose keys have one length,
    [insert] of a non-empty value always returns [Ok], keeps the trie
    well-formed and resolved, changes its contents exactly as a finite map
    insertion does, and returns [false] only when that value was already stored. *)
Theorem insert_refines l n key value :
  full_trie l n -> bytes_ok key -> length key = l -> value <> [] ->
  exists n', insert n key value =
      (n', Ok (negb (bool_decide (contents n !! to_nibs key = Some value)))) /\
    full_trie l n' /\ contents n' = <[to_nibs key := value]> (contents n).
Proof.
  intros F Hb Hl Hv. unfold insert. destruct value; [done|]. by apply insert_full.
Qed.

(** C2: on a fully resolved well-formed trie whose keys have one length,
    [delete] always returns [Ok], keeps the trie well-formed (so branches that
    lose a child are collapsed), removes exactly that key from the contents, and
    returns whether the key was present. *)
Theorem delete_refines l n key :
  full_trie l n -> bytes_ok key -> length key = l ->
  exists n', delete n key = (n', Ok (bool_decide (is_Some (contents n !! to_nibs key)))) /\
    full_trie l n' /\ contents n' = base.delete (to_nibs key) (contents n).
Proof. apply delete_full. Qed.

(** On a fully resolved well-formed trie [get] answers every key with the
    entry of the contents, present or absent. *)
Theorem get_refines n key :
  wf n = true -> resolved n = true -> bytes_ok key ->
  get n key = Ok (contents n !! to_nibs key).
Proof. intros W R Hb. apply get_contents; auto using to_nibs_nibbles. Qed.

(** C38: insertion in any sparse well-formed trie (parts may be truncated to
    digests) never panics; when it reports a change the trie stays well-formed,
    the key reads back and every other key, truncated ones included, answers as
    before; in every other case, errors included, the trie is unchanged. *)
Theorem insert_sparse n key value n' r :
  wf n = true -> bytes_ok key -> insert_rlp_encoded n key value = (n', r) ->
  r <> Panic /\ (r <> Ok true -> n' = n) /\
  (r = Ok true -> wf n' = true /\ forall key', bytes_ok key' ->
     get n' key' = if decide (key' = key) then Ok (Some value) else get n key').
Proof.
  intros W Hb Hi. pose proof (insert_internal_post n (to_nibs key) value W (to_nibs_nibbles _ Hb)) as Hp.
  unfold insert_rlp_encoded in Hi. rewrite Hi in Hp. destruct r as [[]|e|]; simpl in Hp; [| | |done].
  - destruct Hp as (W' & _ & _ & _ & Hg). split_and!; [done|done|]. intros _. split; [done|].
    intros key' Hk'. unfold get. rewrite Hg by auto using to_nibs_nibbles.
    repeat case_decide; subst; try done. exfalso. auto using to_nibs_inj.
  - destruct Hp as [-> _]. by split_and!.
  - destruct Hp as [-> _]. by split_and!.
Qed.

(** Deletion in any sparse well-formed trie never panics (the [unwrap] of
    the remaining children and the [unreachable!] of the collapse are not
    reached); when it reports a change the key is gone and every other key
    answers as before; in every other case the trie is unchanged. *)
Theorem delete_sparse n key n' r :
  wf n = true -> bytes_ok key -> delete n key = (n', r) ->
  r <> Panic /\ (r <> Ok true -> n' = n) /\ (r = Ok false -> get n key = Ok None) /\
  (r = Ok true -> wf n' = true /\ forall key', bytes_ok key' ->
     get n' key' = if decide (key' = key) then Ok None else get n key').
Proof.
  intros W Hb Hi. pose proof (delete_internal_post n (to_nibs key) W (to_nibs_nibbles _ Hb)) as Hp.
  unfold delete in Hi. rewrite Hi in Hp. destruct r as [[]|e|]; simpl in Hp; [| | |done].
  - destruct Hp as (W' & _ & Hg). split_and!; [done|done|done|]. intros _. split; [done|].
    intros key' Hk'. unfold get. rewrite Hg by auto using to_nibs_nibbles.
    repeat case_decide; subst; try done. exfalso. auto using to_nibs_inj.
  - destruct Hp as [-> ?]. by split_and!.
  - destruct Hp as [-> _]. by split_and!.
Qed.

Lemma key_pairs_NoDup l (es : list (bytes * bytes)) :
  NoDup es.*1 -> Forall (fun kv => bytes_ok kv.1 /\ length kv.1 = l /\ kv.2 <> []) es ->
  NoDup (map (fun kv => (to_nibs kv.1, kv.2)) es).*1.
Proof.
  induction es as [|[k v] es IH]; simpl; intros Hnd Hes; [constructor|].
  apply NoDup_cons in Hnd as [Hni Hnd]. inversion Hes as [|? ? (Hb & _ & _) Hes']; subst.
  constructor; [|auto]. rewrite <- list_fmap_compose.
  intros ([k' v'] & Heq & Hin)%list_elem_of_fmap. simpl in *. apply Hni.
  rewrite Forall_forall in Hes'. destruct (Hes' _ Hin) as (Hb' & _).
  apply to_nibs_inj in Heq as ->; auto. apply list_elem_of_fmap. by exists (k', v').
Qed.

Lemma inserts_contents l n es :
  full_trie l n -> NoDup es.*1 ->
  Forall (fun kv => bytes_ok kv.1 /\ length kv.1 = l /\ kv.2 <> []) es ->
  full_trie l (inserts n es) /\
  contents (inserts n es) = list_to_map (map (fun kv => (to_nibs kv.1, kv.2)) es) ∪ contents n.
Proof.
  revert n. induction es as [|[key v] es IH]; intros n F Hnd Hes; simpl.
  - split; [done|]. by rewrite (left_id_L ∅ (∪)).
  - inversion Hes as [|? ? (Hb & Hl & Hv) Hes']; subst. apply NoDup_cons in Hnd as [Hni Hnd]. simpl in *.
    destruct v as [|b v]; [done|]. destruct (insert_full _ n key (b :: v) F Hb eq_refl) as (n' & Hi & F' & Hc).
    unfold insert. rewrite Hi. simpl. destruct (IH n' F' Hnd Hes') as [F'' ->]. split; [done|].
    rewrite Hc, <- insert_union_r, <- insert_union_l; [done|].
    apply not_elem_of_list_to_map_1.
    assert (NoDup ((key, b :: v) :: es).*1) as Hnd' by (by apply NoDup_cons).
    pose proof (key_pairs_NoDup _ _ Hnd' Hes) as Hk. by apply NoDup_cons in Hk as [? _].
Qed.


(** The shape of a resolved trie is determined by its contents, so
    inserting the same entries with distinct keys in two different orders
    produces the same trie up to cached references, whatever order a hash map
    iterates in. *)
Theorem insert_order_irrelevant l n es es' :
  full_trie l n -> NoDup es.*1 -> es ≡ₚ es' ->
  Forall (fun kv => bytes_ok kv.1 /\ length kv.1 = l /\ kv.2 <> []) es ->
  strip (inserts n es) = strip (inserts n es').
Proof.
  intros F Hnd Hp Hes.
  assert (NoDup es'.*1) as Hnd' by (by rewrite <- Hp).
  assert (Forall (fun kv => bytes_ok kv.1 /\ length kv.1 = l /\ kv.2 <> []) es') as Hes' by (by rewrite <- Hp).
  destruct (inserts_contents l n es F Hnd Hes) as [(W1 & R1 & _) C1].
  destruct (inserts_contents l n es' F Hnd' Hes') as [(W2 & R2 & _) C2].
  apply canonical_internal; auto. intros k Hk. rewrite !get_contents, C1, C2 by done.
  do 3 f_equal. apply list_to_map_proper; [by eapply key_pairs_NoDup|by apply Permutation_map].
Qed.

(** ** Witnesses *)
Definition sample_entries : list (bytes * bytes) :=
  [([0x12; 0x34], [1]); ([0x12; 0x35], [2; 3]); ([0xab; 0xcd], [4])].
Definition sample : MptNode := inserts default sample_entries.

(** A trie with one sub-trie truncated to its digest. *)
Definition sparse_sample : MptNode :=
  from (Branch (<[1%nat := Some (from (Digest [7]))]>
    (<[10%nat := Some (from (Leaf (to_encoded_path [0xb; 0xc; 0xd] true) [4]))]>
      (replicate 16 None)))).

Ltac byte_list := repeat constructor; lia.

Lemma sample_full : full_trie 2 sample.
Proof.
  split; [reflexivity|split; [reflexivity|]].
  apply (bool_decide_unpack (map_Forall (fun k _ => length k = 4%nat) (contents sample))).
  vm_compute. exact I.
Qed.

Lemma insert_refines_witness :
  exists n', insert sample [0xab; 0xce] [9] =
      (n', Ok (negb (bool_decide (contents sample !! to_nibs [0xab; 0xce] = Some [9])))) /\
    full_trie 2 n' /\ contents n' = <[to_nibs [0xab; 0xce] := [9]]> (contents sample).
Proof. apply (insert_refines 2 sample); [exact sample_full|byte_list|reflexivity|discriminate]. Defined.

Lemma delete_refines_witness :
  exists n', delete sample [0x12; 0x34] =
      (n', Ok (bool_decide (is_Some (contents sample !! to_nibs [0x12; 0x34])))) /\
    full_trie 2 n' /\ contents n' = base.delete (to_nibs [0x12; 0x34]) (contents sample).
Proof. apply (delete_refines 2 sample); [exact sample_full|byte_list|reflexivity]. Defined.

Lemma get_refines_witness : get sample [0x12; 0x35] = Ok (contents sample !! to_nibs [0x12; 0x35]).
Proof. apply get_refines; [reflexivity|reflexivity|byte_list]. Defined.

Lemma insert_sparse_witness :
  let '(n', r) := insert_rlp_encoded sparse_sample [0xab; 0xce] [5] in
  r = Ok true /\ wf n' = true /\ get n' [0x12; 0x34] = Err (NodeNotResolved [7]).
Proof.
  destruct (insert_rlp_encoded sparse_sample [0xab; 0xce] [5]) as [n' r] eqn:E.
  destruct (insert_sparse sparse_sample [0xab; 0xce] [5] n' r) as (_ & _ & H);
    [reflexivity|byte_list|exact E|].
  assert (r = Ok true) as -> by (vm_compute in E; congruence).
  destruct (H eq_refl) as [W Hg]. split; [done|split; [done|]].
  rewrite Hg by byte_list. reflexivity.
Defined.

Lemma delete_sparse_witness :
  let '(n', r) := delete sparse_sample [0xab; 0xcd] in
  r = Ok true /\ wf n' = true /\ get n' [0x12; 0x34] = Err (NodeNotResolved [7]).
Proof.
  destruct (delete sparse_sample [0xab; 0xcd]) as [n' r] eqn:E.
  destruct (delete_sparse sparse_sample [0xab; 0xcd] n' r) as (_ & _ & _ & H);
    [reflexivity|byte_list|exact E|].
  assert (r = Ok true) as -> by (vm_compute in E; congruence).
  destruct (H eq_refl) as [W Hg]. split; [done|split; [done|]].
  rewrite Hg by byte_list. reflexivity.
Defined.

Lemma insert_order_irrelevant_witness :
  strip (inserts sample [([0x55; 0x66], [1]); ([0x56; 0x66], [2])]) =
  strip (inserts sample [([0x56; 0x66], [2]); ([0x55; 0x66], [1])]).
Proof.
  apply (insert_order_irrelevant 2 sample); [exact sample_full| | |].
  - apply (bool_decide_unpack (NoDup _)). vm_compute. exact I.
  - apply Permutation_swap.
  - repeat constructor; simpl; try lia; discriminate.
Defined.
