(* ===== verification/MptHash.v ===== *)
(** Encoding, references and hashes of trie nodes ([lib/src/primitives/mpt.rs]):
    the RLP encoding of a node with the references of its children, the cached
    references and their coherence under insertion and deletion, the root hash
    as a function of the contents, and decoding.

    Keccak-256, [alloy_rlp] and the [rlp] crate are parameters: classes of
    functions with the documented laws the code relies on. *)

From stdpp Require Import base list list_numbers gmap fin_maps strings.
From Stdlib Require Import ZArith Lia.
From S2P Require Import Prelude Nibbles Mpt MptWf MptSpec.
Open Scope Z_scope.

(** ** Third-party functions *)

(** [alloy_primitives::keccak256]. *)
Class Keccak := keccak : bytes -> bytes.

(** [alloy_rlp]: list headers and byte strings, with their lengths. *)
Class AlloyRlp := {
  rlp_header : Z -> bytes;          (** [Header { list: true, payload_length }.encode] *)
  rlp_slice : bytes -> bytes;       (** [<[u8]>::encode] *)
  rlp_slice_length : bytes -> Z;    (** [<[u8]>::length] *)
  length_of_length : Z -> Z
}.

Class AlloyRlpLaws `{AlloyRlp} := {
  rlp_header_length n : Z.of_nat (length (rlp_header n)) = length_of_length n;
  rlp_slice_length_ok b : Z.of_nat (length (rlp_slice b)) = rlp_slice_length b;
  length_of_length_short n : 0 <= n < 56 -> length_of_length n = 1;
  rlp_slice_32 b : length b = 32%nat -> rlp_slice b = 0xa0 :: b;
  rlp_slice_nil : rlp_slice [] = [0x80]
}.

Definition EMPTY_STRING_CODE : Z := 0x80.

Definition EMPTY_ROOT : bytes :=
  [0x56; 0xe8; 0x1f; 0x17; 0x1b; 0xcc; 0x55; 0xa6; 0xff; 0x83; 0x45; 0xe6; 0x92; 0xc0; 0xf8; 0x6e;
   0x5b; 0x48; 0xe0; 0x1b; 0x99; 0x6c; 0xad; 0xc0; 0x01; 0x62; 0x2f; 0xb5; 0xe3; 0x63; 0xb4; 0x21].
Definition KECCAK_EMPTY : bytes :=
  [0xc5; 0xd2; 0x46; 0x01; 0x86; 0xf7; 0x23; 0x3c; 0x92; 0x7e; 0x7d; 0xb2; 0xdc; 0xc7; 0x03; 0xc0;
   0xe5; 0x00; 0xb6; 0x53; 0xca; 0x82; 0x27; 0x3b; 0x7b; 0xfa; 0xd8; 0x04; 0x5d; 0x85; 0xa4; 0x70].
Definition ZERO : bytes := replicate 32 0.

(** [StateAccount] and its default. *)
Record StateAccount := mkStateAccount {
  acc_nonce : Z;
  acc_balance : Z;
  acc_storage_root : bytes;
  acc_code_hash : bytes
}.
Definition StateAccount_default : StateAccount := mkStateAccount 0 0 EMPTY_ROOT KECCAK_EMPTY.

Section encoding.
Context `{KK : Keccak} `{AR : AlloyRlp}.

(** ** Encoding *)

(** [reference_encode] and [reference_length], on the reference of the node. *)
Definition put_reference (r : MptNodeReference) : bytes :=
  match r with
  | Bytes b => b
  | RefDigest digest => (EMPTY_STRING_CODE + 32) :: digest
  end.
Definition reference_len (r : MptNodeReference) : Z :=
  match r with
  | Bytes b => Z.of_nat (length b)
  | RefDigest _ => 1 + 32
  end.

(** [payload_length], [encode] and [calc_reference] with the function that
    gives the reference of a child. *)
Definition payload_length_with (ref : MptNode -> MptNodeReference) (d : MptNodeData) : Z :=
  match d with
  | Null => 0
  | Branch nodes =>
      1 + foldr Z.add 0 (map (fun child => match child with
                                           | Some node => reference_len (ref node)
                                           | None => 1
                                           end) nodes)
  | Leaf prefix value => rlp_slice_length prefix + rlp_slice_length value
  | Extension prefix node => rlp_slice_length prefix + reference_len (ref node)
  | Digest _ => 32
  end.

Definition encode_with (ref : MptNode -> MptNodeReference) (d : MptNodeData) : bytes :=
  match d with
  | Null => [EMPTY_STRING_CODE]
  | Branch nodes =>
      rlp_header (payload_length_with ref (Branch nodes))
      ++ concat (map (fun child => match child with
                                   | Some node => put_reference (ref node)
                                   | None => [EMPTY_STRING_CODE]
                                   end) nodes)
      ++ [EMPTY_STRING_CODE]
  | Leaf prefix value =>
      rlp_header (payload_length_with ref (Leaf prefix value)) ++ rlp_slice prefix ++ rlp_slice value
  | Extension prefix node =>
      rlp_header (payload_length_with ref (Extension prefix node))
      ++ rlp_slice prefix ++ put_reference (ref node)
  | Digest digest => rlp_slice digest
  end.

Definition calc_reference_with (ref : MptNode -> MptNodeReference) (d : MptNodeData) : MptNodeReference :=
  match d with
  | Null => Bytes [EMPTY_STRING_CODE]
  | Digest digest => RefDigest digest
  | _ =>
      let encoded := encode_with ref d in
      if (length encoded <? 32)%nat then Bytes encoded else RefDigest (keccak encoded)
  end.

(** [reference]: the cached reference when there is one. *)
Fixpoint reference (n : MptNode) : MptNodeReference :=
  let '(mkMptNode d cache) := n in
  match cache with
  | Some r => r
  | None => calc_reference_with reference d
  end.

Definition calc_reference (n : MptNode) : MptNodeReference := calc_reference_with reference (data n).
Definition encode (n : MptNode) : bytes := encode_with reference (data n).
Definition payload_length (n : MptNode) : Z := payload_length_with reference (data n).
Definition node_length (n : MptNode) : Z :=
  let payload_length := payload_length n in
  payload_length + length_of_length payload_length.
Definition reference_encode (n : MptNode) : bytes := put_reference (reference n).
Definition reference_length (n : MptNode) : Z := reference_len (reference n).

Definition hash (n : MptNode) : bytes :=
  match data n with
  | Null => EMPTY_ROOT
  | _ => match reference n with RefDigest digest => digest | Bytes b => keccak b end
  end.

(** The heap effect of [reference]: [get_or_insert_with] stores the reference
    of a node without one, after its children stored theirs. *)
Fixpoint fill (n : MptNode) : MptNode :=
  let '(mkMptNode d cache) := n in
  match cache with
  | Some _ => n
  | None =>
      mkMptNode
        match d with
        | Branch nodes =>
            Branch (map (fun o => match o with Some m => Some (fill m) | None => None end) nodes)
        | Extension prefix child => Extension prefix (fill child)
        | d => d
        end
        (Some (reference n))
  end.

(** ** Specification: references without caches *)
Fixpoint ref_spec (n : MptNode) : MptNodeReference :=
  let '(mkMptNode d _) := n in calc_reference_with ref_spec d.

(** Every cached reference of the trie is the one its data has. *)
Fixpoint coherent (n : MptNode) : bool :=
  let '(mkMptNode d cache) := n in
  match cache with Some r => bool_decide (r = ref_spec n) | None => true end
  && match d with
     | Branch nodes => forallb (fun o => match o with Some m => coherent m | None => true end) nodes
     | Extension _ child => coherent child
     | _ => true
     end.

(** ** Coherence *)
Lemma calc_reference_ext f g d :
  match d with
  | Branch nodes => forall i m, nodes !! i = Some (Some m) -> f m = g m
  | Extension _ m => f m = g m
  | _ => True
  end -> calc_reference_with f d = calc_reference_with g d.
Proof.
  destruct d as [|nodes| |p m|]; simpl; intros Hfg; auto; [|by rewrite Hfg].
  assert (forall {A} (F : MptNodeReference -> A) (z : A),
    map (fun child => match child with Some node => F (f node) | None => z end) nodes =
    map (fun child => match child with Some node => F (g node) | None => z end) nodes) as Hmap.
  { intros A F z. apply map_ext_in. intros [m|] Hin; auto. f_equal.
    apply list_elem_of_In, list_elem_of_lookup in Hin as [i Hi]. eauto. }
  by rewrite (Hmap _ reference_len 1), (Hmap _ put_reference [EMPTY_STRING_CODE]).
Qed.

Lemma coherent_branch nodes c :
  coherent (mkMptNode (Branch nodes) c) = true <->
  match c with Some r => r = ref_spec (mkMptNode (Branch nodes) c) | None => True end /\
  forall i m, nodes !! i = Some (Some m) -> coherent m = true.
Proof.
  cbn [coherent]. rewrite andb_true_iff, forallb_forall. apply Morphisms_Prop.and_iff_morphism.
  - destruct c; [by rewrite bool_decide_eq_true|done].
  - split.
    + intros Hall i m Hi. apply (Hall (Some m)), list_elem_of_In. by eapply list_elem_of_lookup_2.
    + intros Hall [m|] Hin; auto. apply list_elem_of_In, list_elem_of_lookup in Hin as [i Hi]. eauto.
Qed.

Lemma coherent_reference n : coherent n = true -> reference n = ref_spec n.
Proof.
  induction n as [c|cs c IH|p v c|p m c IH|d c] using node_ind'; intros C.
  2: { apply coherent_branch in C as [Hc Hall]. destruct c; [done|].
       cbn [reference ref_spec]. apply calc_reference_ext. eauto. }
  all: cbn [coherent] in C; breflect; destruct c as [r|]; cbn [reference ref_spec] in *; breflect; auto.
  apply calc_reference_ext. auto.
Qed.

(** ** Updates keep the caches coherent *)
Lemma coherent_fresh_branch nodes :
  coherent (from (Branch nodes)) = true <->
  forall i m, nodes !! i = Some (Some m) -> coherent m = true.
Proof. unfold from. rewrite coherent_branch. split; [by intros [_ ?]|done]. Qed.

Lemma coherent_child nodes c i m :
  coherent (mkMptNode (Branch nodes) c) = true -> nodes !! i = Some (Some m) -> coherent m = true.
Proof. intros [_ ?]%coherent_branch. eauto. Qed.

Lemma coherent_ext_child p m c : coherent (mkMptNode (Extension p m) c) = true -> coherent m = true.
Proof. cbn [coherent]. intros [_ ?]%andb_prop. done. Qed.

Lemma coherent_set_child nodes i m nodes' :
  (forall j m, nodes !! j = Some (Some m) -> coherent m = true) -> coherent m = true ->
  set_child nodes i m = Ok nodes' ->
  forall j m, nodes' !! j = Some (Some m) -> coherent m = true.
Proof.
  unfold set_child. intros Hall Hm Hs j m' Hj. case_match; simplify_eq.
  apply list_lookup_insert_Some in Hj as [(_ & ? & _)|[_ Hj]]; [congruence|eauto].
Qed.

Lemma coherent_fork s k l e v d :
  coherent e = true -> fork s k l e v = Ok d -> coherent (from d) = true.
Proof.
  intros Ce Hf. unfold fork in Hf.
  destruct (s !! l) as [x|]; [|done]. cbn [unwrap mbind outcome_bind] in Hf.
  destruct (set_child (replicate 16 None) x e) as [n1| |] eqn:E1; [|done|done]. cbn [mbind outcome_bind] in Hf.
  destruct (k !! l) as [y|]; [|done]. cbn [unwrap mbind outcome_bind] in Hf.
  destruct (set_child n1 y _) as [n2| |] eqn:E2; [|done|done]. cbn [mbind outcome_bind] in Hf.
  assert (coherent (from (Branch n2)) = true) as C2.
  { apply coherent_fresh_branch. eapply coherent_set_child; [| |exact E2]; [|reflexivity].
    eapply coherent_set_child; [| |exact E1]; [|exact Ce].
    intros j m Hj. by apply lookup_replicate_1 in Hj as [? _]. }
  injection Hf as <-. by destruct (0 <? l)%nat.
Qed.

Lemma coherent_updated n d n' :
  updated n d = (n', Ok true) -> exists d', d = Ok d' /\ n' = from d'.
Proof. destruct d; simpl; intros; simplify_eq. eauto. Qed.

Lemma coherent_set nodes c i m :
  coherent (mkMptNode (Branch nodes) c) = true -> coherent m = true ->
  coherent (from (Branch (<[i := Some m]> nodes))) = true.
Proof.
  intros C Cm. apply coherent_fresh_branch. intros j m' Hj.
  apply list_lookup_insert_Some in Hj as [(_ & ? & _)|[_ Hj]]; [congruence|by eapply coherent_child].
Qed.

Lemma insert_coherent_true n k v n' :
  wf n = true -> nibbles k -> coherent n = true ->
  insert_internal n k v = (n', Ok true) -> coherent n' = true.
Proof.
  revert k n'. induction n as [c|cs c IH|p old c|p m c IH|d c] using node_ind'; intros k n' W Hk C Hi.
  - cbn [insert_internal] in Hi. by simplify_eq/=.
  - destruct k as [|i t]; [done|]. inversion Hk; subst.
    pose proof W as (Hl & _ & Hc)%wf_branch. destruct (nibble_lookup cs i Hl) as [o Ho]; [done|].
    rewrite (insert_branch _ _ _ _ _ _ Ho) in Hi.
    destruct o as [m|]; cbn [insert_child] in Hi; [|simplify_eq; by eapply coherent_set].
    destruct (insert_internal m t v) as [m' r] eqn:Em. destruct r as [[]|e|]; simplify_eq.
    destruct (Hc _ _ Ho). eapply coherent_set; [done|].
    apply (IH _ _ Ho t); auto. by eapply coherent_child.
  - cbn [insert_internal] in Hi. destruct (prefix_nibs p) as [ns| |]; simplify_eq.
    cbv zeta in Hi. destruct (_ && _).
    + case_decide; by simplify_eq/=.
    + destruct (_ || _); [done|]. apply coherent_updated in Hi as (d' & Hf & ->).
      by eapply coherent_fork; [|exact Hf].
  - pose proof W as (_ & _ & Wm)%wf_ext. pose proof (coherent_ext_child _ _ _ C) as Cm.
    cbn [insert_internal] in Hi. destruct (prefix_nibs p) as [ns| |]; simplify_eq.
    cbv zeta in Hi. destruct (_ =? _)%nat.
    + destruct (insert_internal m _ v) as [m' r] eqn:Em. destruct r as [[]|e|]; simplify_eq/=.
      eapply IH; [..|exact Em]; auto. by apply Forall_drop.
    + destruct (_ =? _)%nat; [done|]. apply coherent_updated in Hi as (d' & Hf & ->).
      eapply coherent_fork; [|exact Hf]. by destruct (_ <? _)%nat.
  - done.
Qed.

Lemma coherent_collapse cs d :
  (forall i m, cs !! i = Some (Some m) -> coherent m = true) ->
  collapse cs = Ok d -> coherent (from d) = true.
Proof.
  intros Hall Hc. unfold collapse in Hc.
  destruct (remaining 0 cs) as [|[i o] [|y l]] eqn:Er; [done| |].
  - assert ((i, o) ∈ remaining 0 cs) as Hin by (rewrite Er; by left).
    apply remaining_lookup in Hin as (k & Hk & ->). apply Hall in Hk.
    destruct o as [[|ds|q u|q m|dg] c]; cbn [data] in Hc; try done;
      try (destruct (prefix_nibs q) as [t| |]; [|done|done]); simplify_eq/=; auto.
    by apply andb_prop in Hk as [_ ?].
  - simplify_eq. by apply coherent_fresh_branch.
Qed.

Lemma coherent_merge p ns m d :
  coherent m = true -> merge_extension p ns m = Ok d -> coherent (from d) = true.
Proof.
  intros Cm Hm. unfold merge_extension in Hm.
  destruct m as [[|ds|q u|q m|dg] c]; cbn [data] in Hm;
    try (destruct (prefix_nibs q) as [t| |]; [|done|done]); simplify_eq/=; auto.
  by apply andb_prop in Cm as [_ ?].
Qed.

Lemma delete_coherent_true n k n' :
  wf n = true -> nibbles k -> coherent n = true ->
  delete_internal n k = (n', Ok true) -> coherent n' = true.
Proof.
  revert k n'. induction n as [c|cs c IH|p old c|p m c IH|d c] using node_ind'; intros k n' W Hk C Hd.
  - done.
  - destruct k as [|i t]; [done|]. inversion Hk; subst.
    pose proof W as (Hl & _ & Hc)%wf_branch. destruct (nibble_lookup cs i Hl) as [o Ho]; [done|].
    rewrite (delete_branch _ _ _ _ _ Ho) in Hd.
    destruct o as [m|]; cbn [delete_child] in Hd; [|done].
    destruct (delete_internal m t) as [m' r] eqn:Em. destruct r as [[]|e|]; simplify_eq.
    apply coherent_updated in Hd as (d' & Hf & ->). eapply coherent_collapse; [|exact Hf].
    intros j a Ha. destruct (Hc _ _ Ho).
    apply list_lookup_insert_Some in Ha as [(_ & Hs & _)|[_ Ha]]; [|by eapply coherent_child].
    destruct (is_empty m'); simplify_eq. apply (IH _ _ Ho t); auto. by eapply coherent_child.
  - cbn [delete_internal] in Hd. destruct (prefix_nibs p) as [ns| |]; simplify_eq.
    case_decide; by simplify_eq/=.
  - pose proof W as (_ & _ & Wm)%wf_ext. pose proof (coherent_ext_child _ _ _ C) as Cm.
    cbn [delete_internal] in Hd. destruct (prefix_nibs p) as [ns| |]; simplify_eq.
    destruct (strip_prefix ns k) as [t|] eqn:Es; [|done]. apply strip_prefix_Some in Es as ->.
    apply Forall_app in Hk as [_ Ht].
    destruct (delete_internal m t) as [m' r] eqn:Em. destruct r as [[]|e|]; simplify_eq/=.
    apply coherent_updated in Hd as (d' & Hf & ->). eapply coherent_merge; [|exact Hf]. eauto.
  - done.
Qed.

(** ** Hashes and caches *)
(** Replacing children by nodes with the same references keeps the reference. *)
Lemma calc_reference_map (f : MptNode -> MptNode) cs :
  (forall i m, cs !! i = Some (Some m) -> ref_spec (f m) = ref_spec m) ->
  calc_reference_with ref_spec
    (Branch (map (fun o => match o with Some m => Some (f m) | None => None end) cs)) =
  calc_reference_with ref_spec (Branch cs).
Proof.
  intros Hf. cbn [calc_reference_with encode_with payload_length_with]. rewrite !map_map.
  assert (forall {A} (F : MptNodeReference -> A) (z : A),
    map (fun o => match match o with Some m => Some (f m) | None => None end with
                  | Some node => F (ref_spec node) | None => z end) cs =
    map (fun o => match o with Some node => F (ref_spec node) | None => z end) cs) as Hmap.
  { intros A F z. apply map_ext_in. intros [m|] Hin; auto. f_equal.
    apply list_elem_of_In, list_elem_of_lookup in Hin as [i Hi]. eauto. }
  by rewrite (Hmap _ reference_len 1), (Hmap _ put_reference [EMPTY_STRING_CODE]).
Qed.

Lemma ref_spec_strip n : ref_spec (strip n) = ref_spec n.
Proof.
  induction n as [c|cs c IH|p v c|p m c IH|d c] using node_ind'; try done.
  - exact (calc_reference_map strip cs IH).
  - cbn [strip]. unfold from. by cbn [ref_spec calc_reference_with encode_with payload_length_with]; rewrite IH.
Qed.

Lemma coherent_strip n : coherent (strip n) = true.
Proof.
  induction n as [c|cs c IH|p v c|p m c IH|d c] using node_ind'; try done.
  cbn [strip]. apply coherent_fresh_branch. intros i m Hi.
  rewrite list_lookup_fmap in Hi. destruct (cs !! i) as [[a|]|] eqn:Ha; simplify_eq/=. eauto.
Qed.

Lemma strip_is_null n : is_empty (strip n) = is_empty n.
Proof. by destruct n as [[] c]. Qed.

Lemma hash_eq n m :
  is_empty n = is_empty m -> reference n = reference m -> hash n = hash m.
Proof. unfold hash, is_empty. intros. by destruct (data n), (data m); simplify_eq; repeat case_match; simplify_eq. Qed.

(** With coherent caches the hash is the one of the trie without caches. *)
Lemma hash_strip n : coherent n = true -> hash n = hash (strip n).
Proof.
  intros C. apply hash_eq; [by rewrite strip_is_null|].
  by rewrite !coherent_reference, ref_spec_strip by auto using coherent_strip.
Qed.

Lemma fill_fixpoint n : strip (fill n) = strip n.
Proof.
  induction n as [c|cs c IH|p v c|p m c IH|d c] using node_ind';
    try (destruct c; done).
  - destruct c as [r|]; [done|]. cbn [fill strip]. rewrite map_map. do 2 f_equal.
    apply map_ext_in. intros [m|] Hin; auto. f_equal.
    apply list_elem_of_In, list_elem_of_lookup in Hin as [i Hi]. eauto.
  - destruct c as [r|]; [done|]. cbn [fill strip]. by rewrite IH.
Qed.

Lemma ref_spec_fill n : ref_spec (fill n) = ref_spec n.
Proof. by rewrite <- ref_spec_strip, fill_fixpoint, ref_spec_strip. Qed.

Lemma coherent_fill n : coherent n = true -> coherent (fill n) = true.
Proof.
  induction n as [c|cs c IH|p v c|p m c IH|d c] using node_ind'; intros C;
    destruct c as [r|]; try done;
    try (cbn [fill coherent]; rewrite bool_decide_true; reflexivity).
  - pose proof C as [_ Hall]%coherent_branch.
    pose proof (ref_spec_fill (mkMptNode (Branch cs) None)) as Hr. cbn [fill] in *.
    rewrite (coherent_reference _ C) in *. apply coherent_branch. split; [done|].
    intros i m Hi. rewrite list_lookup_fmap in Hi.
    destruct (cs !! i) as [[a|]|] eqn:Ha; simplify_eq/=. eauto.
  - pose proof (coherent_ext_child _ _ _ C) as Cm.
    pose proof (ref_spec_fill (mkMptNode (Extension p m) None)) as Hr. cbn [fill] in *.
    rewrite (coherent_reference _ C) in *. cbn [coherent]. rewrite IH by done.
    rewrite bool_decide_true; done.
Qed.

End encoding.

Class KeccakLaws `{Keccak} := keccak_length b : length (keccak b) = 32%nat.

(** ** Lengths *)
Section lengths.
Context `{KL : KeccakLaws} `{AL : AlloyRlpLaws}.

(** Every truncated sub-trie is named by 32 bytes, as the type [B256] says. *)
Fixpoint digests_ok (n : MptNode) : bool :=
  let '(mkMptNode d _) := n in
  match d with
  | Digest digest => (length digest =? 32)%nat
  | Branch nodes => forallb (fun o => match o with Some m => digests_ok m | None => true end) nodes
  | Extension _ child => digests_ok child
  | _ => true
  end.

Lemma digests_child nodes c i m :
  digests_ok (mkMptNode (Branch nodes) c) = true -> nodes !! i = Some (Some m) -> digests_ok m = true.
Proof.
  cbn [digests_ok]. rewrite forallb_forall. intros Hd Hi.
  apply (Hd (Some m)), list_elem_of_In. by eapply list_elem_of_lookup_2.
Qed.

Lemma calc_reference_digest f d digest :
  match d with Digest dg => length dg = 32%nat | _ => True end ->
  calc_reference_with f d = RefDigest digest -> length digest = 32%nat.
Proof.
  destruct d; simpl; intros; try case_match; simplify_eq; auto using keccak_length.
Qed.

Lemma ref_spec_digest n digest :
  digests_ok n = true -> ref_spec n = RefDigest digest -> length digest = 32%nat.
Proof.
  destruct n as [d c]. intros Hd. apply calc_reference_digest. destruct d; try done.
  by apply Nat.eqb_eq in Hd.
Qed.

Lemma reference_len_ok n :
  coherent n = true -> digests_ok n = true ->
  Z.of_nat (length (put_reference (reference n))) = reference_len (reference n).
Proof.
  intros C D. rewrite coherent_reference by done.
  destruct (ref_spec n) as [b|dg] eqn:E; simpl; [done|]. apply ref_spec_digest in E; auto. lia.
Qed.

Lemma concat_length_Z {A} (l : list (list A)) :
  Z.of_nat (length (concat l)) = foldr Z.add 0 (map (fun x => Z.of_nat (length x)) l).
Proof. induction l; simpl; [done|]. rewrite length_app. lia. Qed.

Lemma children_length nodes :
  (forall i m, nodes !! i = Some (Some m) -> coherent m = true /\ digests_ok m = true) ->
  Z.of_nat (length (concat (map (fun child => match child with
                                              | Some node => put_reference (reference node)
                                              | None => [EMPTY_STRING_CODE] end) nodes))) =
  foldr Z.add 0 (map (fun child => match child with
                                   | Some node => reference_len (reference node) | None => 1 end) nodes).
Proof.
  intros Hall. rewrite concat_length_Z, map_map. f_equal. apply map_ext_in.
  intros [m|] Hin; [|done]. apply list_elem_of_In, list_elem_of_lookup in Hin as [i Hi].
  apply Hall in Hi as [? ?]. by apply reference_len_ok.
Qed.

(** [length] returns the number of bytes [encode] writes, for every node
    kind (the assertion of [to_rlp]). *)
Theorem encode_length n :
  coherent n = true -> digests_ok n = true -> Z.of_nat (length (encode n)) = node_length n.
Proof.
  intros C D. unfold encode, node_length, payload_length. destruct n as [[|nodes|p v|p m|dg] c]; simpl data.
  - cbn [encode_with payload_length_with]. by rewrite length_of_length_short.
  - cbn [encode_with]. rewrite !length_app, !Nat2Z.inj_add, rlp_header_length, children_length.
    + cbn [payload_length_with length]. lia.
    + intros i m Hi. split; [by eapply coherent_child|by eapply digests_child].
  - cbn [encode_with]. rewrite !length_app, !Nat2Z.inj_add, rlp_header_length, !rlp_slice_length_ok.
    cbn [payload_length_with]. lia.
  - cbn [encode_with]. rewrite !length_app, !Nat2Z.inj_add, rlp_header_length, rlp_slice_length_ok.
    rewrite reference_len_ok; [cbn [payload_length_with]; lia| |done]. by eapply coherent_ext_child.
  - cbn [encode_with payload_length_with]. apply Nat.eqb_eq in D.
    rewrite length_of_length_short, rlp_slice_32 by (done || lia). simpl length. lia.
Qed.
End lengths.

(** ** Decoding *)

(** What the [rlp] crate sees in a buffer: a byte string or a list of items. *)
#[warnings="-register-all"]
Inductive item : Type :=
| Str (b : bytes)
| Lst (l : list item).

(** [rlp.val_at::<Vec<u8>>]: a list is not a byte string. *)
Definition as_bytes (i : item) : outcome DecoderError bytes :=
  match i with Str b => Ok b | Lst _ => Err (OtherDecoderError 0) end.

(** [rlp.iter().take(k)] with a fallible body. *)
Definition collect_take {E A B} (f : A -> outcome E B) : nat -> list A -> outcome E (list B) :=
  fix go k l :=
    match k, l with
    | S k', a :: l' => b ← f a; bs ← go k' l'; Ok (b :: bs)
    | _, _ => Ok []
    end.

(** [<MptNode as Decodable>::decode]: the prototype is the shape of the item. *)
Fixpoint decode_item (i : item) : outcome DecoderError MptNode :=
  match i with
  | Str [] => Ok (from Null)
  | Lst [p; x] =>
      path ← as_bytes p;
      match path with
      | [] => Panic
      | prefix :: _ =>
          if Z.land prefix (Z.shiftl 2 4) =? 0
          then node ← decode_item x; Ok (from (Extension path node))
          else value ← as_bytes x; Ok (from (Leaf path value))
      end
  | Lst l =>
      if (length l =? 17)%nat then
        node_list ← collect_take
          (fun node_rlp =>
             match node_rlp with
             | Str [] => Ok None
             | _ => node ← decode_item node_rlp; Ok (Some node)
             end) 16 l;
        value ← match l !! 16%nat with Some v => as_bytes v | None => Err (OtherDecoderError 1) end;
        match value with
        | [] => Ok (from (Branch node_list))
        | _ => Err (Custom "branch node with value")
        end
      else Err RlpIncorrectListLen
  | Str b =>
      if (length b =? 32)%nat then Ok (from (Digest b)) else Err RlpIncorrectListLen
  end.

(** [Rlp::new] of the [rlp] crate. *)
Class RlpParser := parse : bytes -> outcome DecoderError item.

Definition decode `{RlpParser} (b : bytes) : outcome Error MptNode :=
  map_err LegacyRlp (i ← parse b; decode_item i).

Definition parse_proof `{RlpParser} (proof : list bytes) : outcome Error (list MptNode) :=
  collect decode proof.

(** ** When decoding panics *)
Lemma item_ind' (Q : item -> Prop) :
  (forall b, Q (Str b)) -> (forall l, Forall Q l -> Q (Lst l)) -> forall i, Q i.
Proof.
  intros Hs Hl. fix IH 1. intros [b|l]; [apply Hs|]. apply Hl. induction l; constructor; auto.
Qed.

(** A list of two items whose first is the empty string, anywhere inside. *)
Fixpoint empty_path (i : item) : bool :=
  match i with
  | Str _ => false
  | Lst l => (match l with [Str []; _] => true | _ => false end || existsb empty_path l)%bool
  end.

Lemma collect_take_Panic {E A B} (f : A -> outcome E B) k l :
  collect_take f k l = Panic -> exists a, a ∈ l /\ f a = Panic.
Proof.
  revert k; induction l as [|a l IH]; intros [|k]; cbn; try done.
  destruct (f a) eqn:Ef; cbn; [|done|intros _; exists a; split; [apply list_elem_of_here|done]].
  destruct (collect_take f k l) eqn:Ec; cbn; try done. intros _.
  destruct (IH k Ec) as (b & Hb & Hf). exists b. split; [by apply list_elem_of_further|done].
Qed.

(** Decoding panics on a leaf or extension with an empty path, and on nothing
    that holds no such node: every other malformed node is an error. *)
Theorem decode_panics (i : item) :
  (decode_item i = Panic -> empty_path i = true) /\ (forall x, decode_item (Lst [Str []; x]) = Panic).
Proof.
  split; [|done]. induction i as [b|l IH] using item_ind'.
  - destruct b; [done|]. cbn -[Nat.eqb length]. by case_match.
  - assert (Hin : forall a, a ∈ l -> decode_item a = Panic -> empty_path (Lst l) = true).
    { intros a Ha Hp. rewrite Forall_forall in IH. cbn. apply orb_true_iff. right.
      apply existsb_exists. exists a. split; [by apply list_elem_of_In|by apply IH]. }
    clear IH. destruct l as [|p [|x [|y l']]]; try done.
    + destruct p as [[|c path]|]; try done. cbn -[Z.land Z.shiftl].
      case_match; [|by destruct x].
      destruct (decode_item x) eqn:Ex; try done. intros _. apply (Hin x); [|done]. set_solver.
    + assert (Hd : decode_item (Lst (p :: x :: y :: l')) =
        if (length (p :: x :: y :: l') =? 17)%nat then
          node_list ← collect_take (fun node_rlp =>
            match node_rlp with Str [] => Ok None | _ => node ← decode_item node_rlp; Ok (Some node) end)
            16 (p :: x :: y :: l');
          value ← match (p :: x :: y :: l') !! 16%nat with Some v => as_bytes v | None => Err (OtherDecoderError 1) end;
          match value with [] => Ok (from (Branch node_list)) | _ => Err (Custom "branch node with value") end
        else Err RlpIncorrectListLen) by reflexivity.
      rewrite Hd. clear Hd. revert Hin. generalize (p :: x :: y :: l'). intros l Hin. case_match; [|done].
      destruct (collect_take _ 16 l) as [nodes| |] eqn:Ec; cbn [mbind outcome_bind]; [|done|].
      * destruct (l !! 16%nat) as [[[]|]|]; done.
      * intros _. apply collect_take_Panic in Ec as (a & Ha & Hp). apply (Hin a Ha).
        destruct a as [[|c b]|k]; [done|..];
          match goal with |- ?d = Panic => destruct d; done end.
Qed.

(** ** Round trip of encoding and decoding *)
Section roundtrip.
Context `{KL : KeccakLaws} `{AL : AlloyRlpLaws} `{RP : RlpParser}.

(** The bytes of an item, as [alloy_rlp] writes them. *)
Fixpoint serialize (i : item) : bytes :=
  match i with
  | Str b => rlp_slice b
  | Lst l =>
      let payload := concat (map serialize l) in
      rlp_header (Z.of_nat (length payload)) ++ payload
  end.

(** The item a node encodes to: a child is inlined when its reference is its
    own encoding, and a 32-byte string otherwise. *)
Definition child_item (f : MptNode -> item) (m : MptNode) : item :=
  match ref_spec m with Bytes _ => f m | RefDigest digest => Str digest end.

Fixpoint item_of (n : MptNode) : item :=
  let '(mkMptNode d _) := n in
  match d with
  | Null => Str []
  | Branch nodes =>
      Lst (map (fun o => match o with Some m => child_item item_of m | None => Str [] end) nodes ++ [Str []])
  | Leaf prefix value => Lst [Str prefix; Str value]
  | Extension prefix child => Lst [Str prefix; child_item item_of child]
  | Digest digest => Str digest
  end.

(** What survives the encoding of a node: children referenced by hash become digests. *)
Definition shallow_child (f : MptNode -> MptNode) (m : MptNode) : MptNode :=
  match ref_spec m with Bytes _ => f m | RefDigest digest => from (Digest digest) end.

Fixpoint shallow (n : MptNode) : MptNode :=
  let '(mkMptNode d _) := n in
  from match d with
       | Branch nodes =>
           Branch (map (fun o => match o with Some m => Some (shallow_child shallow m) | None => None end) nodes)
       | Extension prefix child => Extension prefix (shallow_child shallow child)
       | d => d
       end.

(** The reference of a node given as bytes is the encoding of the node. *)
Lemma coherent_calc n : coherent n = true -> calc_reference n = ref_spec n.
Proof.
  destruct n as [d c]. intros C. apply calc_reference_ext. destruct d as [|nodes| |p m|]; auto.
  - intros i m Hi. by apply coherent_reference, (coherent_child _ _ _ _ C Hi).
  - by eapply coherent_reference, coherent_ext_child.
Qed.

Lemma ref_bytes_encode n b : coherent n = true -> ref_spec n = Bytes b -> encode n = b.
Proof.
  intros C. rewrite <- (coherent_calc n C). unfold calc_reference, encode.
  destruct (data n); simpl; intros; try case_match; simplify_eq; done.
Qed.

Lemma put_reference_item m :
  coherent m = true -> digests_ok m = true -> encode m = serialize (item_of m) ->
  put_reference (reference m) = serialize (child_item item_of m).
Proof.
  intros C D He. rewrite coherent_reference by done. unfold child_item.
  destruct (ref_spec m) as [b|dg] eqn:E; simpl.
  - by rewrite <- He, (ref_bytes_encode m b).
  - by rewrite rlp_slice_32 by eauto using ref_spec_digest.
Qed.

(** The payload length written in the header is the length of the payload. *)
Lemma encode_header n :
  coherent n = true -> digests_ok n = true ->
  match data n with
  | Branch nodes =>
      payload_length n = Z.of_nat (length (concat (map (fun child => match child with
        | Some node => put_reference (reference node) | None => [EMPTY_STRING_CODE] end) nodes)
        ++ [EMPTY_STRING_CODE]))
  | Leaf p v => payload_length n = Z.of_nat (length (rlp_slice p ++ rlp_slice v))
  | Extension p m => payload_length n = Z.of_nat (length (rlp_slice p ++ put_reference (reference m)))
  | _ => True
  end.
Proof.
  intros C D. destruct n as [[|nodes|p v|p m|dg] c]; cbn [data]; try done; unfold payload_length; cbn [data payload_length_with];
    rewrite length_app, Nat2Z.inj_add.
  - rewrite children_length; [simpl length; lia|].
    intros i m Hi. split; [by eapply coherent_child|by eapply digests_child].
  - by rewrite !rlp_slice_length_ok.
  - rewrite rlp_slice_length_ok, reference_len_ok; [done| |done]. by eapply coherent_ext_child.
Qed.

Lemma encode_item n :
  coherent n = true -> digests_ok n = true -> encode n = serialize (item_of n).
Proof.
  induction n as [c|cs c IH|p v c|p m c IH|d c] using node_ind'; intros C D;
    pose proof (encode_header _ C D) as Hh; unfold payload_length in Hh; unfold encode; cbn [data] in *;
    cbn [encode_with item_of serialize map concat].
  - by rewrite rlp_slice_nil.
  - rewrite Hh. rewrite map_app, map_map, concat_app. cbn [map concat]. rewrite app_nil_r.
    cbn [serialize]. rewrite rlp_slice_nil.
    assert (map (fun child => match child with
        | Some node => put_reference (reference node) | None => [EMPTY_STRING_CODE] end) cs =
      map (fun o => serialize match o with Some m => child_item item_of m | None => Str [] end) cs) as ->; [|done].
    apply map_ext_in. intros [m|] Hin; [|cbn [serialize]; by rewrite rlp_slice_nil].
    apply list_elem_of_In, list_elem_of_lookup in Hin as [i Hi].
    pose proof (coherent_child _ _ _ _ C Hi). pose proof (digests_child _ _ _ _ D Hi).
    apply put_reference_item; eauto.
  - by rewrite Hh, app_nil_r.
  - rewrite Hh, app_nil_r. pose proof (coherent_ext_child _ _ _ C).
    by rewrite put_reference_item by auto.
  - done.
Qed.

Lemma collect_take_map {E A B C} (f : A -> outcome E B) (g : C -> A) (h : C -> B) l rest :
  (forall x, x ∈ l -> f (g x) = Ok (h x)) ->
  collect_take f (length l) (map g l ++ rest) = Ok (map h l).
Proof.
  induction l as [|x l IH]; intros Hl; simpl; [by destruct rest|].
  rewrite Hl by (by left). simpl. rewrite IH; [done|]. intros y Hy. apply Hl. by right.
Qed.

Lemma item_nonempty m : wf m = true -> digests_ok m = true -> is_empty m = false -> item_of m <> Str [].
Proof.
  intros _ D E. destruct m as [[] ?]; try done. simpl in *. apply Nat.eqb_eq in D. by intros [= ->].
Qed.

(** Decoding the reference of a non-empty child. *)
Lemma decode_child m :
  wf m = true -> digests_ok m = true -> is_empty m = false ->
  decode_item (item_of m) = Ok (shallow m) ->
  child_item item_of m <> Str [] /\ decode_item (child_item item_of m) = Ok (shallow_child shallow m).
Proof.
  intros W D E Hd. unfold child_item, shallow_child. destruct (ref_spec m) as [b|dg] eqn:Er.
  - split; [by apply item_nonempty|done].
  - apply ref_spec_digest in Er; auto. destruct dg as [|x dg]; [done|]. split; [done|].
    cbn [decode_item]. by rewrite Er.
Qed.

Lemma decode_list17 l :
  length l = 17%nat ->
  decode_item (Lst l) =
  (node_list ← collect_take (fun i => match i with Str [] => Ok None | _ => node ← decode_item i; Ok (Some node) end) 16 l;
   value ← match l !! 16%nat with Some v => as_bytes v | None => Err (OtherDecoderError 1) end;
   match value with [] => Ok (from (Branch node_list)) | _ => Err (Custom "branch node with value") end).
Proof.
  intros Hl. destruct l as [|a [|b [|c l]]]; try done. cbn [decode_item]. by rewrite Hl.
Qed.

Lemma decode_item_of n :
  wf n = true -> digests_ok n = true -> decode_item (item_of n) = Ok (shallow n).
Proof.
  induction n as [c|cs c IH|p v c|p m c IH|d c] using node_ind'; intros W D.
  - done.
  - pose proof W as (Hl & _ & Hc)%wf_branch. cbn [item_of].
    rewrite decode_list17 by (rewrite length_app, length_map, Hl; done).
    rewrite <- Hl at 1. rewrite (collect_take_map _ _
      (fun o => match o with Some m => Some (shallow_child shallow m) | None => None end)).
    + cbn [mbind outcome_bind]. rewrite lookup_app_r by (rewrite length_map; lia).
      rewrite length_map, Hl. done.
    + intros [m|] Hin; [|done]. apply list_elem_of_lookup in Hin as [i Hi].
      destruct (Hc _ _ Hi) as [Wm Em]. pose proof (digests_child _ _ _ _ D Hi) as Dm.
      destruct (decode_child m Wm Dm Em (IH i m Hi Wm Dm)) as [Hne Hd].
      rewrite Hd. by destruct (child_item item_of m) as [[|]|].
  - apply wf_leaf in W as (ns & Hns & ->). destruct (to_encoded_path_flag ns true Hns) as (b & rest & Hp & Hb).
    cbn [item_of decode_item as_bytes mbind outcome_bind shallow]. rewrite Hp.
    apply negb_true_iff in Hb. by rewrite Hb.
  - apply wf_ext in W as ((ns & Hns & _ & ->) & Hk & Wm).
    destruct (to_encoded_path_flag ns false Hns) as (b & rest & Hp & Hb).
    destruct (decode_child m) as [_ Hd]; auto; [by_shape m|].
    cbn [item_of decode_item as_bytes mbind outcome_bind shallow]. rewrite Hp.
    apply negb_false_iff in Hb. rewrite Hb, Hd. done.
  - cbn [item_of]. simpl in D. pose proof D as D'%Nat.eqb_eq. destruct d; [done|].
    cbn [decode_item]. by rewrite D.
Qed.

(** The parser reads back what the encoder writes. *)
Definition parser_ok : Prop := forall i, parse (serialize i) = Ok i.

(** C39: decoding the encoding of a well-formed node gives the node back, with
    the children that are referenced by hash replaced by their digests. *)
Theorem decode_encode n :
  parser_ok -> wf n = true -> coherent n = true -> digests_ok n = true ->
  decode (encode n) = Ok (shallow n).
Proof.
  intros Hp W C D. unfold decode. rewrite encode_item, Hp by done. simpl.
  by rewrite decode_item_of.
Qed.

(** A decoded node has the reference of the node it was encoded from. *)
Lemma ref_spec_shallow n : ref_spec (shallow n) = ref_spec n.
Proof.
  induction n as [c|cs c IH|p v c|p m c IH|d c] using node_ind'; try done.
  - assert (Hm : forall i m, cs !! i = Some (Some m) -> ref_spec (shallow_child shallow m) = ref_spec m).
    { intros i m Hi. unfold shallow_child. destruct (ref_spec m) eqn:E; [|done]. rewrite (IH i m Hi). done. }
    exact (calc_reference_map (shallow_child shallow) cs Hm).
  - assert (ref_spec (shallow_child shallow m) = ref_spec m) as Hm.
    { unfold shallow_child. destruct (ref_spec m) eqn:E; [|done]. by rewrite IH. }
    cbn [shallow]. unfold from. cbn [ref_spec calc_reference_with encode_with payload_length_with].
    by rewrite Hm.
Qed.
End roundtrip.

(** ** Properties of hashes *)
Section hashes.
Context `{KK : Keccak} `{AR : AlloyRlp}.

Lemma get_strip n k : get_internal (strip n) k = get_internal n k.
Proof.
  revert k. induction n as [c|cs c IH|p v c|p m c IH|d c] using node_ind'; intros k; try done.
  - cbn [strip]. unfold from. rewrite !get_branch. destruct k as [|i t]; [done|].
    rewrite list_lookup_fmap. destruct (cs !! Z.to_nat i) as [[m|]|] eqn:Hi; simpl; eauto.
  - cbn [strip]. unfold from. cbn [get_internal]. destruct (prefix_nibs p) as [ns| |]; [|done|done].
    cbn [mbind outcome_bind]. destruct (strip_prefix ns k); auto.
Qed.

(** Insertion into a trie with coherent cached references leaves coherent
    cached references, so the root hash read afterwards is the one of the new
    data and never a stale cached one. *)
Theorem insert_hash_fresh n key value n' r :
  wf n = true -> coherent n = true -> bytes_ok key ->
  insert_rlp_encoded n key value = (n', r) -> coherent n' = true /\ hash n' = hash (strip n').
Proof.
  intros W C Hb Hi. unfold insert_rlp_encoded in Hi. apply to_nibs_nibbles in Hb.
  pose proof (insert_internal_post n _ value W Hb) as Hp. rewrite Hi in Hp.
  assert (coherent n' = true) as C'; [|by auto using hash_strip].
  destruct r as [[]|e|]; simpl in Hp; [by eapply insert_coherent_true| | |done]; by destruct Hp as [-> _].
Qed.

(** Deletion keeps the cached references coherent, so the root hash read
    afterwards is the one of the new data. *)
Theorem delete_hash_fresh n key n' r :
  wf n = true -> coherent n = true -> bytes_ok key ->
  delete n key = (n', r) -> coherent n' = true /\ hash n' = hash (strip n').
Proof.
  intros W C Hb Hi. unfold delete in Hi. apply to_nibs_nibbles in Hb.
  pose proof (delete_internal_post n _ W Hb) as Hp. rewrite Hi in Hp.
  assert (coherent n' = true) as C'; [|by auto using hash_strip].
  destruct r as [[]|e|]; simpl in Hp; [by eapply delete_coherent_true| | |done]; by destruct Hp as [-> _].
Qed.

(** C11: the root hash of a fully resolved trie is a function of its contents:
    two tries that hold the same entries have the same hash, whatever their
    history of insertions, deletions and hash computations. *)
Theorem hash_by_contents n m :
  wf n = true -> resolved n = true -> coherent n = true ->
  wf m = true -> resolved m = true -> coherent m = true ->
  contents n = contents m -> hash n = hash m.
Proof.
  intros Wn Rn Cn Wm Rm Cm Hc. rewrite (hash_strip n), (hash_strip m) by done. f_equal.
  apply canonical_internal; auto. intros k Hk. by rewrite !get_contents, Hc.
Qed.

(** Computing a reference or a hash only fills caches: lookups, shape and
    hash stay the same and the caches stay coherent. *)
Theorem hash_fills_caches n :
  coherent n = true ->
  coherent (fill n) = true /\ strip (fill n) = strip n /\ hash (fill n) = hash n /\
  (forall key, get (fill n) key = get n key).
Proof.
  intros C. pose proof (coherent_fill n C) as C'. pose proof (fill_fixpoint n) as Hs.
  split_and!; auto.
  - rewrite (hash_strip (fill n)), (hash_strip n), Hs by done. done.
  - intros key. unfold get. by rewrite <- get_strip, Hs, get_strip.
Qed.
End hashes.
