(* ===== verification/RlpCodec.v ===== *)
(** Concrete instances of the classes of [MptHash]: a hash function with 32-byte
    digests and a length-prefixed codec with its parser, for which the laws hold.
    They show that the hypotheses of the theorems about hashes, encodings and
    proofs can be met, and make those definitions executable in examples. *)

From stdpp Require Import base list list_numbers gmap strings.
From Stdlib Require Import ZArith Lia.
From S2P Require Import Prelude Nibbles Mpt MptWf MptSpec MptHash.
Open Scope Z_scope.

(** ** A 32-byte digest *)
Fixpoint be_bytes (n : nat) (z : Z) : bytes :=
  match n with
  | O => []
  | S n' => be_bytes n' (z / 256) ++ [z mod 256]
  end.

Definition mix (b : bytes) : Z := foldl (fun acc x => (acc * 6364136223846793005 + x + 1) mod 2 ^ 256) 7 b.

#[export] Instance model_keccak : Keccak := fun b => be_bytes 32 (mix b).

#[export] Instance model_keccak_laws : KeccakLaws.
Proof. intros b. reflexivity. Qed.

(** ** A length-prefixed codec *)
Definition model_prefix (short long : Z) (n : Z) : bytes :=
  if n <? 56 then [short + n] else [long; n].

#[export] Instance model_rlp : AlloyRlp := {
  rlp_header n := model_prefix 0xc0 0xf8 n;
  rlp_slice b := model_prefix 0x80 0xb8 (Z.of_nat (length b)) ++ b;
  rlp_slice_length b := Z.of_nat (length (model_prefix 0x80 0xb8 (Z.of_nat (length b)))) + Z.of_nat (length b);
  length_of_length n := if n <? 56 then 1 else 2
}.

#[export] Instance model_rlp_laws : AlloyRlpLaws.
Proof.
  split; cbn [rlp_header rlp_slice rlp_slice_length length_of_length model_rlp].
  - intros n. unfold model_prefix. by destruct (n <? 56).
  - intros b. rewrite length_app. lia.
  - intros n Hn. by rewrite (proj2 (Z.ltb_lt _ _)) by lia.
  - intros b Hb. by rewrite Hb.
  - done.
Qed.

(** ** Its parser *)
Definition read_prefix (short long : Z) (s : bytes) : option (nat * bytes) :=
  match s with
  | [] => None
  | h :: s' =>
      if (short <=? h) && (h <? short + 56) then Some (Z.to_nat (h - short), s')
      else if h =? long then match s' with n :: s'' => Some (Z.to_nat n, s'') | [] => None end
      else None
  end.

Fixpoint parse_item (fuel : nat) (s : bytes) : option (item * bytes) :=
  match fuel with
  | O => None
  | S f =>
      match read_prefix 0x80 0xb8 s with
      | Some (n, s') => Some (Str (take n s'), drop n s')
      | None =>
          match read_prefix 0xc0 0xf8 s with
          | Some (n, s') => l ← parse_items f (take n s'); Some (Lst l, drop n s')
          | None => None
          end
      end
  end
with parse_items (fuel : nat) (s : bytes) : option (list item) :=
  match fuel with
  | O => None
  | S f =>
      match s with
      | [] => Some []
      | _ => '(i, rest) ← parse_item f s; l ← parse_items f rest; Some (i :: l)
      end
  end.

#[export] Instance model_parser : RlpParser := fun s =>
  match parse_item (3 * length s) s with
  | Some (i, []) => Ok i
  | _ => Err (OtherDecoderError 2)
  end.

Section item_ind.
Variable P : item -> Prop.
Hypothesis HStr : forall b, P (Str b).
Hypothesis HLst : forall l, Forall P l -> P (Lst l).
Fixpoint item_ind' (i : item) : P i.
Proof using All.
  destruct i as [b|l]; [apply HStr|apply HLst].
  induction l as [|i l IH]; constructor; [apply item_ind'|exact IH].
Defined.
End item_ind.

Fixpoint item_size (i : item) : nat :=
  match i with
  | Str _ => 1
  | Lst l => 2 + foldr Nat.add 0 (map (fun i => S (item_size i)) l)
  end%nat.

Lemma read_prefix_model short long n s :
  0 <= n -> ~ (short <= long < short + 56) ->
  read_prefix short long (model_prefix short long n ++ s) = Some (Z.to_nat n, s).
Proof.
  intros Hn Hl. unfold model_prefix. destruct (n <? 56) eqn:E; breflect; simpl.
  - rewrite (proj2 (Z.leb_le _ _)), (proj2 (Z.ltb_lt _ _)) by lia. simpl. do 3 f_equal. lia.
  - destruct (_ && _) eqn:E2; breflect; [lia|]. by rewrite Z.eqb_refl.
Qed.

Lemma read_prefix_other n s :
  0 <= n -> read_prefix 0x80 0xb8 (model_prefix 0xc0 0xf8 n ++ s) = None.
Proof.
  intros Hn. unfold model_prefix. destruct (n <? 56) eqn:E; breflect; simpl.
  - destruct (_ && _) eqn:E2; breflect; [lia|]. destruct (_ =? _) eqn:E3; breflect; [lia|done].
  - done.
Qed.

Lemma serialize_nonempty i s : serialize i ++ s <> [].
Proof.
  destruct i; cbn [serialize rlp_slice rlp_header model_rlp]; unfold model_prefix; by destruct (_ <? _).
Qed.

Lemma parse_items_ok l f :
  Forall (fun i => forall f rest, (item_size i <= f)%nat -> parse_item f (serialize i ++ rest) = Some (i, rest)) l ->
  (1 + foldr Nat.add 0 (map (fun i => S (item_size i)) l) <= f)%nat ->
  parse_items f (concat (map serialize l)) = Some l.
Proof.
  intros Hl; revert f; induction Hl as [|i l Hi Hl IH]; intros f Hf; (destruct f as [|f]; [simpl in Hf; lia|]).
  - done.
  - cbn [map concat parse_items]. cbn [map foldr] in Hf.
    destruct (serialize i ++ concat (map serialize l)) eqn:E; [by apply serialize_nonempty in E|].
    rewrite <- E, Hi by lia. simpl. by rewrite IH by lia.
Qed.

Lemma parse_item_ok i f rest :
  (item_size i <= f)%nat -> parse_item f (serialize i ++ rest) = Some (i, rest).
Proof.
  revert f rest. induction i as [b|l IH] using item_ind'; intros f rest Hf;
    (destruct f as [|f]; [simpl in Hf; lia|]); cbn [serialize parse_item rlp_slice rlp_header model_rlp].
  - rewrite <- app_assoc, read_prefix_model by lia.
    by rewrite Nat2Z.id, take_app_length, drop_app_length.
  - rewrite <- app_assoc, read_prefix_other, read_prefix_model by lia.
    rewrite Nat2Z.id, take_app_length, drop_app_length.
    by rewrite parse_items_ok by (done || simpl in Hf; lia).
Qed.

Lemma item_size_length i : (item_size i < 3 * length (serialize i))%nat.
Proof.
  induction i as [b|l IH] using item_ind'; cbn [serialize rlp_slice rlp_header model_rlp item_size]; rewrite length_app.
  - unfold model_prefix. destruct (_ <? _); simpl; lia.
  - assert (foldr Nat.add 0 (map (fun i => S (item_size i)) l) <= 3 * length (concat (map serialize l)))%nat.
    { induction IH as [|i l Hi Hl IH]; simpl; [lia|]. rewrite length_app. lia. }
    unfold model_prefix. destruct (_ <? _); simpl length; lia.
Qed.

Lemma model_parser_ok : parser_ok.
Proof.
  intros i. unfold parse, model_parser. rewrite <- (app_nil_r (serialize i)) at 2.
  rewrite parse_item_ok; [done|]. pose proof (item_size_length i). lia.
Qed.

(** ** Witnesses *)
Definition hashed_sample : MptNode := fill sample.

Lemma encode_length_witness : Z.of_nat (length (encode hashed_sample)) = node_length hashed_sample.
Proof. apply encode_length; vm_compute; reflexivity. Defined.

Lemma decode_encode_witness : decode (encode hashed_sample) = Ok (shallow hashed_sample).
Proof. apply decode_encode; [exact model_parser_ok|vm_compute; reflexivity..]. Defined.

Lemma insert_hash_fresh_witness :
  let '(n', _) := insert_rlp_encoded hashed_sample [0x12; 0x36] [9] in
  coherent n' = true /\ hash n' = hash (strip n').
Proof.
  destruct (insert_rlp_encoded hashed_sample [0x12; 0x36] [9]) as [n' r] eqn:E.
  apply (insert_hash_fresh hashed_sample [0x12; 0x36] [9] n' r); [vm_compute; reflexivity..| |exact E].
  byte_list.
Defined.

Lemma delete_hash_fresh_witness :
  let '(n', _) := delete hashed_sample [0x12; 0x35] in
  coherent n' = true /\ hash n' = hash (strip n').
Proof.
  destruct (delete hashed_sample [0x12; 0x35]) as [n' r] eqn:E.
  apply (delete_hash_fresh hashed_sample [0x12; 0x35] n' r); [vm_compute; reflexivity..| |exact E].
  byte_list.
Defined.

(** The trie after an insertion that is undone, against the original. *)
Lemma hash_by_contents_witness :
  hash (delete (insert hashed_sample [0x77; 0x77] [1]).1 [0x77; 0x77]).1 = hash sample.
Proof. apply hash_by_contents; vm_compute; reflexivity. Defined.

Lemma hash_fills_caches_witness : hash (fill sample) = hash sample.
Proof. apply (hash_fills_caches sample). vm_compute; reflexivity. Defined.
