(* ===== verification/MptProof.v ===== *)
(** Merkle proofs ([lib/src/primitives/mpt.rs]): linking the nodes of an
    EIP-1186 proof into a trie ([mpt_from_proof]), resolving the digests of a
    trie from a store of nodes ([resolve_nodes]), the shortened nodes added for
    deletions ([shorten_node_path], [add_orphaned_leafs]), and the state and
    storage tries built from all proofs ([proofs_to_tries]). *)

From stdpp Require Import base list list_numbers gmap fin_maps strings countable.
From Stdlib Require Import ZArith Lia.
From S2P Require Import Prelude Nibbles Mpt MptWf MptSpec MptHash RlpCodec.
Open Scope Z_scope.

#[global] Instance MptNodeReference_countable : Countable MptNodeReference.
Proof.
  refine (inj_countable'
    (fun r => match r with Bytes b => inl b | RefDigest d => inr d end)
    (fun s => match s with inl b => Bytes b | inr d => RefDigest d end) _).
  by intros [].
Defined.

Section proofs.
Context `{KK : Keccak} `{AR : AlloyRlp}.

(** ** Linking the nodes of a proof *)

(** [matches!(child.as_data(), MptNodeData::Digest(d) if d == child_ref)]. *)
Definition digest_is (child_ref : bytes) (n : MptNode) : bool :=
  match data n with Digest d => bool_decide (d = child_ref) | _ => false end.

(** [children.iter_mut().flatten().find(..)] and the write through the result. *)
Fixpoint replace_child (child_ref : bytes) (replacement : MptNode)
    (children : list (option MptNode)) : option (list (option MptNode)) :=
  match children with
  | [] => None
  | Some c :: rest =>
      if digest_is child_ref c then Some (Some replacement :: rest)
      else (cons (Some c)) <$> replace_child child_ref replacement rest
  | None :: rest => (cons None) <$> replace_child child_ref replacement rest
  end.

(** One iteration of the loop of [mpt_from_proof] with a successor: [node] with
    the digest of the successor replaced by the successor. *)
Definition link (node replacement : MptNode) : outcome Error MptNode :=
  match reference replacement with
  | Bytes _ => Panic
  | RefDigest child_ref =>
      let replacement := fill replacement in
      match data node with
      | Branch children =>
          match replace_child child_ref replacement children with
          | Some children => Ok (from (Branch children))
          | None => Panic
          end
      | Extension prefix child =>
          if digest_is child_ref child then Ok (from (Extension prefix replacement)) else Panic
      | Null | Leaf _ _ | Digest _ => Panic
      end
  end.

Fixpoint link_rev (rev_nodes : list MptNode) (next : option MptNode) :
    outcome Error (option MptNode) :=
  match rev_nodes with
  | [] => Ok next
  | node :: rest =>
      match next with
      | None => link_rev rest (Some node)
      | Some replacement => resolved ← link node replacement; link_rev rest (Some resolved)
      end
  end.

Definition mpt_from_proof (proof_nodes : list MptNode) : outcome Error MptNode :=
  next ← link_rev (reverse proof_nodes) None;
  Ok (match next with Some n => n | None => default end).

Definition is_not_included (key : bytes) (proof_nodes : list MptNode) : outcome Error bool :=
  proof_trie ← unwrap_ok (mpt_from_proof proof_nodes);
  value ← unwrap_ok (get proof_trie key);
  Ok (match value with None => true | Some _ => false end).

(** ** Resolving digests from a node store *)

(** Children mapped by a function that may run out of fuel. *)
Definition map_children (f : MptNode -> option MptNode) :
    list (option MptNode) -> option (list (option MptNode)) :=
  fix go cs :=
    match cs with
    | [] => Some []
    | Some m :: cs' => m' ← f m; cs'' ← go cs'; Some (Some m' :: cs'')
    | None :: cs' => cs'' ← go cs'; Some (None :: cs'')
    end.

(** [resolve_nodes]: the recursion into the store is bounded by [fuel], the
    recursion into the node is structural. *)
Fixpoint resolve_nodes (fuel : nat) (node_store : gmap MptNodeReference MptNode) :
    MptNode -> option MptNode :=
  fix go (root : MptNode) : option MptNode :=
    let '(mkMptNode d _) := root in
    match d with
    | Null | Leaf _ _ => Some root
    | Branch children => cs ← map_children go children; Some (from (Branch cs))
    | Extension prefix target => t ← go target; Some (from (Extension prefix t))
    | Digest digest =>
        match node_store !! RefDigest digest with
        | Some node => match fuel with O => None | S f => resolve_nodes f node_store node end
        | None => Some root
        end
    end.

(** [shorten_node_path]: [for i in 0..=nibs.len()]. *)
Definition shorten_node_path (node : MptNode) : outcome Error (list MptNode) :=
  nibs ← nibs node;
  Ok match data node with
     | Null | Branch _ | Digest _ => []
     | Leaf _ value =>
         map (fun i => from (Leaf (to_encoded_path (drop i nibs) true) value)) (seq 0 (S (length nibs)))
     | Extension _ child =>
         map (fun i => from (Extension (to_encoded_path (drop i nibs) false) child)) (seq 0 (S (length nibs)))
     end.

(** [nodes.insert(node.reference(), node)] for every node. *)
Definition store_nodes (nodes : list MptNode) (store : gmap MptNodeReference MptNode) :
    gmap MptNodeReference MptNode :=
  foldl (fun s node => <[reference node := fill node]> s) store nodes.

Definition node_from_digest (digest : bytes) : MptNode :=
  if bool_decide (digest = EMPTY_ROOT) || bool_decide (digest = ZERO)
  then default else from (Digest digest).

(** ** References of linked and resolved tries *)

(** Children with the same presence and the same references. *)
Definition same_ref (o o' : option MptNode) : Prop :=
  match o, o' with
  | Some m, Some m' => coherent m' = true /\ ref_spec m' = ref_spec m
  | None, None => True
  | _, _ => False
  end.

Lemma same_ref_branch cs cs' c :
  Forall2 same_ref cs cs' ->
  coherent (from (Branch cs')) = true /\
  ref_spec (from (Branch cs')) = ref_spec (mkMptNode (Branch cs) c).
Proof.
  intros Hall. split.
  - apply coherent_fresh_branch. intros i m' Hi.
    destruct (Forall2_lookup_r _ _ _ _ _ Hall Hi) as ([m|] & _ & Hs); simpl in Hs; [by destruct Hs|done].
  - unfold from. cbn [ref_spec calc_reference_with encode_with payload_length_with].
    assert (forall {A} (F : MptNodeReference -> A) (z : A),
      map (fun o => match o with Some node => F (ref_spec node) | None => z end) cs' =
      map (fun o => match o with Some node => F (ref_spec node) | None => z end) cs) as Hmap.
    { intros A F z. induction Hall as [|o o' cs cs' Hs Hall IH]; [done|]. simpl. rewrite IH. f_equal.
      destruct o, o'; simpl in Hs; try done. by destruct Hs as [_ ->]. }
    by rewrite (Hmap _ reference_len 1), (Hmap _ put_reference [EMPTY_STRING_CODE]).
Qed.

Lemma same_ref_ext p m m' c :
  coherent m' = true -> ref_spec m' = ref_spec m ->
  coherent (from (Extension p m')) = true /\
  ref_spec (from (Extension p m')) = ref_spec (mkMptNode (Extension p m) c).
Proof.
  intros C Hr. split; [done|]. unfold from.
  cbn [ref_spec calc_reference_with encode_with payload_length_with]. by rewrite Hr.
Qed.

Lemma same_ref_refl cs c :
  coherent (mkMptNode (Branch cs) c) = true -> Forall2 same_ref cs cs.
Proof.
  intros [_ Hall]%coherent_branch. apply Forall_Forall2_diag, Forall_lookup.
  intros i [m|] Hi; simpl; eauto.
Qed.

Lemma digest_is_ref d m : digest_is d m = true -> ref_spec m = RefDigest d.
Proof. destruct m as [[] c]; try done. unfold digest_is. simpl. intros; breflect. by subst. Qed.

Lemma replace_child_same d r cs cs' :
  coherent r = true -> ref_spec r = RefDigest d -> Forall2 same_ref cs cs ->
  replace_child d r cs = Some cs' -> Forall2 same_ref cs cs'.
Proof.
  intros C Hr Hall. revert cs'. induction cs as [|[m|] cs IH]; intros cs' Hs; cbn [replace_child] in Hs; [done| |];
    inversion Hall as [|? ? ? ? Hm Hall']; subst.
  - destruct (digest_is d m) eqn:Ed; simplify_eq.
    + constructor; [|done]. split; [done|]. by rewrite Hr, (digest_is_ref _ _ Ed).
    + destruct (replace_child d r cs) as [cs''|]; simplify_eq/=. constructor; auto.
  - destruct (replace_child d r cs) as [cs''|]; simplify_eq/=. constructor; auto.
Qed.

Lemma link_ref node r n :
  coherent node = true -> coherent r = true -> link node r = Ok n ->
  coherent n = true /\ ref_spec n = ref_spec node.
Proof.
  intros Cn Cr Hl. unfold link in Hl. rewrite coherent_reference in Hl by done.
  destruct (ref_spec r) as [|d] eqn:Er; [done|].
  pose proof (coherent_fill r Cr) as Cf. rewrite <- (ref_spec_fill r) in Er.
  destruct node as [[|cs| |p m|] c]; cbn [data] in Hl; try done.
  - destruct (replace_child d (fill r) cs) as [cs'|] eqn:Es; simplify_eq.
    apply same_ref_branch. eapply replace_child_same; eauto using same_ref_refl.
  - destruct (digest_is d m) eqn:Ed; simplify_eq. apply same_ref_ext; [done|].
    by rewrite Er, (digest_is_ref _ _ Ed).
Qed.

Lemma link_rev_ref l r n t :
  Forall (fun n => coherent n = true) (l ++ [n]) -> coherent r = true ->
  link_rev (l ++ [n]) (Some r) = Ok (Some t) -> coherent t = true /\ ref_spec t = ref_spec n.
Proof.
  revert r. induction l as [|m l IH]; intros r Hall Cr Hl; simpl in *; inversion Hall; subst;
    destruct (link _ r) as [x| |] eqn:El; simpl in Hl; try done.
  - simplify_eq. by apply (link_ref n r).
  - apply link_ref in El as [Cx _]; auto. by apply (IH x).
Qed.

Lemma link_rev_Some l r o : link_rev l (Some r) = Ok o -> is_Some o.
Proof.
  revert r. induction l as [|m l IH]; simpl; intros r Hl; simplify_eq; [done|].
  destruct (link m r); simpl in Hl; try done. eauto.
Qed.

(** When the nodes of an EIP-1186 proof link up, the resulting trie has the
    root hash of the first node: the partial trie commits to the same state. *)
Theorem mpt_from_proof_root n rest t :
  Forall (fun n => coherent n = true) (n :: rest) ->
  mpt_from_proof (n :: rest) = Ok t ->
  coherent t = true /\ reference t = reference n.
Proof.
  intros Hall Hp. unfold mpt_from_proof in Hp. rewrite reverse_cons in Hp.
  assert (coherent n = true) as Cn by (by inversion Hall).
  enough (coherent t = true /\ ref_spec t = ref_spec n) as [Ct Hr]
    by (split; [done|]; by rewrite !coherent_reference).
  destruct (reverse rest) as [|x l] eqn:Er; cbn [app link_rev] in Hp; [by simplify_eq/=|].
  destruct (link_rev (l ++ [n]) (Some x)) as [o| |] eqn:El; simpl in Hp; simplify_eq.
  destruct (link_rev_Some _ _ _ El) as [t Ht]. subst o. simpl.
  assert (Forall (fun n => coherent n = true) (l ++ [n]) /\ coherent x = true) as [Hl Cx].
  { inversion Hall as [|? ? ? Hrest]; subst. apply Forall_reverse in Hrest. rewrite Er in Hrest.
    inversion Hrest; subst. rewrite Forall_app. split; [split; [done|by repeat constructor]|done]. }
  by eapply link_rev_ref.
Qed.

(** *** Resolution *)

(** Every node of the store is filed under its own reference. *)
Definition store_ok (store : gmap MptNodeReference MptNode) : Prop :=
  map_Forall (fun r n => coherent n = true /\ ref_spec n = r) store.

Lemma map_children_Forall2 f cs cs' :
  map_children f cs = Some cs' ->
  Forall2 (fun o o' => match o, o' with
                       | Some m, Some m' => f m = Some m' | None, None => True | _, _ => False end) cs cs'.
Proof.
  revert cs'. induction cs as [|[m|] cs IH]; simpl; intros cs' Hm; simplify_eq; [constructor| |].
  - destruct (f m) as [m'|] eqn:Em; simpl in Hm; [|done].
    destruct (map_children f cs) as [cs''|]; simplify_eq/=. constructor; auto.
  - destruct (map_children f cs) as [cs''|]; simplify_eq/=. constructor; auto.
Qed.

(** The equations of [resolve_nodes] on each kind of node. *)
Lemma resolve_branch fuel store cs c :
  resolve_nodes fuel store (mkMptNode (Branch cs) c) =
  cs' ← map_children (resolve_nodes fuel store) cs; Some (from (Branch cs')).
Proof. by destruct fuel. Qed.

Lemma resolve_ext fuel store p m c :
  resolve_nodes fuel store (mkMptNode (Extension p m) c) =
  t ← resolve_nodes fuel store m; Some (from (Extension p t)).
Proof. by destruct fuel. Qed.

Lemma resolve_digest fuel store d c :
  resolve_nodes fuel store (mkMptNode (Digest d) c) =
  match store !! RefDigest d with
  | Some node => match fuel with O => None | S f => resolve_nodes f store node end
  | None => Some (mkMptNode (Digest d) c)
  end.
Proof. by destruct fuel. Qed.

Lemma resolve_ref fuel store root t :
  store_ok store -> coherent root = true -> resolve_nodes fuel store root = Some t ->
  coherent t = true /\ ref_spec t = ref_spec root.
Proof.
  intros Hs. revert root t. induction fuel as [fuel IHf] using lt_wf_ind.
  induction root as [c|cs c IH|p v c|p m c IH|d c] using node_ind'; intros t C Ht.
  - by destruct fuel; simplify_eq/=.
  - rewrite resolve_branch in Ht. destruct (map_children _ cs) as [cs'|] eqn:Em; [|done].
    injection Ht as <-. apply map_children_Forall2 in Em. apply same_ref_branch.
    rewrite Forall2_same_length_lookup in Em |- *. destruct Em as [Hl Em]. split; [done|].
    intros i o o' Ho Ho'. specialize (Em i o o' Ho Ho'). destruct o as [m|], o' as [m'|]; try done.
    apply (IH i m Ho m'); [by eapply coherent_child|done].
  - by destruct fuel; simplify_eq/=.
  - rewrite resolve_ext in Ht. destruct (resolve_nodes fuel store m) as [m'|] eqn:Em; [|done]. injection Ht as <-.
    apply coherent_ext_child in C. destruct (IH m' C eq_refl). by apply same_ref_ext.
  - rewrite resolve_digest in Ht. destruct (store !! RefDigest d) as [node|] eqn:En; [|by simplify_eq].
    destruct fuel as [|f]; [done|]. destruct (Hs _ _ En) as [Cn Rn].
    destruct (IHf f (Nat.lt_succ_diag_r f) node t Cn Ht) as [Ct Rt]. split; [done|]. by rewrite Rt, Rn.
Qed.

Lemma resolve_get fuel store root t k o :
  resolve_nodes fuel store root = Some t -> get_internal root k = Ok o -> get_internal t k = Ok o.
Proof.
  revert t k o. induction root as [c|cs c IH|p v c|p m c IH|d c] using node_ind'; intros t k o Ht Hg.
  - by destruct fuel; simplify_eq/=.
  - rewrite resolve_branch in Ht. destruct (map_children _ cs) as [cs'|] eqn:Em; [|done].
    injection Ht as <-. apply map_children_Forall2 in Em. unfold from. rewrite get_branch in *.
    destruct k as [|i k]; [done|]. destruct (cs !! Z.to_nat i) as [x|] eqn:Hi; [|done].
    destruct (Forall2_lookup_l _ _ _ _ _ Em Hi) as (x' & -> & Hx).
    destruct x as [m|], x' as [m'|]; try done. by eapply IH.
  - by destruct fuel; simplify_eq/=.
  - rewrite resolve_ext in Ht. destruct (resolve_nodes fuel store m) as [m'|] eqn:Em; [|done].
    injection Ht as <-. cbn [get_internal from] in *. unfold from. cbn [get_internal].
    destruct (prefix_nibs p) as [ns| |]; cbn [mbind outcome_bind] in *; try done.
    destruct (strip_prefix ns k); [by eapply IH|done].
  - done.
Qed.

(** The digests a node mentions. *)
Fixpoint mentions (d : bytes) (n : MptNode) : bool :=
  let '(mkMptNode dt _) := n in
  match dt with
  | Digest d' => bool_decide (d = d')
  | Branch nodes => existsb (fun o => match o with Some m => mentions d m | None => false end) nodes
  | Extension _ child => mentions d child
  | _ => false
  end.

(** A rank that strictly decreases from a stored node to the stored nodes it mentions. *)
Definition ranked (store : gmap MptNodeReference MptNode) (rank : bytes -> nat) : Prop :=
  forall d n d', store !! RefDigest d = Some n -> mentions d' n = true ->
    is_Some (store !! RefDigest d') -> (rank d' < rank d)%nat.

Lemma map_children_total f cs :
  (forall i m, cs !! i = Some (Some m) -> is_Some (f m)) -> is_Some (map_children f cs).
Proof.
  induction cs as [|[m|] cs IH]; intros Hf; simpl; [done| |].
  - destruct (Hf 0%nat m eq_refl) as [m' ->]. simpl.
    destruct IH as [cs' ->]; [|done]. intros i a Hi. exact (Hf (S i) a Hi).
  - destruct IH as [cs' ->]; [|done]. intros i a Hi. exact (Hf (S i) a Hi).
Qed.

Lemma resolve_total fuel store rank root :
  ranked store rank ->
  (forall d, mentions d root = true -> is_Some (store !! RefDigest d) -> (rank d < fuel)%nat) ->
  is_Some (resolve_nodes fuel store root).
Proof.
  intros Hr. revert root. induction fuel as [fuel IHf] using lt_wf_ind.
  induction root as [c|cs c IH|p v c|p m c IH|d c] using node_ind'; intros Hd.
  - by destruct fuel.
  - rewrite resolve_branch. destruct (map_children_total (resolve_nodes fuel store) cs) as [cs' ->]; [|done].
    intros i m Hi. apply (IH i m Hi). intros d Hm. apply Hd. cbn [mentions].
    apply existsb_exists. exists (Some m). split; [|done].
    apply list_elem_of_In. by eapply list_elem_of_lookup_2.
  - by destruct fuel.
  - rewrite resolve_ext. by destruct (IH Hd) as [t ->].
  - rewrite resolve_digest. destruct (store !! RefDigest d) as [n|] eqn:En; [|done].
    assert (rank d < fuel)%nat as Hlt by (apply Hd; [cbn [mentions]; by rewrite bool_decide_true|done]).
    destruct fuel as [|f]; [lia|]. apply IHf; [lia|]. intros d' Hm Hs. specialize (Hr _ _ _ En Hm Hs). lia.
Qed.

(** Resolving the digests of a trie from a store of nodes filed under their
    references does not change the root hash and keeps every answer that was
    available before. *)
Theorem resolve_nodes_sound fuel store root t :
  store_ok store -> coherent root = true -> resolve_nodes fuel store root = Some t ->
  hash t = hash root /\
  forall key o, get root key = Ok o -> get t key = Ok o.
Proof.
  intros Hs C Ht. destruct (resolve_ref _ _ _ _ Hs C Ht) as [Ct Hr]. split.
  - apply hash_eq; [|by rewrite !coherent_reference].
    destruct root as [[|cs|p v|p m|d] c]; try (by destruct fuel; simplify_eq/=).
    + rewrite resolve_branch in Ht. destruct (map_children _ cs); by simplify_eq/=.
    + rewrite resolve_ext in Ht. destruct (resolve_nodes fuel store m); by simplify_eq/=.
    + by destruct t as [[] ?].
  - intros key o. unfold get. by eapply resolve_get.
Qed.

(** [resolve_nodes] terminates on every store in which the reference chains
    are acyclic (a rank decreases along them), with fuel above the rank of the
    digests of the root. *)
Theorem resolve_nodes_terminates fuel store rank root :
  ranked store rank ->
  (forall d, mentions d root = true -> is_Some (store !! RefDigest d) -> (rank d < fuel)%nat) ->
  exists t, resolve_nodes fuel store root = Some t.
Proof. apply resolve_total. Qed.

Context `{RP : RlpParser}.

Definition add_orphaned_leafs (key : bytes) (proof : list bytes)
    (nodes_by_reference : gmap MptNodeReference MptNode) :
    outcome Error (gmap MptNodeReference MptNode) :=
  match proof with
  | [] => Ok nodes_by_reference
  | _ =>
      proof_nodes ← parse_proof proof;
      excluded ← is_not_included (keccak key) proof_nodes;
      if (excluded : bool) then
        leaf ← unwrap (head (reverse proof_nodes));
        shortened ← shorten_node_path leaf;
        Ok (store_nodes shortened nodes_by_reference)
      else Ok nodes_by_reference
  end.

(** ** The tries of all proofs *)
Record StorageProof := mkStorageProof { sp_key : bytes; sp_proof : list bytes }.
Record AccountProof := mkAccountProof {
  account_proof : list bytes;
  storage_hash : bytes;
  storage_proof : list StorageProof
}.

(** [U256::from_be_bytes]. *)
Definition from_be_bytes (b : bytes) : Z := foldl (fun acc x => acc * 256 + x) 0 b.

(** The body shared by the account and the storage loops: check a proof, keep
    its first node as the root and store all its nodes. *)
Definition absorb_proof (proof : list bytes) (root : MptNode) (store : gmap MptNodeReference MptNode) :
    outcome Error (MptNode * gmap MptNodeReference MptNode) :=
  proof_nodes ← unwrap_ok (parse_proof proof);
  _ ← unwrap_ok (mpt_from_proof proof_nodes);
  let root := match proof_nodes with node :: _ => node | [] => root end in
  Ok (root, store_nodes proof_nodes store).

Fixpoint absorb_storage (proofs : list StorageProof) (root : MptNode)
    (store : gmap MptNodeReference MptNode) : outcome Error (MptNode * gmap MptNodeReference MptNode) :=
  match proofs with
  | [] => Ok (root, store)
  | p :: rest =>
      '(root, store) ← absorb_proof (sp_proof p) root store;
      absorb_storage rest root store
  end.

Fixpoint absorb_orphans (proofs : list StorageProof) (store : gmap MptNodeReference MptNode) :
    outcome Error (gmap MptNodeReference MptNode) :=
  match proofs with
  | [] => Ok store
  | p :: rest =>
      store ← add_orphaned_leafs (sp_key p) (sp_proof p) store;
      absorb_orphans rest store
  end.

(** The storage entry of one account. *)
Definition storage_entry (fuel : nat) (proof fini_proofs : AccountProof) :
    outcome Error (MptNode * list Z) :=
  let storage_root := storage_hash proof in
  match storage_proof proof with
  | [] => Ok (node_from_digest storage_root, [])
  | _ =>
      '(storage_root_node, storage_nodes) ← absorb_storage (storage_proof proof) default ∅;
      storage_nodes ← absorb_orphans (storage_proof fini_proofs) storage_nodes;
      storage_trie ← unwrap (resolve_nodes fuel storage_nodes storage_root_node);
      _ ← assert (bool_decide (hash storage_trie = storage_root));
      Ok (storage_trie, map (fun p => from_be_bytes (sp_key p)) (storage_proof proof))
  end.

(** The loop over the accounts; [parent_proofs] lists the map in its iteration order. *)
Fixpoint absorb_accounts (fuel : nat) (parent_proofs : list (bytes * AccountProof))
    (post_proofs : gmap bytes AccountProof) (root : MptNode)
    (store : gmap MptNodeReference MptNode) (storage : gmap bytes (MptNode * list Z)) :
    outcome Error (MptNode * gmap MptNodeReference MptNode * gmap bytes (MptNode * list Z)) :=
  match parent_proofs with
  | [] => Ok (root, store, storage)
  | (address, proof) :: rest =>
      '(root, store) ← absorb_proof (account_proof proof) root store;
      fini_proofs ← unwrap (post_proofs !! address);
      store ← add_orphaned_leafs address (account_proof fini_proofs) store;
      entry ← storage_entry fuel proof fini_proofs;
      absorb_accounts fuel rest post_proofs root store (<[address := entry]> storage)
  end.

Definition proofs_to_tries (fuel : nat) (state_root : bytes)
    (parent_proofs : list (bytes * AccountProof)) (post_proofs : gmap bytes AccountProof) :
    outcome Error (MptNode * gmap bytes (MptNode * list Z)) :=
  match parent_proofs with
  | [] => Ok (node_from_digest state_root, ∅)
  | _ =>
      '(state_root_node, state_nodes, storage) ← absorb_accounts fuel parent_proofs post_proofs default ∅ ∅;
      state_trie ← unwrap (resolve_nodes fuel state_nodes state_root_node);
      _ ← assert (bool_decide (hash state_trie = state_root));
      Ok (state_trie, storage)
  end.

(** ** What the tries of the proofs commit to *)

(** A storage entry of an account answers for the storage root of its proof. *)
Definition entry_ok (proof : AccountProof) (e : MptNode * list Z) : Prop :=
  e.2 = map (fun p => from_be_bytes (sp_key p)) (storage_proof proof) /\
  (hash e.1 = storage_hash proof \/ (e.1 = default /\ storage_hash proof = ZERO)).

Lemma hash_node_from_digest d :
  hash (node_from_digest d) = d \/ (node_from_digest d = default /\ d = ZERO).
Proof.
  unfold node_from_digest. destruct (bool_decide (d = EMPTY_ROOT)) eqn:E1; breflect; simpl.
  - left. by subst.
  - destruct (bool_decide (d = ZERO)) eqn:E2; breflect; simpl; [by right|by left].
Qed.

Lemma storage_entry_ok fuel proof fini e :
  storage_entry fuel proof fini = Ok e -> entry_ok proof e.
Proof.
  unfold storage_entry, entry_ok. destruct (storage_proof proof) as [|p ps] eqn:Ep; intros He.
  - simplify_eq. split; [done|]. apply hash_node_from_digest.
  - destruct (absorb_storage _ _ _) as [[root store]| |]; cbn [mbind outcome_bind] in He; try done.
    destruct (absorb_orphans _ _) as [store'| |]; cbn [mbind outcome_bind] in He; try done.
    destruct (resolve_nodes fuel store' root) as [t|]; cbn [unwrap mbind outcome_bind] in He; [|done].
    destruct (bool_decide (hash t = storage_hash proof)) eqn:Eh; cbn [assert mbind outcome_bind] in He; [|done].
    breflect. simplify_eq. split; [done|by left].
Qed.

Definition storage_ok (proofs : list (bytes * AccountProof)) (storage : gmap bytes (MptNode * list Z)) : Prop :=
  forall a e, storage !! a = Some e -> exists proof, (a, proof) ∈ proofs /\ entry_ok proof e.

Lemma absorb_accounts_ok fuel proofs rest post root store storage r :
  (forall x, x ∈ rest -> x ∈ proofs) -> storage_ok proofs storage ->
  absorb_accounts fuel rest post root store storage = Ok r ->
  storage_ok proofs r.2 /\ (forall a, a ∈ rest.*1 -> is_Some (r.2 !! a)) /\
  (forall a, is_Some (storage !! a) -> is_Some (r.2 !! a)).
Proof.
  revert root store storage. induction rest as [|[a proof] rest IH]; intros root store storage Hin Hs Hr;
    cbn [absorb_accounts] in Hr.
  - simplify_eq. split_and!; auto. intros a Ha. by apply elem_of_nil in Ha.
  - destruct (absorb_proof _ _ _) as [[root' store']| |]; cbn [mbind outcome_bind] in Hr; try done.
    destruct (post !! a) as [fini|]; cbn [unwrap mbind outcome_bind] in Hr; [|done].
    destruct (add_orphaned_leafs _ _ _) as [store''| |]; cbn [mbind outcome_bind] in Hr; try done.
    destruct (storage_entry fuel proof fini) as [e| |] eqn:Ee; cbn [mbind outcome_bind] in Hr; try done.
    destruct (IH root' store'' (<[a:=e]> storage)) as (H1 & H2 & H3); auto.
    { intros x Hx. apply Hin. by right. }
    { intros a' e' He'. apply lookup_insert_Some in He' as [[<- <-]|[_ He']]; [|by apply Hs].
      exists proof. split; [apply Hin; by left|]. by eapply storage_entry_ok. }
    split_and!; auto.
    + intros a' [->|Ha']%elem_of_cons; [|by apply H2]. apply H3. by rewrite lookup_insert_eq.
    + intros a' [e' He']. apply H3. destruct (decide (a = a')) as [<-|]; [by rewrite lookup_insert_eq|].
      by rewrite lookup_insert_ne, He'.
Qed.

(** The state trie has the claimed root, also when there are no proofs; the zero
    hash stands for an empty trie. *)
Lemma proofs_to_tries_root fuel state_root parent_proofs post_proofs trie storage :
  proofs_to_tries fuel state_root parent_proofs post_proofs = Ok (trie, storage) ->
  hash trie = state_root \/ (trie = default /\ state_root = ZERO).
Proof.
  unfold proofs_to_tries. destruct parent_proofs as [|p ps]; intros Hp; [simplify_eq; apply hash_node_from_digest|].
  bind_inv. destruct a as [[root nodes] st]. bind_inv. left.
  match goal with H : assert _ = Ok _ |- _ => apply assert_Ok in H end. by breflect.
Qed.

(** C12: the tries built from the proofs commit to the claimed roots: the state
    trie hashes to the state root, every account of the proofs gets a storage
    entry, and each entry hashes to the storage hash of its account's proof
    (the zero hash standing for an empty trie) and lists the proven slots. *)
Theorem proofs_to_tries_commits fuel state_root parent_proofs post_proofs trie storage :
  parent_proofs <> [] ->
  proofs_to_tries fuel state_root parent_proofs post_proofs = Ok (trie, storage) ->
  hash trie = state_root /\ storage_ok parent_proofs storage /\
  (forall a, a ∈ parent_proofs.*1 -> is_Some (storage !! a)).
Proof.
  intros Hne Hp. destruct parent_proofs as [|p ps]; [done|]. unfold proofs_to_tries in Hp.
  destruct (absorb_accounts fuel (p :: ps) post_proofs default ∅ ∅) as [[[root nodes] st]| |] eqn:Ea;
    cbn [mbind outcome_bind] in Hp; try done.
  destruct (resolve_nodes fuel nodes root) as [t|]; cbn [unwrap mbind outcome_bind] in Hp; [|done].
  destruct (bool_decide (hash t = state_root)) eqn:Eh; cbn [assert mbind outcome_bind] in Hp; [|done].
  breflect. simplify_eq.
  destruct (absorb_accounts_ok _ (p :: ps) _ _ _ _ _ _ (fun x Hx => Hx) ltac:(intros a e He; by rewrite lookup_empty in He) Ea)
    as (H1 & H2 & _). done.
Qed.
End proofs.

(** ** Witnesses *)

(** A proof of two nodes: the root branch and one of its children. *)
Definition long_value : bytes := replicate 40 7.
Definition proof_child : MptNode := from (Leaf (to_encoded_path [1; 2; 3] true) long_value).
Definition proof_root : MptNode :=
  from (Branch (<[2%nat := Some (from (Digest (hash proof_child)))]>
    (<[5%nat := Some (from (Leaf (to_encoded_path [9; 9; 9] true) [1]))]> (replicate 16 None)))).

Lemma proof_links : is_ok (mpt_from_proof [proof_root; proof_child]) = true.
Proof. vm_compute. reflexivity. Qed.

Lemma mpt_from_proof_root_witness :
  exists t, mpt_from_proof [proof_root; proof_child] = Ok t /\ reference t = reference proof_root.
Proof.
  pose proof proof_links as Hok.
  destruct (mpt_from_proof [proof_root; proof_child]) as [t| |] eqn:E; [|discriminate Hok..].
  exists t. split; [reflexivity|].
  apply (mpt_from_proof_root proof_root [proof_child] t); [|exact E].
  repeat constructor; vm_compute; reflexivity.
Defined.

Definition proof_store : gmap MptNodeReference MptNode := store_nodes [proof_root; proof_child] ∅.

Lemma proof_store_ok : store_ok proof_store.
Proof. apply (bool_decide_unpack (map_Forall _ proof_store)). vm_compute. exact I. Qed.

Lemma proof_resolves : bool_decide (is_Some (resolve_nodes 3 proof_store proof_root)) = true.
Proof. vm_compute. reflexivity. Qed.

Lemma proof_root_get : get proof_root [0x59; 0x99] = Ok (Some [1]).
Proof. vm_compute. reflexivity. Qed.

Lemma resolve_nodes_sound_witness :
  exists t, resolve_nodes 3 proof_store proof_root = Some t /\ hash t = hash proof_root /\
    get t [0x59; 0x99] = Ok (Some [1]).
Proof.
  pose proof proof_resolves as Hok.
  destruct (resolve_nodes 3 proof_store proof_root) as [t|] eqn:E; [|discriminate Hok].
  exists t. split; [reflexivity|].
  destruct (resolve_nodes_sound 3 proof_store proof_root t) as [Hh Hg];
    [exact proof_store_ok|vm_compute; reflexivity|exact E|].
  split; [exact Hh|]. apply Hg. exact proof_root_get.
Defined.

Lemma resolve_nodes_terminates_witness :
  exists t, resolve_nodes 2 {[RefDigest [1] := from (Leaf [0x20] [5])]} (from (Digest [1])) = Some t.
Proof.
  apply (resolve_nodes_terminates 2 _ (fun _ => 1%nat)).
  - intros d n d' Hn Hm _. apply lookup_singleton_Some in Hn as [_ <-]. discriminate Hm.
  - intros d _ _. lia.
Defined.

Definition account_fixture : AccountProof := mkAccountProof [encode proof_root; encode proof_child] EMPTY_ROOT [].

Abbreviation tries_fixture :=
  (proofs_to_tries 3 (hash proof_root) [([1], account_fixture)] {[ [1] := account_fixture ]}).

Lemma tries_fixture_ok : is_ok tries_fixture = true.
Proof. vm_compute. reflexivity. Qed.

Lemma proofs_to_tries_commits_witness :
  exists trie storage, tries_fixture = Ok (trie, storage) /\ hash trie = hash proof_root.
Proof.
  pose proof tries_fixture_ok as Hok.
  destruct tries_fixture as [[trie storage]| |] eqn:E; [|discriminate Hok..].
  exists trie, storage. split; [reflexivity|].
  destruct (proofs_to_tries_commits 3 (hash proof_root) [([1], account_fixture)]
    {[ [1] := account_fixture ]} trie storage ltac:(discriminate) E) as [Hh _].
  exact Hh.
Defined.
