(* ===== verification/Types.v ===== *)
(** Small shared types of the program: proof types ([lib/src/proof_type.rs]),
    blob proof types ([lib/src/input.rs]), proofs and prover errors
    ([lib/src/prover.rs]), task statuses and their codes ([taskdb/src/lib.rs]),
    JSON values and the prover-specific options ([core/src/interfaces.rs]). *)

From stdpp Require Import base list list_numbers strings gmap countable.
From Stdlib Require Import ZArith Lia Ascii String.
From S2P Require Import Prelude.
Open Scope Z_scope.

(** ** Strings *)

(** [str::to_lowercase] and [str::trim] on ASCII text. *)
Definition ascii_lower (c : ascii) : ascii :=
  let n := N_of_ascii c in
  if ((65 <=? n) && (n <=? 90))%N then ascii_of_N (n + 32) else c.

Fixpoint to_lowercase (s : string) : string :=
  match s with
  | EmptyString => EmptyString
  | String c s' => String (ascii_lower c) (to_lowercase s')
  end.

Definition is_space (c : ascii) : bool :=
  let n := N_of_ascii c in ((n =? 32) || ((9 <=? n) && (n <=? 13)))%N.

Fixpoint trim_start (s : string) : string :=
  match s with
  | String c s' => if is_space c then trim_start s' else s
  | EmptyString => EmptyString
  end.

Fixpoint string_rev (s acc : string) : string :=
  match s with
  | EmptyString => acc
  | String c s' => string_rev s' (String c acc)
  end.

Definition trim (s : string) : string :=
  string_rev (trim_start (string_rev (trim_start s) EmptyString)) EmptyString.

(** ** Proof types *)
Inductive ProofType : Type := Native | Sp1 | Sgx | Risc0 | SgxGeth.

#[global] Instance ProofType_eq_dec : EqDecision ProofType.
Proof. solve_decision. Defined.

(** The [repr(u8)] discriminants. *)
Definition proof_type_u8 (p : ProofType) : Z :=
  match p with Native => 0 | Sp1 => 1 | Sgx => 2 | Risc0 => 3 | SgxGeth => 4 end.

Definition proof_type_try_from (value : Z) : outcome string ProofType :=
  match value with
  | 0 => Ok Native
  | 1 => Ok Sp1
  | 2 => Ok Sgx
  | 3 => Ok Risc0
  | 4 => Ok SgxGeth
  | _ => Err "Unknown proof type"%string
  end.

Definition proof_type_to_string (p : ProofType) : string :=
  match p with
  | Native => "native" | Sp1 => "sp1" | Sgx => "sgx" | Risc0 => "risc0" | SgxGeth => "sgxgeth"
  end%string.

Definition proof_type_from_str (s : string) : outcome string ProofType :=
  let t := to_lowercase (trim s) in
  if bool_decide (t = "native"%string) then Ok Native
  else if bool_decide (t = "sp1"%string) then Ok Sp1
  else if bool_decide (t = "sgx"%string) then Ok Sgx
  else if bool_decide (t = "risc0"%string) then Ok Risc0
  else if bool_decide (t = "sgxgeth"%string) then Ok SgxGeth
  else Err (String.append "Unknown proof type " s).

#[global] Instance ProofType_countable : Countable ProofType.
Proof.
  refine (inj_countable proof_type_u8 (fun z => match proof_type_try_from z with Ok p => Some p | _ => None end) _).
  by intros [].
Defined.

(** ** Blob proof types *)
Inductive BlobProofType : Type := KzgVersionedHash | ProofOfEquivalence.

#[global] Instance BlobProofType_eq_dec : EqDecision BlobProofType.
Proof. solve_decision. Defined.

Definition blob_proof_type_from_str (s : string) : outcome string BlobProofType :=
  let t := trim s in
  if bool_decide (t = "proof_of_equivalence"%string) then Ok ProofOfEquivalence
  else if bool_decide (t = "kzg_versioned_hash"%string) then Ok KzgVersionedHash
  else Err "invalid blob proof type"%string.

(** ** Proofs and prover errors *)
Record Proof_ := mkProof {
  proof : option string;
  proof_input : option bytes;
  quote : option string;
  uuid : option string;
  kzg_proof : option string
}.
Definition Proof_default : Proof_ := mkProof None None None None None.

Inductive ProverError : Type :=
| GuestError (e : string)
| FileIo (e : string)
| Param (e : string)
| StoreError (e : string).

(** [ProofKey = (ChainId, u64, B256, u8)]. *)
Definition ProofKey : Type := Z * Z * bytes * Z.

(** ** Task statuses *)
Inductive TaskStatus : Type :=
| TSuccess
| TRegistered
| TWorkInProgress
| ProofFailure_Generic
| ProofFailure_OutOfMemory
| NetworkFailure (e : string)
| TCancelled
| Cancelled_NeverStarted
| Cancelled_Aborted
| CancellationInProgress
| InvalidOrUnsupportedBlock
| ZKAnyNotDrawn
| IoFailure (e : string)
| AnyhowError (e : string)
| GuestProverFailure (e : string)
| UnspecifiedFailureReason
| TaskDbCorruption (e : string)
| SystemPaused.

#[global] Instance TaskStatus_eq_dec : EqDecision TaskStatus.
Proof. solve_decision. Defined.

Definition task_status_to_i32 (status : TaskStatus) : Z :=
  match status with
  | TSuccess => 0
  | TRegistered => 1000
  | TWorkInProgress => 2000
  | ProofFailure_Generic => -1000
  | ProofFailure_OutOfMemory => -1100
  | NetworkFailure _ => -2000
  | TCancelled => -3000
  | Cancelled_NeverStarted => -3100
  | Cancelled_Aborted => -3200
  | CancellationInProgress => -3210
  | InvalidOrUnsupportedBlock => -4000
  | ZKAnyNotDrawn => -4100
  | IoFailure _ => -5000
  | AnyhowError _ => -6000
  | GuestProverFailure _ => -7000
  | UnspecifiedFailureReason => -8000
  | TaskDbCorruption _ => -9000
  | SystemPaused => -10000
  end.

Definition task_status_from_i32 (value : Z) : TaskStatus :=
  match value with
  | 0 => TSuccess
  | 1000 => TRegistered
  | 2000 => TWorkInProgress
  | -1000 => ProofFailure_Generic
  | -1100 => ProofFailure_OutOfMemory
  | -2000 => NetworkFailure ""
  | -3000 => TCancelled
  | -3100 => Cancelled_NeverStarted
  | -3200 => Cancelled_Aborted
  | -3210 => CancellationInProgress
  | -4000 => InvalidOrUnsupportedBlock
  | -4100 => ZKAnyNotDrawn
  | -5000 => IoFailure ""
  | -6000 => AnyhowError ""
  | -7000 => GuestProverFailure ""
  | -8000 => UnspecifiedFailureReason
  | -9000 => TaskDbCorruption ""
  | -10000 => SystemPaused
  | _ => UnspecifiedFailureReason
  end.

(** ** JSON values and prover options *)
#[warnings="-register-all"]
Inductive Value : Type :=
| JNull
| JBool (b : bool)
| JNumber (n : Z)
| JFloat (f64_bits : Z)
| JString (s : string)
| JArray (l : list Value)
| JObject (m : list (string * Value)).

Record ProverSpecificOpts := mkProverSpecificOpts {
  opt_native : option Value;
  opt_sgx : option Value;
  opt_sgxgeth : option Value;
  opt_sp1 : option Value;
  opt_risc0 : option Value
}.

(** ** Round trips *)

(** The status without the text of a failure, which the code does not carry. *)
Definition without_text (status : TaskStatus) : TaskStatus :=
  match status with
  | NetworkFailure _ => NetworkFailure ""
  | IoFailure _ => IoFailure ""
  | AnyhowError _ => AnyhowError ""
  | GuestProverFailure _ => GuestProverFailure ""
  | TaskDbCorruption _ => TaskDbCorruption ""
  | s => s
  end.

(** Proof types survive both encodings the program uses for them: the
    [u8] of a proof key and the string of a request, whose parser also ignores
    surrounding blanks and letter case. *)
Theorem proof_type_roundtrip p :
  proof_type_try_from (proof_type_u8 p) = Ok p /\
  proof_type_from_str (proof_type_to_string p) = Ok p /\
  (forall s, to_lowercase (trim s) = proof_type_to_string p -> proof_type_from_str s = Ok p).
Proof.
  split_and!; [by destruct p|by destruct p; vm_compute|].
  intros s Hs. unfold proof_type_from_str. rewrite Hs. by destruct p; vm_compute.
Qed.

(** A task status code identifies the status up to the text of a failure:
    decoding the code gives the status back and different statuses have
    different codes, all within [i32]. *)
Theorem task_status_code s t :
  task_status_from_i32 (task_status_to_i32 s) = without_text s /\
  (task_status_to_i32 s = task_status_to_i32 t -> without_text s = without_text t) /\
  - 2 ^ 31 <= task_status_to_i32 s < 2 ^ 31.
Proof. split_and!; destruct s, t; simpl; try done; lia. Qed.
