(* ===== verification/Interfaces.v ===== *)
(** * Interfaces: errors, JSON settings and proof requests

    Models [core/src/interfaces.rs] without the dispatch to provers, and the
    merge of JSON values of [core/src/lib.rs]. The conversions between requests
    and JSON are those that the serde attributes of the structs derive: an
    absent or null optional field is [None], unknown fields are ignored, the
    prover options are flattened into the object. *)
From stdpp Require Import base list list_numbers gmap fin_maps strings.
From Stdlib Require Import ZArith Lia Ascii.
From S2P Require Import Prelude Text Types.
Local Open Scope Z_scope.
Local Open Scope string_scope.

(** ** Errors *)
Inductive RaikoError : Type :=
| InvalidProofType (e : string)
| InvalidBlobOption (e : string)
| InvalidRequestConfig (e : string)
| FeatureNotSupportedError (p : ProofType)
| Conversion (e : string)
| RPC (e : string)
| Preflight (e : string)
| Guest (e : ProverError)
| Db (e : string)
| Io (e : string)
| Serde (e : string)
| Anyhow (e : string).

(** The [Display] that the error attributes derive. *)
Definition ProverError_to_string (e : ProverError) : string :=
  match e with
  | GuestError m => "ProverError::GuestError `" +:+ m +:+ "`"
  | FileIo m => "ProverError::FileIo `" +:+ m +:+ "`"
  | Param m => "ProverError::Param `" +:+ m +:+ "`"
  | StoreError m => "Store error `" +:+ m +:+ "`"
  end.

Definition RaikoError_to_string (e : RaikoError) : string :=
  match e with
  | InvalidProofType m | InvalidBlobOption m => "Unknown proof type: " +:+ m
  | InvalidRequestConfig m => "Invalid proof request: " +:+ m
  | FeatureNotSupportedError p => "Feature not supported: " +:+ proof_type_to_string p
  | Conversion m => "Invalid conversion: " +:+ m
  | RPC m => "There was an error with the RPC provider: " +:+ m
  | Preflight m => "There was an error running the preflight: " +:+ m
  | Guest m => "There was an error with a guest prover: " +:+ ProverError_to_string m
  | Db m => "There was an error with the db: " +:+ m
  | Io m => "There was a I/O error: " +:+ m
  | Serde m => "There was a deserialization error: " +:+ m
  | Anyhow m => "There was an unexpected error: " +:+ m
  end.

Abbreviation RaikoResult := (outcome RaikoError) (only parsing).

(** ** JSON values *)

(** The entry of a key in an object, as an association list with unique keys. *)
Fixpoint assoc {A} (k : string) (l : list (string * A)) : option A :=
  match l with
  | [] => None
  | (k', v) :: l' => if bool_decide (k = k') then Some v else assoc k l'
  end.

(** Replace the value of a key in place, or add the key. *)
Fixpoint upsert {A} (k : string) (v : A) (l : list (string * A)) : list (string * A) :=
  match l with
  | [] => [(k, v)]
  | (k', v') :: l' => if bool_decide (k = k') then (k', v) :: l' else (k', v') :: upsert k v l'
  end.

Definition get (k : string) (v : Value) : option Value :=
  match v with JObject m => assoc k m | _ => None end.

(** [v["k"]]: null when there is no such entry. *)
Definition index (v : Value) (k : string) : Value := default JNull (get k v).

Definition is_null (v : Value) : bool := match v with JNull => true | _ => false end.
Definition as_str (v : Value) : option string := match v with JString s => Some s | _ => None end.
Definition as_u64 (v : Value) : option Z :=
  match v with JNumber n => if u64b n then Some n else None | _ => None end.
Definition as_array (v : Value) : option (list Value) := match v with JArray l => Some l | _ => None end.

(** Merges two values, overwriting [a] with what is not null in [b]. *)
Fixpoint merge (a b : Value) {struct b} : Value :=
  match b with
  | JNull => a
  | JObject bm =>
      match a with
      | JObject am =>
          JObject ((fix go am bm :=
            match bm with
            | [] => am
            | (k, v) :: bm' => go (upsert k (merge (default JNull (assoc k am)) v) am) bm'
            end) am bm)
      | _ => b
      end
  | _ => b
  end.

(** The loop of [merge] over the entries of [b]. *)
Definition merge_entries (am bm : list (string * Value)) : list (string * Value) :=
  (fix go am bm :=
    match bm with
    | [] => am
    | (k, v) :: bm' => go (upsert k (merge (default JNull (assoc k am)) v) am) bm'
    end) am bm.

(** ** Optional fields and sequences *)
Definition serde_err {A} : RaikoResult A := Err (Serde "invalid value").

Definition of_option {A} (o : option A) : RaikoResult A :=
  match o with Some a => Ok a | None => serde_err end.

(** A field of type [Option<T>]. *)
Definition opt_field {A} (dec : Value -> option A) (o : option Value) : RaikoResult (option A) :=
  match o with
  | None | Some JNull => Ok None
  | Some v => Some <$> of_option (dec v)
  end.

(** A field of a struct with [#[serde(default)]], and a required one. *)
Definition default_field {A} (dec : Value -> option A) (d : A) (o : option Value) : RaikoResult A :=
  match o with None => Ok d | Some v => of_option (dec v) end.
Definition required_field {A} (dec : Value -> option A) (o : option Value) : RaikoResult A :=
  match o with None => serde_err | Some v => of_option (dec v) end.

Definition opt_value {A} (enc : A -> Value) (o : option A) : Value :=
  match o with Some a => enc a | None => JNull end.

Definition opt_dec {A} (dec : Value -> option A) (v : Value) : option (option A) :=
  match v with JNull => Some None | _ => Some <$> dec v end.

Definition dec_list {A} (dec : Value -> option A) (v : Value) : option (list A) :=
  match v with JArray l => mapM dec l | _ => None end.

(** ** Prover options *)
Definition opts_entries (o : ProverSpecificOpts) : list (string * Value) :=
  [("native", opt_value id (opt_native o)); ("sgx", opt_value id (opt_sgx o));
   ("sgxgeth", opt_value id (opt_sgxgeth o)); ("sp1", opt_value id (opt_sp1 o));
   ("risc0", opt_value id (opt_risc0 o))].

Definition opts_from (v : Value) : RaikoResult ProverSpecificOpts :=
  native ← opt_field Some (get "native" v);
  sgx ← opt_field Some (get "sgx" v);
  sgxgeth ← opt_field Some (get "sgxgeth" v);
  sp1 ← opt_field Some (get "sp1" v);
  risc0 ← opt_field Some (get "risc0" v);
  Ok (mkProverSpecificOpts native sgx sgxgeth sp1 risc0).

(** [From<ProverSpecificOpts> for HashMap<String, Value>]. *)
Definition opts_to_map (o : ProverSpecificOpts) : gmap string Value :=
  list_to_map (omap (fun '(name, v) => (fun x => (name, x)) <$> v)
    [("native", opt_native o); ("sgx", opt_sgx o); ("sgxgeth", opt_sgxgeth o); ("sp1", opt_sp1 o);
     ("risc0", opt_risc0 o)]).

(** ** Proof requests *)
Record ProofRequest := mkProofRequest {
  block_number : Z; batch_id : Z; l1_inclusion_block_number : Z; l2_block_numbers : list Z;
  network : string; l1_network : string; graffiti : bytes; prover : bytes;
  proof_type : ProofType; blob_proof_type : BlobProofType; prover_args : gmap string Value }.

Record ProofRequestOpt := mkProofRequestOpt {
  ro_block_number : option Z; ro_batch_id : option Z; ro_l1_inclusion_block_number : option Z;
  ro_l2_block_numbers : option (list Z); ro_network : option string; ro_l1_network : option string;
  ro_graffiti : option string; ro_prover : option string; ro_proof_type : option string;
  ro_blob_proof_type : option string; ro_prover_args : ProverSpecificOpts }.

Definition opt_to_value (r : ProofRequestOpt) : Value :=
  JObject ([("block_number", opt_value JNumber (ro_block_number r)); ("batch_id", opt_value JNumber (ro_batch_id r));
    ("l1_inclusion_block_number", opt_value JNumber (ro_l1_inclusion_block_number r));
    ("l2_block_numbers", opt_value (fun l => JArray (JNumber <$> l)) (ro_l2_block_numbers r));
    ("network", opt_value JString (ro_network r)); ("l1_network", opt_value JString (ro_l1_network r));
    ("graffiti", opt_value JString (ro_graffiti r)); ("prover", opt_value JString (ro_prover r));
    ("proof_type", opt_value JString (ro_proof_type r));
    ("blob_proof_type", opt_value JString (ro_blob_proof_type r))] ++ opts_entries (ro_prover_args r))%list.

Definition opt_from_value (v : Value) : RaikoResult ProofRequestOpt :=
  _ ← (match v with JObject _ => Ok () | _ => serde_err end);
  block_number ← opt_field as_u64 (get "block_number" v);
  batch_id ← opt_field as_u64 (get "batch_id" v);
  l1_inclusion_block_number ← opt_field as_u64 (get "l1_inclusion_block_number" v);
  l2_block_numbers ← opt_field (dec_list as_u64) (get "l2_block_numbers" v);
  network ← opt_field as_str (get "network" v);
  l1_network ← opt_field as_str (get "l1_network" v);
  graffiti ← opt_field as_str (get "graffiti" v);
  prover ← opt_field as_str (get "prover" v);
  proof_type ← opt_field as_str (get "proof_type" v);
  blob_proof_type ← opt_field as_str (get "blob_proof_type" v);
  prover_args ← opts_from v;
  Ok (mkProofRequestOpt block_number batch_id l1_inclusion_block_number l2_block_numbers network l1_network
        graffiti prover proof_type blob_proof_type prover_args).

(** [ProofRequestOpt::merge]. *)
Definition opt_merge (self : ProofRequestOpt) (other : Value) : RaikoResult ProofRequestOpt :=
  opt_from_value (merge (opt_to_value self) other).

Definition config_err {A} (m : string) : RaikoResult A := Err (InvalidRequestConfig m).

Section parse.
(** The parsers of hashes and addresses of the Ethereum library. *)
Variables parse_b256 parse_address : string -> option bytes.

(** A required field with its parser. *)
Definition parsed {A} (missing invalid : string) (parse : string -> option A) (o : option string) : RaikoResult A :=
  s ← ok_or o (InvalidRequestConfig missing);
  ok_or (parse s) (InvalidRequestConfig invalid).

Definition ok {E A} (m : outcome E A) : option A := match m with Ok a => Some a | _ => None end.

(** [TryFrom<ProofRequestOpt> for ProofRequest]; the fields are evaluated in the
    order of the struct expression. *)
Definition request_try_from (v : ProofRequestOpt) : RaikoResult ProofRequest :=
  network ← ok_or (ro_network v) (InvalidRequestConfig "Missing network");
  l1_network ← ok_or (ro_l1_network v) (InvalidRequestConfig "Missing l1_network");
  graffiti ← parsed "Missing graffiti" "Invalid graffiti" parse_b256 (ro_graffiti v);
  prover ← parsed "Missing prover" "Invalid prover" parse_address (ro_prover v);
  proof_type ← parsed "Missing proof_type" "Invalid proof_type" (fun s => ok (proof_type_from_str s)) (ro_proof_type v);
  blob_proof_type ← ok_or (ok (blob_proof_type_from_str (default "proof_of_equivalence" (ro_blob_proof_type v))))
                      (InvalidRequestConfig "Invalid blob_proof_type");
  Ok (mkProofRequest (default 0 (ro_block_number v)) (default 0 (ro_batch_id v))
        (default 0 (ro_l1_inclusion_block_number v)) (default [] (ro_l2_block_numbers v))
        network l1_network graffiti prover proof_type blob_proof_type (opts_to_map (ro_prover_args v))).

(** ** Batches *)
Record BatchMetadata := mkBatchMeta { bm_batch_id : Z; bm_l1_inclusion_block_number : Z }.

Definition BatchMetadata_from_str (s : string) : outcome string BatchMetadata :=
  match split ":"%char s with
  | [a; b] =>
      batch_id ← ok_or (parse_u64 a) "Invalid batch_id";
      l1 ← ok_or (parse_u64 b) "Invalid l1_inclusion_block_number";
      Ok (mkBatchMeta batch_id l1)
  | _ => Err "Invalid BatchMetadata format. Expected 'batch_id:l1_inclusion_block_number'"
  end.

Definition BatchMetadata_to_string (m : BatchMetadata) : string :=
  print_u64 (bm_batch_id m) +:+ String ":" (print_u64 (bm_l1_inclusion_block_number m)).

(** A struct is read from an object, or from a sequence of its fields. *)
Definition batch_from_value (v : Value) : option BatchMetadata :=
  match v with
  | JObject _ =>
      b ← get "batch_id" v ≫= as_u64;
      l ← get "l1_inclusion_block_number" v ≫= as_u64;
      Some (mkBatchMeta b l)
  | JArray [x; y] => b ← as_u64 x; l ← as_u64 y; Some (mkBatchMeta b l)
  | _ => None
  end.

Record BatchProofRequest := mkBatchProofRequest {
  br_batches : list BatchMetadata; br_aggregate : bool; br_proof_type : ProofType;
  br_network : string; br_l1_network : string; br_graffiti : bytes; br_prover : bytes;
  br_blob_proof_type : BlobProofType; br_prover_args : ProverSpecificOpts }.

Record BatchProofRequestOpt := mkBatchProofRequestOpt {
  bo_batches : list BatchMetadata; bo_aggregate : option bool; bo_proof_type : string;
  bo_network : option string; bo_l1_network : option string; bo_graffiti : option string;
  bo_prover : option string; bo_blob_proof_type : option string; bo_prover_args : option ProverSpecificOpts }.

Definition as_bool (v : Value) : option bool := match v with JBool b => Some b | _ => None end.

(** A flattened option is present whenever its fields can be read. *)
Definition batch_opt_from_value (v : Value) : RaikoResult BatchProofRequestOpt :=
  _ ← (match v with JObject _ => Ok () | _ => serde_err end);
  batches ← required_field (dec_list batch_from_value) (get "batches" v);
  aggregate ← opt_field as_bool (get "aggregate" v);
  proof_type ← required_field as_str (get "proof_type" v);
  network ← opt_field as_str (get "network" v);
  l1_network ← opt_field as_str (get "l1_network" v);
  graffiti ← opt_field as_str (get "graffiti" v);
  prover ← opt_field as_str (get "prover" v);
  blob_proof_type ← opt_field as_str (get "blob_proof_type" v);
  prover_args ← opts_from v;
  Ok (mkBatchProofRequestOpt batches aggregate proof_type network l1_network graffiti prover blob_proof_type
        (Some prover_args)).

Definition batch_request_try_from (v : BatchProofRequestOpt) : RaikoResult BatchProofRequest :=
  proof_type ← ok_or (ok (proof_type_from_str (bo_proof_type v))) (InvalidRequestConfig "Invalid proof_type");
  network ← ok_or (bo_network v) (InvalidRequestConfig "Missing network");
  l1_network ← ok_or (bo_l1_network v) (InvalidRequestConfig "Missing l1_network");
  graffiti ← parsed "Missing graffiti" "Invalid graffiti" parse_b256 (bo_graffiti v);
  prover ← parsed "Missing prover" "Invalid prover" parse_address (bo_prover v);
  blob_proof_type ← ok_or (ok (blob_proof_type_from_str (default "proof_of_equivalence" (bo_blob_proof_type v))))
                      (InvalidRequestConfig "Invalid blob_proof_type");
  prover_args ← ok_or (bo_prover_args v) (InvalidRequestConfig "Missing prover_args");
  Ok (mkBatchProofRequest (bo_batches v) (default false (bo_aggregate v)) proof_type network l1_network graffiti
        prover blob_proof_type prover_args).
End parse.

(** ** Aggregation requests *)
Record AggregationRequest := mkAggregationRequest {
  ar_block_numbers : list (Z * option Z); ar_network : option string; ar_l1_network : option string;
  ar_graffiti : option string; ar_prover : option string; ar_proof_type : option string;
  ar_blob_proof_type : option string; ar_prover_args : ProverSpecificOpts }.

Definition pair_value (p : Z * option Z) : Value := JArray [JNumber p.1; opt_value JNumber p.2].
Definition pair_from (v : Value) : option (Z * option Z) :=
  match v with JArray [x; y] => n ← as_u64 x; m ← opt_dec as_u64 y; Some (n, m) | _ => None end.

Definition agg_to_value (r : AggregationRequest) : Value :=
  JObject ([("block_numbers", JArray (pair_value <$> ar_block_numbers r));
    ("network", opt_value JString (ar_network r)); ("l1_network", opt_value JString (ar_l1_network r));
    ("graffiti", opt_value JString (ar_graffiti r)); ("prover", opt_value JString (ar_prover r));
    ("proof_type", opt_value JString (ar_proof_type r));
    ("blob_proof_type", opt_value JString (ar_blob_proof_type r))] ++ opts_entries (ar_prover_args r))%list.

Definition agg_from_value (v : Value) : RaikoResult AggregationRequest :=
  _ ← (match v with JObject _ => Ok () | _ => serde_err end);
  block_numbers ← default_field (dec_list pair_from) [] (get "block_numbers" v);
  network ← opt_field as_str (get "network" v);
  l1_network ← opt_field as_str (get "l1_network" v);
  graffiti ← opt_field as_str (get "graffiti" v);
  prover ← opt_field as_str (get "prover" v);
  proof_type ← opt_field as_str (get "proof_type" v);
  blob_proof_type ← opt_field as_str (get "blob_proof_type" v);
  prover_args ← opts_from v;
  Ok (mkAggregationRequest block_numbers network l1_network graffiti prover proof_type blob_proof_type prover_args).

(** [AggregationRequest::merge]: the request overrides the options. *)
Definition agg_merge (self : AggregationRequest) (opts : ProofRequestOpt) : RaikoResult AggregationRequest :=
  agg_from_value (merge (opt_to_value opts) (agg_to_value self)).

(** [From<AggregationRequest> for Vec<ProofRequestOpt>]. *)
Definition agg_into_opts (v : AggregationRequest) : list ProofRequestOpt :=
  (fun '(block_number, l1_inclusion_block_number) =>
     mkProofRequestOpt (Some block_number) None l1_inclusion_block_number None (ar_network v) (ar_l1_network v)
       (ar_graffiti v) (ar_prover v) (ar_proof_type v) (ar_blob_proof_type v) (ar_prover_args v))
  <$> ar_block_numbers v.

Definition agg_into_opt (v : AggregationRequest) : ProofRequestOpt :=
  mkProofRequestOpt None None None None (ar_network v) (ar_l1_network v) (ar_graffiti v) (ar_prover v)
    (ar_proof_type v) (ar_blob_proof_type v) (ar_prover_args v).

Definition opt_into_agg (v : ProofRequestOpt) : AggregationRequest :=
  mkAggregationRequest
    (match ro_block_number v with Some b => [(b, ro_l1_inclusion_block_number v)] | None => [] end)
    (ro_network v) (ro_l1_network v) (ro_graffiti v) (ro_prover v) (ro_proof_type v) (ro_blob_proof_type v)
    (ro_prover_args v).

(** *** Aggregation of given proofs *)
Record AggregationOnlyRequest := mkAggregationOnlyRequest {
  ao_aggregation_ids : list Z; ao_proofs : list Proof_; ao_proof_type : option string;
  ao_prover_args : ProverSpecificOpts }.

Section only.
(** The hexadecimal text of a hash in JSON and its parser. *)
Variables (b256_text : bytes -> string) (parse_b256 : string -> option bytes).

Definition proof_to_value (p : Proof_) : Value :=
  JObject [("proof", opt_value JString (proof p)); ("input", opt_value (fun b => JString (b256_text b)) (proof_input p));
    ("quote", opt_value JString (quote p)); ("uuid", opt_value JString (uuid p));
    ("kzg_proof", opt_value JString (kzg_proof p))].

Definition dec_b256 (v : Value) : option bytes := as_str v ≫= parse_b256.

Definition proof_from_value (v : Value) : option Proof_ :=
  match v with
  | JObject _ =>
      proof ← ok (opt_field as_str (get "proof" v));
      input ← ok (opt_field dec_b256 (get "input" v));
      quote ← ok (opt_field as_str (get "quote" v));
      uuid ← ok (opt_field as_str (get "uuid" v));
      kzg ← ok (opt_field as_str (get "kzg_proof" v));
      Some (mkProof proof input quote uuid kzg)
  | JArray [a; b; c; d; e] =>
      proof ← opt_dec as_str a;
      input ← opt_dec dec_b256 b;
      quote ← opt_dec as_str c;
      uuid ← opt_dec as_str d;
      kzg ← opt_dec as_str e;
      Some (mkProof proof input quote uuid kzg)
  | _ => None
  end.

Definition only_to_value (r : AggregationOnlyRequest) : Value :=
  JObject ([("aggregation_ids", JArray (JNumber <$> ao_aggregation_ids r));
    ("proofs", JArray (proof_to_value <$> ao_proofs r));
    ("proof_type", opt_value JString (ao_proof_type r))] ++ opts_entries (ao_prover_args r))%list.

Definition only_from_value (v : Value) : RaikoResult AggregationOnlyRequest :=
  _ ← (match v with JObject _ => Ok () | _ => serde_err end);
  ids ← default_field (dec_list as_u64) [] (get "aggregation_ids" v);
  proofs ← default_field (dec_list proof_from_value) [] (get "proofs" v);
  proof_type ← opt_field as_str (get "proof_type" v);
  prover_args ← opts_from v;
  Ok (mkAggregationOnlyRequest ids proofs proof_type prover_args).

(** [AggregationOnlyRequest::merge]. *)
Definition only_merge (self : AggregationOnlyRequest) (opts : ProofRequestOpt) : RaikoResult AggregationOnlyRequest :=
  only_from_value (merge (opt_to_value opts) (only_to_value self)).
End only.

(** [From<(AggregationRequest, Vec<Proof>)>]. *)
Definition only_from (r : AggregationRequest) (proofs : list Proof_) : AggregationOnlyRequest :=
  mkAggregationOnlyRequest (ar_block_numbers r).*1 proofs (ar_proof_type r) (ar_prover_args r).

(** ** Properties of merging *)

(** Objects without duplicate keys, at every level. *)
Fixpoint unique_keys (v : Value) : bool :=
  match v with
  | JArray l => forallb unique_keys l
  | JObject m => bool_decide (NoDup m.*1) && forallb (fun kv => unique_keys kv.2) m
  | _ => true
  end.

Lemma assoc_upsert {A} k (v : A) l j :
  assoc j (upsert k v l) = if bool_decide (j = k) then Some v else assoc j l.
Proof.
  induction l as [|[k' v'] l IH]; cbn; [done|].
  destruct (decide (k = k')) as [<-|E].
  - rewrite (bool_decide_eq_true_2 (k = k)) by done. cbn. destruct (bool_decide (j = k)); done.
  - rewrite (bool_decide_eq_false_2 (k = k')) by done. cbn. rewrite IH.
    destruct (decide (j = k)) as [->|]; [by rewrite (bool_decide_eq_false_2 (k = k')), bool_decide_eq_true_2|].
    by rewrite (bool_decide_eq_false_2 (j = k)).
Qed.

(** Writing back the value an entry already has changes nothing. *)
Lemma upsert_same {A} k (v : A) l : assoc k l = Some v -> upsert k v l = l.
Proof.
  induction l as [|[k' v'] l IH]; cbn; [done|]. case_bool_decide; intros; [by simplify_eq|].
  by rewrite IH.
Qed.

Lemma merge_object am bm : merge (JObject am) (JObject bm) = JObject (merge_entries am bm).
Proof. done. Qed.

Lemma merge_entries_assoc am bm k :
  NoDup bm.*1 ->
  assoc k (merge_entries am bm) =
  match assoc k bm with
  | Some v => Some (merge (default JNull (assoc k am)) v)
  | None => assoc k am
  end.
Proof.
  unfold merge_entries. revert am; induction bm as [|[k' v'] bm IH]; intros am Hn; cbn; [done|].
  apply NoDup_cons in Hn as [Hni Hn]. rewrite IH by done. rewrite assoc_upsert.
  case_bool_decide as E; [|done]. subst k'.
  enough (assoc k bm = None) as -> by done. clear IH Hn.
  induction bm as [|[j w] bm IH]; cbn in *; [done|]. apply not_elem_of_cons in Hni as [??].
  rewrite bool_decide_eq_false_2 by done. by apply IH.
Qed.

(** A value that is not an object is kept or replaced. *)
Definition is_object (v : Value) : bool := match v with JObject _ => true | _ => false end.

Lemma merge_scalar a b : is_object a = false -> merge a b = if is_null b then a else b.
Proof. by destruct b, a. Qed.

Lemma merge_null_r a : merge a JNull = a.
Proof. by destruct a. Qed.

Lemma is_null_merge a b : is_null b = false -> is_null (merge a b) = false.
Proof. by destruct b, a. Qed.

(** Induction over a value and the entries of its objects. *)
Lemma Value_entries_ind (P : Value -> Prop) :
  (forall v, is_object v = false -> P v) ->
  (forall m, Forall (fun kv => P kv.2) m -> P (JObject m)) ->
  forall v, P v.
Proof.
  intros Hs Ho. fix IH 1. intros [| | | | | |m]; try (by apply Hs).
  apply Ho. induction m as [|kv m IHm]; constructor; [apply IH|apply IHm].
Qed.

Lemma merge_entries_cons am k v bm :
  merge_entries am ((k, v) :: bm) = merge_entries (upsert k (merge (default JNull (assoc k am)) v) am) bm.
Proof. done. Qed.

(** An object that already has, for every entry of [bm], a value that merging
    does not change. *)
Lemma merge_entries_fixed am bm :
  Forall (fun kv => exists x, assoc kv.1 am = Some x /\ merge x kv.2 = x) bm -> merge_entries am bm = am.
Proof.
  induction 1 as [|[k v] bm (x & Hx & Hm) _ IH]; [done|]. cbn in Hx, Hm.
  rewrite merge_entries_cons, Hx. cbn. by rewrite Hm, upsert_same.
Qed.

Lemma assoc_elem {A} (l : list (string * A)) k v : NoDup l.*1 -> (k, v) ∈ l -> assoc k l = Some v.
Proof.
  induction l as [|[k' v'] l IH]; cbn; intros Hn Hin; [by apply elem_of_nil in Hin|].
  apply NoDup_cons in Hn as [Hni Hn]. apply elem_of_cons in Hin as [E|Hin]; [by simplify_eq; rewrite bool_decide_eq_true_2|].
  rewrite bool_decide_eq_false_2; [by apply IH|]. intros ->. apply Hni. apply list_elem_of_fmap. by exists (k', v).
Qed.

Lemma unique_entries m : unique_keys (JObject m) = true ->
  NoDup m.*1 /\ Forall (fun kv => unique_keys kv.2 = true) m.
Proof.
  cbn. intros [H1 H2]%andb_prop. split; [by apply bool_decide_eq_true in H1|].
  apply Forall_forall. intros x Hx. rewrite forallb_forall in H2. apply H2. by apply list_elem_of_In.
Qed.

Lemma merge_self v : unique_keys v = true -> merge v v = v.
Proof.
  induction v as [v Hv|m IH] using Value_entries_ind; intros Hu; [by destruct v|].
  apply unique_entries in Hu as [Hn Hu]. rewrite merge_object. f_equal. apply merge_entries_fixed.
  apply Forall_forall. intros [k v] Hin. exists v. rewrite Forall_forall in IH, Hu. split.
  - by apply assoc_elem.
  - apply (IH _ Hin), (Hu _ Hin).
Qed.

Lemma merge_twice b : unique_keys b = true -> forall a, merge (merge a b) b = merge a b.
Proof.
  induction b as [b Hb|bm IH] using Value_entries_ind; intros Hu a; [by destruct b, a|].
  destruct (is_object a) eqn:Ha.
  - destruct a as [| | | | | |am]; try done. apply unique_entries in Hu as [Hn Hu].
    rewrite !merge_object. f_equal. apply merge_entries_fixed. apply Forall_forall. intros [k v] Hin.
    cbn [fst snd]. rewrite merge_entries_assoc, (assoc_elem bm k v) by done. eexists; split; [done|].
    rewrite Forall_forall in IH, Hu. apply (IH _ Hin), (Hu _ Hin).
  - rewrite (merge_scalar a) by done. by apply merge_self.
Qed.

(** *** Settings override the defaults field by field *)

(** The value of an optional field after an update, and of the settings of a prover. *)
Definition overridden {A} (dec : Value -> option A) (cur : option A) (o : option Value) : RaikoResult (option A) :=
  match o with
  | None | Some JNull => Ok cur
  | Some v => Some <$> of_option (dec v)
  end.

Definition overridden_arg (cur o : option Value) : option Value :=
  match o with
  | None | Some JNull => cur
  | Some v => Some (merge (default JNull cur) v)
  end.

Definition opts_override (cur : ProverSpecificOpts) (other : Value) : ProverSpecificOpts :=
  mkProverSpecificOpts (overridden_arg (opt_native cur) (get "native" other))
    (overridden_arg (opt_sgx cur) (get "sgx" other)) (overridden_arg (opt_sgxgeth cur) (get "sgxgeth" other))
    (overridden_arg (opt_sp1 cur) (get "sp1" other)) (overridden_arg (opt_risc0 cur) (get "risc0" other)).

Definition opt_override (self : ProofRequestOpt) (other : Value) : RaikoResult ProofRequestOpt :=
  block_number ← overridden as_u64 (ro_block_number self) (get "block_number" other);
  batch_id ← overridden as_u64 (ro_batch_id self) (get "batch_id" other);
  l1 ← overridden as_u64 (ro_l1_inclusion_block_number self) (get "l1_inclusion_block_number" other);
  l2 ← overridden (dec_list as_u64) (ro_l2_block_numbers self) (get "l2_block_numbers" other);
  network ← overridden as_str (ro_network self) (get "network" other);
  l1_network ← overridden as_str (ro_l1_network self) (get "l1_network" other);
  graffiti ← overridden as_str (ro_graffiti self) (get "graffiti" other);
  prover ← overridden as_str (ro_prover self) (get "prover" other);
  proof_type ← overridden as_str (ro_proof_type self) (get "proof_type" other);
  blob_proof_type ← overridden as_str (ro_blob_proof_type self) (get "blob_proof_type" other);
  Ok (mkProofRequestOpt block_number batch_id l1 l2 network l1_network graffiti prover proof_type
        blob_proof_type (opts_override (ro_prover_args self) other)).

(** Optional settings as they are read from JSON: never [Some(null)], numbers of
    64 bits. *)
Definition arg_wf (o : option Value) : bool := match o with Some JNull => false | _ => true end.
Definition opts_wf (o : ProverSpecificOpts) : bool :=
  arg_wf (opt_native o) && arg_wf (opt_sgx o) && arg_wf (opt_sgxgeth o) && arg_wf (opt_sp1 o) && arg_wf (opt_risc0 o).
Definition opt_wfb {A} (p : A -> bool) (o : option A) : bool := match o with Some a => p a | None => true end.
Definition ro_wf (r : ProofRequestOpt) : bool :=
  opt_wfb u64b (ro_block_number r) && opt_wfb u64b (ro_batch_id r) &&
  opt_wfb u64b (ro_l1_inclusion_block_number r) && opt_wfb (forallb u64b) (ro_l2_block_numbers r) &&
  opts_wf (ro_prover_args r).

(** How an optional field is written: a value that is read back, and no object. *)
Definition codec {A} (p : A -> bool) (enc : A -> Value) (dec : Value -> option A) : Prop :=
  forall a, p a = true -> dec (enc a) = Some a /\ is_object (enc a) = false /\ is_null (enc a) = false.

Lemma codec_u64 : codec u64b JNumber as_u64.
Proof. intros a Ha. cbn. by rewrite Ha. Qed.

Lemma codec_str : codec (fun _ => true) JString as_str.
Proof. done. Qed.

Lemma codec_list {A} p enc (dec : Value -> option A) :
  codec p enc dec -> codec (forallb p) (fun l => JArray (enc <$> l)) (dec_list dec).
Proof.
  intros Hc l Hl. split; [|done]. cbn. apply mapM_fmap_Forall_Some, Forall_forall. intros a Ha.
  rewrite forallb_forall in Hl. by apply Hc, Hl, list_elem_of_In.
Qed.

#[local] Hint Resolve codec_u64 codec_str codec_list : core.

Section merged.
Variables (am bm : list (string * Value)) (k : string).
Hypothesis bm_unique : NoDup bm.*1.

Lemma merged_field {A} p enc dec (cur : option A) :
  codec p enc dec -> opt_wfb p cur = true -> assoc k am = Some (opt_value enc cur) ->
  opt_field dec (get k (JObject (merge_entries am bm))) = overridden dec cur (assoc k bm).
Proof.
  intros Hc Hp Ha. cbn [get]. rewrite merge_entries_assoc, Ha by done.
  assert (opt_field dec (Some (opt_value enc cur)) = Ok cur /\ is_object (opt_value enc cur) = false) as [Hs Ho].
  { destruct cur as [a|]; [|done]. destruct (Hc a Hp) as (Hd & ? & Hn). cbn.
    destruct (enc a) eqn:E; try done; by rewrite Hd. }
  destruct (assoc k bm) as [v|]; [|done]. cbn [default]. rewrite merge_scalar by done.
  destruct v; cbn [is_null overridden]; done.
Qed.

Lemma merged_str cur :
  assoc k am = Some (opt_value JString cur) ->
  opt_field as_str (get k (JObject (merge_entries am bm))) = overridden as_str cur (assoc k bm).
Proof. apply merged_field with (p := fun _ => true); [done|by destruct cur]. Qed.

Lemma merged_arg cur :
  arg_wf cur = true -> assoc k am = Some (opt_value id cur) ->
  opt_field Some (get k (JObject (merge_entries am bm))) = Ok (overridden_arg cur (assoc k bm)).
Proof.
  intros Hw Ha. cbn [get]. rewrite merge_entries_assoc, Ha by done.
  assert (default JNull (Some (opt_value id cur)) = default JNull cur) as E by by destruct cur.
  destruct (assoc k bm) as [v|]; [|destruct cur as [[]|]; done].
  destruct (is_null v) eqn:Hv.
  - destruct v; try done. cbn [overridden_arg]. rewrite merge_null_r. destruct cur as [[]|]; done.
  - pose proof (is_null_merge (default JNull cur) v Hv) as Hm. rewrite E.
    unfold overridden_arg. destruct v; try done; destruct (merge _ _) eqn:?; try done.
Qed.
End merged.

(** The prover settings of a merged object. *)
Lemma merged_opts am bm o :
  NoDup bm.*1 -> opts_wf o = true ->
  (forall k, k ∈ (opts_entries o).*1 -> assoc k am = assoc k (opts_entries o)) ->
  opts_from (JObject (merge_entries am bm)) = Ok (opts_override o (JObject bm)).
Proof.
  intros Hn Hw Ha. unfold opts_wf in Hw. breflect. unfold opts_from.
  rewrite (merged_arg am bm "native" Hn (opt_native o)), (merged_arg am bm "sgx" Hn (opt_sgx o)),
    (merged_arg am bm "sgxgeth" Hn (opt_sgxgeth o)), (merged_arg am bm "sp1" Hn (opt_sp1 o)),
    (merged_arg am bm "risc0" Hn (opt_risc0 o)); try done; apply Ha; cbn; set_solver.
Qed.

Lemma opt_merge_override self other :
  ro_wf self = true -> NoDup other.*1 -> opt_merge self (JObject other) = opt_override self (JObject other).
Proof.
  unfold ro_wf. intros Hw Hn. breflect. unfold opt_merge, opt_to_value.
  rewrite merge_object. set (am := (_ ++ _)%list). unfold opt_from_value, opt_override. cbn [mbind outcome_bind].
  rewrite (merged_field am other "block_number" Hn u64b JNumber _ (ro_block_number self)),
    (merged_field am other "batch_id" Hn u64b JNumber _ (ro_batch_id self)),
    (merged_field am other "l1_inclusion_block_number" Hn u64b JNumber _ (ro_l1_inclusion_block_number self)),
    (merged_field am other "l2_block_numbers" Hn (forallb u64b) (fun l => JArray (JNumber <$> l)) _
       (ro_l2_block_numbers self)) by eauto.
  rewrite (merged_str am other "network" Hn (ro_network self)), (merged_str am other "l1_network" Hn (ro_l1_network self)),
    (merged_str am other "graffiti" Hn (ro_graffiti self)), (merged_str am other "prover" Hn (ro_prover self)),
    (merged_str am other "proof_type" Hn (ro_proof_type self)),
    (merged_str am other "blob_proof_type" Hn (ro_blob_proof_type self)) by done.
  rewrite (merged_opts am other (ro_prover_args self) Hn); [|done|].
  - by repeat (case_match; try done).
  - intros k Hk. cbn in Hk. set_unfold in Hk. by destruct_or?; subst.
Qed.

(** Updating a partial request with a JSON object, by way of its own JSON
    form, is the same as updating it field by field: a field that is absent or
    null in the object keeps its value, a field of the wrong type makes the
    whole update fail, every other field takes the new value, and the settings
    of each prover are merged in depth. *)
Theorem opt_merge_fieldwise self other :
  ro_wf self = true -> NoDup other.*1 -> opt_merge self (JObject other) = opt_override self (JObject other).
Proof. apply opt_merge_override. Qed.

(** A partial request read back from the JSON it was written to is unchanged. *)
Theorem opt_value_roundtrip r : ro_wf r = true -> opt_from_value (opt_to_value r) = Ok r.
Proof.
  intros Hw. pose proof (opt_merge_override r [] Hw NoDup_nil_2) as E.
  change (opt_from_value (opt_to_value r) = opt_override r (JObject [])) in E. rewrite E.
  by destruct r as [????????? ? []].
Qed.

(** Merging the same settings a second time changes nothing, at any depth. *)
Theorem merge_idempotent a b : unique_keys b = true -> merge (merge a b) b = merge a b.
Proof. intros. by apply merge_twice. Qed.

(** *** Requests override the options of the server *)
Definition or_else {A} (o d : option A) : option A := match o with Some _ => o | None => d end.

Definition opts_or_else (own defaults : ProverSpecificOpts) : ProverSpecificOpts :=
  mkProverSpecificOpts (overridden_arg (opt_native defaults) (opt_native own))
    (overridden_arg (opt_sgx defaults) (opt_sgx own)) (overridden_arg (opt_sgxgeth defaults) (opt_sgxgeth own))
    (overridden_arg (opt_sp1 defaults) (opt_sp1 own)) (overridden_arg (opt_risc0 defaults) (opt_risc0 own)).

Definition agg_or_else (self : AggregationRequest) (d : ProofRequestOpt) : AggregationRequest :=
  mkAggregationRequest (ar_block_numbers self) (or_else (ar_network self) (ro_network d))
    (or_else (ar_l1_network self) (ro_l1_network d)) (or_else (ar_graffiti self) (ro_graffiti d))
    (or_else (ar_prover self) (ro_prover d)) (or_else (ar_proof_type self) (ro_proof_type d))
    (or_else (ar_blob_proof_type self) (ro_blob_proof_type d)) (opts_or_else (ar_prover_args self) (ro_prover_args d)).

Definition pair_wf (p : Z * option Z) : bool := u64b p.1 && opt_wfb u64b p.2.

Lemma codec_pair : codec pair_wf pair_value pair_from.
Proof.
  intros [n m] [Hn Hm]%andb_prop. cbn [fst snd] in *. split; [|done]. cbn. rewrite Hn.
  destruct m as [m|]; [|done]. cbn in *. by rewrite Hm.
Qed.

Lemma overridden_str cur x : overridden as_str cur (Some (opt_value JString x)) = Ok (or_else x cur).
Proof. by destruct x. Qed.

Lemma overridden_arg_opt cur x : overridden_arg cur (Some (opt_value id x)) = overridden_arg cur x.
Proof. by destruct x. Qed.

(** Completing an aggregation request with the options of the server never
    fails, keeps the blocks and every setting of the request, takes the
    options only where the request says nothing, and merges the settings of
    each prover in depth with the request's on top. *)
Theorem agg_merge_defaults self opts :
  opts_wf (ro_prover_args opts) = true -> forallb pair_wf (ar_block_numbers self) = true ->
  agg_merge self opts = Ok (agg_or_else self opts).
Proof.
  intros Hw Hb. unfold agg_merge, opt_to_value, agg_to_value. rewrite merge_object.
  set (am := (_ ++ _)%list). set (bm := (_ ++ _)%list).
  assert (NoDup bm.*1) as Hn by (by apply (bool_decide_eq_true_1 (NoDup bm.*1))).
  unfold agg_from_value. cbn [mbind outcome_bind].
  assert (default_field (dec_list pair_from) [] (get "block_numbers" (JObject (merge_entries am bm))) =
          Ok (ar_block_numbers self)) as ->.
  { cbn [get]. rewrite merge_entries_assoc by done. cbn [assoc am bm app default].
    destruct (codec_list _ _ _ codec_pair _ Hb) as [E _].
    change (of_option (dec_list pair_from (JArray (pair_value <$> ar_block_numbers self))) = Ok (ar_block_numbers self)).
    by rewrite E. }
  rewrite (merged_str am bm "network" Hn (ro_network opts)), (merged_str am bm "l1_network" Hn (ro_l1_network opts)),
    (merged_str am bm "graffiti" Hn (ro_graffiti opts)), (merged_str am bm "prover" Hn (ro_prover opts)),
    (merged_str am bm "proof_type" Hn (ro_proof_type opts)),
    (merged_str am bm "blob_proof_type" Hn (ro_blob_proof_type opts)) by done.
  rewrite (merged_opts am bm (ro_prover_args opts) Hn); [|done|].
  - assert (forall k x, assoc k bm = Some (opt_value JString x) -> forall cur,
      overridden as_str cur (assoc k bm) = Ok (or_else x cur)) as Hs by (intros k x -> cur; apply overridden_str).
    rewrite (Hs "network" (ar_network self)), (Hs "l1_network" (ar_l1_network self)),
      (Hs "graffiti" (ar_graffiti self)), (Hs "prover" (ar_prover self)), (Hs "proof_type" (ar_proof_type self)),
      (Hs "blob_proof_type" (ar_blob_proof_type self)) by done.
    assert (forall k x, assoc k bm = Some (opt_value id x) -> forall cur,
      overridden_arg cur (get k (JObject bm)) = overridden_arg cur x) as Ha
      by (intros k x E cur; cbn [get]; rewrite E; apply overridden_arg_opt).
    unfold opts_override. by rewrite (Ha "native" (opt_native (ar_prover_args self))),
      (Ha "sgx" (opt_sgx (ar_prover_args self))), (Ha "sgxgeth" (opt_sgxgeth (ar_prover_args self))),
      (Ha "sp1" (opt_sp1 (ar_prover_args self))), (Ha "risc0" (opt_risc0 (ar_prover_args self))).
  - intros k Hk. cbn in Hk. set_unfold in Hk. by destruct_or?; subst.
Qed.

(** *** Batches *)

(** The text of a batch and its inclusion block is read back as the same
    batch. *)
Theorem batch_metadata_roundtrip m :
  u64b (bm_batch_id m) = true -> u64b (bm_l1_inclusion_block_number m) = true ->
  BatchMetadata_from_str (BatchMetadata_to_string m) = Ok m.
Proof.
  unfold u64b. intros Hb Hl. breflect. unfold BatchMetadata_from_str, BatchMetadata_to_string.
  rewrite split_two by (lia || done). rewrite !parse_print_u64 by lia. by destruct m.
Qed.

(** *** Examples *)
Definition opts_none : ProverSpecificOpts := mkProverSpecificOpts None None None None None.

Definition server_opts : ProofRequestOpt :=
  mkProofRequestOpt (Some 7) None None (Some [1; 2]) (Some "taiko_mainnet") (Some "ethereum") None (Some "0x70")
    (Some "native") None (mkProverSpecificOpts None (Some (JObject [("setup", JBool true); ("prove", JBool true)])) None None None).

Definition client_opts : list (string * Value) :=
  [("block_number", JNumber 9); ("network", JNull); ("sgx", JObject [("setup", JBool false)])].

Lemma opt_merge_fieldwise_witness :
  opt_merge server_opts (JObject client_opts) =
  Ok (mkProofRequestOpt (Some 9) None None (Some [1; 2]) (Some "taiko_mainnet") (Some "ethereum") None (Some "0x70")
       (Some "native") None (mkProverSpecificOpts None (Some (JObject [("setup", JBool false); ("prove", JBool true)])) None None None)).
Proof.
  rewrite (opt_merge_fieldwise server_opts client_opts); [reflexivity|reflexivity|].
  apply (bool_decide_eq_true_1 _). reflexivity.
Defined.

Lemma opt_value_roundtrip_witness : opt_from_value (opt_to_value server_opts) = Ok server_opts.
Proof. apply (opt_value_roundtrip server_opts). reflexivity. Defined.

Lemma merge_idempotent_witness :
  merge (merge (opt_to_value server_opts) (JObject client_opts)) (JObject client_opts) =
  merge (opt_to_value server_opts) (JObject client_opts).
Proof. apply (merge_idempotent (opt_to_value server_opts) (JObject client_opts)). reflexivity. Defined.

Definition agg_request : AggregationRequest :=
  mkAggregationRequest [(1, Some 5); (2, None)] None (Some "holesky") None None None None
    (mkProverSpecificOpts None (Some (JObject [("setup", JBool false)])) None None None).

Lemma agg_merge_defaults_witness :
  agg_merge agg_request server_opts =
  Ok (mkAggregationRequest [(1, Some 5); (2, None)] (Some "taiko_mainnet") (Some "holesky") None (Some "0x70")
        (Some "native") None
        (mkProverSpecificOpts None (Some (JObject [("setup", JBool false); ("prove", JBool true)])) None None None)).
Proof. rewrite (agg_merge_defaults agg_request server_opts); reflexivity. Defined.

Lemma batch_metadata_roundtrip_witness :
  BatchMetadata_from_str (BatchMetadata_to_string (mkBatchMeta 1218 20479)) = Ok (mkBatchMeta 1218 20479).
Proof. apply (batch_metadata_roundtrip (mkBatchMeta 1218 20479)); reflexivity. Defined.
