(* ===== verification/Request.v ===== *)
(** Requests of the request pool ([reqpool/src/request.rs], [reqpool/src/utils.rs]):
    statuses, request keys and their image identifiers, request entities, and
    the request key under which a network proof id is stored. *)

From stdpp Require Import base list list_numbers strings gmap countable.
From Stdlib Require Import ZArith Lia String.
From S2P Require Import Prelude Types.
Open Scope Z_scope.

(** ** Status *)
Inductive Status : Type :=
| Registered
| WorkInProgress
| Success (proof : Proof_)
| Cancelled
| Failed (error : string).

Definition is_success (s : Status) : bool :=
  match s with Success _ => true | _ => false end.

Record StatusWithContext := mkStatus { status : Status; timestamp : Z }.

(** [chrono::Utc::now()] is the argument [now]. *)
Definition StatusWithContext_new (s : Status) (ts : Z) : StatusWithContext := mkStatus s ts.
Definition new_registered (now : Z) : StatusWithContext := StatusWithContext_new Registered now.
Definition new_cancelled (now : Z) : StatusWithContext := StatusWithContext_new Cancelled now.
Definition into_status (s : StatusWithContext) : Status := status s.
Definition status_into (s : Status) (now : Z) : StatusWithContext := StatusWithContext_new s now.

(** ** Image identifiers *)
Record ImageId := mkImageId {
  risc0_batch_id : option string;
  sp1_batch_vk_hash : option string;
  sgx_enclave : option string;
  sgxgeth_enclave : option string
}.
Definition ImageId_new : ImageId := mkImageId None None None None.

Definition env_var_name (p : ProofType) : outcome string string :=
  match p with
  | Risc0 => Ok "RISC0_BATCH_ID"%string
  | Sp1 => Ok "SP1_BATCH_VK_HASH"%string
  | Sgx => Ok "SGX_MRENCLAVE"%string
  | SgxGeth => Ok "SGXGETH_MRENCLAVE"%string
  | Native => Panic
  end.

Definition default_value (p : ProofType) : outcome string string :=
  match p with
  | Risc0 | Sp1 | Sgx | SgxGeth =>
      Ok "0xffffffffffffffffffffffffffffffffffffffffffffffffffffffffffffffff"%string
  | Native => Panic
  end.

(** [env] is the process environment. *)
Definition read_image_id (env : string -> option string) (p : ProofType) : outcome string string :=
  env_var ← env_var_name p;
  match env env_var with
  | Some value => Ok value
  | None => default_value p
  end.

(** [if let Ok(id) = .. { image_id.field = Some(id) }]: only a panic escapes. *)
Definition from_proof_type_and_request_type (env : string -> option string) (p : ProofType)
    (_is_aggregation : bool) : outcome string ImageId :=
  let image_id := ImageId_new in
  match p with
  | Risc0 =>
      match read_image_id env p with
      | Ok id => Ok (mkImageId (Some id) None None None) | Err _ => Ok image_id | Panic => Panic end
  | Sp1 =>
      match read_image_id env p with
      | Ok id => Ok (mkImageId None (Some id) None None) | Err _ => Ok image_id | Panic => Panic end
  | Sgx =>
      match read_image_id env p with
      | Ok id => Ok (mkImageId None None (Some id) None) | Err _ => Ok image_id | Panic => Panic end
  | SgxGeth =>
      match read_image_id env p with
      | Ok id => Ok (mkImageId None None None (Some id)) | Err _ => Ok image_id | Panic => Panic end
  | Native => Ok image_id
  end.

#[global] Instance ImageId_eq_dec : EqDecision ImageId.
Proof. solve_decision. Defined.
#[global] Instance ImageId_countable : Countable ImageId.
Proof.
  refine (inj_countable'
    (fun i => (risc0_batch_id i, sp1_batch_vk_hash i, sgx_enclave i, sgxgeth_enclave i))
    (fun t => let '(a, b, c, d) := t in mkImageId a b c d) _). by intros [].
Defined.

(** ** Request keys *)
Record GuestInputRequestKey := mkGuestInputRequestKey {
  gik_chain_id : Z;
  gik_block_number : Z;
  gik_block_hash : bytes
}.

Record SingleProofRequestKey := mkSingleProofRequestKey {
  spk_chain_id : Z;
  spk_block_number : Z;
  spk_block_hash : bytes;
  spk_proof_type : ProofType;
  spk_prover_address : string;
  spk_image_id : option ImageId
}.
Definition SingleProofRequestKey_new (chain_id block_number : Z) (block_hash : bytes)
    (proof_type : ProofType) (prover_address : string) : SingleProofRequestKey :=
  mkSingleProofRequestKey chain_id block_number block_hash proof_type prover_address None.
Definition SingleProofRequestKey_new_with_image_id (chain_id block_number : Z) (block_hash : bytes)
    (proof_type : ProofType) (prover_address : string) (image_id : ImageId) : SingleProofRequestKey :=
  mkSingleProofRequestKey chain_id block_number block_hash proof_type prover_address (Some image_id).

Record AggregationRequestKey := mkAggregationRequestKey {
  agk_proof_type : ProofType;
  agk_block_numbers : list Z;
  agk_image_id : option ImageId
}.
Definition AggregationRequestKey_new (proof_type : ProofType) (block_numbers : list Z) :
    AggregationRequestKey :=
  mkAggregationRequestKey proof_type block_numbers None.
Definition AggregationRequestKey_new_with_image_id (proof_type : ProofType) (block_numbers : list Z)
    (image_id : ImageId) : AggregationRequestKey :=
  mkAggregationRequestKey proof_type block_numbers (Some image_id).

Record BatchGuestInputRequestKey := mkBatchGuestInputRequestKey {
  bgk_chain_id : Z;
  bgk_batch_id : Z;
  bgk_l1_inclusion_height : Z
}.

Record BatchProofRequestKey := mkBatchProofRequestKey {
  bpk_guest_input_key : BatchGuestInputRequestKey;
  bpk_proof_type : ProofType;
  bpk_prover_address : string;
  bpk_image_id : option ImageId
}.
Definition new_with_input_key (k : BatchGuestInputRequestKey) (proof_type : ProofType)
    (prover_address : string) : BatchProofRequestKey :=
  mkBatchProofRequestKey k proof_type prover_address None.
Definition new_with_input_key_and_image_id (k : BatchGuestInputRequestKey) (proof_type : ProofType)
    (prover_address : string) (image_id : ImageId) : BatchProofRequestKey :=
  mkBatchProofRequestKey k proof_type prover_address (Some image_id).
Definition BatchProofRequestKey_new (chain_id batch_id l1_inclusion_height : Z)
    (proof_type : ProofType) (prover_address : string) : BatchProofRequestKey :=
  mkBatchProofRequestKey (mkBatchGuestInputRequestKey chain_id batch_id l1_inclusion_height)
    proof_type prover_address None.
Definition BatchProofRequestKey_new_with_image_id (chain_id batch_id l1_inclusion_height : Z)
    (proof_type : ProofType) (prover_address : string) (image_id : ImageId) : BatchProofRequestKey :=
  mkBatchProofRequestKey (mkBatchGuestInputRequestKey chain_id batch_id l1_inclusion_height)
    proof_type prover_address (Some image_id).

Inductive RequestKey : Type :=
| KGuestInput (k : GuestInputRequestKey)
| KSingleProof (k : SingleProofRequestKey)
| KAggregation (k : AggregationRequestKey)
| KBatchGuestInput (k : BatchGuestInputRequestKey)
| KBatchProof (k : BatchProofRequestKey).

Definition request_proof_type (k : RequestKey) : ProofType :=
  match k with
  | KGuestInput _ | KBatchGuestInput _ => Native
  | KSingleProof key => spk_proof_type key
  | KAggregation key => agk_proof_type key
  | KBatchProof key => bpk_proof_type key
  end.

Definition single_proof_with_image_id (chain_id block_number : Z) (block_hash : bytes)
    (proof_type : ProofType) (prover_address : string) (image_id : ImageId) : RequestKey :=
  KSingleProof (SingleProofRequestKey_new_with_image_id chain_id block_number block_hash
    proof_type prover_address image_id).
Definition aggregation_with_image_id (proof_type : ProofType) (block_numbers : list Z)
    (image_id : ImageId) : RequestKey :=
  KAggregation (AggregationRequestKey_new_with_image_id proof_type block_numbers image_id).
Definition batch_guest_input (chain_id batch_id l1_inclusion_height : Z) : RequestKey :=
  KBatchGuestInput (mkBatchGuestInputRequestKey chain_id batch_id l1_inclusion_height).
Definition batch_proof_with_image_id (chain_id batch_id l1_inclusion_height : Z)
    (proof_type : ProofType) (prover_address : string) (image_id : ImageId) : RequestKey :=
  KBatchProof (BatchProofRequestKey_new_with_image_id chain_id batch_id l1_inclusion_height
    proof_type prover_address image_id).

Definition image_id (k : RequestKey) : option ImageId :=
  match k with
  | KGuestInput _ => None
  | KSingleProof key => spk_image_id key
  | KAggregation key => agk_image_id key
  | KBatchGuestInput _ => None
  | KBatchProof key => bpk_image_id key
  end.

#[global] Instance GuestInputRequestKey_eq_dec : EqDecision GuestInputRequestKey.
Proof. solve_decision. Defined.
#[global] Instance SingleProofRequestKey_eq_dec : EqDecision SingleProofRequestKey.
Proof. solve_decision. Defined.
#[global] Instance AggregationRequestKey_eq_dec : EqDecision AggregationRequestKey.
Proof. solve_decision. Defined.
#[global] Instance BatchGuestInputRequestKey_eq_dec : EqDecision BatchGuestInputRequestKey.
Proof. solve_decision. Defined.
#[global] Instance BatchProofRequestKey_eq_dec : EqDecision BatchProofRequestKey.
Proof. solve_decision. Defined.
#[global] Instance RequestKey_eq_dec : EqDecision RequestKey.
Proof. solve_decision. Defined.

#[global] Instance RequestKey_countable : Countable RequestKey.
Proof.
  refine (inj_countable'
    (fun k => match k with
     | KGuestInput k => inl (gik_chain_id k, gik_block_number k, gik_block_hash k)
     | KSingleProof k => inr (inl (spk_chain_id k, spk_block_number k, spk_block_hash k,
                                   spk_proof_type k, spk_prover_address k, spk_image_id k))
     | KAggregation k => inr (inr (inl (agk_proof_type k, agk_block_numbers k, agk_image_id k)))
     | KBatchGuestInput k => inr (inr (inr (inl (bgk_chain_id k, bgk_batch_id k, bgk_l1_inclusion_height k))))
     | KBatchProof k =>
         let g := bpk_guest_input_key k in
         inr (inr (inr (inr ((bgk_chain_id g, bgk_batch_id g, bgk_l1_inclusion_height g),
                             bpk_proof_type k, bpk_prover_address k, bpk_image_id k))))
     end)
    (fun t => match t with
     | inl (a, b, c) => KGuestInput (mkGuestInputRequestKey a b c)
     | inr (inl (a, b, c, d, e, f)) => KSingleProof (mkSingleProofRequestKey a b c d e f)
     | inr (inr (inl (a, b, c))) => KAggregation (mkAggregationRequestKey a b c)
     | inr (inr (inr (inl (a, b, c)))) => KBatchGuestInput (mkBatchGuestInputRequestKey a b c)
     | inr (inr (inr (inr ((a, b, c), d, e, f)))) =>
         KBatchProof (mkBatchProofRequestKey (mkBatchGuestInputRequestKey a b c) d e f)
     end) _).
  by intros [[]|[]|[]|[]|[[]]].
Defined.

(** ** Request entities *)
Record GuestInputRequestEntity := mkGuestInputRequestEntity {
  gie_block_number : Z;
  gie_l1_inclusion_block_number : Z;
  gie_network : string;
  gie_l1_network : string;
  gie_graffiti : bytes;
  gie_blob_proof_type : BlobProofType;
  gie_prover_args : gmap string Value
}.

Record SingleProofRequestEntity := mkSingleProofRequestEntity {
  spe_block_number : Z;
  spe_l1_inclusion_block_number : Z;
  spe_network : string;
  spe_l1_network : string;
  spe_graffiti : bytes;
  spe_prover : bytes;
  spe_proof_type : ProofType;
  spe_blob_proof_type : BlobProofType;
  spe_prover_args : gmap string Value
}.

Record AggregationRequestEntity := mkAggregationRequestEntity {
  age_aggregation_ids : list Z;
  age_proofs : list Proof_;
  age_proof_type : ProofType;
  age_prover_args : ProverSpecificOpts
}.

Record BatchGuestInputRequestEntity := mkBatchGuestInputRequestEntity {
  bge_batch_id : Z;
  bge_l1_inclusion_block_number : Z;
  bge_network : string;
  bge_l1_network : string;
  bge_graffiti : bytes;
  bge_blob_proof_type : BlobProofType
}.

Record BatchProofRequestEntity := mkBatchProofRequestEntity {
  bpe_guest_input_entity : BatchGuestInputRequestEntity;
  bpe_prover : bytes;
  bpe_proof_type : ProofType;
  bpe_prover_args : gmap string Value
}.
Definition BatchProofRequestEntity_new (batch_id l1_inclusion_block_number : Z)
    (network l1_network : string) (graffiti prover : bytes) (proof_type : ProofType)
    (blob_proof_type : BlobProofType) (prover_args : gmap string Value) : BatchProofRequestEntity :=
  mkBatchProofRequestEntity
    (mkBatchGuestInputRequestEntity batch_id l1_inclusion_block_number network l1_network graffiti
      blob_proof_type) prover proof_type prover_args.
Definition new_with_guest_input_entity (e : BatchGuestInputRequestEntity) (prover : bytes)
    (proof_type : ProofType) (prover_args : gmap string Value) : BatchProofRequestEntity :=
  mkBatchProofRequestEntity e prover proof_type prover_args.

Inductive RequestEntity : Type :=
| EGuestInput (e : GuestInputRequestEntity)
| ESingleProof (e : SingleProofRequestEntity)
| EAggregation (e : AggregationRequestEntity)
| EBatchGuestInput (e : BatchGuestInputRequestEntity)
| EBatchProof (e : BatchProofRequestEntity).

(** ** The key of a stored network proof id *)
Definition hack_prover_address : string := "0x1231231231231231231231231231231231231231"%string.

Definition proof_key_to_hack_request_key (proof_key : ProofKey) : outcome string RequestKey :=
  let '(chain_id, block_number, block_hash, proof_type) := proof_key in
  p ← unwrap_ok (proof_type_try_from proof_type);
  Ok (KSingleProof (SingleProofRequestKey_new chain_id block_number block_hash p hack_prover_address)).

(** ** Properties *)

(** The request key derived from a proof key identifies the proof key, is
    never the key of a request of another prover address, and is defined exactly
    for the known proof types (any other code panics). *)
Theorem hack_key_identifies (k1 k2 : ProofKey) r :
  proof_key_to_hack_request_key k1 = Ok r ->
  (proof_key_to_hack_request_key k2 = Ok r -> k1 = k2) /\
  (forall c b h p addr i, addr <> hack_prover_address ->
     r <> KSingleProof (mkSingleProofRequestKey c b h p addr i)) /\
  (0 <= k1.2 <= 4).
Proof.
  destruct k1 as [[[c1 b1] h1] p1], k2 as [[[c2 b2] h2] p2]. unfold proof_key_to_hack_request_key.
  assert (Hinv : forall x p, proof_type_try_from x = Ok p -> x = proof_type_u8 p).
  { intros x p. unfold proof_type_try_from. repeat case_match; intros [= <-]; done. }
  intros H1. destruct (proof_type_try_from p1) as [q1| |] eqn:E1; simpl in H1; try done. simplify_eq.
  apply Hinv in E1. split_and!.
  - intros H2. destruct (proof_type_try_from p2) as [q2| |] eqn:E2; simpl in H2; try done.
    apply Hinv in E2. unfold SingleProofRequestKey_new in H2. simplify_eq. congruence.
  - intros c b h p addr i Hne [= -> -> -> -> <- <-]. done.
  - simpl. subst. by destruct q1.
  - simpl. subst. by destruct q1.
Qed.

(** Building the image id of a request never fails on a supported proof
    type: it fills exactly the field of that proof type, from the environment or
    with the default, and leaves native requests without one. *)
Theorem image_id_of_proof_type env p agg :
  exists i, from_proof_type_and_request_type env p agg = Ok i /\
    (is_Some (risc0_batch_id i) <-> p = Risc0) /\ (is_Some (sp1_batch_vk_hash i) <-> p = Sp1) /\
    (is_Some (sgx_enclave i) <-> p = Sgx) /\ (is_Some (sgxgeth_enclave i) <-> p = SgxGeth).
Proof.
  unfold from_proof_type_and_request_type, read_image_id.
  destruct p; simpl; try destruct (env _); eexists; split; try reflexivity; simpl; split_and!;
    split; first [discriminate | by intros [? ?] | by eauto].
Qed.

Lemma hack_key_identifies_witness :
  exists r, proof_key_to_hack_request_key (167, 9, [1; 2], 2) = Ok r /\ 0 <= 2 <= 4.
Proof.
  eexists. split; [reflexivity|].
  destruct (hack_key_identifies (167, 9, [1; 2], 2) (167, 9, [1; 2], 2) _ eq_refl) as (_ & _ & H). exact H.
Defined.
