(* ===== verification/Queue.v ===== *)
(** The request queue of the actor ([reqactor/src/queue.rs]): three FIFO queues
    by priority, the set of requests in progress and the set of known keys. The
    queue refines an abstract queue of arrivals from which the oldest request
    of the highest priority is taken, and keeps its invariant as long as only
    requests in progress are completed. *)

From stdpp Require Import base list list_numbers strings gmap sets.
From Stdlib Require Import ZArith Lia.
From S2P Require Import Prelude Types Request.

Record Queue := mkQueue {
  agg_queue : list (RequestKey * RequestEntity);
  batch_queue : list (RequestKey * RequestEntity);
  preflight_queue : list (RequestKey * RequestEntity);
  working_in_progress : gset RequestKey;
  queued_keys : gset RequestKey;
  max_queue_size : nat
}.

Definition Queue_new (max_queue_size : nat) : Queue := mkQueue [] [] [] ∅ ∅ max_queue_size.

Definition contains (q : Queue) (request_key : RequestKey) : bool :=
  bool_decide (request_key ∈ queued_keys q).

Definition is_at_capacity (q : Queue) : bool := (max_queue_size q <=? size (queued_keys q))%nat.

Definition queue_size (q : Queue) : nat := size (queued_keys q).

Definition capacity_error : string := "Reached the maximum queue size, please try again later"%string.

(** [HashSet::insert] returns whether the key was absent. *)
Definition add_pending (q : Queue) (request_key : RequestKey) (request_entity : RequestEntity) :
    Queue * outcome string () :=
  if is_at_capacity q then (q, Err capacity_error)
  else
    let fresh := negb (contains q request_key) in
    let queued := {[request_key]} ∪ queued_keys q in
    let q := mkQueue (agg_queue q) (batch_queue q) (preflight_queue q) (working_in_progress q)
               queued (max_queue_size q) in
    if fresh then
      match request_key with
      | KAggregation _ =>
          (mkQueue (agg_queue q ++ [(request_key, request_entity)]) (batch_queue q)
             (preflight_queue q) (working_in_progress q) (queued_keys q) (max_queue_size q), Ok ())
      | KBatchProof _ =>
          (mkQueue (agg_queue q) (batch_queue q ++ [(request_key, request_entity)])
             (preflight_queue q) (working_in_progress q) (queued_keys q) (max_queue_size q), Ok ())
      | _ =>
          (mkQueue (agg_queue q) (batch_queue q)
             (preflight_queue q ++ [(request_key, request_entity)]) (working_in_progress q)
             (queued_keys q) (max_queue_size q), Ok ())
      end
    else (q, Ok ()).

(** [pop_front().or_else(..)] over the three queues, then the in-flight mark. *)
Definition try_next (q : Queue) : Queue * option (RequestKey * RequestEntity) :=
  let start x q' :=
    (mkQueue (agg_queue q') (batch_queue q') (preflight_queue q')
       ({[x.1]} ∪ working_in_progress q') (queued_keys q') (max_queue_size q'), Some x) in
  match agg_queue q with
  | x :: rest =>
      start x (mkQueue rest (batch_queue q) (preflight_queue q) (working_in_progress q)
                 (queued_keys q) (max_queue_size q))
  | [] =>
      match batch_queue q with
      | x :: rest =>
          start x (mkQueue [] rest (preflight_queue q) (working_in_progress q)
                     (queued_keys q) (max_queue_size q))
      | [] =>
          match preflight_queue q with
          | x :: rest =>
              start x (mkQueue [] [] rest (working_in_progress q) (queued_keys q) (max_queue_size q))
          | [] => (q, None)
          end
      end
  end.

Definition complete (q : Queue) (request_key : RequestKey) : Queue :=
  mkQueue (agg_queue q) (batch_queue q) (preflight_queue q)
    (working_in_progress q ∖ {[request_key]}) (queued_keys q ∖ {[request_key]}) (max_queue_size q).

(** ** Abstract queue: arrivals in order, each with a priority *)
Definition priority (k : RequestKey) : nat :=
  match k with KAggregation _ => 2 | KBatchProof _ => 1 | _ => 0 end.

Record SpecQueue := mkSpec {
  arrivals : list (RequestKey * RequestEntity);
  in_flight : gset RequestKey;
  known : gset RequestKey;
  capacity : nat
}.

Definition has_priority (p : nat) (x : RequestKey * RequestEntity) : bool := (priority x.1 =? p)%nat.

(** The first arrival of priority [p] and the other arrivals. *)
Fixpoint pick (p : nat) (l : list (RequestKey * RequestEntity)) :
    option ((RequestKey * RequestEntity) * list (RequestKey * RequestEntity)) :=
  match l with
  | [] => None
  | x :: l' =>
      if has_priority p x then Some (x, l')
      else '(y, r) ← pick p l'; Some (y, x :: r)
  end.

Definition spec_add (s : SpecQueue) (k : RequestKey) (e : RequestEntity) : SpecQueue * outcome string () :=
  if (capacity s <=? size (known s))%nat then (s, Err capacity_error)
  else if bool_decide (k ∈ known s) then (s, Ok ())
  else (mkSpec (arrivals s ++ [(k, e)]) (in_flight s) ({[k]} ∪ known s) (capacity s), Ok ()).

Definition spec_next (s : SpecQueue) : SpecQueue * option (RequestKey * RequestEntity) :=
  match (match pick 2 (arrivals s) with
         | Some r => Some r
         | None => match pick 1 (arrivals s) with Some r => Some r | None => pick 0 (arrivals s) end
         end) with
  | Some (x, rest) => (mkSpec rest ({[x.1]} ∪ in_flight s) (known s) (capacity s), Some x)
  | None => (s, None)
  end.

Definition spec_complete (s : SpecQueue) (k : RequestKey) : SpecQueue :=
  mkSpec (arrivals s) (in_flight s ∖ {[k]}) (known s ∖ {[k]}) (capacity s).

(** ** Traces of queue operations *)
Inductive QOp : Type :=
| OAdd (k : RequestKey) (e : RequestEntity)
| ONext
| OComplete (k : RequestKey).

Inductive QOut : Type :=
| RAdd (r : outcome string ())
| RNext (r : option (RequestKey * RequestEntity))
| RComplete.

Definition step (q : Queue) (op : QOp) : Queue * QOut :=
  match op with
  | OAdd k e => let '(q', r) := add_pending q k e in (q', RAdd r)
  | ONext => let '(q', r) := try_next q in (q', RNext r)
  | OComplete k => (complete q k, RComplete)
  end.

Definition spec_step (s : SpecQueue) (op : QOp) : SpecQueue * QOut :=
  match op with
  | OAdd k e => let '(s', r) := spec_add s k e in (s', RAdd r)
  | ONext => let '(s', r) := spec_next s in (s', RNext r)
  | OComplete k => (spec_complete s k, RComplete)
  end.

Fixpoint run {S} (f : S -> QOp -> S * QOut) (s : S) (ops : list QOp) : list QOut :=
  match ops with
  | [] => []
  | op :: ops' => let '(s', o) := f s op in o :: run f s' ops'
  end.

(** The abstraction relation: each queue holds the arrivals of its priority. *)
Definition abs (q : Queue) (s : SpecQueue) : Prop :=
  agg_queue q = List.filter (has_priority 2) (arrivals s) /\
  batch_queue q = List.filter (has_priority 1) (arrivals s) /\
  preflight_queue q = List.filter (has_priority 0) (arrivals s) /\
  working_in_progress q = in_flight s /\ queued_keys q = known s /\ max_queue_size q = capacity s.

Lemma pick_filter p l :
  match pick p l with
  | Some (x, rest) =>
      has_priority p x = true /\ List.filter (has_priority p) l = x :: List.filter (has_priority p) rest /\
      (forall p', p' <> p -> List.filter (has_priority p') rest = List.filter (has_priority p') l)
  | None => List.filter (has_priority p) l = []
  end.
Proof.
  induction l as [|y l IH]; simpl; [done|]. destruct (has_priority p y) eqn:Ep.
  - split_and!; auto. intros p' Hp'. unfold has_priority in *. apply Nat.eqb_eq in Ep.
    destruct (priority y.1 =? p')%nat eqn:E'; [apply Nat.eqb_eq in E'; congruence|done].
  - destruct (pick p l) as [[x rest]|]; simpl; [|done]. destruct IH as (Hx & Hf & Ho).
    rewrite Ep. split_and!; auto. intros p' Hp'. simpl. by rewrite Ho.
Qed.

Lemma filter_app_one p l x :
  List.filter (has_priority p) (l ++ [x]) =
  List.filter (has_priority p) l ++ (if has_priority p x then [x] else []).
Proof. rewrite List.filter_app. simpl. by destruct (has_priority p x). Qed.

Lemma abs_add q s k e :
  abs q s -> let '(q', r) := add_pending q k e in let '(s', r') := spec_add s k e in r = r' /\ abs q' s'.
Proof.
  intros (H2 & H1 & H0 & Hw & Hk & Hc). unfold add_pending, spec_add, is_at_capacity, contains.
  rewrite Hk, Hc. destruct (_ <=? _)%nat; [done|]. destruct (bool_decide (k ∈ known s)) eqn:Ek; simpl.
  - breflect. split; [done|]. unfold abs. simpl. split_and!; auto.
    apply subseteq_union_1_L, singleton_subseteq_l, Ek.
  - destruct k; unfold abs; simpl; rewrite ?filter_app_one, ?H2, ?H1, ?H0, ?app_nil_r; simpl;
      rewrite ?app_nil_r; done.
Qed.

Lemma abs_next q s :
  abs q s -> let '(q', r) := try_next q in let '(s', r') := spec_next s in r = r' /\ abs q' s'.
Proof.
  intros (H2 & H1 & H0 & Hw & Hk & Hc). unfold try_next, spec_next.
  pose proof (pick_filter 2 (arrivals s)) as P2. pose proof (pick_filter 1 (arrivals s)) as P1.
  pose proof (pick_filter 0 (arrivals s)) as P0.
  destruct (pick 2 (arrivals s)) as [[x rest]|].
  - destruct P2 as (_ & Hf & Ho). rewrite H2, Hf. unfold abs. simpl. rewrite (Ho 1%nat), (Ho 0%nat), Hw by lia. done.
  - rewrite H2, P2. destruct (pick 1 (arrivals s)) as [[x rest]|].
    + destruct P1 as (_ & Hf & Ho). rewrite H1, Hf. unfold abs. simpl.
      rewrite (Ho 2%nat), (Ho 0%nat), P2, Hw by lia. done.
    + rewrite H1, P1. destruct (pick 0 (arrivals s)) as [[x rest]|].
      * destruct P0 as (_ & Hf & Ho). rewrite H0, Hf. unfold abs. simpl.
        rewrite (Ho 2%nat), (Ho 1%nat), P2, P1, Hw by lia. done.
      * rewrite H0, P0. unfold abs. by rewrite H2, H1, H0.
Qed.

Lemma abs_run ops q s : abs q s -> run step q ops = run spec_step s ops.
Proof.
  revert q s. induction ops as [|op ops IH]; intros q s Habs; simpl; [done|].
  destruct op as [k e| |k]; simpl.
  - pose proof (abs_add q s k e Habs) as H. destruct (add_pending q k e), (spec_add s k e).
    destruct H as [-> H]. by rewrite (IH _ _ H).
  - pose proof (abs_next q s Habs) as H. destruct (try_next q), (spec_next s).
    destruct H as [-> H]. by rewrite (IH _ _ H).
  - rewrite (IH (complete q k) (spec_complete s k)); [done|].
    destruct Habs as (H2 & H1 & H0 & Hw & Hk & Hc). unfold abs. simpl. by rewrite Hw, Hk.
Qed.

(** ** Invariant *)
Definition pending (q : Queue) : list (RequestKey * RequestEntity) :=
  agg_queue q ++ batch_queue q ++ preflight_queue q.

(** Pending requests are listed once, in the queue of their priority, and are
    not in progress; the known keys are the pending ones and those in progress,
    within the capacity. *)
Record queue_ok (q : Queue) : Prop := {
  ok_nodup : NoDup (pending q).*1;
  ok_disjoint : forall k, k ∈ (pending q).*1 -> k ∉ working_in_progress q;
  ok_known : forall k, k ∈ queued_keys q <-> k ∈ (pending q).*1 \/ k ∈ working_in_progress q;
  ok_capacity : (size (queued_keys q) <= max_queue_size q)%nat;
  ok_agg : forall x, x ∈ agg_queue q -> priority x.1 = 2%nat;
  ok_batch : forall x, x ∈ batch_queue q -> priority x.1 = 1%nat;
  ok_preflight : forall x, x ∈ preflight_queue q -> priority x.1 = 0%nat
}.

(** The operations of the backend: a request is completed only while in progress. *)
Inductive qreach (max : nat) : Queue -> Prop :=
| qreach_new : qreach max (Queue_new max)
| qreach_add q k e : qreach max q -> qreach max (add_pending q k e).1
| qreach_next q : qreach max q -> qreach max (try_next q).1
| qreach_complete q k :
    qreach max q -> k ∈ working_in_progress q -> qreach max (complete q k).

Lemma pending_keys_app q k :
  k ∈ (pending q).*1 <->
  k ∈ (agg_queue q).*1 \/ k ∈ (batch_queue q).*1 \/ k ∈ (preflight_queue q).*1.
Proof. unfold pending. by rewrite !fmap_app, !elem_of_app. Qed.

Lemma add_pending_pending q k e q' :
  add_pending q k e = (q', Ok ()) -> contains q k = false ->
  pending q' ≡ₚ pending q ++ [(k, e)] /\ working_in_progress q' = working_in_progress q /\
  queued_keys q' = {[k]} ∪ queued_keys q /\ max_queue_size q' = max_queue_size q.
Proof.
  unfold add_pending. intros Ha Hc. rewrite Hc in Ha. destruct (is_at_capacity q); [done|].
  destruct k; simplify_eq/=; split_and!; auto; unfold pending; simpl; solve_Permutation.
Qed.

Lemma add_pending_err q k e q' err : add_pending q k e = (q', Err err) -> q' = q /\ err = capacity_error.
Proof.
  unfold add_pending. destruct (is_at_capacity q); [by intros [= <- <-]|].
  destruct (contains q k); [done|]. by destruct k.
Qed.

Lemma add_pending_no_panic q k e : (add_pending q k e).2 <> Panic.
Proof. unfold add_pending. destruct (is_at_capacity q); [done|]. destruct (contains q k); [done|]. by destruct k. Qed.

Lemma add_pending_known q k e q' :
  add_pending q k e = (q', Ok ()) -> contains q k = true -> q' = q.
Proof.
  unfold add_pending. intros Ha Hc. rewrite Hc in Ha. destruct (is_at_capacity q); [done|].
  unfold contains in Hc. breflect. simplify_eq/=. destruct q as [a b p w known m]; simpl in *. f_equal.
  apply subseteq_union_1_L, singleton_subseteq_l, Hc.
Qed.

Lemma add_pending_queues q k e q' x :
  add_pending q k e = (q', Ok ()) ->
  (x ∈ agg_queue q' -> x ∈ agg_queue q \/ (x = (k, e) /\ priority k = 2%nat)) /\
  (x ∈ batch_queue q' -> x ∈ batch_queue q \/ (x = (k, e) /\ priority k = 1%nat)) /\
  (x ∈ preflight_queue q' -> x ∈ preflight_queue q \/ (x = (k, e) /\ priority k = 0%nat)).
Proof.
  unfold add_pending. intros Ha. destruct (is_at_capacity q); [done|].
  destruct (contains q k); simplify_eq/=; [by auto|].
  destruct k; simplify_eq/=; rewrite ?elem_of_app, ?list_elem_of_singleton; naive_solver.
Qed.

Lemma add_pending_ok q k e : queue_ok q -> queue_ok (add_pending q k e).1.
Proof.
  intros [Hn Hd Hk Hc H2 H1 H0]. pose proof (add_pending_no_panic q k e) as Hp.
  destruct (add_pending q k e) as [q' [[]|err|]] eqn:Ea; simpl in *; [|by apply add_pending_err in Ea as [-> _]|done].
  destruct (contains q k) eqn:Ek; [by apply add_pending_known in Ea as ->|].
  destruct (add_pending_pending _ _ _ _ Ea Ek) as (Hperm & Hw & Hq & Hm).
  unfold contains in Ek. breflect.
  assert (Hkeys : forall k', k' ∈ (pending q').*1 <-> k' ∈ (pending q).*1 \/ k' = k).
  { intros k'. rewrite Hperm, fmap_app, elem_of_app. simpl. by rewrite list_elem_of_singleton. }
  split.
  - rewrite Hperm, fmap_app. apply NoDup_app. split_and!; [done| |apply NoDup_singleton].
    intros k' Hk' Hin%list_elem_of_singleton. simpl in Hin. subst. apply Ek, Hk. by left.
  - intros k'. rewrite Hkeys, Hw. intros [Hin| ->]; [by apply Hd|]. intros Hin. apply Ek, Hk. by right.
  - intros k'. rewrite Hq, Hw, Hkeys, elem_of_union, elem_of_singleton, Hk. tauto.
  - rewrite Hq, Hm. unfold add_pending in Ea. destruct (is_at_capacity q) eqn:Ecap; [done|].
    unfold is_at_capacity in Ecap. breflect.
    rewrite size_union, size_singleton by (apply disjoint_singleton_l; done). lia.
  - intros x Hx. destruct (add_pending_queues _ _ _ _ x Ea) as (Hq2 & _ & _).
    destruct (Hq2 Hx) as [?|[-> ?]]; auto.
  - intros x Hx. destruct (add_pending_queues _ _ _ _ x Ea) as (_ & Hq1 & _).
    destruct (Hq1 Hx) as [?|[-> ?]]; auto.
  - intros x Hx. destruct (add_pending_queues _ _ _ _ x Ea) as (_ & _ & Hq0).
    destruct (Hq0 Hx) as [?|[-> ?]]; auto.
Qed.

(** Taking a request: the first of the pending list, and what remains. *)
Lemma try_next_pending q :
  match try_next q with
  | (q', Some x) =>
      pending q = x :: pending q' /\ working_in_progress q' = {[x.1]} ∪ working_in_progress q /\
      queued_keys q' = queued_keys q /\ max_queue_size q' = max_queue_size q /\
      (forall y, y ∈ agg_queue q' -> y ∈ agg_queue q) /\ (forall y, y ∈ batch_queue q' -> y ∈ batch_queue q) /\
      (forall y, y ∈ preflight_queue q' -> y ∈ preflight_queue q)
  | (q', None) => q' = q /\ pending q = []
  end.
Proof.
  unfold try_next, pending. destruct (agg_queue q) as [|x l] eqn:E2; simpl.
  - destruct (batch_queue q) as [|x l] eqn:E1; simpl.
    + destruct (preflight_queue q) as [|x l] eqn:E0; simpl; [done|]. rewrite ?E2, ?E1. split_and!; auto. intros; by right.
    + rewrite ?E2. split_and!; auto. intros; by right.
  - split_and!; auto. intros; by right.
Qed.

Lemma try_next_ok q : queue_ok q -> queue_ok (try_next q).1.
Proof.
  intros [Hn Hd Hk Hc H2 H1 H0]. pose proof (try_next_pending q) as Hp.
  destruct (try_next q) as [q' [x|]]; simpl; [|by destruct Hp as [-> _]].
  destruct Hp as (Hp & Hw & Hq & Hm & S2 & S1 & S0). rewrite Hp in *. simpl in *.
  apply NoDup_cons in Hn as [Hni Hn]. split; auto.
  - intros k Hin. rewrite Hw, not_elem_of_union, not_elem_of_singleton. split; [by intros ->|].
    apply Hd. by right.
  - intros k. rewrite Hq, Hw, Hk, elem_of_cons, elem_of_union, elem_of_singleton. tauto.
  - by rewrite Hq, Hm.
Qed.

Lemma complete_ok q k : queue_ok q -> k ∈ working_in_progress q -> queue_ok (complete q k).
Proof.
  intros [Hn Hd Hk Hc H2 H1 H0] Hin. split; auto.
  - intros k' Hk'. simpl. rewrite elem_of_difference. intros [Hw _]. by apply (Hd k').
  - intros k'. simpl. change (pending (complete q k)) with (pending q).
    rewrite !elem_of_difference, elem_of_singleton, Hk. split; [tauto|].
    intros [Hp|[Hw Hne]]; [|tauto]. split; [by left|]. intros ->. by apply (Hd k).
  - simpl. etrans; [|exact Hc]. apply subseteq_size. set_solver.
Qed.

Lemma qreach_ok max q : qreach max q -> queue_ok q /\ max_queue_size q = max.
Proof.
  induction 1 as [|q k e Hq [IH Hm]|q Hq [IH Hm]|q k Hq [IH Hm] Hin].
  - split; [|done]. split; simpl; try (intros; set_solver); [apply NoDup_nil; done|apply Nat.le_0_l].
  - split; [by apply add_pending_ok|]. rewrite <- Hm. unfold add_pending.
    destruct (is_at_capacity q); [done|]. destruct (contains q k); [done|]. by destruct k.
  - split; [by apply try_next_ok|]. rewrite <- Hm. pose proof (try_next_pending q) as Hp.
    destruct (try_next q) as [q' [x|]]; simpl; [by destruct Hp as (_ & _ & _ & ? & _)|by destruct Hp as [-> _]].
  - split; [by apply complete_ok|done].
Qed.

(** ** Properties *)

(** C14: for every sequence of additions, takings and completions the queue
    answers exactly as the abstract queue, which takes the oldest arrival of the
    highest priority (aggregation, then batch proof, then the rest). *)
Theorem queue_refines_spec max ops :
  run step (Queue_new max) ops = run spec_step (mkSpec [] ∅ ∅ max) ops.
Proof. by apply abs_run. Qed.

(** in every state the backend can reach, each known request is either
    pending exactly once, in the queue of its priority, or in progress, and the
    number of known requests never exceeds the configured maximum. *)
Theorem queue_invariant max q :
  qreach max q -> queue_ok q /\ (size (queued_keys q) <= max)%nat.
Proof. intros H. destruct (qreach_ok max q H) as [Hok <-]. split; [done|]. apply ok_capacity, Hok. Qed.

(** The backend never starts a request that is already in progress, and
    every request that was accepted and not yet taken is still pending: taking
    removes only the returned request. *)
Theorem try_next_fresh max q q' k e :
  qreach max q -> try_next q = (q', Some (k, e)) ->
  (k ∉ working_in_progress q) /\ pending q = (k, e) :: pending q' /\
  (forall x, x ∈ pending q -> (priority x.1 <= priority k)%nat).
Proof.
  intros Hr Hn. destruct (qreach_ok max q Hr) as [[Hnd Hd Hk Hc H2 H1 H0] _].
  pose proof (try_next_pending q) as Hp. rewrite Hn in Hp. destruct Hp as (Hp & _).
  split_and!; [|done|].
  - apply Hd. rewrite Hp. by left.
  - intros x Hx. unfold try_next in Hn. unfold pending in Hx. rewrite !elem_of_app in Hx.
    destruct (agg_queue q) as [|y l]; [destruct (batch_queue q) as [|y l]; [destruct (preflight_queue q) as [|y l]|]|];
      simplify_eq/=.
    + destruct Hx as [Hx|[Hx|Hx]]; [by apply elem_of_nil in Hx..|].
      assert (priority k = 0%nat) as -> by (apply (H0 (k, e)); by left). rewrite (H0 x Hx). lia.
    + assert (priority k = 1%nat) as -> by (apply (H1 (k, e)); by left). destruct Hx as [Hx|[Hx|Hx]]; [by apply elem_of_nil in Hx| |].
      * rewrite (H1 x Hx). lia.
      * rewrite (H0 x Hx). lia.
    + assert (priority k = 2%nat) as -> by (apply (H2 (k, e)); by left). destruct Hx as [Hx|[Hx|Hx]].
      * rewrite (H2 x Hx). lia.
      * rewrite (H1 x Hx). lia.
      * rewrite (H0 x Hx). lia.
Qed.

(** Completing a request that is still pending (what the prune handler does
    through [queue_remove]) breaks the invariant: the stale entry stays in its
    queue, the request can be added a second time, and the queue then holds more
    entries than its maximum. *)
Theorem prune_pending_duplicates k e :
  let q1 := (add_pending (Queue_new 1) k e).1 in
  let q2 := complete q1 k in
  let q3 := (add_pending q2 k e).1 in
  contains q2 k = false /\ (pending q3).*1 = [k; k] /\
  (max_queue_size q3 < length (pending q3))%nat.
Proof.
  assert (Hfresh : forall w m q, queued_keys q = ∅ -> working_in_progress q = w -> max_queue_size q = S m ->
    is_at_capacity q = false /\ contains q k = false).
  { intros w m q Hq Hw Hm. unfold is_at_capacity, contains. rewrite Hq, Hm, size_empty. done. }
  intros q1 q2 q3.
  assert (Hq2 : queued_keys q2 = ∅ /\ pending q2 = [(k, e)] /\ max_queue_size q2 = 1%nat).
  { unfold q2, q1, add_pending. destruct (Hfresh ∅ 0%nat (Queue_new 1)) as [-> ->]; auto. simpl.
    destruct k; simpl; split_and!; auto; set_solver. }
  destruct Hq2 as (Hk & Hp & Hm). destruct (Hfresh (working_in_progress q2) 0%nat q2) as [Hcap Hc]; auto.
  split; [done|]. destruct (add_pending q2 k e) as [q3' r] eqn:Ea.
  assert (r = Ok ()) as -> by (unfold add_pending in Ea; rewrite Hcap, Hc in Ea; destruct k; by simplify_eq/=).
  destruct (add_pending_pending _ _ _ _ Ea Hc) as (Hperm & _ & _ & Hm').
  unfold q3. simpl. rewrite Hp in Hperm. simpl in Hperm.
  split.
  - assert (Forall (fun x => x = (k, e)) (pending q3')) as Hall by (rewrite Hperm; repeat constructor).
    apply Permutation_length in Hperm. destruct (pending q3') as [|a [|b [|c l]]]; simplify_eq/=.
    inversion Hall as [|? ? Ha Hrest]; inversion Hrest; subst. done.
  - apply Permutation_length in Hperm. rewrite Hperm, Hm', Hm. simpl. lia.
Qed.

(** ** Witnesses *)
Definition key_agg : RequestKey := KAggregation (AggregationRequestKey_new Sgx [1%Z; 2%Z]).
Definition key_batch : RequestKey := KBatchProof (BatchProofRequestKey_new 167 1 2 Sgx "p").
Definition ent : RequestEntity := EAggregation (mkAggregationRequestEntity [] [] Sgx (mkProverSpecificOpts None None None None None)).

Definition queue_two : Queue := (add_pending (add_pending (Queue_new 4) key_batch ent).1 key_agg ent).1.

Lemma queue_two_reach : qreach 4 queue_two.
Proof. apply qreach_add, qreach_add, qreach_new. Qed.

Lemma queue_invariant_witness : queue_ok queue_two /\ (size (queued_keys queue_two) <= 4)%nat.
Proof. apply queue_invariant, queue_two_reach. Defined.

Lemma try_next_fresh_witness :
  (key_agg ∉ working_in_progress queue_two) /\
  pending queue_two = (key_agg, ent) :: pending (try_next queue_two).1 /\
  (forall x, x ∈ pending queue_two -> (priority x.1 <= priority key_agg)%nat).
Proof. apply (try_next_fresh 4 queue_two _ key_agg ent); [apply queue_two_reach|reflexivity]. Defined.
