(* ===== verification/Lru.v ===== *)
(** The bounded cache of the [lru] crate, used by the memory backend of the pool
    and by the ballot: an interface with the documented laws, and a list of
    entries, most recent first, that satisfies them. *)

From stdpp Require Import base list list_numbers gmap sets fin_maps.
From Stdlib Require Import ZArith Lia.
From S2P Require Import Prelude.

(** [lru::LruCache]. *)
Class LruCache (K V C : Type) := {
  lru_new : nat -> C;
  lru_put : K -> V -> C -> C;
  lru_get : K -> C -> C * option V;
  lru_pop : K -> C -> C * option V;
  lru_keys : C -> list K
}.

(** A cache of capacity [n > 0] seen as a finite map: a new key may evict
    another entry once the cache is full. *)
Class LruLaws (K V C : Type) `{EqDecision K, Countable K, LruCache K V C} := {
  lru_view : C -> gmap K V;
  lru_cap : C -> nat;
  lru_new_view n : lru_view (lru_new n) = ∅;
  lru_new_cap n : lru_cap (lru_new n) = n;
  lru_put_same k v c : (0 < lru_cap c)%nat -> lru_view (lru_put k v c) !! k = Some v;
  lru_put_other k v c k' : k' <> k ->
    lru_view (lru_put k v c) !! k' = lru_view c !! k' \/ lru_view (lru_put k v c) !! k' = None;
  lru_put_keep k v c k' : k' <> k -> (size (lru_view c) < lru_cap c)%nat \/ is_Some (lru_view c !! k) ->
    lru_view (lru_put k v c) !! k' = lru_view c !! k';
  lru_put_cap k v c : lru_cap (lru_put k v c) = lru_cap c;
  lru_get_view k c : lru_view (lru_get k c).1 = lru_view c;
  lru_get_cap k c : lru_cap (lru_get k c).1 = lru_cap c;
  lru_get_value k c : (lru_get k c).2 = lru_view c !! k;
  lru_pop_view k c : lru_view (lru_pop k c).1 = delete k (lru_view c);
  lru_pop_cap k c : lru_cap (lru_pop k c).1 = lru_cap c;
  lru_pop_value k c : (lru_pop k c).2 = lru_view c !! k;
  lru_keys_view c k : k ∈ lru_keys c <-> is_Some (lru_view c !! k)
}.

(** ** An instance: a list of entries, most recent first *)
Record ListCache (K V : Type) := mkListCache { lc_cap : nat; lc_entries : list (K * V) }.
Arguments mkListCache {K V} _ _.
Arguments lc_cap {K V} _.
Arguments lc_entries {K V} _.

Section list_lru.
Context {K V : Type} `{EqDecision K, Countable K}.

Definition lc_view (c : ListCache K V) : gmap K V := list_to_map (lc_entries c).

Definition without (k : K) (l : list (K * V)) : list (K * V) :=
  filter (fun x => x.1 <> k) l.

(** The least recently used key other than [k]. *)
Definition victim (k : K) (l : list (K * V)) : option K :=
  head (reverse (without k l).*1).

#[global] Instance list_lru : LruCache K V (ListCache K V) := {
  lru_new n := mkListCache n [];
  lru_put k v c :=
    let rest := without k (lc_entries c) in
    let kept :=
      if decide (size (lc_view c) < lc_cap c \/ is_Some (lc_view c !! k))%nat then rest
      else match victim k (lc_entries c) with Some w => without w rest | None => rest end in
    mkListCache (lc_cap c) ((k, v) :: kept);
  lru_get k c :=
    match lc_view c !! k with
    | Some v => (mkListCache (lc_cap c) ((k, v) :: without k (lc_entries c)), Some v)
    | None => (c, None)
    end;
  lru_pop k c := (mkListCache (lc_cap c) (without k (lc_entries c)), lc_view c !! k);
  lru_keys c := (lc_entries c).*1
}.

Lemma without_view k l :
  list_to_map (M := gmap K V) (without k l) = delete k (list_to_map l).
Proof.
  apply map_eq. intros k'. induction l as [|[a v] l IH]; simpl.
  - by rewrite delete_empty.
  - unfold without in *. rewrite filter_cons. simpl. destruct (decide (a <> k)) as [Hne|He].
    + simpl. destruct (decide (a = k')) as [->|]; [by rewrite lookup_insert_eq, lookup_delete_ne, lookup_insert_eq|].
      rewrite lookup_insert_ne, IH by done. destruct (decide (k = k')) as [->|]; [by rewrite !lookup_delete_eq|].
      by rewrite !lookup_delete_ne, lookup_insert_ne.
    + apply dec_stable in He. subst a. rewrite IH. destruct (decide (k = k')) as [->|];
        [by rewrite !lookup_delete_eq|]. by rewrite !lookup_delete_ne, lookup_insert_ne.
Qed.

#[global] Instance list_lru_laws : LruLaws K V (ListCache K V).
Proof.
  refine {| lru_view := lc_view; lru_cap := lc_cap |}; unfold lc_view; simpl; try done.
  - intros k v c _. by rewrite lookup_insert_eq.
  - intros k v c k' Hne. rewrite lookup_insert_ne by done.
    destruct (decide _); [left; by rewrite without_view, lookup_delete_ne|].
    destruct (victim k (lc_entries c)) as [w|]; rewrite !without_view.
    + destruct (decide (w = k')) as [->|]; [right; by rewrite lookup_delete_eq|].
      left. by rewrite !lookup_delete_ne.
    + left. by rewrite lookup_delete_ne.
  - intros k v c k' Hne Hroom. rewrite lookup_insert_ne by done.
    rewrite decide_True by done. by rewrite without_view, lookup_delete_ne.
  - intros k c. destruct (lc_view c !! k) as [v|] eqn:E; [|done]. unfold lc_view in E.
    simpl. rewrite without_view, insert_delete_eq. by apply insert_id.
  - intros k c. by destruct (lc_view c !! k).
  - intros k c. by destruct (lc_view c !! k) eqn:E.
  - intros k c. apply without_view.
  - intros c k. split.
    + intros Hin. destruct (list_to_map (lc_entries c) !! k) eqn:E; [done|].
      by apply not_elem_of_list_to_map_2 in E.
    + intros [v Hv]. apply elem_of_list_to_map_2 in Hv. apply list_elem_of_fmap. by exists (k, v).
Qed.

End list_lru.
