(* ===== verification/Pool.v ===== *)
(** The request pool ([reqpool/src/pool.rs], [reqpool/src/backend.rs],
    [reqpool/src/memory_backend.rs]): statuses and network proof ids stored by
    request key, in Redis or in a bounded in-memory cache. The [lru] crate and
    the Redis server are parameters; [LruLaws] states what the memory backend
    relies on, see [Lru]. *)

From stdpp Require Import base list list_numbers strings gmap sets fin_maps.
From Stdlib Require Import ZArith Lia.
From S2P Require Import Prelude Types Request Lru.

(** ** Stored values

    The backends store JSON; what is read back is a request with its status or
    the string of a network proof id. *)
Record RequestEntityAndStatus := mkEntityAndStatus {
  eas_entity : RequestEntity;
  eas_status : StatusWithContext
}.

Inductive Stored : Type :=
| SRequest (v : RequestEntityAndStatus)
| SId (id : string).

Inductive RedisError : Type :=
| TypeError (msg : string)
| OtherError (msg : string).

Definition redis_to_string (e : RedisError) : string :=
  match e with TypeError m => m | OtherError m => m end.

(** [serde_json::from_value] at the two types read from the pool. *)
Definition as_request (v : Stored) : outcome RedisError RequestEntityAndStatus :=
  match v with SRequest r => Ok r | SId _ => Err (TypeError "deserialization error") end.
Definition as_id (v : Stored) : outcome RedisError string :=
  match v with SId id => Ok id | SRequest _ => Err (TypeError "deserialization error") end.

(** ** Third-party stores *)

(** A connection to a Redis server: every command may fail. *)
Class RedisServer (R : Type) := {
  redis_connect : R -> R * outcome RedisError ();
  redis_set_ex : RequestKey -> Stored -> Z -> R -> R * outcome RedisError ();
  redis_get : RequestKey -> R -> R * outcome RedisError Stored;
  redis_del : RequestKey -> R -> R * outcome RedisError nat;
  redis_keys : R -> R * outcome RedisError (list RequestKey)
}.

Section pool.
Context {C R : Type} `{LruCache RequestKey Stored C} `{RedisServer R}.

(** ** Memory backend *)
Definition mem_set_ex (k : RequestKey) (v : Stored) (_ttl : Z) (c : C) : C * outcome RedisError () :=
  (lru_put k v c, Ok ()).

Definition mem_get (k : RequestKey) (c : C) : C * outcome RedisError Stored :=
  let '(c', o) := lru_get k c in
  (c', match o with None => Err (TypeError "not found") | Some v => Ok v end).

Definition mem_del (k : RequestKey) (c : C) : C * outcome RedisError nat :=
  let '(c', o) := lru_pop k c in
  (c', match o with None => Ok 0 | Some _ => Ok 1 end)%nat.

Definition mem_keys (pattern : string) (c : C) : outcome RedisError (list RequestKey) :=
  if bool_decide (pattern = "*"%string) then Ok (lru_keys c) else Panic.

(** ** Pool *)
Record RedisPoolConfig := mkConfig {
  redis_url : string;
  redis_ttl : Z;
  enable_redis_pool : bool
}.

(** The pool with the stores it reaches: the Redis server of its url, and the
    process-wide memory storage of its url. *)
Record Pool := mkPool { config : RedisPoolConfig; redis : R; memory : C }.

Definition with_redis (p : Pool) (r : R) : Pool := mkPool (config p) r (memory p).
Definition with_memory (p : Pool) (c : C) : Pool := mkPool (config p) (redis p) c.

(** [conn()] followed by one command of [Backend]. *)
Definition backend_call {A} (p : Pool) (on_redis : R -> R * outcome RedisError A)
    (on_memory : C -> C * outcome RedisError A) : Pool * outcome RedisError A :=
  if enable_redis_pool (config p) then
    let '(r, c) := redis_connect (redis p) in
    match c with
    | Ok _ => let '(r', a) := on_redis r in (with_redis p r', a)
    | Err e => (with_redis p r, Err e)
    | Panic => (with_redis p r, Panic)
    end
  else
    let '(c', a) := on_memory (memory p) in (with_memory p c', a).

Definition backend_set_ex (p : Pool) (k : RequestKey) (v : Stored) : Pool * outcome RedisError () :=
  backend_call p (redis_set_ex k v (redis_ttl (config p))) (mem_set_ex k v (redis_ttl (config p))).

Definition backend_get {A} (p : Pool) (de : Stored -> outcome RedisError A) (k : RequestKey) :
    Pool * outcome RedisError A :=
  let '(p', r) := backend_call p (redis_get k) (mem_get k) in
  (p', match r with Ok v => de v | Err e => Err e | Panic => Panic end).

Definition backend_del (p : Pool) (k : RequestKey) : Pool * outcome RedisError nat :=
  backend_call p (redis_del k) (mem_del k).

Definition backend_keys (p : Pool) (pattern : string) : Pool * outcome RedisError (list RequestKey) :=
  backend_call p redis_keys (fun c => (c, mem_keys pattern c)).

Definition pool_add (p : Pool) (k : RequestKey) (e : RequestEntity) (s : StatusWithContext) :
    Pool * outcome string () :=
  let '(p', r) := backend_set_ex p k (SRequest (mkEntityAndStatus e s)) in
  (p', map_err redis_to_string r).

Definition pool_remove (p : Pool) (k : RequestKey) : Pool * outcome string nat :=
  let '(p', r) := backend_del p k in (p', map_err redis_to_string r).

Definition pool_get (p : Pool) (k : RequestKey) :
    Pool * outcome string (option (RequestEntity * StatusWithContext)) :=
  let '(p', r) := backend_get p as_request k in
  (p', match r with
       | Ok v => Ok (Some (eas_entity v, eas_status v))
       | Err (TypeError _) => Ok None
       | Err e => Err (redis_to_string e)
       | Panic => Panic
       end).

Definition pool_get_status (p : Pool) (k : RequestKey) : Pool * outcome string (option StatusWithContext) :=
  let '(p', r) := pool_get p k in
  (p', match r with Ok o => Ok (option_map snd o) | Err e => Err e | Panic => Panic end).

Definition pool_update_status (p : Pool) (k : RequestKey) (s : StatusWithContext) :
    Pool * outcome string StatusWithContext :=
  let '(p', r) := pool_get p k in
  match r with
  | Ok (Some (entity, old_status)) =>
      let '(p'', r') := pool_add p' k entity s in
      (p'', match r' with Ok _ => Ok old_status | Err e => Err e | Panic => Panic end)
  | Ok None => (p', Err "Request not found"%string)
  | Err e => (p', Err e)
  | Panic => (p', Panic)
  end.

(** [for key in keys { if let Ok(Some((_, status))) = self.get(&key) .. }]. *)
Fixpoint list_loop (p : Pool) (keys : list RequestKey) (result : gmap RequestKey StatusWithContext) :
    Pool * gmap RequestKey StatusWithContext :=
  match keys with
  | [] => (p, result)
  | key :: rest =>
      let '(p', r) := pool_get p key in
      match r with
      | Ok (Some (_, status)) => list_loop p' rest (<[key := status]> result)
      | _ => list_loop p' rest result
      end
  end.

Definition pool_list (p : Pool) : Pool * outcome string (gmap RequestKey StatusWithContext) :=
  let '(p', r) := backend_keys p "*" in
  match r with
  | Ok keys => let '(p'', m) := list_loop p' keys ∅ in (p'', Ok m)
  | Err e => (p', Err (redis_to_string e))
  | Panic => (p', Panic)
  end.

(** [IdStore] and [IdWrite]. *)
Definition hack_key (k : ProofKey) : outcome ProverError RequestKey :=
  map_err GuestError (proof_key_to_hack_request_key k).

Definition read_id (p : Pool) (k : ProofKey) : Pool * outcome ProverError string :=
  match hack_key k with
  | Ok key =>
      let '(p', r) := backend_get p as_id key in
      (p', map_err (fun e => StoreError (redis_to_string e)) r)
  | Err e => (p, Err e)
  | Panic => (p, Panic)
  end.

Definition store_id (p : Pool) (k : ProofKey) (id : string) : Pool * outcome ProverError () :=
  match hack_key k with
  | Ok key =>
      let '(p', r) := backend_set_ex p key (SId id) in
      (p', map_err (fun e => StoreError (redis_to_string e)) r)
  | Err e => (p, Err e)
  | Panic => (p, Panic)
  end.

Definition remove_id (p : Pool) (k : ProofKey) : Pool * outcome ProverError () :=
  match hack_key k with
  | Ok key =>
      let '(p', r) := backend_del p key in
      (p', map_err (fun e => StoreError (redis_to_string e))
             match r with Ok _ => Ok () | Err e => Err e | Panic => Panic end)
  | Err e => (p, Err e)
  | Panic => (p, Panic)
  end.
End pool.
Arguments Pool C R : clear implicits.

(** ** The memory pool as a finite map *)
Section memory_pool.
Context {C R : Type} `{LC : LruCache RequestKey Stored C} `{LL : !LruLaws RequestKey Stored C} `{RS : RedisServer R}.

Definition in_memory (p : Pool C R) : Prop := enable_redis_pool (config p) = false.
Definition view (p : Pool C R) : gmap RequestKey Stored := lru_view (memory p).
Definition room (p : Pool C R) : Prop := (0 < lru_cap (memory p))%nat.

(** The request stored under a key, ignoring network proof ids. *)
Definition request_at (p : Pool C R) (k : RequestKey) : option (RequestEntity * StatusWithContext) :=
  match view p !! k with
  | Some (SRequest v) => Some (eas_entity v, eas_status v)
  | _ => None
  end.

(** Same configuration and capacity. *)
Definition same_pool (p p' : Pool C R) : Prop :=
  config p' = config p /\ lru_cap (memory p') = lru_cap (memory p).

Lemma same_pool_refl p : same_pool p p.
Proof. done. Qed.

Lemma same_pool_trans p q r : same_pool p q -> same_pool q r -> same_pool p r.
Proof. unfold same_pool. intuition congruence. Qed.

Lemma same_pool_mem p p' : same_pool p p' -> in_memory p -> in_memory p'.
Proof. unfold in_memory. by intros [-> _]. Qed.

Lemma same_pool_room p p' : same_pool p p' -> room p -> room p'.
Proof. unfold room. by intros [_ ->]. Qed.

Lemma backend_get_mem {A} (de : Stored -> outcome RedisError A) p k :
  in_memory p ->
  exists p', same_pool p p' /\ view p' = view p /\
    backend_get p de k = (p', match view p !! k with Some v => de v | None => Err (TypeError "not found") end).
Proof.
  intros Hm. unfold backend_get, backend_call, mem_get. rewrite Hm.
  pose proof (lru_get_view k (memory p)) as Hv. pose proof (lru_get_cap k (memory p)) as Hc.
  pose proof (lru_get_value k (memory p)) as Ho.
  destruct (lru_get k (memory p)) as [c o]; simpl in *. subst o.
  exists (with_memory p c). split; [done|]. split; [done|]. unfold view. by destruct (lru_view (memory p) !! k).
Qed.

Lemma pool_get_mem p k :
  in_memory p ->
  exists p', same_pool p p' /\ view p' = view p /\ pool_get p k = (p', Ok (request_at p k)).
Proof.
  intros Hm. destruct (backend_get_mem as_request p k Hm) as (p' & Hs & Hv & Hg).
  exists p'. split_and!; auto. unfold pool_get, request_at. rewrite Hg.
  by destruct (view p !! k) as [[v|id]|].
Qed.

Lemma backend_set_mem p k v :
  in_memory p ->
  exists p', same_pool p p' /\ backend_set_ex p k v = (p', Ok ()) /\
    memory p' = lru_put k v (memory p).
Proof.
  intros Hm. unfold backend_set_ex, backend_call, mem_set_ex. rewrite Hm.
  exists (with_memory p (lru_put k v (memory p))). split; [split; [done|apply lru_put_cap]|done].
Qed.

Lemma pool_add_mem p k e s :
  in_memory p ->
  exists p', same_pool p p' /\ pool_add p k e s = (p', Ok ()) /\
    memory p' = lru_put k (SRequest (mkEntityAndStatus e s)) (memory p).
Proof.
  intros Hm. destruct (backend_set_mem p k (SRequest (mkEntityAndStatus e s)) Hm) as (p' & Hs & Ha & Hp).
  exists p'. split_and!; auto. unfold pool_add. by rewrite Ha.
Qed.

Lemma request_at_put p p' k e s :
  room p -> memory p' = lru_put k (SRequest (mkEntityAndStatus e s)) (memory p) ->
  request_at p' k = Some (e, s).
Proof. intros Hr Hp. unfold request_at, view. rewrite Hp, lru_put_same by done. done. Qed.

Lemma request_at_view p p' k : view p' = view p -> request_at p' k = request_at p k.
Proof. unfold request_at. by intros ->. Qed.

Lemma request_at_keep p p' k k' e s :
  is_Some (request_at p k) -> k' <> k ->
  memory p' = lru_put k (SRequest (mkEntityAndStatus e s)) (memory p) ->
  view p' !! k' = view p !! k'.
Proof.
  intros Hk Hne Hp. unfold view. rewrite Hp. apply lru_put_keep; [done|]. right.
  unfold request_at, view in Hk. destruct (lru_view (memory p) !! k); [done|]. by destruct Hk.
Qed.

Lemma pool_update_present p k s e old :
  in_memory p -> room p -> request_at p k = Some (e, old) ->
  exists p', same_pool p p' /\ pool_update_status p k s = (p', Ok old) /\
    request_at p' k = Some (e, s) /\ (forall k', k' <> k -> view p' !! k' = view p !! k').
Proof.
  intros Hm Hr Hk. destruct (pool_get_mem p k Hm) as (p1 & S1 & V1 & G1).
  destruct (pool_add_mem p1 k e s (same_pool_mem _ _ S1 Hm)) as (p2 & S2 & A2 & M2).
  exists p2. unfold pool_update_status. rewrite G1, Hk, A2. split_and!; auto.
  - by eapply same_pool_trans.
  - eapply request_at_put; [|exact M2]. by eapply same_pool_room.
  - intros k' Hne. rewrite <- V1. eapply request_at_keep; [|done|exact M2].
    rewrite (request_at_view p p1 k V1), Hk. done.
Qed.

Lemma pool_update_absent p k s :
  in_memory p -> request_at p k = None ->
  exists p', same_pool p p' /\ view p' = view p /\
    pool_update_status p k s = (p', Err "Request not found"%string).
Proof.
  intros Hm Hk. destruct (pool_get_mem p k Hm) as (p1 & S1 & V1 & G1).
  exists p1. split_and!; auto. unfold pool_update_status. by rewrite G1, Hk.
Qed.

Lemma pool_get_status_mem p k :
  in_memory p ->
  exists p', same_pool p p' /\ view p' = view p /\
    pool_get_status p k = (p', Ok (option_map snd (request_at p k))).
Proof.
  intros Hm. destruct (pool_get_mem p k Hm) as (p1 & S1 & V1 & G1).
  exists p1. split_and!; auto. unfold pool_get_status. by rewrite G1.
Qed.

(** ** Properties *)

(** In a memory pool a stored status is read back: after [add] the pool
    returns that status for the key, and after [remove] it returns none. *)
Theorem pool_add_get_remove p k e s p1 r1 p2 r2 p3 r3 :
  in_memory p -> room p ->
  pool_add p k e s = (p1, r1) -> pool_get_status p1 k = (p2, r2) -> pool_remove p2 k = (p3, r3) ->
  r1 = Ok () /\ r2 = Ok (Some s) /\ r3 = Ok 1%nat /\ request_at p3 k = None.
Proof.
  intros Hm Hr Ha Hg Hd.
  destruct (pool_add_mem p k e s Hm) as (p1' & S1 & A1 & M1). rewrite A1 in Ha. simplify_eq.
  destruct (pool_get_status_mem p1 k (same_pool_mem _ _ S1 Hm)) as (p2' & S2 & V2 & G2).
  rewrite G2 in Hg. simplify_eq. pose proof (request_at_put _ _ _ _ _ Hr M1) as Hk. rewrite Hk. simpl.
  pose proof (same_pool_mem _ _ S2 (same_pool_mem _ _ S1 Hm)) as Hm2.
  unfold pool_remove, backend_del, backend_call, mem_del in Hd. rewrite Hm2 in Hd.
  pose proof (lru_pop_value k (memory p2)) as Hv. pose proof (lru_pop_view k (memory p2)) as Hw.
  destruct (lru_pop k (memory p2)) as [c o]. simplify_eq/=. split_and!; auto.
  - change (lru_view (memory p2)) with (view p2). rewrite V2. unfold request_at in Hk.
    destruct (view p1 !! k); done.
  - unfold request_at, view. simpl. by rewrite Hw, lookup_delete_eq.
Qed.

(** [update_status] replaces the status of a known request, keeps its
    entity and every other entry and returns the old status; on an unknown
    request it fails and stores nothing. *)
Theorem pool_update_status_spec p k s :
  in_memory p -> room p ->
  let '(p', r) := pool_update_status p k s in
  match request_at p k with
  | Some (e, old) => r = Ok old /\ request_at p' k = Some (e, s) /\
                     (forall k', k' <> k -> view p' !! k' = view p !! k')
  | None => r = Err "Request not found"%string /\ view p' = view p
  end.
Proof.
  intros Hm Hr. destruct (request_at p k) as [[e old]|] eqn:Hk.
  - destruct (pool_update_present p k s e old Hm Hr Hk) as (p' & _ & -> & ? & ?). done.
  - destruct (pool_update_absent p k s Hm Hk) as (p' & _ & ? & ->). done.
Qed.

Lemma list_loop_mem p keys result :
  in_memory p ->
  exists p', same_pool p p' /\ view p' = view p /\
    (list_loop p keys result).1 = p' /\
    forall k, (list_loop p keys result).2 !! k =
      if decide (k ∈ keys) then
        match request_at p k with Some (_, s) => Some s | None => result !! k end
      else result !! k.
Proof.
  revert p result. induction keys as [|key keys IH]; intros p result Hm; simpl.
  - exists p. by split_and!.
  - destruct (pool_get_mem p key Hm) as (p1 & S1 & V1 & ->).
    pose proof (same_pool_mem _ _ S1 Hm) as Hm1.
    assert (Hreq : forall k, request_at p1 k = request_at p k) by (intros; by apply request_at_view).
    destruct (request_at p key) as [[e s]|] eqn:Hk.
    + destruct (IH p1 (<[key:=s]> result) Hm1) as (p2 & S2 & V2 & -> & Hl). exists p2.
      split_and!; auto; [by eapply same_pool_trans|congruence|]. intros k. rewrite Hl, Hreq.
      destruct (decide (k = key)) as [->|Hne].
      * rewrite Hk, lookup_insert_eq. rewrite (decide_True (P := key ∈ key :: keys)) by (by left). by case_decide.
      * rewrite lookup_insert_ne by done. destruct (decide (k ∈ keys)).
        -- by rewrite decide_True by (by right).
        -- rewrite decide_False; [done|]. rewrite elem_of_cons. tauto.
    + destruct (IH p1 result Hm1) as (p2 & S2 & V2 & -> & Hl). exists p2.
      split_and!; auto; [by eapply same_pool_trans|congruence|]. intros k. rewrite Hl, Hreq.
      destruct (decide (k = key)) as [->|Hne].
      * rewrite Hk. by repeat case_decide.
      * destruct (decide (k ∈ keys)).
        -- by rewrite decide_True by (by right).
        -- rewrite decide_False; [done|]. rewrite elem_of_cons. tauto.
Qed.

(** [list] of a memory pool returns exactly the stored requests with their
    statuses: stored network proof ids are skipped and nothing is lost. *)
Theorem pool_list_spec p :
  in_memory p ->
  exists m, (pool_list p).2 = Ok m /\ view (pool_list p).1 = view p /\
    forall k, m !! k = option_map snd (request_at p k).
Proof.
  intros Hm. unfold pool_list, backend_keys, backend_call, mem_keys. rewrite Hm, bool_decide_true by done. simpl.
  assert (with_memory p (memory p) = p) as -> by (by destruct p).
  destruct (list_loop_mem p (lru_keys (memory p)) ∅ Hm) as (p' & Hs & Hv & Hp & Hl).
  destruct (list_loop p (lru_keys (memory p)) ∅) as [p'' m]. simpl in *. subst p''.
  exists m. split_and!; auto. intros k. rewrite Hl. destruct (decide (k ∈ lru_keys (memory p))) as [Hin|Hni].
  - by destruct (request_at p k) as [[e s]|].
  - unfold request_at, view. rewrite lru_keys_view in Hni.
    destruct (lru_view (memory p) !! k); [|done]. exfalso. apply Hni. done.
Qed.

(** A network proof id survives in a memory pool until it is removed:
    [store_id] then [read_id] returns the id for every supported proof type, and
    after [remove_id] reading fails with a store error. *)
Theorem id_store_roundtrip p k id p1 r1 p2 r2 p3 r3 p4 r4 :
  in_memory p -> room p -> (0 <= k.2 <= 4)%Z ->
  store_id p k id = (p1, r1) -> read_id p1 k = (p2, r2) ->
  remove_id p2 k = (p3, r3) -> read_id p3 k = (p4, r4) ->
  r1 = Ok () /\ r2 = Ok id /\ r3 = Ok () /\ r4 = Err (StoreError "not found").
Proof.
  intros Hm Hr Hk H1 H2 H3 H4.
  assert (exists key, hack_key k = Ok key) as [key Hkey].
  { destruct k as [[[c b] h] t]. simpl in Hk. unfold hack_key, proof_key_to_hack_request_key.
    assert (t = 0 \/ t = 1 \/ t = 2 \/ t = 3 \/ t = 4)%Z as [->|[->|[->|[->| ->]]]] by lia; by eexists. }
  unfold store_id in H1. unfold read_id in H2, H4. unfold remove_id in H3. rewrite Hkey in H1, H2, H3, H4.
  destruct (backend_set_mem p key (SId id) Hm) as (q1 & S1 & A1 & M1). rewrite A1 in H1. simplify_eq/=.
  pose proof (same_pool_mem _ _ S1 Hm) as Hm1.
  destruct (backend_get_mem as_id p1 key Hm1) as (q2 & S2 & V2 & G2). rewrite G2 in H2.
  assert (view p1 !! key = Some (SId id)) as Hv by (unfold view; rewrite M1; by apply lru_put_same).
  rewrite Hv in H2. simplify_eq/=. pose proof (same_pool_mem _ _ S2 Hm1) as Hm2.
  unfold backend_del, backend_call, mem_del in H3. rewrite Hm2 in H3.
  pose proof (lru_pop_value key (memory p2)) as Hpv. pose proof (lru_pop_view key (memory p2)) as Hpw.
  destruct (lru_pop key (memory p2)) as [c o]. simplify_eq/=. unfold view in V2. rewrite V2.
  assert (in_memory (with_memory p2 c)) as Hm3 by done.
  destruct (backend_get_mem as_id (with_memory p2 c) key Hm3) as (q4 & S4 & V4 & G4). rewrite G4 in H4.
  unfold view in H4. simpl in H4. rewrite Hpw, lookup_delete_eq in H4. simplify_eq/=.
  unfold view in Hv. by rewrite Hv.
Qed.
End memory_pool.

#[export] Instance no_redis : RedisServer () := {
  redis_connect r := (r, Err (OtherError "no server"));
  redis_set_ex _ _ _ r := (r, Err (OtherError "no server"));
  redis_get _ r := (r, Err (OtherError "no server"));
  redis_del _ r := (r, Err (OtherError "no server"));
  redis_keys r := (r, Err (OtherError "no server"))
}.

(** ** Witnesses *)
Definition memory_fixture : Pool (ListCache RequestKey Stored) () := mkPool (mkConfig "redis://t:6379" 111 false) () (lru_new 2048).
Definition key_fixture : RequestKey := KBatchGuestInput (mkBatchGuestInputRequestKey 167 1 2).
Definition ent_fixture : RequestEntity :=
  EBatchGuestInput (mkBatchGuestInputRequestEntity 1 2 "taiko" "ethereum" [] ProofOfEquivalence).

Lemma memory_fixture_mem : in_memory memory_fixture.
Proof. reflexivity. Qed.
Lemma memory_fixture_empty k : request_at memory_fixture k = None.
Proof.
  unfold request_at, view. change (memory memory_fixture) with (lru_new (C := ListCache RequestKey Stored) 2048).
  by rewrite lru_new_view.
Qed.
Lemma memory_fixture_room : room memory_fixture.
Proof. unfold room. change (memory memory_fixture) with (lru_new (C := ListCache RequestKey Stored) 2048). rewrite lru_new_cap. lia. Qed.

Lemma pool_add_get_remove_witness :
  let '(p1, r1) := pool_add memory_fixture key_fixture ent_fixture (new_registered 5) in
  let '(p2, r2) := pool_get_status p1 key_fixture in
  let '(p3, r3) := pool_remove p2 key_fixture in
  r1 = Ok () /\ r2 = Ok (Some (new_registered 5)) /\ r3 = Ok 1%nat /\ request_at p3 key_fixture = None.
Proof.
  destruct (pool_add memory_fixture key_fixture ent_fixture (new_registered 5)) as [p1 r1] eqn:E1.
  destruct (pool_get_status p1 key_fixture) as [p2 r2] eqn:E2.
  destruct (pool_remove p2 key_fixture) as [p3 r3] eqn:E3.
  apply (pool_add_get_remove memory_fixture key_fixture ent_fixture (new_registered 5) p1 r1 p2 r2 p3 r3);
    [exact memory_fixture_mem|exact memory_fixture_room|exact E1|exact E2|exact E3].
Defined.

Lemma pool_update_status_spec_witness :
  (pool_update_status memory_fixture key_fixture (new_registered 5)).2 = Err "Request not found"%string.
Proof.
  pose proof (pool_update_status_spec memory_fixture key_fixture (new_registered 5)
    memory_fixture_mem memory_fixture_room) as H.
  destruct (pool_update_status memory_fixture key_fixture (new_registered 5)) as [p' r].
  rewrite memory_fixture_empty in H. exact (proj1 H).
Defined.

Lemma pool_list_spec_witness : exists m, (pool_list memory_fixture).2 = Ok m.
Proof. destruct (pool_list_spec memory_fixture memory_fixture_mem) as (m & H & _). exists m. exact H. Defined.

Lemma id_store_roundtrip_witness :
  exists p1 p2, store_id memory_fixture (167%Z, 1%Z, [], 1%Z) "req" = (p1, Ok ()) /\
    read_id p1 (167%Z, 1%Z, [], 1%Z) = (p2, Ok "req"%string).
Proof.
  destruct (store_id memory_fixture (167%Z, 1%Z, [], 1%Z) "req") as [p1 r1] eqn:E1.
  destruct (read_id p1 (167%Z, 1%Z, [], 1%Z)) as [p2 r2] eqn:E2.
  destruct (remove_id p2 (167%Z, 1%Z, [], 1%Z)) as [p3 r3] eqn:E3.
  destruct (read_id p3 (167%Z, 1%Z, [], 1%Z)) as [p4 r4] eqn:E4.
  destruct (id_store_roundtrip memory_fixture (167%Z, 1%Z, [], 1%Z) "req" p1 r1 p2 r2 p3 r3 p4 r4)
    as (H1 & H2 & _); [exact memory_fixture_mem|exact memory_fixture_room|simpl; lia|exact E1|exact E2|exact E3|exact E4|].
  exists p1, p2. subst r1 r2. split; [reflexivity|exact E2].
Defined.
