(* ===== verification/Ballot.v ===== *)
(** The ballot ([ballot/src/lib.rs], [ballot/src/poisson.rs]): a proof type is
    drawn from the block hash by cumulative probabilities, admitted at most once
    per interval, and remembered per block hash. Probabilities are IEEE 754
    binary64 numbers ([SpecFloat] with 53 bits of precision); the clock is an
    argument in nanoseconds. *)

From stdpp Require Import base list list_numbers gmap fin_maps strings sorting.
From Stdlib Require Import ZArith Lia SpecFloat.
From S2P Require Import Prelude Types Lru.
Open Scope Z_scope.

(** ** Binary64 *)
Definition f64 : Type := spec_float.
Definition f64_add : f64 -> f64 -> f64 := SFadd 53 1024.
Definition f64_mul : f64 -> f64 -> f64 := SFmul 53 1024.
Definition f64_div : f64 -> f64 -> f64 := SFdiv 53 1024.
Definition f64_of_Z (z : Z) : f64 := binary_normalize 53 1024 z 0 false.

Definition f64_zero : f64 := S754_zero false.
Definition f64_one : f64 := f64_of_Z 1.

(** [f64::round]: halfway cases away from zero. Large exponents are integers already. *)
Definition f64_round (x : f64) : f64 :=
  match x with
  | S754_finite s m e =>
      if 0 <=? e then x
      else
        let q := (2 * Z.pos m + 2 ^ (- e)) / 2 ^ (- e + 1) in
        binary_normalize 53 1024 (if s then - q else q) 0 s
  | _ => x
  end.

(** The saturating cast of a finite float to an unsigned or signed integer range. *)
Definition f64_to_int (lo hi : Z) (x : f64) : Z :=
  match x with
  | S754_zero _ | S754_nan => 0
  | S754_infinity s => if s then lo else hi
  | S754_finite s m e =>
      let v := if 0 <=? e then Z.pos m * 2 ^ e else Z.pos m / 2 ^ (- e) in
      Z.max lo (Z.min hi (if s then - v else v))
  end.

Definition u128_max : Z := 2 ^ 128 - 1.
Definition f64_as_u128 : f64 -> Z := f64_to_int 0 u128_max.
Definition f64_as_i64 : f64 -> Z := f64_to_int (- 2 ^ 63) (2 ^ 63 - 1).
(** [u128::MAX as f64] rounds to 2^128. *)
Definition u128_max_f64 : f64 := f64_of_Z u128_max.

(** ** The rate limit *)
Record PoissionDrawer := mkDrawer {
  per_day_limit : gmap ProofType Z;
  interval_secs : gmap ProofType Z;
  last_draw_time : gmap ProofType Z
}.

Definition ns_per_sec : Z := 10 ^ 9.

(** A [BTreeMap] keyed by proof type, listed in key order. *)
Definition BallotConfig : Type := list (ProofType * (f64 * Z)).

Definition interval_of (per_day : Z) : Z :=
  if per_day =? 0 then 0
  else f64_as_i64 (f64_round (f64_div (f64_mul (f64_of_Z 24) (f64_of_Z 3600)) (f64_of_Z per_day))).

Definition PoissionDrawer_new (now : Z) (config : BallotConfig) : PoissionDrawer :=
  foldl (fun d '(ptype, (_, per_day)) =>
    let interval := interval_of per_day in
    mkDrawer (<[ptype := per_day]> (per_day_limit d))
             (<[ptype := interval]> (interval_secs d))
             (<[ptype := now - interval * ns_per_sec]> (last_draw_time d)))
    (mkDrawer ∅ ∅ ∅) config.

Definition enabled (d : PoissionDrawer) (p : ProofType) : bool :=
  0 <? default 0 (per_day_limit d !! p).

(** [unwrap_or_default] of a missing draw time is the Unix epoch. *)
Definition poisson_freq_check (now : Z) (d : PoissionDrawer) (p : ProofType) : PoissionDrawer * bool :=
  if negb (enabled d p) then (d, true)
  else
    let last_time := default 0 (last_draw_time d !! p) in
    let delta := (now - last_time) ÷ ns_per_sec in
    if delta <=? 0 then (d, false)
    else
      match interval_secs d !! p with
      | None => (d, false)
      | Some interval =>
          let draw_result := interval <=? delta in
          (if draw_result
           then mkDrawer (per_day_limit d) (interval_secs d) (<[p := now]> (last_draw_time d))
           else d, draw_result)
      end.

(** ** The ballot *)
Section ballot.
Context {C : Type} `{LC : LruCache bytes (option ProofType) C}.

Definition CACHE_SIZE : nat := 8192.

Record Ballot := mkBallot {
  initial_config : BallotConfig;
  ballot_probabilities : list (ProofType * f64);
  poisson_drawer : PoissionDrawer;
  block_hash_cache : C
}.

(** [(0.0..=1.0).contains(&prob)]. *)
Definition in_unit (x : f64) : bool := SFleb f64_zero x && SFleb x f64_one.

Fixpoint validate_each (probs : list (ProofType * f64)) : outcome string () :=
  match probs with
  | [] => Ok ()
  | (_, prob) :: rest =>
      if negb (in_unit prob)
      then Err "Invalid probability value, must be between 0 and 1"%string
      else validate_each rest
  end.

Definition total_prob (probs : list (ProofType * f64)) : f64 :=
  foldl (fun acc '(_, p) => f64_add acc p) f64_zero probs.

Definition validate (b : Ballot) : outcome string () :=
  _ ← validate_each (ballot_probabilities b);
  if SFltb f64_one (total_prob (ballot_probabilities b))
  then Err "Total probability must be less than or equal to 1.0"%string
  else Ok ().

Definition Ballot_new (now : Z) (ballot_config : BallotConfig) : outcome string Ballot :=
  let ballot := mkBallot ballot_config (map (fun '(k, v) => (k, v.1)) ballot_config)
                  (PoissionDrawer_new now ballot_config) (lru_new CACHE_SIZE) in
  _ ← validate ballot;
  Ok ballot.

(** [u128::from_le_bytes]. *)
Fixpoint from_le_bytes (b : bytes) : Z :=
  match b with [] => 0 | x :: rest => x + 256 * from_le_bytes rest end.

Definition threshold (cumulative_prob : f64) : Z :=
  f64_as_u128 (f64_round (f64_mul cumulative_prob u128_max_f64)).

Fixpoint draw_loop (draw_seed : Z) (cumulative_prob : f64) (probs : list (ProofType * f64)) :
    option ProofType :=
  match probs with
  | [] => None
  | (proof_type, prob) :: rest =>
      let cumulative_prob := f64_add cumulative_prob prob in
      if draw_seed <? threshold cumulative_prob then Some proof_type
      else draw_loop draw_seed cumulative_prob rest
  end.

Definition draw (probs : list (ProofType * f64)) (block_hash : bytes) : option ProofType :=
  let draw_seed := from_le_bytes (take 16 (drop 16 block_hash)) in
  draw_loop draw_seed f64_zero probs.

Definition draw_with_poisson (now : Z) (b : Ballot) (block_hash : bytes) : Ballot * option ProofType :=
  let '(cache, hit) := lru_get block_hash (block_hash_cache b) in
  match hit with
  | Some res => (mkBallot (initial_config b) (ballot_probabilities b) (poisson_drawer b) cache, res)
  | None =>
      let '(d, res) :=
        match draw (ballot_probabilities b) block_hash with
        | Some ptype =>
            let '(d, ok) := poisson_freq_check now (poisson_drawer b) ptype in
            (d, if ok : bool then Some ptype else None)
        | None => (poisson_drawer b, None)
        end in
      (mkBallot (initial_config b) (ballot_probabilities b) d (lru_put block_hash res cache), res)
  end.

Definition is_ballot_disabled (b : Ballot) : bool :=
  match initial_config b with [] => true | _ => false end.
End ballot.
Arguments Ballot C : clear implicits.

(** ** The rate limit admits at most one draw per interval *)

(** The clock times at which a sequence of checks is admitted. *)
Fixpoint admitted (p : ProofType) (d : PoissionDrawer) (times : list Z) : list Z :=
  match times with
  | [] => []
  | now :: rest =>
      let '(d', ok) := poisson_freq_check now d p in
      if ok then now :: admitted p d' rest else admitted p d' rest
  end.

(** Consecutive admissions are at least [gap] apart, starting from [last]. *)
Fixpoint spaced (gap last : Z) (l : list Z) : Prop :=
  match l with [] => True | t :: l' => last + gap <= t /\ spaced gap t l' end.

Lemma freq_check_spec now d p interval :
  enabled d p = true -> interval_secs d !! p = Some interval ->
  let '(d', ok) := poisson_freq_check now d p in
  enabled d' p = true /\ interval_secs d' !! p = Some interval /\
  (ok = true -> default 0 (last_draw_time d !! p) + Z.max 1 interval * ns_per_sec <= now /\
                default 0 (last_draw_time d' !! p) = now) /\
  (ok = false -> d' = d).
Proof.
  intros He Hi. unfold poisson_freq_check. rewrite He. cbn [negb].
  destruct (_ <=? 0) eqn:Ed; breflect; [done|]. rewrite Hi.
  destruct (interval <=? _) eqn:El; breflect; [|done]. split_and!; auto; [|done].
  intros _. simpl. rewrite lookup_insert_eq. split; [|done].
  set (last := default 0 _) in *.
  assert (Hq : 0 < (now - last) ÷ ns_per_sec) by done.
  assert (0 <= now - last) as Hnn.
  { destruct (Z.le_gt_cases 0 (now - last)) as [|Hneg]; [done|].
    pose proof (Z.quot_opp_l (- (now - last)) ns_per_sec ltac:(done)) as Ho.
    rewrite Z.opp_involutive in Ho. pose proof (Z.quot_pos (- (now - last)) ns_per_sec ltac:(lia) ltac:(done)). lia. }
  rewrite Z.quot_div_nonneg in * by done.
  pose proof (Z.mul_div_le (now - last) ns_per_sec ltac:(done)).
  assert (Z.max 1 interval <= (now - last) / ns_per_sec) by lia. unfold ns_per_sec in *. nia.
Qed.

Lemma admitted_spaced p d times interval :
  enabled d p = true -> interval_secs d !! p = Some interval ->
  spaced (Z.max 1 interval * ns_per_sec) (default 0 (last_draw_time d !! p)) (admitted p d times).
Proof.
  revert d. induction times as [|now times IH]; intros d He Hi; simpl; [done|].
  pose proof (freq_check_spec now d p interval He Hi) as Hs.
  destruct (poisson_freq_check now d p) as [d' ok]. destruct Hs as (He' & Hi' & Hok & Hno).
  destruct ok.
  - destruct (Hok eq_refl) as [Hle Hl]. simpl. split; [done|]. rewrite <- Hl. auto.
  - rewrite (Hno eq_refl). auto.
Qed.

Lemma spaced_count gap last l bound :
  0 < gap -> spaced gap last l -> Forall (fun t => t <= bound) l ->
  (l = [] \/ Z.of_nat (length l) * gap <= bound - last).
Proof.
  intros Hg. revert last. induction l as [|t l IH]; intros last Hs Hb; [by left|right].
  destruct Hs as [Hle Hs]. inversion Hb; subst. destruct (IH t Hs) as [->|Hl]; auto; simpl length; lia.
Qed.

(** ** Properties *)

(** For an enabled proof type the admitted draws are spaced by at least the
    interval (and by a full second), whatever the sequence of clock readings, so
    the number of draws admitted up to a time is bounded by the elapsed time
    over the interval. *)
Theorem poisson_rate_limit p d interval times bound :
  enabled d p = true -> interval_secs d !! p = Some interval ->
  Forall (fun t => t <= bound) times ->
  let last := default 0 (last_draw_time d !! p) in
  let gap := Z.max 1 interval * ns_per_sec in
  spaced gap last (admitted p d times) /\
  Z.of_nat (length (admitted p d times)) * gap <= Z.max 0 (bound - last).
Proof.
  intros He Hi Hb last gap. pose proof (admitted_spaced p d times interval He Hi) as Hs.
  split; [done|].
  assert (Forall (fun t => t <= bound) (admitted p d times)) as Hall.
  { clear Hs He Hi last gap. revert d. induction Hb as [|t times Ht _ IH]; intros d; simpl; [constructor|].
    destruct (poisson_freq_check t d p) as [d' ok]. destruct ok; [by constructor|done]. }
  destruct (spaced_count gap last _ bound ltac:(unfold gap, ns_per_sec; lia) Hs Hall) as [->|Hl]; simpl; lia.
Qed.

(** the ballot is replayable: drawing again for a block hash returns the
    same proof type at any later time, because the result is remembered. *)
Theorem draw_replay {C} `{LC : LruCache bytes (option ProofType) C} `{LL : !LruLaws bytes (option ProofType) C}
    now now' (b b' : Ballot C) h res :
  (0 < lru_cap (block_hash_cache b))%nat ->
  draw_with_poisson now b h = (b', res) -> (draw_with_poisson now' b' h).2 = res.
Proof.
  intros Hcap Hd.
  assert (lru_view (block_hash_cache b') !! h = Some res) as Hv.
  { unfold draw_with_poisson in Hd.
    pose proof (lru_get_view h (block_hash_cache b)) as Hgv. pose proof (lru_get_value h (block_hash_cache b)) as Hgo.
    pose proof (lru_get_cap h (block_hash_cache b)) as Hgc.
    destruct (lru_get h (block_hash_cache b)) as [cache hit]. simpl in *. destruct hit as [r|]; simplify_eq/=.
    - by rewrite Hgv.
    - destruct (match draw (ballot_probabilities b) h with Some ptype => _ | None => _ end) as [d r].
      simplify_eq/=. apply lru_put_same. lia. }
  unfold draw_with_poisson. pose proof (lru_get_value h (block_hash_cache b')) as Ho.
  destruct (lru_get h (block_hash_cache b')) as [cache hit]. simpl in Ho. rewrite Hv in Ho. by subst.
Qed.

Lemma validate_each_ok probs :
  validate_each probs = Ok () <-> Forall (fun x => in_unit x.2 = true) probs.
Proof.
  induction probs as [|[p x] probs IH]; simpl; [by split|].
  rewrite Forall_cons. simpl. destruct (in_unit x); simpl; [rewrite IH; tauto|].
  split; [done|by intros [? _]].
Qed.

(** A ballot is accepted exactly when every probability lies between 0 and
    1 and their floating point sum does not exceed 1; the accepted ballot starts
    with an empty cache and the configured probabilities. *)
Theorem ballot_new_accepts {C} `{LC : LruCache bytes (option ProofType) C} now config (b : Ballot C) :
  Ballot_new now config = Ok b <->
  Forall (fun x => in_unit x.2.1 = true) config /\
  SFltb f64_one (total_prob (map (fun '(k, v) => (k, v.1)) config)) = false /\
  b = mkBallot config (map (fun '(k, v) => (k, v.1)) config) (PoissionDrawer_new now config) (lru_new CACHE_SIZE).
Proof.
  unfold Ballot_new, validate. simpl. set (probs := map _ config).
  assert (Hp : validate_each probs = Ok () <-> Forall (fun x => in_unit x.2.1 = true) config).
  { rewrite validate_each_ok. unfold probs. rewrite Forall_map. split; intros H; eapply Forall_impl; try exact H; by intros [? ?]. }
  destruct (validate_each probs) as [[]|e|]; simpl.
  - destruct (SFltb f64_one (total_prob probs)); simpl.
    + split; [done|]. by intros (_ & ? & _).
    + split; [intros [= <-]|by intros (_ & _ & ->)]. split_and!; auto. by apply Hp.
  - split; [done|]. intros (H & _). by apply Hp in H.
  - split; [done|]. intros (H & _). by apply Hp in H.
Qed.

(** A ballot with a single proof type of probability one draws it for every
    block hash except those whose last sixteen bytes are all 255: the threshold
    saturates at the largest 128-bit integer, which the seed must stay below. *)
Theorem certain_draw_misses_one p h :
  length h = 32%nat -> Forall (fun b => 0 <= b < 256) h ->
  draw [(p, f64_one)] h = if decide (drop 16 h = replicate 16 255) then None else Some p.
Proof.
  intros Hl Hb. unfold draw. cbn [draw_loop].
  replace (threshold (f64_add f64_zero f64_one)) with (2 ^ 128 - 1) by (vm_compute; reflexivity).
  assert (Hle : forall l n, length l = n -> Forall (fun b => 0 <= b < 256) l ->
    0 <= from_le_bytes l < 256 ^ Z.of_nat n /\ (from_le_bytes l = 256 ^ Z.of_nat n - 1 -> l = replicate n 255)).
  { intros l n <- Hl'. induction Hl' as [|x l Hx _ [IH1 IH2]]; [by split|].
    cbn [from_le_bytes length]. rewrite Nat2Z.inj_succ, Z.pow_succ_r by lia.
    split; [lia|]. intros Heq. simpl. f_equal; [|apply IH2]; lia. }
  assert (Htl : length (take 16 (drop 16 h)) = 16%nat) by (rewrite length_take, length_drop; lia).
  assert (Hd : take 16 (drop 16 h) = drop 16 h) by (apply take_ge; rewrite length_drop; lia).
  rewrite Hd in *. destruct (Hle (drop 16 h) 16%nat Htl (Forall_drop _ _ _ Hb)) as [Hr Hmax].
  change (256 ^ Z.of_nat 16) with (2 ^ 128) in *.
  case_decide as He.
  - rewrite He. reflexivity.
  - destruct (_ <? _) eqn:El; [done|]. breflect. exfalso. apply He, Hmax. lia.
Qed.

(** ** Witnesses *)
Definition drawer_fixture : PoissionDrawer := PoissionDrawer_new 0 [(Sp1, (f64_one, 24))].

Lemma poisson_rate_limit_witness :
  Z.of_nat (length (admitted Sp1 drawer_fixture [5 * ns_per_sec; 10 * ns_per_sec; 4000 * ns_per_sec]))
    * (3600 * ns_per_sec) <= 7600 * ns_per_sec.
Proof.
  destruct (poisson_rate_limit Sp1 drawer_fixture 3600
    [5 * ns_per_sec; 10 * ns_per_sec; 4000 * ns_per_sec] (4000 * ns_per_sec)) as [_ H];
    [vm_compute; reflexivity|vm_compute; reflexivity|repeat constructor; unfold ns_per_sec; lia|].
  exact H.
Defined.

Definition ballot_fixture : Ballot (ListCache bytes (option ProofType)) :=
  mkBallot [(Sp1, (f64_one, 24))] [(Sp1, f64_one)] drawer_fixture (lru_new 8).

Lemma ballot_fixture_room : (0 < lru_cap (block_hash_cache ballot_fixture))%nat.
Proof.
  change (block_hash_cache ballot_fixture) with (lru_new (C := ListCache bytes (option ProofType)) 8).
  rewrite lru_new_cap. lia.
Qed.

Lemma draw_replay_witness :
  let '(b', res) := draw_with_poisson 7 ballot_fixture (replicate 32 1) in
  (draw_with_poisson 8 b' (replicate 32 1)).2 = res.
Proof.
  destruct (draw_with_poisson 7 ballot_fixture (replicate 32 1)) as [b' res] eqn:E.
  apply (draw_replay 7 8 ballot_fixture b' (replicate 32 1) res); [exact ballot_fixture_room|exact E].
Defined.

Lemma certain_draw_misses_one_witness : draw [(Sp1, f64_one)] (replicate 32 255) = None.
Proof.
  rewrite certain_draw_misses_one; [reflexivity|reflexivity|].
  repeat constructor; lia.
Defined.
