(* ===== verification/ChainSpec.v ===== *)
(** Chain specifications ([lib/src/consts.rs]): supported networks, fork
    activation, the active specification of a block and the verifier address of
    a proof type. Specification ids are the ordered identifiers of the EVM crate,
    kept as integers; ordered maps are lists in ascending key order. *)

From stdpp Require Import base list list_numbers gmap fin_maps strings sorting.
From Stdlib Require Import ZArith Lia.
From S2P Require Import Prelude Types.
Open Scope Z_scope.

Inductive ForkCondition : Type :=
| Block (block : Z)
| Timestamp (ts : Z)
| TBD.

Definition active (f : ForkCondition) (block_no timestamp : Z) : bool :=
  match f with
  | Block block => block <=? block_no
  | Timestamp ts => ts <=? timestamp
  | TBD => false
  end.

Record Eip1559Constants := mkEip1559 {
  base_fee_change_denominator : Z;
  base_fee_max_increase_denominator : Z;
  base_fee_max_decrease_denominator : Z;
  elasticity_multiplier : Z
}.
Definition Eip1559Constants_default : Eip1559Constants := mkEip1559 8 8 8 2.

#[global] Instance ForkCondition_eq_dec : EqDecision ForkCondition.
Proof. solve_decision. Defined.
#[global] Instance Eip1559Constants_eq_dec : EqDecision Eip1559Constants.
Proof. solve_decision. Defined.

Record ChainSpec := mkChainSpec {
  name : string;
  chain_id : Z;
  max_spec_id : Z;
  hard_forks : list (Z * ForkCondition);
  eip_1559_constants : Eip1559Constants;
  l1_contract : option bytes;
  l2_contract : option bytes;
  rpc : string;
  beacon_rpc : option string;
  verifier_address_forks : gmap Z (gmap ProofType (option bytes));
  genesis_time : Z;
  seconds_per_slot : Z;
  is_taiko : bool
}.

Definition new_single (name : string) (chain_id spec_id : Z) (eip : Eip1559Constants) (is_taiko : bool) :
    ChainSpec :=
  mkChainSpec name chain_id spec_id [(spec_id, Block 0)] eip None None "" None ∅ 0 1 is_taiko.

(** [for (spec_id, fork) in self.hard_forks.iter().rev()]. *)
Fixpoint first_active (forks : list (Z * ForkCondition)) (block_no timestamp : Z) : option Z :=
  match forks with
  | [] => None
  | (spec_id, fork) :: rest =>
      if active fork block_no timestamp then Some spec_id else first_active rest block_no timestamp
  end.

Definition spec_id (c : ChainSpec) (block_no timestamp : Z) : option Z :=
  first_active (reverse (hard_forks c)) block_no timestamp.

Definition active_fork (c : ChainSpec) (block_no timestamp : Z) : outcome string Z :=
  match spec_id c block_no timestamp with
  | Some spec_id =>
      if max_spec_id c <? spec_id then Err "expected <= max_spec_id"%string else Ok spec_id
  | None => Err "no supported fork for block"%string
  end.

Fixpoint fork_verifier (forks : list (Z * ForkCondition))
    (verifiers : gmap Z (gmap ProofType (option bytes))) (block_num : Z) (proof_type : ProofType) :
    outcome string bytes :=
  match forks with
  | [] => Err "fork verifier is not active"%string
  | (spec_id, fork) :: rest =>
      if active fork block_num 0 then
        match verifiers !! spec_id with
        | Some fork_verifier =>
            match fork_verifier !! proof_type with
            | None => Err "Verifier type not found"%string
            | Some None => Err "Verifier address not found"%string
            | Some (Some address) => Ok address
            end
        | None => fork_verifier rest verifiers block_num proof_type
        end
      else fork_verifier rest verifiers block_num proof_type
  end.

Definition get_fork_verifier_address (c : ChainSpec) (block_num : Z) (proof_type : ProofType) :
    outcome string bytes :=
  fork_verifier (reverse (hard_forks c)) (verifier_address_forks c) block_num proof_type.

(** ** Supported networks *)
Abbreviation SupportedChainSpecs := (gmap string ChainSpec).

Definition specs_of_list (l : list ChainSpec) : SupportedChainSpecs :=
  foldl (fun m cs => <[name cs := cs]> m) ∅ l.

(** [merge_from_file] with the parsed default list and the parsed file:
    [HashMap::extend] overrides known specs. *)
Definition merge_specs (known new : list ChainSpec) : SupportedChainSpecs :=
  specs_of_list new ∪ specs_of_list known.

Definition get_chain_spec (specs : SupportedChainSpecs) (network : string) : option ChainSpec :=
  specs !! network.

(** [values().find(..)] over some iteration order of the map. *)
Definition get_chain_spec_with_chain_id (specs : SupportedChainSpecs) (id : Z) : option ChainSpec :=
  head (filter (fun cs => chain_id cs = id) (map_to_list specs).*2).

(** [Network] and its display form. *)
Inductive Network : Type := Ethereum | Holesky | TaikoA7 | TaikoMainnet.
Definition network_to_string (n : Network) : string :=
  match n with
  | Ethereum => "ethereum" | Holesky => "holesky" | TaikoA7 => "taiko_a7" | TaikoMainnet => "taiko_mainnet"
  end%string.

(** ** The active fork *)

(** The forks are listed in ascending order of their ids, as a [BTreeMap] iterates. *)
Definition sorted_forks (c : ChainSpec) : Prop := StronglySorted Z.lt (hard_forks c).*1.

Lemma first_active_app l x b t :
  first_active (x :: l) b t = if active x.2 b t then Some x.1 else first_active l b t.
Proof. by destruct x. Qed.

Lemma StronglySorted_app_one l (x : Z) :
  StronglySorted Z.lt (l ++ [x]) -> StronglySorted Z.lt l /\ Forall (fun y => y < x) l.
Proof.
  induction l as [|a l IH]; simpl; intros Hs; [split; constructor|].
  inversion Hs as [|? ? Hs' Hall]; subst. destruct (IH Hs'). split; [constructor; auto|constructor; auto].
  - apply Forall_app in Hall as [? _]. done.
  - apply Forall_app in Hall as [_ Hx]. by inversion Hx.
Qed.

Lemma first_active_spec l b t :
  StronglySorted Z.lt l.*1 ->
  match first_active (reverse l) b t with
  | Some s => (exists f, (s, f) ∈ l /\ active f b t = true) /\
              forall s' f', (s', f') ∈ l -> active f' b t = true -> s' <= s
  | None => forall s' f', (s', f') ∈ l -> active f' b t = false
  end.
Proof.
  induction l as [|[s f] l IH] using rev_ind; intros Hs.
  - simpl. intros s' f' Hin. by apply elem_of_nil in Hin.
  - rewrite fmap_app in Hs. apply StronglySorted_app_one in Hs as [Hs Hall]. simpl in Hall.
    rewrite reverse_app. change (reverse [(s, f)] ++ reverse l) with ((s, f) :: reverse l).
    rewrite first_active_app. simpl. destruct (active f b t) eqn:Ef.
    + split; [exists f; split; [apply elem_of_app; right; by left|done]|].
      intros s' f' Hin Ha. apply elem_of_app in Hin as [Hin|Hin%list_elem_of_singleton]; [|simplify_eq; lia].
      rewrite Forall_forall in Hall. assert (s' ∈ l.*1) as Hm by (apply list_elem_of_fmap; by exists (s', f')).
      specialize (Hall _ Hm). lia.
    + specialize (IH Hs). destruct (first_active (reverse l) b t) as [s0|].
      * destruct IH as [(f0 & Hin & Ha) Hmax]. split; [exists f0; split; [apply elem_of_app; by left|done]|].
        intros s' f' Hin' Ha'. apply elem_of_app in Hin' as [Hin'|Hin'%list_elem_of_singleton]; [eauto|].
        simplify_eq. congruence.
      * intros s' f' Hin. apply elem_of_app in Hin as [Hin|Hin%list_elem_of_singleton]; [eauto|by simplify_eq].
Qed.

Lemma active_mono f b t b' t' : b <= b' -> t <= t' -> active f b t = true -> active f b' t' = true.
Proof. destruct f; simpl; intros; breflect; rewrite ?Z.leb_le; lia || done. Qed.

(** The specification of a block is the highest fork that is active at its
    number and timestamp, there is none exactly when no fork is active, and it
    never decreases as blocks and timestamps advance. *)
Theorem spec_id_highest c b t :
  sorted_forks c ->
  match spec_id c b t with
  | Some s => (exists f, (s, f) ∈ hard_forks c /\ active f b t = true) /\
              forall s' f', (s', f') ∈ hard_forks c -> active f' b t = true -> s' <= s
  | None => forall s' f', (s', f') ∈ hard_forks c -> active f' b t = false
  end /\
  (forall b' t' s, b <= b' -> t <= t' -> spec_id c b t = Some s ->
     exists s', spec_id c b' t' = Some s' /\ s <= s').
Proof.
  intros Hs. pose proof (first_active_spec (hard_forks c) b t Hs) as H1. unfold spec_id. split; [done|].
  intros b' t' s Hb Ht He. rewrite He in H1. destruct H1 as [(f & Hin & Ha) _].
  pose proof (first_active_spec (hard_forks c) b' t' Hs) as H2.
  pose proof (active_mono f b t b' t' Hb Ht Ha) as Ha'.
  destruct (first_active (reverse (hard_forks c)) b' t') as [s'|].
  - exists s'. split; [done|]. destruct H2 as [_ Hmax]. eauto.
  - by rewrite (H2 s f Hin) in Ha'.
Qed.

(** [active_fork] succeeds exactly with the active specification when it is
    not above the maximum of the chain, and the verifier of a block is looked up
    among forks active by block number only: a fork that activates at a positive
    timestamp never provides it. *)
Theorem fork_verifier_ignores_timestamps c b p :
  (forall t s, active_fork c b t = Ok s <-> spec_id c b t = Some s /\ s <= max_spec_id c) /\
  (forall a, get_fork_verifier_address c b p = Ok a ->
     exists s f m, (s, f) ∈ hard_forks c /\ verifier_address_forks c !! s = Some m /\
       m !! p = Some (Some a) /\ (forall ts, 0 < ts -> f <> Timestamp ts)).
Proof.
  split.
  - intros t s. unfold active_fork. destruct (spec_id c b t) as [s0|]; [|split; [done|by intros [? _]]].
    destruct (_ <? _) eqn:E; breflect; (split; [intros; simplify_eq|intros [? ?]; simplify_eq]); try done; try lia.
  - intros a. unfold get_fork_verifier_address.
    assert (Hin : forall x, x ∈ reverse (hard_forks c) -> x ∈ hard_forks c) by (intros x; by rewrite elem_of_reverse).
    induction (reverse (hard_forks c)) as [|[s f] l IH]; simpl; [done|].
    assert (Hl : forall x, x ∈ l -> x ∈ hard_forks c) by (intros x Hx; apply Hin; by right).
    destruct (active f b 0) eqn:Ea; [|auto]. destruct (verifier_address_forks c !! s) as [m|] eqn:Em; [|auto].
    destruct (m !! p) as [[a'|]|] eqn:Ep; try done. intros [= ->]. exists s, f, m. split_and!; auto.
    + apply Hin. by left.
    + intros ts Hts ->. simpl in Ea. breflect. lia.
Qed.

(** Merging a chain specification file overrides the known networks of the
    same name and keeps the others. *)
Lemma merge_overrides known new network :
  get_chain_spec (merge_specs known new) network =
  match get_chain_spec (specs_of_list new) network with
  | Some cs => Some cs
  | None => get_chain_spec (specs_of_list known) network
  end.
Proof. unfold get_chain_spec, merge_specs. rewrite lookup_union. by destruct (specs_of_list new !! network), (specs_of_list known !! network). Qed.

(** ** Witnesses *)
Definition taiko_mainnet : ChainSpec :=
  mkChainSpec "taiko_mainnet" 167000 3 [(1, Block 0); (2, Block 538304); (3, Block 1166000); (9, TBD)]
    Eip1559Constants_default None None "" None ∅ 0 1 true.

Lemma spec_id_highest_witness :
  exists s', spec_id taiko_mainnet 1166000 0 = Some s' /\ 2 <= s'.
Proof.
  assert (sorted_forks taiko_mainnet) as Hs by (repeat constructor; simpl; lia).
  destruct (spec_id_highest taiko_mainnet 538304 0 Hs) as [_ H].
  exact (H 1166000 0 2 ltac:(lia) ltac:(lia) eq_refl).
Defined.
