(* ===== verification/Input.v ===== *)
(** The input of a guest program ([lib/src/input.rs]) and the events of the
    Taiko protocol it carries ([lib/src/input/hekla.rs], [ontake.rs],
    [pacaya.rs]). Hashes, addresses and byte strings are lists of bytes; the
    integers of the Solidity structs are kept as integers. The header, block and
    transaction types come from the Ethereum client library: the header is a
    record of its fields, and a transaction is a parameter. *)

From stdpp Require Import base list list_numbers gmap fin_maps strings.
From Stdlib Require Import ZArith Lia.
From S2P Require Import Prelude Types ChainSpec Mpt.
Open Scope Z_scope.

(** ** Library types *)
Definition B256_default : bytes := replicate 32 0.
Definition Address_default : bytes := replicate 20 0.

Record Header := mkHeader {
  parent_hash : bytes;
  ommers_hash : bytes;
  beneficiary : bytes;
  state_root : bytes;
  transactions_root : bytes;
  receipts_root : bytes;
  withdrawals_root : option bytes;
  logs_bloom : bytes;
  difficulty : Z;
  number : Z;
  gas_limit : Z;
  gas_used : Z;
  timestamp : Z;
  mix_hash : bytes;
  nonce : Z;
  base_fee_per_gas : option Z;
  extra_data : bytes
}.
#[global] Instance Header_eq_dec : EqDecision Header.
Proof. solve_decision. Defined.

Record EthBlock (Tx : Type) := mkBlock {
  block_header : Header;
  body : list Tx;
  ommers : list Header
}.
Arguments mkBlock {Tx} _ _ _.
Arguments block_header {Tx} _.
Arguments body {Tx} _.
Arguments ommers {Tx} _.

(** ** The Hekla fork *)
Record EthDeposit := mkEthDeposit { dep_recipient : bytes; dep_amount : Z; dep_id : Z }.

Record BlockMetadata := mkBlockMetadata {
  bm_l1Hash : bytes;
  bm_difficulty : bytes;
  bm_blobHash : bytes;
  bm_extraData : bytes;
  bm_depositsHash : bytes;
  bm_coinbase : bytes;
  bm_id : Z;
  bm_gasLimit : Z;
  bm_timestamp : Z;
  bm_l1Height : Z;
  bm_minTier : Z;
  bm_blobUsed : bool;
  bm_parentMetaHash : bytes;
  bm_sender : bytes
}.

Record Transition := mkTransition {
  tr_parentHash : bytes;
  tr_blockHash : bytes;
  tr_stateRoot : bytes;
  tr_graffiti : bytes
}.

Record BlockProposed := mkBlockProposed {
  bp_blockId : Z;
  bp_assignedProver : bytes;
  bp_livenessBond : Z;
  bp_meta : BlockMetadata;
  bp_depositsProcessed : list EthDeposit
}.

(** ** The Ontake fork *)
Record OntakeBaseFeeConfig := mkOntakeBaseFeeConfig {
  obf_adjustmentQuotient : Z;
  obf_sharingPctg : Z;
  obf_gasIssuancePerSecond : Z;
  obf_minGasExcess : Z;
  obf_maxGasIssuancePerBlock : Z
}.

Record BlockMetadataV2 := mkBlockMetadataV2 {
  m2_anchorBlockHash : bytes;
  m2_difficulty : bytes;
  m2_blobHash : bytes;
  m2_extraData : bytes;
  m2_coinbase : bytes;
  m2_id : Z;
  m2_gasLimit : Z;
  m2_timestamp : Z;
  m2_anchorBlockId : Z;
  m2_minTier : Z;
  m2_blobUsed : bool;
  m2_parentMetaHash : bytes;
  m2_proposer : bytes;
  m2_livenessBond : Z;
  m2_proposedAt : Z;
  m2_proposedIn : Z;
  m2_blobTxListOffset : Z;
  m2_blobTxListLength : Z;
  m2_blobIndex : Z;
  m2_baseFeeConfig : OntakeBaseFeeConfig
}.

Record BlockProposedV2 := mkBlockProposedV2 { bp2_blockId : Z; bp2_meta : BlockMetadataV2 }.

(** ** The Pacaya fork *)
Record BaseFeeConfig := mkBaseFeeConfig {
  bf_adjustmentQuotient : Z;
  bf_sharingPctg : Z;
  bf_gasIssuancePerSecond : Z;
  bf_minGasExcess : Z;
  bf_maxGasIssuancePerBlock : Z
}.

Record BlockParams := mkBlockParams {
  numTransactions : Z;
  timeShift : Z;
  signalSlots : list bytes
}.

Record BatchInfo := mkBatchInfo {
  txsHash : bytes;
  blocks : list BlockParams;
  blobHashes : list bytes;
  extraData : bytes;
  coinbase : bytes;
  proposedIn : Z;
  blobCreatedIn : Z;
  blobByteOffset : Z;
  blobByteSize : Z;
  gasLimit : Z;
  lastBlockId : Z;
  lastBlockTimestamp : Z;
  anchorBlockId : Z;
  anchorBlockHash : bytes;
  baseFeeConfig : BaseFeeConfig
}.

Record BatchMetadata := mkBatchMetadata {
  infoHash : bytes;
  proposer : bytes;
  batchId : Z;
  proposedAt : Z
}.

Record PacayaTransition := mkPacayaTransition {
  pt_parentHash : bytes;
  pt_blockHash : bytes;
  pt_stateRoot : bytes
}.

Record BatchProposed := mkBatchProposed {
  info : BatchInfo;
  meta : BatchMetadata;
  txList : bytes
}.

(** ** The proposal of a block or a batch *)
Inductive BlockProposedFork : Type :=
| Nothing
| Hekla (block : BlockProposed)
| Ontake (block : BlockProposedV2)
| Pacaya (batch : BatchProposed).

Definition blob_used (p : BlockProposedFork) : bool :=
  match p with
  | Hekla block => bm_blobUsed (bp_meta block)
  | Ontake block => m2_blobUsed (bp2_meta block)
  | Pacaya batch => (0 <? length (blobHashes (info batch)))%nat
  | Nothing => false
  end.

(** The subtraction and addition of [u64] wrap. *)
Definition block_number (p : BlockProposedFork) : Z :=
  match p with
  | Hekla block => bm_id (bp_meta block)
  | Ontake block => m2_id (bp2_meta block)
  | Pacaya batch =>
      wrap64 (wrap64 (lastBlockId (info batch) - Z.of_nat (length (blocks (info batch)))) + 1)
  | Nothing => 0
  end.

Definition block_timestamp (p : BlockProposedFork) : Z :=
  match p with
  | Hekla block => bm_timestamp (bp_meta block)
  | Ontake block => m2_timestamp (bp2_meta block)
  | Pacaya _ => 0
  | Nothing => 0
  end.

(** [ProtocolBaseFeeConfig] of the EVM library. *)
Record ProtocolBaseFeeConfig := mkProtocolBaseFeeConfig {
  adjustment_quotient : Z;
  sharing_pctg : Z;
  gas_issuance_per_second : Z;
  min_gas_excess : Z;
  max_gas_issuance_per_block : Z
}.

Definition base_fee_config (p : BlockProposedFork) : ProtocolBaseFeeConfig :=
  match p with
  | Ontake block =>
      let c := m2_baseFeeConfig (bp2_meta block) in
      mkProtocolBaseFeeConfig (obf_adjustmentQuotient c) (obf_sharingPctg c)
        (obf_gasIssuancePerSecond c) (obf_minGasExcess c) (obf_maxGasIssuancePerBlock c)
  | Pacaya batch =>
      let c := baseFeeConfig (info batch) in
      mkProtocolBaseFeeConfig (bf_adjustmentQuotient c) (bf_sharingPctg c)
        (bf_gasIssuancePerSecond c) (bf_minGasExcess c) (bf_maxGasIssuancePerBlock c)
  | _ => mkProtocolBaseFeeConfig 0 0 0 0 0
  end.

Definition blob_tx_slice_param (p : BlockProposedFork) : option (Z * Z) :=
  match p with
  | Ontake block =>
      Some (m2_blobTxListOffset (bp2_meta block), m2_blobTxListLength (bp2_meta block))
  | Pacaya batch => Some (blobByteOffset (info batch), blobByteSize (info batch))
  | _ => None
  end.

Definition blob_hash (p : BlockProposedFork) : bytes :=
  match p with
  | Hekla block => bm_blobHash (bp_meta block)
  | Ontake block => m2_blobHash (bp2_meta block)
  | _ => B256_default
  end.

Definition blob_hashes (p : BlockProposedFork) : list bytes :=
  match p with Pacaya batch => blobHashes (info batch) | _ => [] end.

Definition batch_info (p : BlockProposedFork) : option BatchInfo :=
  match p with Pacaya batch => Some (info batch) | _ => None end.

(** The gas limits of the anchor transaction are constants of the EVM library. *)
Definition gas_limit_with_anchor (ANCHOR_GAS_LIMIT ANCHOR_V3_GAS_LIMIT : Z) (p : BlockProposedFork) : Z :=
  match p with
  | Hekla block => wrap64 (bm_gasLimit (bp_meta block) + ANCHOR_GAS_LIMIT)
  | Ontake block => wrap64 (m2_gasLimit (bp2_meta block) + ANCHOR_GAS_LIMIT)
  | Pacaya batch => wrap64 (gasLimit (info batch) + ANCHOR_V3_GAS_LIMIT)
  | Nothing => 0
  end.

(** ** Guest inputs *)
Record TaikoProverData := mkTaikoProverData { prover : bytes; graffiti : bytes }.

(** The storage trie of an account with its used slots. *)
Definition StorageEntry : Type := MptNode * list Z.

Section inputs.
Context {Tx : Type}.

Record TaikoGuestInput := mkTaikoGuestInput {
  l1_header : Header;
  tx_data : bytes;
  anchor_tx : option Tx;
  block_proposed : BlockProposedFork;
  prover_data : TaikoProverData;
  blob_commitment : option bytes;
  blob_proof : option bytes;
  blob_proof_type : BlobProofType
}.

Record GuestInput := mkGuestInput {
  block : EthBlock Tx;
  chain_spec : ChainSpec;
  parent_header : Header;
  parent_state_trie : MptNode;
  parent_storage : gmap bytes StorageEntry;
  contracts : list bytes;
  ancestor_headers : list Header;
  taiko : TaikoGuestInput
}.
End inputs.
Arguments TaikoGuestInput : clear implicits.
Arguments GuestInput : clear implicits.

Record TaikoGuestBatchInput := mkTaikoGuestBatchInput {
  batch_id : Z;
  batch_l1_header : Header;
  batch_proposed : BlockProposedFork;
  batch_chain_spec : ChainSpec;
  batch_prover_data : TaikoProverData;
  tx_data_from_calldata : bytes;
  tx_data_from_blob : list bytes;
  blob_commitments : option (list bytes);
  blob_proofs : option (list bytes);
  batch_blob_proof_type : BlobProofType
}.

Record GuestBatchInput (Tx : Type) := mkGuestBatchInput {
  inputs : list (GuestInput Tx);
  batch_taiko : TaikoGuestBatchInput
}.
Arguments mkGuestBatchInput {Tx} _ _.
Arguments inputs {Tx} _.
Arguments batch_taiko {Tx} _.

(** A proof with the public input it is for, and the output of an aggregation. *)
Record RawProof := mkRawProof { raw_proof : bytes; raw_input : bytes }.
Record RawAggregationGuestInput := mkRawAggregationGuestInput { raw_proofs : list RawProof }.

(** ** Batches *)

(** A well-formed batch ends at a block id in the range of [u64] and does not
    start below block 0. *)
Definition batch_range_ok (b : BatchInfo) : bool :=
  (0 <? length (blocks b))%nat && (Z.of_nat (length (blocks b)) <=? lastBlockId b + 1)
  && (lastBlockId b <? 2 ^ 64).

Lemma block_number_pacaya b :
  batch_range_ok (info b) = true ->
  block_number (Pacaya b) = lastBlockId (info b) - Z.of_nat (length (blocks (info b))) + 1.
Proof.
  unfold batch_range_ok. simpl. intros H. breflect. unfold wrap64, wrap.
  rewrite Zplus_mod_idemp_l. apply Z.mod_small. lia.
Qed.
