(* ===== verification/Blob.v ===== *)
(** Transactions from call data and blobs ([lib/src/utils.rs]): the blob
    encoding of the rollup, the limits on compressed data, and the distribution
    of a batch's transactions to its blocks. The compression and transaction
    decoders are libraries, so they are parameters. *)

From stdpp Require Import base list list_numbers gmap fin_maps strings.
From Stdlib Require Import ZArith Lia.
From S2P Require Import Prelude Types ChainSpec Input.
Open Scope Z_scope.

(** ** Constants *)
Definition BLOB_FIELD_ELEMENT_NUM : Z := 4096.
Definition BLOB_FIELD_ELEMENT_BYTES : Z := 32.
Definition BLOB_DATA_CAPACITY : Z := BLOB_FIELD_ELEMENT_NUM * BLOB_FIELD_ELEMENT_BYTES.
Definition CALL_DATA_CAPACITY : Z := BLOB_FIELD_ELEMENT_NUM * (BLOB_FIELD_ELEMENT_BYTES - 1).
Definition BLOB_VERSION_OFFSET : nat := 1.
Definition BLOB_ENCODING_VERSION : Z := 0.
Definition MAX_BLOB_DATA_SIZE : Z := (4 * 31 + 3) * 1024 - 4.

(** ** Indexing and slices that panic out of range *)
Definition at_ {E} (l : bytes) (i : nat) : outcome E Z := unwrap (l !! i).

(** [&l[a..b]]. *)
Definition slice {E A} (l : list A) (a b : nat) : outcome E (list A) :=
  if (a <=? b)%nat && (b <=? length l)%nat then Ok (take (b - a) (drop a l)) else Panic.

(** [l[a..a + src.len()].copy_from_slice(src)]. *)
Definition copy_at {E} (l : bytes) (a : nat) (src : bytes) : outcome E bytes :=
  if (a + length src <=? length l)%nat
  then Ok (take a l ++ src ++ drop (a + length src) l) else Panic.

(** [l[i] = v]. *)
Definition set_at {E} (l : bytes) (i : nat) (v : Z) : outcome E bytes :=
  if (i <? length l)%nat then Ok (<[i := v]> l) else Panic.

(** ** The blob decoder *)

(** A field element at [ipos] of the blob: its first byte, whose two highest bits
    must be zero, and 31 bytes of payload written to the output. *)
Definition decode_field_element (b : bytes) (opos ipos : nat) (output : bytes) :
    outcome () (Z * nat * nat * bytes) :=
  first ← at_ b ipos;
  if negb (Z.land first 192 =? 0) then Err ()
  else
    payload ← slice b (ipos + 1) (ipos + 32);
    output ← copy_at output opos payload;
    Ok (first, (opos + 32)%nat, (ipos + 32)%nat, output).

(** Three bytes reassembled from the four 6-bit chunks. *)
Definition chunk_x (e0 e1 : Z) : Z := Z.lor (Z.land e0 63) (wrap8 (Z.shiftl (Z.land e1 48) 2)).
Definition chunk_y (e1 e3 : Z) : Z := Z.lor (Z.land e1 15) (wrap8 (Z.shiftl (Z.land e3 15) 4)).
Definition chunk_z (e2 e3 : Z) : Z := Z.lor (Z.land e2 63) (wrap8 (Z.shiftl (Z.land e3 48) 2)).

(** Positions are only ever subtracted where they are large enough. *)
Definition reassemble_bytes (opos : nat) (e0 e1 e2 e3 : Z) (output : bytes) :
    outcome () (nat * bytes) :=
  if (opos <? 97)%nat then Panic
  else
    let opos := (opos - 1)%nat in
    output ← set_at output (opos - 32) (chunk_z e2 e3);
    output ← set_at output (opos - 32 * 2) (chunk_y e1 e3);
    output ← set_at output (opos - 32 * 3) (chunk_x e0 e1);
    Ok (opos, output).

(** The state of the decoding loop: the two positions and the output buffer. *)
Record BlobState := mkBlobState { opos : nat; ipos : nat; output : bytes }.

(** One of the rounds that decode 4 field elements to 127 bytes. *)
Definition decode_round (b : bytes) (s : BlobState) : outcome () BlobState :=
  '(e0, o, i, out) ← decode_field_element b (opos s) (ipos s) (output s);
  '(e1, o, i, out) ← decode_field_element b o i out;
  '(e2, o, i, out) ← decode_field_element b o i out;
  '(e3, o, i, out) ← decode_field_element b o i out;
  '(o, out) ← reassemble_bytes o e0 e1 e2 e3 out;
  Ok (mkBlobState o i out).

(** Round 0: 27 bytes of the first element follow the version and length. *)
Definition decode_round0 (b : bytes) : outcome () BlobState :=
  head ← slice b 5 32;
  out ← copy_at (replicate (Z.to_nat MAX_BLOB_DATA_SIZE) 0) 0 head;
  e0 ← at_ b 0;
  '(e1, o, i, out) ← decode_field_element b 28 32 out;
  '(e2, o, i, out) ← decode_field_element b o i out;
  '(e3, o, i, out) ← decode_field_element b o i out;
  '(o, out) ← reassemble_bytes o e0 e1 e2 e3 out;
  Ok (mkBlobState o i out).

(** [for _ in 1..1024 { if opos < output_len { .. } }]. *)
Fixpoint decode_rounds (n : nat) (b : bytes) (output_len : nat) (s : BlobState) :
    outcome () BlobState :=
  match n with
  | O => Ok s
  | S n' =>
      s' ← (if (opos s <? output_len)%nat then decode_round b s else Ok s);
      decode_rounds n' b output_len s'
  end.

Definition all_zero (l : bytes) : bool := forallb (fun x => x =? 0) l.

(** The body of [decode_blob_data] with its early returns of an empty vector as
    errors. *)
Definition decode_blob_checked (b : bytes) (output_len : nat) : outcome () bytes :=
  s ← decode_round0 b;
  s ← decode_rounds 1023 b output_len s;
  if negb (all_zero (drop output_len (output s))) then Err ()
  else if negb (all_zero (drop (ipos s) (take (Z.to_nat BLOB_DATA_CAPACITY) b))) then Err ()
  else slice (output s) 0 output_len.

Definition decode_blob_data {E} (b : bytes) : outcome E bytes :=
  match
    version ← at_ b BLOB_VERSION_OFFSET;
    if negb (version =? BLOB_ENCODING_VERSION) then Err ()
    else
      b2 ← at_ b 2; b3 ← at_ b 3; b4 ← at_ b 4;
      let output_len := Z.lor (Z.lor (Z.shiftl b2 16) (Z.shiftl b3 8)) b4 in
      if MAX_BLOB_DATA_SIZE <? output_len then Err ()
      else decode_blob_checked b (Z.to_nat output_len)
  with
  | Ok out => Ok out
  | Err _ => Ok []
  | Panic => Panic
  end.

(** ** Decoding a transaction list *)
Section transactions.
Context {E Tx : Type}.
Variable zlib_decompress_data : bytes -> option bytes.
Variable rlp_decode_transactions : bytes -> option (list Tx).

Definition decode_transactions (tx_list : bytes) : list Tx :=
  match rlp_decode_transactions tx_list with Some txs => txs | None => [] end.

Definition validate_calldata_tx_list (tx_list : bytes) : bool :=
  Z.of_nat (length tx_list) <=? CALL_DATA_CAPACITY.

(** [.unwrap_or_default()]. *)
Definition decompress (data : bytes) : bytes :=
  match zlib_decompress_data data with Some d => d | None => [] end.

Definition unzip_tx_list_from_data_buf (cs : ChainSpec) (is_blob_data : bool)
    (blob_slice_param : option (Z * Z)) (buf : bytes) : outcome E bytes :=
  if is_taiko cs then
    if is_blob_data then
      compressed ← decode_blob_data buf;
      _ ← assert (Z.of_nat (length compressed) <=? MAX_BLOB_DATA_SIZE);
      slice_compressed ←
        (match blob_slice_param with
         | Some (offset, len) =>
             if Z.of_nat (length compressed) <? offset + len then Ok []
             else slice compressed (Z.to_nat offset) (Z.to_nat (offset + len))
         | None => Ok compressed
         end);
      Ok (decompress slice_compressed)
    else if bool_decide (network_to_string TaikoA7 = name cs) then
      let tx_list := decompress buf in
      Ok (if validate_calldata_tx_list tx_list then tx_list else [])
    else Ok (if validate_calldata_tx_list buf then decompress buf else [])
  else Ok (decompress buf).

Definition generate_transactions (cs : ChainSpec) (proposal : BlockProposedFork) (buf : bytes)
    (anchor_tx : option Tx) : outcome E (list Tx) :=
  unzipped ← unzip_tx_list_from_data_buf cs (blob_used proposal) (blob_tx_slice_param proposal) buf;
  let transactions := decode_transactions unzipped in
  Ok (match anchor_tx with Some tx => tx :: transactions | None => transactions end).

(** [fold(0, |acc, size| ..)]: sizes are 16-bit, so the running count does not
    overflow a [usize]. *)
Fixpoint distribute (data : list Tx) (acc : nat) (tx_num_sizes : list nat) : list (list Tx) :=
  match tx_num_sizes with
  | [] => []
  | size :: rest =>
      let total_tx_count := length data in
      (if (acc + size <=? total_tx_count)%nat then take size (drop acc data)
       else if (acc <? total_tx_count)%nat then drop acc data
       else [])
      :: distribute data (acc + size) rest
  end.

Definition distribute_txs (data : list Tx) (batch_proposal : BlockProposedFork) :
    outcome E (list (list Tx)) :=
  info ← unwrap (batch_info batch_proposal);
  let tx_num_sizes := (fun b => Z.to_nat (numTransactions b)) <$> blocks info in
  Ok (distribute data 0 tx_num_sizes).

Definition is_pacaya (p : BlockProposedFork) : bool :=
  match p with Pacaya _ => true | _ => false end.

Definition generate_transactions_for_batch_blocks (i : TaikoGuestBatchInput) :
    outcome E (list (list Tx)) :=
  _ ← assert (is_pacaya (batch_proposed i));
  _ ← assert (bool_decide (tx_data_from_calldata i = []) || bool_decide (tx_data_from_blob i = []));
  let batch_proposal := batch_proposed i in
  compressed_tx_list_buf ←
    (if blob_used batch_proposal then
       bufs ← collect decode_blob_data (tx_data_from_blob i);
       let buf := concat bufs in
       let '(offset, size) :=
         match blob_tx_slice_param batch_proposal with
         | Some p => p | None => (0, Z.of_nat (length buf)) end in
       slice buf (Z.to_nat offset) (Z.to_nat (offset + size))
     else Ok (tx_data_from_calldata i));
  let txs := decode_transactions (decompress compressed_tx_list_buf) in
  distribute_txs txs batch_proposal.
End transactions.

(** ** Distribution of transactions *)

(** Reference definition: each block takes its number of transactions from what
    the earlier blocks left. *)
Fixpoint chunks {A} (sizes : list nat) (data : list A) : list (list A) :=
  match sizes with
  | [] => []
  | n :: rest => take n data :: chunks rest (drop n data)
  end.

Lemma distribute_chunks {Tx} (data : list Tx) sizes acc :
  distribute data acc sizes = chunks sizes (drop acc data).
Proof.
  revert acc. induction sizes as [|n rest IH]; intros acc; simpl; [done|].
  rewrite IH, drop_drop. f_equal. repeat case_match; breflect; [done| |].
  - rewrite take_ge; [done|]. rewrite length_drop. lia.
  - rewrite drop_ge by lia. by rewrite take_nil.
Qed.

Lemma chunks_concat {A} sizes (data : list A) : concat (chunks sizes data) = take (sum_list sizes) data.
Proof.
  revert data. induction sizes as [|n rest IH]; intros data; simpl; [done|].
  rewrite IH. apply take_take_drop.
Qed.

Lemma chunks_length {A} sizes (data : list A) : length (chunks sizes data) = length sizes.
Proof. revert data. induction sizes; intros; simpl; auto. Qed.

(** ** Positions of the decoder *)
Lemma bind_Ok {E A B} (a : A) (f : A -> outcome E B) : (mbind f (Ok a)) = f a.
Proof. done. Qed.

Definition total_or {A} (P : A -> Prop) (m : outcome () A) : Prop :=
  match m with Ok a => P a | Err _ => True | Panic => False end.

Lemma total_or_bind {A B} (P : A -> Prop) (Q : B -> Prop) (m : outcome () A) (f : A -> outcome () B) :
  total_or P m -> (forall a, P a -> total_or Q (f a)) -> total_or Q (mbind f m).
Proof. destruct m; simpl; auto. Qed.

Lemma at_total (l : bytes) i : (i < length l)%nat -> total_or (fun _ => True) (at_ l i).
Proof. intros H. unfold at_. by destruct (lookup_lt_is_Some_2 l i H) as [x ->]. Qed.

Lemma slice_total {A} (l : list A) a b : (a <= b <= length l)%nat ->
  total_or (fun r => length r = (b - a)%nat) (slice l a b).
Proof.
  intros H. unfold slice. rewrite (proj2 (Nat.leb_le a b)), (proj2 (Nat.leb_le b (length l))) by lia. simpl.
  rewrite length_take, length_drop. lia.
Qed.

Lemma copy_at_total (l src : bytes) a : (a + length src <= length l)%nat ->
  total_or (fun r => length r = length l) (copy_at l a src).
Proof.
  intros H. unfold copy_at. rewrite (proj2 (Nat.leb_le _ _)) by done. simpl.
  rewrite !length_app, length_take, length_drop. lia.
Qed.

Lemma set_at_total (l : bytes) i v : (i < length l)%nat ->
  total_or (fun r => length r = length l) (set_at l i v).
Proof.
  intros H. unfold set_at. rewrite (proj2 (Nat.ltb_lt _ _)) by done. simpl. by rewrite length_insert.
Qed.

Lemma decode_field_element_total b o i out :
  (i + 32 <= length b)%nat -> (o + 31 <= length out)%nat ->
  total_or (fun r => r.1.1.2 = (o + 32)%nat /\ r.1.2 = (i + 32)%nat /\ length r.2 = length out)
    (decode_field_element b o i out).
Proof.
  intros Hi Ho. unfold decode_field_element.
  eapply total_or_bind; [apply at_total; lia|]. intros first _. case_match; [done|].
  eapply total_or_bind; [apply slice_total; lia|]. intros p Hp. cbv beta in Hp.
  eapply total_or_bind; [apply copy_at_total; lia|]. simpl. auto.
Qed.

Lemma reassemble_bytes_total o e0 e1 e2 e3 out :
  (97 <= o)%nat -> (o - 33 < length out)%nat ->
  total_or (fun r => r.1 = (o - 1)%nat /\ length r.2 = length out) (reassemble_bytes o e0 e1 e2 e3 out).
Proof.
  intros Ho Hl. unfold reassemble_bytes. rewrite (proj2 (Nat.ltb_ge _ _)) by lia.
  eapply total_or_bind; [apply set_at_total; lia|]. intros o1 H1. cbv beta in H1.
  eapply total_or_bind; [apply set_at_total; lia|]. intros o2 H2. cbv beta in H2.
  eapply total_or_bind; [apply set_at_total; lia|]. intros o3 H3. cbv beta in H3. simpl. split; congruence.
Qed.

(** After [k] full rounds the positions are aligned and the buffer keeps its size. *)
Definition round_state (k : nat) (s : BlobState) : Prop :=
  opos s = (127 * k - 4)%nat /\ ipos s = (128 * k)%nat /\
  length (output s) = Z.to_nat MAX_BLOB_DATA_SIZE.

Ltac total_step lem :=
  eapply total_or_bind; [apply lem; lia|]; intros [[[? ?] ?] ?] (? & ? & ?); cbn [fst snd] in *; subst.

Lemma decode_round_total b s k :
  (1 <= k)%nat -> Z.of_nat k < 1024 -> length b = Z.to_nat BLOB_DATA_CAPACITY ->
  round_state k s -> total_or (round_state (S k)) (decode_round b s).
Proof.
  intros Hk Hk' Hb (Ho & Hi & Hl). unfold decode_round.
  unfold BLOB_DATA_CAPACITY, BLOB_FIELD_ELEMENT_NUM, BLOB_FIELD_ELEMENT_BYTES in Hb.
  assert (length (output s) = Z.to_nat 130044) as Hl' by (rewrite Hl; unfold MAX_BLOB_DATA_SIZE; lia).
  do 4 total_step decode_field_element_total.
  eapply total_or_bind; [apply reassemble_bytes_total; lia|]. intros [o' out'] [Ho' Hout'].
  cbn [fst snd] in *. unfold round_state. cbn [total_or opos ipos output]. lia.
Qed.

Lemma decode_round0_total b :
  length b = Z.to_nat BLOB_DATA_CAPACITY -> total_or (round_state 1) (decode_round0 b).
Proof.
  intros Hb. unfold decode_round0.
  unfold BLOB_DATA_CAPACITY, BLOB_FIELD_ELEMENT_NUM, BLOB_FIELD_ELEMENT_BYTES in Hb.
  eapply total_or_bind; [apply slice_total; lia|]. intros hd Hhd. cbv beta in Hhd.
  eapply total_or_bind; [apply copy_at_total; rewrite length_replicate; unfold MAX_BLOB_DATA_SIZE; lia|].
  intros out Hout. cbv beta in Hout. rewrite length_replicate in Hout.
  assert (length out = Z.to_nat 130044) as Hl' by (rewrite Hout; unfold MAX_BLOB_DATA_SIZE; lia).
  eapply total_or_bind; [apply at_total; lia|]. intros e0 _.
  do 3 total_step decode_field_element_total.
  eapply total_or_bind; [apply reassemble_bytes_total; lia|]. intros [o' out'] [Ho' Hout'].
  cbn [fst snd] in *. unfold round_state. cbn [total_or opos ipos output]. lia.
Qed.

Lemma decode_rounds_total b n k len s :
  (1 <= k)%nat -> Z.of_nat (k + n) <= 1024 -> length b = Z.to_nat BLOB_DATA_CAPACITY ->
  round_state k s ->
  total_or (fun s' => exists k', round_state k' s') (decode_rounds n b len s).
Proof.
  intros Hk Hn Hb. revert k s Hk Hn. induction n as [|n IH]; intros k s Hk Hn Hs; simpl; [eauto|].
  destruct (opos s <? len)%nat.
  - eapply total_or_bind; [apply (decode_round_total b s k); [lia|lia|done|done]|].
    intros s' Hs'. apply (IH (S k)); [lia|lia|done].
  - rewrite bind_Ok. apply (IH k); [lia|lia|done].
Qed.

(** A blob of the standard size is always decoded without a panic, to at most
    the maximal payload. *)
Lemma decode_blob_data_total {E} b :
  length b = Z.to_nat BLOB_DATA_CAPACITY ->
  exists out, decode_blob_data (E := E) b = Ok out /\ Z.of_nat (length out) <= MAX_BLOB_DATA_SIZE.
Proof.
  intros Hb. unfold decode_blob_data.
  match goal with |- context [match ?m with Ok _ => _ | Err _ => _ | Panic => _ end] =>
    assert (total_or (fun out => Z.of_nat (length out) <= MAX_BLOB_DATA_SIZE) m) as Ht end.
  { unfold BLOB_VERSION_OFFSET.
    unfold BLOB_DATA_CAPACITY, BLOB_FIELD_ELEMENT_NUM, BLOB_FIELD_ELEMENT_BYTES in Hb.
    eapply total_or_bind; [apply at_total; lia|]. intros v _. case_match; [done|].
    do 3 (eapply total_or_bind; [apply at_total; lia|]; intros ? _).
    cbv zeta. case_match; [done|]. breflect.
    match goal with |- context [decode_blob_checked _ (Z.to_nat ?l)] => set (len := l) in * end.
    unfold decode_blob_checked.
    eapply total_or_bind; [apply decode_round0_total; by rewrite Hb|]. intros s1 Hs1.
    eapply total_or_bind; [eapply (decode_rounds_total b 1023 1); [lia|lia|by rewrite Hb|done]|].
    intros s2 (k & _ & _ & Hl). case_match; [done|]. case_match; [done|].
    pose proof (slice_total (output s2) 0 (Z.to_nat len)) as Hsl.
    destruct (slice _ _ _) eqn:Es; [|done|apply Hsl; rewrite Hl; lia].
    simpl in *. rewrite Hsl; [|rewrite Hl]; unfold MAX_BLOB_DATA_SIZE in *; lia. }
  destruct (_ : outcome () bytes); simpl in Ht; eauto; [|done].
  exists []. unfold MAX_BLOB_DATA_SIZE. simpl. split; [done|lia].
Qed.

(** ** The blob encoding

    The inverse of the decoder, as the rollup specifies it: the payload behind
    its version and 3-byte length is cut to rounds of 127 bytes, and a round is
    stored in four field elements of 31 bytes, the three bytes left over being
    spread over the 6 usable bits of the elements' first bytes. *)
Definition chunks_of (x y z : Z) : Z * Z * Z * Z :=
  (Z.land x 63,
   Z.lor (Z.land y 15) (Z.shiftr (Z.land x 192) 2),
   Z.land z 63,
   Z.lor (Z.shiftr (Z.land y 240) 4) (Z.shiftr (Z.land z 192) 2)).

Definition encode_round (s : bytes) : bytes :=
  let '(e0, e1, e2, e3) := chunks_of (s !!! 31%nat) (s !!! 63%nat) (s !!! 95%nat) in
  (e0 :: take 31 s) ++ (e1 :: take 31 (drop 32 s)) ++
  (e2 :: take 31 (drop 64 s)) ++ (e3 :: take 31 (drop 96 s)).

Fixpoint encode_rounds (n : nat) (s : bytes) : bytes :=
  match n with
  | O => []
  | S n' => encode_round (take 127 s) ++ encode_rounds n' (drop 127 s)
  end.

Definition encode_blob (data : bytes) : bytes :=
  let len := Z.of_nat (length data) in
  encode_rounds 1024
    ([0; Z.shiftr len 16; Z.land (Z.shiftr len 8) 255; Z.land len 255] ++ data ++
     replicate (Z.to_nat MAX_BLOB_DATA_SIZE - length data) 0).

Definition byte_values : list Z := seqZ 0 256.

Lemma byte_values_elem x : is_byte x = true -> x ∈ byte_values.
Proof. unfold is_byte. intros. breflect. apply elem_of_seqZ. lia. Qed.

(** The two chunks of an element's first byte do not overlap. *)
Lemma chunk_pairs :
  forallb (fun x => forallb (fun y =>
    let e1 := Z.lor (Z.land y 15) (Z.shiftr (Z.land x 192) 2) in
    let e3 := Z.lor (Z.shiftr (Z.land y 240) 4) (Z.shiftr (Z.land x 192) 2) in
    (Z.land e1 15 =? Z.land y 15) && (Z.land e1 48 =? Z.shiftr (Z.land x 192) 2) && (Z.land e1 192 =? 0) &&
    (Z.land e3 15 =? Z.shiftr (Z.land y 240) 4) && (Z.land e3 48 =? Z.shiftr (Z.land x 192) 2) &&
    (Z.land e3 192 =? 0)) byte_values) byte_values = true.
Proof. vm_compute. reflexivity. Qed.

Lemma chunk_singles :
  forallb (fun x =>
    (Z.land (Z.land x 63) 192 =? 0) &&
    (Z.lor (Z.land (Z.land x 63) 63) (wrap8 (Z.shiftl (Z.shiftr (Z.land x 192) 2) 2)) =? x) &&
    (Z.lor (Z.land x 15) (wrap8 (Z.shiftl (Z.shiftr (Z.land x 240) 4) 4)) =? x)) byte_values = true.
Proof. vm_compute. reflexivity. Qed.

Lemma forallb_elem {A} (f : A -> bool) l x : forallb f l = true -> x ∈ l -> f x = true.
Proof. rewrite forallb_forall. intros H Hin. apply H. by apply list_elem_of_In. Qed.

Lemma chunks_roundtrip x y z :
  is_byte x = true -> is_byte y = true -> is_byte z = true ->
  let '(e0, e1, e2, e3) := chunks_of x y z in
  chunk_x e0 e1 = x /\ chunk_y e1 e3 = y /\ chunk_z e2 e3 = z /\
  Z.land e0 192 = 0 /\ Z.land e1 192 = 0 /\ Z.land e2 192 = 0 /\ Z.land e3 192 = 0.
Proof.
  intros Hx%byte_values_elem Hy%byte_values_elem Hz%byte_values_elem. unfold chunks_of.
  pose proof (forallb_elem _ _ _ (forallb_elem _ _ _ chunk_pairs Hx) Hy) as Hxy.
  pose proof (forallb_elem _ _ _ (forallb_elem _ _ _ chunk_pairs Hz) Hy) as Hzy.
  pose proof (forallb_elem _ _ _ chunk_singles Hx) as Hx1.
  pose proof (forallb_elem _ _ _ chunk_singles Hy) as Hy1.
  pose proof (forallb_elem _ _ _ chunk_singles Hz) as Hz1.
  cbv zeta beta in *. breflect. unfold chunk_x, chunk_y, chunk_z. split_and!; congruence.
Qed.

(** ** Decoding one round *)

(** A round of 127 bytes as four runs of 31 bytes and the three bytes between. *)
Lemma round_split (s : bytes) : length s = 127%nat ->
  exists f0 x f1 y f2 z f3, s = f0 ++ x :: f1 ++ y :: f2 ++ z :: f3 /\
    length f0 = 31%nat /\ length f1 = 31%nat /\ length f2 = 31%nat /\ length f3 = 31%nat.
Proof.
  intros H.
  assert (forall (l : bytes) n, (n < length l)%nat -> exists a c r, l = a ++ c :: r /\ length a = n) as Hsplit.
  { intros l n Hn. destruct (lookup_lt_is_Some_2 l n Hn) as [c Hc]. exists (take n l), c, (drop (S n) l).
    split; [by rewrite take_drop_middle|]. rewrite length_take. lia. }
  destruct (Hsplit s 31%nat) as (f0 & x & r0 & -> & H0); [lia|]. rewrite length_app in H. simpl in H.
  destruct (Hsplit r0 31%nat) as (f1 & y & r1 & -> & H1); [lia|]. rewrite length_app in H. simpl in H.
  destruct (Hsplit r1 31%nat) as (f2 & z & f3 & -> & H2); [lia|]. rewrite length_app in H. simpl in H.
  exists f0, x, f1, y, f2, z, f3. split_and!; auto. lia.
Qed.

Lemma encode_round_split f0 x f1 y f2 z f3 :
  length f0 = 31%nat -> length f1 = 31%nat -> length f2 = 31%nat -> length f3 = 31%nat ->
  encode_round (f0 ++ x :: f1 ++ y :: f2 ++ z :: f3) =
  let '(e0, e1, e2, e3) := chunks_of x y z in
  (e0 :: f0) ++ (e1 :: f1) ++ (e2 :: f2) ++ (e3 :: f3).
Proof.
  intros H0 H1 H2 H3.
  assert (forall n (a b : bytes), length a = n -> take n (a ++ b) = a) as Htake by (intros; subst; apply take_app_length).
  assert (forall n (a : bytes) c b, length a = n -> drop (S n) (a ++ c :: b) = b) as Hdrop.
  { intros n a c b <-. rewrite <-Nat.add_1_r, <-drop_drop. by rewrite drop_app_length. }
  assert (forall n (a : bytes) c b, length a = n -> (a ++ c :: b) !!! n = c) as Hat.
  { intros n a c b <-. apply list_lookup_total_middle. done. }
  assert (forall n m (l : bytes), l !!! (n + m)%nat = drop n l !!! m) as Hl.
  { intros. unfold lookup_total, list_lookup_total. revert n l. induction n; intros [|? l]; simpl; auto. }
  unfold encode_round.
  change 96%nat with (32 + (32 + 32))%nat. change 95%nat with (32 + (32 + 31))%nat.
  change 64%nat with (32 + 32)%nat. change 63%nat with (32 + 31)%nat.
  rewrite !Hl, <-!drop_drop, !Hdrop, !Hat, !Htake by done.
  rewrite (take_ge f3) by lia. done.
Qed.

(** Reading, slicing and writing in the middle of a list. *)
Lemma at_middle {E} (a b : bytes) c i : i = length a -> at_ (E := E) (a ++ c :: b) i = Ok c.
Proof. intros ->. unfold at_. by rewrite list_lookup_middle. Qed.

Lemma slice_middle {E A} (a m b : list A) i j :
  i = length a -> j = (length a + length m)%nat -> slice (E := E) (a ++ m ++ b) i j = Ok m.
Proof.
  intros -> ->. unfold slice. rewrite !length_app.
  rewrite (proj2 (Nat.leb_le (length a) _)), (proj2 (Nat.leb_le (length a + length m)%nat _)) by lia. simpl.
  rewrite drop_app_length. replace (length a + length m - length a)%nat with (length m) by lia.
  by rewrite take_app_length.
Qed.

Lemma copy_at_middle {E} (w src : bytes) n i :
  i = length w -> (length src <= n)%nat ->
  copy_at (E := E) (w ++ replicate n 0) i src = Ok ((w ++ src) ++ replicate (n - length src) 0).
Proof.
  intros -> Hn. unfold copy_at. rewrite length_app, length_replicate.
  rewrite (proj2 (Nat.leb_le _ _)) by lia. f_equal. rewrite take_app_length, <-app_assoc. do 2 f_equal.
  rewrite <-drop_drop, drop_app_length. replace n with (length src + (n - length src))%nat at 1 by lia.
  by rewrite drop_replicate, Nat.add_sub_swap, Nat.sub_diag by lia.
Qed.

Lemma set_at_middle {E} (a b : bytes) c v i :
  i = length a -> set_at (E := E) (a ++ c :: b) i v = Ok (a ++ v :: b).
Proof.
  intros ->. unfold set_at. rewrite length_app. simpl. rewrite (proj2 (Nat.ltb_lt _ _)) by lia.
  f_equal. rewrite insert_app_r_alt by lia. by rewrite Nat.sub_diag.
Qed.

(** An element whose payload follows [pre] in the blob. *)
Lemma decode_field_element_middle pre e f post w n o i :
  length f = 31%nat -> Z.land e 192 = 0 -> i = length pre -> o = length w -> (31 <= n)%nat ->
  decode_field_element (pre ++ (e :: f) ++ post) o i (w ++ replicate n 0) =
  Ok (e, (o + 32)%nat, (i + 32)%nat, (w ++ f) ++ replicate (n - 31) 0).
Proof.
  intros Hf He Hi Ho Hn. unfold decode_field_element.
  rewrite (at_middle pre (f ++ post) e i Hi : at_ (pre ++ (e :: f) ++ post) i = Ok e), bind_Ok.
  rewrite He. change (negb (0 =? 0)) with false. cbv iota.
  replace (pre ++ (e :: f) ++ post) with ((pre ++ [e]) ++ f ++ post) by (by rewrite <-app_assoc).
  rewrite slice_middle by (rewrite length_app; simpl; lia). rewrite bind_Ok.
  rewrite copy_at_middle by lia. by rewrite bind_Ok, Hf.
Qed.

Lemma reassemble_bytes_middle w f0 x f1 y f2 z f3 n :
  length f1 = 31%nat -> length f2 = 31%nat -> length f3 = 31%nat ->
  is_byte x = true -> is_byte y = true -> is_byte z = true ->
  let '(e0, e1, e2, e3) := chunks_of x y z in
  reassemble_bytes (length w + length f0 + 97) e0 e1 e2 e3
    (w ++ f0 ++ 0 :: f1 ++ 0 :: f2 ++ 0 :: f3 ++ replicate n 0) =
  Ok ((length w + length f0 + 96)%nat, w ++ (f0 ++ x :: f1 ++ y :: f2 ++ z :: f3) ++ replicate n 0).
Proof.
  intros H1 H2 H3 Hx Hy Hz. pose proof (chunks_roundtrip x y z Hx Hy Hz) as Hc.
  destruct (chunks_of x y z) as [[[e0 e1] e2] e3]. destruct Hc as (Hcx & Hcy & Hcz & _).
  unfold reassemble_bytes. rewrite (proj2 (Nat.ltb_ge _ _)) by lia. cbv zeta. rewrite Hcx, Hcy, Hcz.
  replace (w ++ f0 ++ 0 :: f1 ++ 0 :: f2 ++ 0 :: f3 ++ replicate n 0)
    with ((w ++ f0 ++ 0 :: f1 ++ 0 :: f2) ++ 0 :: f3 ++ replicate n 0) by (by rewrite <-!app_assoc; simpl; rewrite <-!app_assoc).
  rewrite set_at_middle by (rewrite ?length_app; simpl; rewrite ?length_app; simpl; rewrite ?length_app; simpl; lia). rewrite bind_Ok.
  replace ((w ++ f0 ++ 0 :: f1 ++ 0 :: f2) ++ z :: f3 ++ replicate n 0)
    with ((w ++ f0 ++ 0 :: f1) ++ 0 :: f2 ++ z :: f3 ++ replicate n 0) by (by rewrite <-!app_assoc; simpl; rewrite <-!app_assoc).
  rewrite set_at_middle by (rewrite ?length_app; simpl; rewrite ?length_app; simpl; lia). rewrite bind_Ok.
  replace ((w ++ f0 ++ 0 :: f1) ++ y :: f2 ++ z :: f3 ++ replicate n 0)
    with ((w ++ f0) ++ 0 :: f1 ++ y :: f2 ++ z :: f3 ++ replicate n 0) by (by rewrite <-!app_assoc).
  rewrite set_at_middle by (rewrite ?length_app; lia). rewrite bind_Ok.
  f_equal. f_equal; [lia|]. rewrite <-!app_assoc. f_equal. f_equal. simpl. f_equal.
  rewrite <-!app_assoc. simpl. do 2 f_equal. by rewrite <-!app_assoc.
Qed.

(** As above, with the gap left for a reassembled byte. *)
Lemma decode_field_element_gap pre e f post w n o i :
  length f = 31%nat -> Z.land e 192 = 0 -> i = length pre -> o = length w -> (32 <= n)%nat ->
  decode_field_element (pre ++ (e :: f) ++ post) o i (w ++ replicate n 0) =
  Ok (e, (o + 32)%nat, (i + 32)%nat, (w ++ f ++ [0]) ++ replicate (n - 32) 0).
Proof.
  intros. rewrite decode_field_element_middle by (done || lia). do 2 f_equal.
  replace (n - 31)%nat with (S (n - 32)) by lia. simpl. by rewrite <-!app_assoc.
Qed.

Lemma decode_round_middle pre s post w n :
  length s = 127%nat -> forallb is_byte s = true -> (127 <= n)%nat ->
  decode_round (pre ++ encode_round s ++ post) (mkBlobState (length w) (length pre) (w ++ replicate n 0)) =
  Ok (mkBlobState (length w + 127) (length pre + 128) ((w ++ s) ++ replicate (n - 127) 0)).
Proof.
  intros Hs Hb Hn. destruct (round_split s Hs) as (f0 & x & f1 & y & f2 & z & f3 & -> & H0 & H1 & H2 & H3).
  rewrite encode_round_split by done.
  repeat (rewrite forallb_app in Hb || (progress simpl in Hb)). breflect.
  pose proof (chunks_roundtrip x y z ltac:(done) ltac:(done) ltac:(done)) as Hc.
  pose proof (reassemble_bytes_middle w f0 x f1 y f2 z f3 (n - 127) H1 H2 H3 ltac:(done) ltac:(done) ltac:(done)) as Hr.
  destruct (chunks_of x y z) as [[[e0 e1] e2] e3]. destruct Hc as (_ & _ & _ & He0 & He1 & He2 & He3).
  set (b := pre ++ _ ++ post). unfold decode_round. cbn [opos ipos output].
  replace b with (pre ++ (e0 :: f0) ++ ((e1 :: f1) ++ (e2 :: f2) ++ (e3 :: f3) ++ post)) at 1
    by (unfold b; by rewrite <-!app_assoc).
  rewrite decode_field_element_gap by (done || lia). rewrite bind_Ok. cbv beta iota.
  replace b with ((pre ++ (e0 :: f0)) ++ (e1 :: f1) ++ ((e2 :: f2) ++ (e3 :: f3) ++ post)) at 1
    by (unfold b; by rewrite <-!app_assoc).
  rewrite decode_field_element_gap by (done || (rewrite ?length_app; simpl; rewrite ?length_app; simpl; lia)).
  rewrite bind_Ok. cbv beta iota.
  replace b with ((pre ++ (e0 :: f0) ++ (e1 :: f1)) ++ (e2 :: f2) ++ ((e3 :: f3) ++ post)) at 1
    by (unfold b; by rewrite <-!app_assoc).
  rewrite decode_field_element_gap by (done || (repeat (rewrite ?length_app; simpl); lia)).
  rewrite bind_Ok. cbv beta iota.
  replace b with ((pre ++ (e0 :: f0) ++ (e1 :: f1) ++ (e2 :: f2)) ++ (e3 :: f3) ++ post) at 1
    by (unfold b; by rewrite <-!app_assoc).
  rewrite decode_field_element_middle by (done || (repeat (rewrite ?length_app; simpl); lia)).
  rewrite bind_Ok. cbv beta iota.
  match goal with |- context [reassemble_bytes ?o _ _ _ _ ?out] =>
    replace o with (length w + length f0 + 97)%nat by lia;
    replace out with (w ++ f0 ++ 0 :: f1 ++ 0 :: f2 ++ 0 :: f3 ++ replicate (n - 127) 0) end.
  2:{ replace (n - 32 - 32 - 32 - 31)%nat with (n - 127)%nat by lia. by repeat (rewrite <-!app_assoc; simpl). }
  rewrite Hr, bind_Ok. cbv beta iota. f_equal. f_equal; [lia|lia|]. by rewrite <-!app_assoc.
Qed.

Lemma decode_round0_middle h d post :
  length h = 4%nat -> length d = 123%nat -> forallb is_byte (h ++ d) = true ->
  decode_round0 (encode_round (h ++ d) ++ post) =
  Ok (mkBlobState 123 128 (d ++ replicate (Z.to_nat MAX_BLOB_DATA_SIZE - 123) 0)).
Proof.
  intros Hh Hd Hb.
  assert (length (h ++ d) = 127%nat) as Hs by (rewrite length_app; lia).
  destruct (round_split _ Hs) as (f0 & x & f1 & y & f2 & z & f3 & Heq & H0 & H1 & H2 & H3).
  rewrite Heq in Hb |- *. rewrite encode_round_split by done.
  assert (exists d0, f0 = h ++ d0 /\ d = d0 ++ x :: f1 ++ y :: f2 ++ z :: f3 /\ length d0 = 27%nat) as (d0 & -> & -> & Hd0).
  { exists (drop 4 f0). rewrite length_drop, H0.
    assert (take 4 f0 = h) as Ht.
    { apply (f_equal (take 4)) in Heq. rewrite !take_app in Heq. rewrite Hh, H0 in Heq. simpl in Heq.
      rewrite !app_nil_r in Heq. rewrite <-Heq. by apply take_ge; lia. }
    split_and!; [rewrite <-Ht at 1; by rewrite take_drop| |done].
    apply (f_equal (drop 4)) in Heq. rewrite drop_app_length' in Heq by done. rewrite Heq.
    rewrite drop_app_le by lia. done. }
  clear Heq Hs. repeat (rewrite forallb_app in Hb || (progress simpl in Hb)). breflect.
  pose proof (chunks_roundtrip x y z ltac:(done) ltac:(done) ltac:(done)) as Hc.
  set (n := Z.to_nat MAX_BLOB_DATA_SIZE). assert (123 <= n)%nat as Hn by (unfold n, MAX_BLOB_DATA_SIZE; lia).
  pose proof (reassemble_bytes_middle [] d0 x f1 y f2 z f3 (n - 123) H1 H2 H3 ltac:(done) ltac:(done) ltac:(done)) as Hr.
  destruct (chunks_of x y z) as [[[e0 e1] e2] e3]. destruct Hc as (_ & _ & _ & He0 & He1 & He2 & He3).
  set (b := _ ++ post). unfold decode_round0. fold n. clearbody n.
  replace b with ((e0 :: h) ++ d0 ++ ((e1 :: f1) ++ (e2 :: f2) ++ (e3 :: f3) ++ post)) at 1
    by (unfold b; by repeat (rewrite <-?app_assoc; simpl)).
  rewrite slice_middle by (simpl; lia). rewrite bind_Ok.
  rewrite (copy_at_middle [] d0 n 0) by (done || lia). rewrite bind_Ok.
  change (at_ b 0) with (Ok (E := ()) e0). rewrite bind_Ok.
  replace (([] ++ d0) ++ replicate (n - length d0) 0) with ((d0 ++ [0]) ++ replicate (n - 28) 0)
    by (rewrite Hd0; replace (n - 27)%nat with (S (n - 28)) by lia; simpl; by rewrite <-app_assoc).
  replace b with ((e0 :: h ++ d0) ++ (e1 :: f1) ++ ((e2 :: f2) ++ (e3 :: f3) ++ post)) at 1
    by (unfold b; by rewrite <-!app_assoc).
  rewrite decode_field_element_gap by (done || (repeat (rewrite ?length_app; simpl); lia)).
  rewrite bind_Ok. cbv beta iota.
  replace b with (((e0 :: h ++ d0) ++ (e1 :: f1)) ++ (e2 :: f2) ++ ((e3 :: f3) ++ post)) at 1
    by (unfold b; by rewrite <-!app_assoc).
  rewrite decode_field_element_gap by (done || (repeat (rewrite ?length_app; simpl); lia)).
  rewrite bind_Ok. cbv beta iota.
  replace b with (((e0 :: h ++ d0) ++ (e1 :: f1) ++ (e2 :: f2)) ++ (e3 :: f3) ++ post) at 1
    by (unfold b; by rewrite <-!app_assoc).
  rewrite decode_field_element_middle by (done || (repeat (rewrite ?length_app; simpl); lia)).
  rewrite bind_Ok. cbv beta iota.
  match goal with |- context [reassemble_bytes ?o _ _ _ _ ?out] =>
    replace o with (length (@nil Z) + length d0 + 97)%nat by (simpl; lia);
    replace out with ([] ++ d0 ++ 0 :: f1 ++ 0 :: f2 ++ 0 :: f3 ++ replicate (n - 123) 0) end.
  2:{ replace (n - 28 - 32 - 32 - 31)%nat with (n - 123)%nat by lia. by repeat (rewrite <-!app_assoc; simpl). }
  rewrite Hr, bind_Ok. cbv beta iota. f_equal. f_equal. simpl. lia.
Qed.

(** ** Whole blobs *)
Lemma encode_round_length s : length s = 127%nat -> length (encode_round s) = 128%nat.
Proof.
  intros Hs. destruct (round_split s Hs) as (f0 & x & f1 & y & f2 & z & f3 & -> & H0 & H1 & H2 & H3).
  rewrite encode_round_split by done. destruct (chunks_of x y z) as [[[e0 e1] e2] e3].
  repeat (rewrite ?length_app; simpl). lia.
Qed.

Lemma all_zero_app a b : all_zero (a ++ b) = all_zero a && all_zero b.
Proof. apply forallb_app. Qed.

Lemma all_zero_replicate n : all_zero (replicate n 0) = true.
Proof. induction n; simpl; auto. Qed.

Lemma all_zero_inv s : all_zero s = true -> s = replicate (length s) 0.
Proof. induction s as [|a s IH]; simpl; [done|]. intros H. breflect. subst. f_equal. auto. Qed.

Lemma encode_rounds_zero n s : length s = (127 * n)%nat -> all_zero s = true -> all_zero (encode_rounds n s) = true.
Proof.
  revert s. induction n as [|n IH]; intros s Hl Hz; [done|].
  rewrite (all_zero_inv s Hz), Hl. cbn [encode_rounds].
  rewrite take_replicate, drop_replicate, all_zero_app.
  replace (127 `min` (127 * S n))%nat with 127%nat by lia.
  replace (127 * S n - 127)%nat with (127 * n)%nat by lia.
  rewrite IH; [done|by rewrite length_replicate|apply all_zero_replicate].
Qed.

Lemma decode_rounds_skip n b len s : (len <= opos s)%nat -> decode_rounds n b len s = Ok s.
Proof.
  intros H. induction n as [|n IH]; [done|]. cbn [decode_rounds].
  rewrite (proj2 (Nat.ltb_ge _ _)) by done. by rewrite bind_Ok.
Qed.

(** The loop over the remaining rounds writes the rest of the stream and stops
    before trailing zero rounds. *)
Lemma decode_rounds_encoded n pre s w len :
  length s = (127 * n)%nat -> forallb is_byte s = true ->
  all_zero (drop len (w ++ s)) = true ->
  exists st, decode_rounds n (pre ++ encode_rounds n s) len
      (mkBlobState (length w) (length pre) (w ++ replicate (127 * n) 0)) = Ok st /\
    output st = w ++ s /\ all_zero (drop (ipos st) (pre ++ encode_rounds n s)) = true.
Proof.
  revert pre s w. induction n as [|n IH]; intros pre s w Hl Hb Hz.
  { destruct s; [|done]. eexists. split_and!; [done|done|]. cbn [encode_rounds ipos].
    by rewrite app_nil_r, drop_all. }
  destruct (length w <? len)%nat eqn:Hlen.
  - assert (forallb is_byte (take 127 s) = true /\ forallb is_byte (drop 127 s) = true) as [Hb1 Hb2].
    { rewrite <-(take_drop 127 s), forallb_app in Hb. by apply andb_prop in Hb. }
    assert (length (take 127 s) = 127%nat) as Ht by (rewrite length_take; lia).
    cbn [decode_rounds encode_rounds opos]. rewrite Hlen.
    rewrite decode_round_middle by (done || lia). rewrite bind_Ok.
    destruct (IH (pre ++ encode_round (take 127 s)) (drop 127 s) (w ++ take 127 s)) as (st & Hst & Ho & Hi);
      [rewrite length_drop; lia|done|by rewrite <-app_assoc, take_drop|].
    exists st. rewrite <-app_assoc, take_drop in Ho. rewrite <-Hst at 1. split_and!; [|done|].
    + rewrite !length_app, Ht, encode_round_length by done. rewrite <-!app_assoc.
      by replace (127 * S n - 127)%nat with (127 * n)%nat by lia.
    + by rewrite <-app_assoc in Hi.
  - breflect. rewrite decode_rounds_skip by done. eexists. split_and!; [done| |].
    + cbn [output]. rewrite drop_app_le, all_zero_app in Hz by done. breflect.
      rewrite (all_zero_inv s), Hl at 1 by done. done.
    + cbn [ipos]. rewrite drop_app_length. apply encode_rounds_zero; [done|].
      rewrite drop_app_le, all_zero_app in Hz by done. by breflect.
Qed.

(** The header of the stream carries the length. *)
Lemma length_bytes len : 0 <= len < 2 ^ 24 ->
  Z.lor (Z.lor (Z.shiftl (Z.shiftr len 16) 16) (Z.shiftl (Z.land (Z.shiftr len 8) 255) 8)) (Z.land len 255) = len.
Proof.
  intros H. apply Z.bits_inj'. intros i Hi. rewrite !Z.lor_spec, !Z.shiftl_spec, !Z.land_spec by lia.
  change 255 with (Z.ones 8).
  destruct (Z.lt_ge_cases i 8); [|destruct (Z.lt_ge_cases i 16)].
  - rewrite (Z.testbit_neg_r _ (i - 16)), (Z.testbit_neg_r _ (i - 8)), (Z.ones_spec_low 8 i) by lia.
    by rewrite andb_true_r.
  - rewrite (Z.testbit_neg_r _ (i - 16)), Z.shiftr_spec, (Z.ones_spec_low 8 (i - 8)), (Z.ones_spec_high 8 i) by lia.
    replace (i - 8 + 8) with i by lia. by rewrite andb_true_r, andb_false_r, orb_false_r.
  - rewrite Z.shiftr_spec, !(Z.ones_spec_high 8) by lia. replace (i - 16 + 16) with i by lia.
    by rewrite !andb_false_r, !orb_false_r.
Qed.

Lemma header_bytes len : 0 <= len < 2 ^ 24 ->
  forallb is_byte [0; Z.shiftr len 16; Z.land (Z.shiftr len 8) 255; Z.land len 255] = true.
Proof.
  intros H. assert (forall x, is_byte (Z.land x 255) = true) as Hl.
  { intros x. change 255 with (Z.ones 8). rewrite Z.land_ones by lia. unfold is_byte.
    pose proof (Z.mod_pos_bound x (2 ^ 8)). apply andb_true_intro. rewrite Z.leb_le, Z.ltb_lt. lia. }
  simpl. rewrite !Hl. unfold is_byte. rewrite Z.shiftr_div_pow2 by lia.
  assert (0 <= len / 2 ^ 16 < 256) by (split; [apply Z.div_pos; lia|apply Z.div_lt_upper_bound; lia]).
  rewrite (proj2 (Z.leb_le _ _)), (proj2 (Z.ltb_lt _ _)) by lia. done.
Qed.

(** The rounds after the first. *)
Definition rest_rounds : nat := 1023.
Lemma rest_rounds_Z : Z.of_nat rest_rounds = 1023.
Proof. done. Qed.
Opaque rest_rounds.

Lemma padding_length (data : bytes) : Z.of_nat (length data) <= MAX_BLOB_DATA_SIZE ->
  length (data ++ replicate (Z.to_nat MAX_BLOB_DATA_SIZE - length data) 0) = (123 + 127 * rest_rounds)%nat.
Proof.
  intros H. rewrite length_app, length_replicate. pose proof rest_rounds_Z.
  unfold MAX_BLOB_DATA_SIZE in *. lia.
Qed.

Lemma encode_rounds_first h d r n :
  length h = 4%nat -> length d = 123%nat ->
  encode_rounds (S n) (h ++ d ++ r) = encode_round (h ++ d) ++ encode_rounds n r.
Proof.
  intros Hh Hd. cbn [encode_rounds]. rewrite app_assoc.
  by rewrite take_app_length', drop_app_length' by (rewrite length_app; lia).
Qed.

(** A stream of a header and a payload padded with zeros decodes to the payload. *)
Lemma decode_stream h (data p : bytes) :
  length h = 4%nat -> forallb is_byte (h ++ p) = true ->
  length p = (123 + 127 * rest_rounds)%nat -> (length data <= length p)%nat ->
  take (length data) p = data -> all_zero (drop (length data) p) = true ->
  length (encode_rounds (S rest_rounds) (h ++ p)) = Z.to_nat BLOB_DATA_CAPACITY ->
  decode_blob_checked (encode_rounds (S rest_rounds) (h ++ p)) (length data) = Ok data.
Proof.
  intros Hh Hb Hp Hlen Htake Hz Hcap.
  assert (exists d r, p = d ++ r /\ length d = 123%nat /\ length r = (127 * rest_rounds)%nat) as (d & r & -> & Hd & Hr).
  { exists (take 123 p), (drop 123 p). rewrite take_drop, length_take, length_drop. split_and!; [done|lia|lia]. }
  rewrite encode_rounds_first in * by done. rewrite !forallb_app in Hb. breflect.
  unfold decode_blob_checked. rewrite decode_round0_middle; [|done|done|by rewrite forallb_app; apply andb_true_intro].
  rewrite bind_Ok.
  destruct (decode_rounds_encoded rest_rounds (encode_round (h ++ d)) r d (length data)) as (st & Hst & Ho & Hi); [done..|].
  rewrite encode_round_length, Hd in Hst by (rewrite length_app; lia).
  replace (127 * rest_rounds)%nat with (Z.to_nat MAX_BLOB_DATA_SIZE - 123)%nat in Hst
    by (pose proof rest_rounds_Z; unfold MAX_BLOB_DATA_SIZE; lia).
  change (decode_rounds 1023) with (decode_rounds rest_rounds). rewrite Hst, bind_Ok, Ho, Hz. cbn [negb].
  rewrite <-Hcap, firstn_all, Hi. cbn [negb]. unfold slice.
  rewrite (proj2 (Nat.leb_le (length data) _)) by done. simpl.
  by rewrite Nat.sub_0_r, drop_0, Htake.
Qed.

Lemma encode_rounds_length n s : length s = (127 * n)%nat -> length (encode_rounds n s) = (128 * n)%nat.
Proof.
  revert s. induction n as [|n IH]; intros s Hs; [done|]. cbn [encode_rounds].
  rewrite length_app, encode_round_length, IH; [lia|rewrite length_drop; lia|rewrite length_take; lia].
Qed.

Lemma encode_rounds_head n a b c d p :
  exists e0 rest, encode_rounds (S n) ([a; b; c; d] ++ p) = e0 :: a :: b :: c :: d :: rest.
Proof.
  cbn [encode_rounds app]. rewrite !firstn_cons. unfold encode_round.
  destruct (chunks_of _ _ _) as [[[e0 e1] e2] e3]. rewrite !firstn_cons. cbn [app]. eauto.
Qed.

(** A blob holds every payload of at most the maximal size. *)
Lemma decode_encode_blob {E} data :
  Z.of_nat (length data) <= MAX_BLOB_DATA_SIZE -> forallb is_byte data = true ->
  length (encode_blob data) = Z.to_nat BLOB_DATA_CAPACITY /\
  decode_blob_data (E := E) (encode_blob data) = Ok data.
Proof.
  intros Hlen Hb. unfold encode_blob. cbv zeta.
  change (encode_rounds 1024) with (encode_rounds (S rest_rounds)).
  set (len := Z.of_nat (length data)).
  assert (0 <= len < 2 ^ 24) as Hl by (unfold MAX_BLOB_DATA_SIZE, len in *; lia).
  set (h := [0; Z.shiftr len 16; Z.land (Z.shiftr len 8) 255; Z.land len 255]).
  set (p := data ++ replicate _ 0).
  pose proof (padding_length data Hlen) as Hp. fold p in Hp.
  assert (forallb is_byte (h ++ p) = true) as Hbp.
  { rewrite forallb_app. apply andb_true_intro. split; [by apply header_bytes|].
    unfold p. rewrite forallb_app, Hb. simpl.
    clear. induction (_ - _)%nat; simpl; auto. }
  assert (length (encode_rounds (S rest_rounds) (h ++ p)) = Z.to_nat BLOB_DATA_CAPACITY) as Hcap.
  { rewrite encode_rounds_length by (rewrite length_app, Hp; simpl; lia). pose proof rest_rounds_Z.
    unfold BLOB_DATA_CAPACITY, BLOB_FIELD_ELEMENT_NUM, BLOB_FIELD_ELEMENT_BYTES. lia. }
  split; [done|].
  assert (decode_blob_checked (encode_rounds (S rest_rounds) (h ++ p)) (length data) = Ok data) as Hdec.
  { apply decode_stream; [done|done|done| | | |done]; unfold p.
    - rewrite length_app. lia.
    - by rewrite take_app_length.
    - rewrite drop_app_length. apply all_zero_replicate. }
  destruct (encode_rounds_head rest_rounds 0 (Z.shiftr len 16) (Z.land (Z.shiftr len 8) 255) (Z.land len 255) p)
    as (e0 & rest & Hblob). fold h in Hblob. rewrite Hblob in Hdec |- *.
  unfold decode_blob_data, BLOB_VERSION_OFFSET. set (blob := e0 :: _) in *.
  change (at_ blob 1) with (@Ok () Z 0). change (at_ blob 2) with (@Ok () Z (Z.shiftr len 16)).
  change (at_ blob 3) with (@Ok () Z (Z.land (Z.shiftr len 8) 255)).
  change (at_ blob 4) with (@Ok () Z (Z.land len 255)). rewrite bind_Ok.
  change (negb (0 =? BLOB_ENCODING_VERSION)) with false. cbv iota. rewrite !bind_Ok. cbv zeta.
  rewrite (length_bytes len Hl). rewrite (proj2 (Z.ltb_ge _ _)) by done.
  replace (Z.to_nat len) with (length data) by (unfold len; lia). by rewrite Hdec.
Qed.

(** ** Properties *)

(** C13: a blob of the standard size holds every payload up to the maximal size:
    the decoder returns exactly the payload that was encoded. *)
Theorem blob_roundtrip {E} data :
  Z.of_nat (length data) <= MAX_BLOB_DATA_SIZE -> forallb is_byte data = true ->
  length (encode_blob data) = Z.to_nat BLOB_DATA_CAPACITY /\
  decode_blob_data (E := E) (encode_blob data) = Ok data.
Proof. apply decode_encode_blob. Qed.

Definition slice_or_empty (p : option (Z * Z)) (buf : bytes) : bytes :=
  match p with
  | Some (offset, len) =>
      if offset + len <=? Z.of_nat (length buf) then take (Z.to_nat len) (drop (Z.to_nat offset) buf) else []
  | None => buf
  end.

Lemma slice_take {E A} (l : list A) o n :
  0 <= o -> 0 <= n -> o + n <= Z.of_nat (length l) ->
  slice (E := E) l (Z.to_nat o) (Z.to_nat (o + n)) = Ok (take (Z.to_nat n) (drop (Z.to_nat o) l)).
Proof.
  intros. unfold slice. rewrite (proj2 (Nat.leb_le (Z.to_nat o) _)), (proj2 (Nat.leb_le _ (length l))) by lia.
  simpl. do 2 f_equal. lia.
Qed.

Lemma slice_panics {E A} (l : list A) o n :
  0 <= o -> 0 <= n -> Z.of_nat (length l) < o + n ->
  slice (E := E) l (Z.to_nat o) (Z.to_nat (o + n)) = Panic.
Proof.
  intros. unfold slice. rewrite (proj2 (Nat.leb_gt (Z.to_nat (o + n)) (length l))) by lia. by rewrite andb_false_r.
Qed.

(** A slice parameter is a pair of [u32]. *)
Definition slice_param_ok (p : option (Z * Z)) : bool :=
  match p with Some (o, n) => (0 <=? o) && (0 <=? n) | None => true end.

(** on a Taiko chain the data of a block never makes the decoder panic: from
    a blob of the standard size the decompressed slice is returned (the empty
    slice when it is out of range), and call data above the limit gives an empty
    list, before decompression or, on the A7 test network, after it. *)
Theorem unzip_total {E} zlib (cs : ChainSpec) param buf :
  is_taiko cs = true -> slice_param_ok param = true ->
  length buf = Z.to_nat BLOB_DATA_CAPACITY ->
  (exists compressed, decode_blob_data (E := E) buf = Ok compressed /\
     Z.of_nat (length compressed) <= MAX_BLOB_DATA_SIZE /\
     unzip_tx_list_from_data_buf (E := E) zlib cs true param buf =
       Ok (decompress zlib (slice_or_empty param compressed))) /\
  forall data, exists l, unzip_tx_list_from_data_buf (E := E) zlib cs false param data = Ok l /\
    (l = decompress zlib data \/ l = []) /\
    (name cs = "taiko_a7"%string -> Z.of_nat (length l) <= CALL_DATA_CAPACITY) /\
    (name cs <> "taiko_a7"%string -> CALL_DATA_CAPACITY < Z.of_nat (length data) -> l = []).
Proof.
  intros Ht Hp Hb. unfold unzip_tx_list_from_data_buf. rewrite Ht. split.
  - destruct (decode_blob_data_total (E := E) buf Hb) as (c & Hc & Hl). exists c. split_and!; [done|done|].
    rewrite Hc, bind_Ok, (proj2 (Z.leb_le _ _)) by done. unfold assert. rewrite bind_Ok.
    destruct param as [[o n]|]; simpl in *; [|done]. breflect.
    destruct (Z.of_nat (length c) <? o + n) eqn:Hr; breflect.
    + by rewrite (proj2 (Z.leb_gt _ _)) by done.
    + rewrite (proj2 (Z.leb_le _ _)), slice_take by done. done.
  - intros data. case_bool_decide as Hn; simpl in Hn; unfold validate_calldata_tx_list.
    + eexists. split_and!; [done|case_match; auto| |by intros []]. intros _. case_match; breflect; [done|].
      unfold CALL_DATA_CAPACITY, BLOB_FIELD_ELEMENT_NUM, BLOB_FIELD_ELEMENT_BYTES. simpl. lia.
    + eexists. split_and!; [done|case_match; auto|intros; congruence|].
      intros _ Hc. by rewrite (proj2 (Z.leb_gt _ _)) by done.
Qed.

Definition tx_num_sizes (b : BatchProposed) : list nat :=
  (fun p => Z.to_nat (numTransactions p)) <$> blocks (info b).

Lemma decode_blobs_total {E} bufs :
  Forall (fun b => length b = Z.to_nat BLOB_DATA_CAPACITY) bufs ->
  exists outs, collect (E := E) decode_blob_data bufs = Ok outs.
Proof.
  induction 1 as [|b bufs Hb _ (outs & IH)]; cbn [collect]; [eauto|].
  destruct (decode_blob_data_total (E := E) b Hb) as (o & -> & _). rewrite IH. eauto.
Qed.

(** The transactions of a batch are dealt to its blocks in order: every block
    gets its declared number from what the earlier blocks left, the lists
    together are the declared prefix of the decoded list, and there is one list
    per block. The only way to fail is a blob slice out of range, which panics. *)
Theorem batch_transactions_spec {E Tx} zlib (rlp : bytes -> option (list Tx)) i b :
  batch_proposed i = Pacaya b ->
  tx_data_from_calldata i = [] \/ tx_data_from_blob i = [] ->
  Forall (fun d => length d = Z.to_nat BLOB_DATA_CAPACITY) (tx_data_from_blob i) ->
  0 <= blobByteOffset (info b) -> 0 <= blobByteSize (info b) ->
  exists outs, collect (E := E) decode_blob_data (tx_data_from_blob i) = Ok outs /\
  let deal data lists :=
    lists = chunks (tx_num_sizes b) (decode_transactions rlp (decompress zlib data)) /\
    concat lists = take (sum_list (tx_num_sizes b)) (decode_transactions rlp (decompress zlib data)) /\
    length lists = length (blocks (info b)) in
  let o := blobByteOffset (info b) in let n := blobByteSize (info b) in
  let result := generate_transactions_for_batch_blocks (E := E) zlib rlp i in
  if blob_used (Pacaya b) then
    if o + n <=? Z.of_nat (length (concat outs))
    then exists lists, result = Ok lists /\ deal (take (Z.to_nat n) (drop (Z.to_nat o) (concat outs))) lists
    else result = Panic
  else exists lists, result = Ok lists /\ deal (tx_data_from_calldata i) lists.
Proof.
  intros Hp Hone Hfull Ho Hn. destruct (decode_blobs_total (E := E) _ Hfull) as (outs & Houts).
  exists outs. split; [done|]. cbv zeta. unfold generate_transactions_for_batch_blocks. rewrite Hp.
  cbn [is_pacaya assert]. rewrite bind_Ok.
  assert (bool_decide (tx_data_from_calldata i = []) || bool_decide (tx_data_from_blob i = []) = true) as ->
    by (rewrite orb_true_iff, !bool_decide_eq_true; done).
  cbn [assert]. rewrite bind_Ok.
  assert (forall data, exists lists,
    distribute_txs (E := E) (decode_transactions rlp (decompress zlib data)) (Pacaya b) = Ok lists /\
    lists = chunks (tx_num_sizes b) (decode_transactions rlp (decompress zlib data)) /\
    concat lists = take (sum_list (tx_num_sizes b)) (decode_transactions rlp (decompress zlib data)) /\
    length lists = length (blocks (info b))) as Hdeal.
  { intros data. eexists. split; [done|]. fold (tx_num_sizes b). rewrite distribute_chunks, drop_0.
    split_and!; [done|apply chunks_concat|]. rewrite chunks_length. apply length_map. }
  destruct (blob_used (Pacaya b)).
  - rewrite Houts, bind_Ok. cbn [blob_tx_slice_param]. cbv iota zeta.
    destruct (_ <=? _) eqn:Hr; breflect.
    + rewrite slice_take, bind_Ok by done. apply Hdeal.
    + by rewrite slice_panics by done.
  - rewrite bind_Ok. apply Hdeal.
Qed.

(** ** Witnesses *)
Lemma blob_roundtrip_witness :
  decode_blob_data (E := ()) (encode_blob [1; 2; 255]) = Ok [1; 2; 255].
Proof. exact (proj2 (blob_roundtrip (E := ()) [1; 2; 255] ltac:(unfold MAX_BLOB_DATA_SIZE; simpl; lia) eq_refl)). Defined.

Definition taiko_test_chain : ChainSpec := new_single "taiko_mainnet" 167000 1 Eip1559Constants_default true.

Lemma unzip_total_witness :
  exists l, unzip_tx_list_from_data_buf (E := ()) Some taiko_test_chain false (Some (0, 4)) [7; 8] = Ok l.
Proof.
  destruct (unzip_total (E := ()) Some taiko_test_chain (Some (0, 4)) (replicate (Z.to_nat BLOB_DATA_CAPACITY) 0)
    eq_refl eq_refl (length_replicate _ _)) as [_ H].
  destruct (H [7; 8]) as (l & Hl & _). exists l. exact Hl.
Defined.

Definition batch_of (sizes : list Z) (txs : bytes) : TaikoGuestBatchInput :=
  let h := mkHeader [] [] [] [] [] [] None [] 0 0 0 0 0 [] 0 None [] in
  mkTaikoGuestBatchInput 1 h
    (Pacaya (mkBatchProposed
       (mkBatchInfo [] ((fun n => mkBlockParams n 0 []) <$> sizes) [] [] [] 0 0 0 0 0 9 0 0 []
          (mkBaseFeeConfig 0 0 0 0 0))
       (mkBatchMetadata [] [] 1 0) []))
    taiko_test_chain (mkTaikoProverData [] []) txs [] None None KzgVersionedHash.

Lemma batch_transactions_spec_witness :
  generate_transactions_for_batch_blocks (E := ()) Some Some (batch_of [2; 3; 5] [10; 11; 12; 13]) =
  Ok [[10; 11]; [12; 13]; []].
Proof.
  destruct (batch_transactions_spec (E := ()) Some Some (batch_of [2; 3; 5] [10; 11; 12; 13])
    _ eq_refl (or_intror eq_refl) (Forall_nil_2 _) ltac:(simpl; lia) ltac:(simpl; lia))
    as (outs & _ & lists & H & Hl & _).
  rewrite Hl in H. exact H.
Defined.
