(* ===== verification/Eip4844.v ===== *)
(** Blob commitments ([lib/src/primitives/eip4844.rs]). The field, curve and
    polynomial operations and the trusted setup are a library: [KzgLib] collects
    the operations the code calls. *)

From stdpp Require Import base list list_numbers strings.
From Stdlib Require Import ZArith Lia.
From S2P Require Import Prelude.
Open Scope Z_scope.

Class KzgLib := {
  Fr : Type;
  G1 : Type;
  G2 : Type;
  BlobFields : Type;
  Poly : Type;
  sha256 : bytes -> bytes;
  blob_from_bytes : bytes -> option BlobFields;
  blob_to_polynomial : BlobFields -> option Poly;
  hash_to_bls_field : bytes -> Fr;
  evaluate_polynomial : Poly -> Fr -> outcome string Fr;
  fr_to_bytes : Fr -> bytes;
  fr_from_bytes_le : bytes -> option Fr;
  compute_kzg_proof_rust : BlobFields -> Fr -> outcome string (G1 * Fr);
  blob_to_kzg_commitment_rust : BlobFields -> outcome string G1;
  g1_to_bytes : G1 -> bytes;
  g1_from_compressed : bytes -> option G1;
  g1_generator : G1;
  g1_mul : G1 -> Fr -> G1;
  g1_sub : G1 -> G1 -> G1;
  g2_generator : G2;
  g2_mul : G2 -> Fr -> G2;
  g2_sub : G2 -> G2 -> G2;
  secret_g2_1 : G2;
  pairings_verify : G1 -> G2 -> G1 -> G2 -> bool
}.

Inductive Eip4844Error : Type :=
| DeserializeBlob
| EvaluatePolynomial (e : string)
| ComputeKzgProof (e : string)
| KzgDataPoison (e : string).

Definition VERSIONED_HASH_VERSION_KZG : Z := 1.

Section eip4844.
Context `{K : KzgLib}.

Definition get_evaluation_point (blob versioned_hash : bytes) : Fr :=
  hash_to_bls_field (sha256 (sha256 blob ++ versioned_hash)).

Definition proof_of_equivalence (blob versioned_hash : bytes) : outcome Eip4844Error (bytes * bytes) :=
  blob_fields ← ok_or (blob_from_bytes blob) DeserializeBlob;
  poly ← unwrap (blob_to_polynomial blob_fields);
  let x := get_evaluation_point blob versioned_hash in
  y ← map_err EvaluatePolynomial (evaluate_polynomial poly x);
  Ok (fr_to_bytes x, fr_to_bytes y).

Definition verify_kzg_proof_impl (commitment x y proof : bytes) : outcome Eip4844Error bool :=
  commitment ← unwrap (g1_from_compressed commitment);
  proof ← unwrap (g1_from_compressed proof);
  x ← unwrap (fr_from_bytes_le (reverse x));
  y ← unwrap (fr_from_bytes_le (reverse y));
  let x_diff := g2_sub secret_g2_1 (g2_mul g2_generator x) in
  let p_minus_y := g1_sub commitment (g1_mul g1_generator y) in
  Ok (pairings_verify p_minus_y g2_generator proof x_diff).

Definition calc_kzg_proof_with_point (blob : bytes) (z : Fr) : outcome Eip4844Error G1 :=
  blob_fields ← ok_or (blob_from_bytes blob) DeserializeBlob;
  '(proof, _) ← map_err ComputeKzgProof (compute_kzg_proof_rust blob_fields z);
  Ok proof.

Definition calc_kzg_proof (blob versioned_hash : bytes) : outcome Eip4844Error G1 :=
  calc_kzg_proof_with_point blob (get_evaluation_point blob versioned_hash).

Definition calc_kzg_proof_commitment (blob : bytes) : outcome Eip4844Error bytes :=
  blob_fields ← ok_or (blob_from_bytes blob) DeserializeBlob;
  commitment ← map_err ComputeKzgProof (blob_to_kzg_commitment_rust blob_fields);
  Ok (g1_to_bytes commitment).

Definition commitment_to_version_hash (commitment : bytes) : bytes :=
  <[0%nat := VERSIONED_HASH_VERSION_KZG]> (sha256 commitment).

Definition kzg_proof_to_bytes (proof : G1) : bytes := g1_to_bytes proof.

(** ** Commitments are proved by openings

    The laws of the library an honest proof relies on: polynomials have
    commitments whose pairing with an opening at any point checks out. *)
Class KzgLaws := {
  fr_bytes_roundtrip : forall x : Fr, fr_from_bytes_le (reverse (fr_to_bytes x)) = Some x;
  g1_bytes_roundtrip : forall g : G1, g1_from_compressed (g1_to_bytes g) = Some g;
  polynomial_of_fields : forall f : BlobFields, is_Some (blob_to_polynomial f);
  opening_verifies : forall (f : BlobFields) (p : Poly) (c proof : G1) (x y y' : Fr),
    blob_to_polynomial f = Some p -> blob_to_kzg_commitment_rust f = Ok c ->
    compute_kzg_proof_rust f x = Ok (proof, y') -> evaluate_polynomial p x = Ok y ->
    pairings_verify (g1_sub c (g1_mul g1_generator y)) g2_generator proof
      (g2_sub secret_g2_1 (g2_mul g2_generator x)) = true
}.

Lemma equivalence_completeness `{!KzgLaws} blob h c proof x y :
  calc_kzg_proof_commitment blob = Ok c -> calc_kzg_proof blob h = Ok proof ->
  proof_of_equivalence blob h = Ok (x, y) ->
  verify_kzg_proof_impl c x y (kzg_proof_to_bytes proof) = Ok true.
Proof.
  unfold calc_kzg_proof_commitment, calc_kzg_proof, calc_kzg_proof_with_point, proof_of_equivalence.
  destruct (blob_from_bytes blob) as [f|] eqn:Ef; [|done]. cbn.
  destruct (blob_to_kzg_commitment_rust f) as [g| |] eqn:Ec; cbn; try done. intros [= <-].
  destruct (compute_kzg_proof_rust f _) as [[pr yy]| |] eqn:Epr; cbn; try done. intros [= <-].
  destruct (blob_to_polynomial f) as [p|] eqn:Ep; [|done]. cbn.
  destruct (evaluate_polynomial p _) as [yv| |] eqn:Ey; cbn; try done. intros [= <- <-].
  unfold verify_kzg_proof_impl, kzg_proof_to_bytes.
  rewrite !g1_bytes_roundtrip, !fr_bytes_roundtrip. cbn. f_equal. by eapply opening_verifies.
Qed.
End eip4844.
