(* ===== verification/ProtocolInstance.v ===== *)
(** The protocol instance a proof commits to ([lib/src/protocol_instance.rs]):
    the metadata of a block or batch rebuilt from the executed blocks, the
    checks of the blob data and of the chain specification, and the hash that is
    verified on chain. Hashing, ABI encoding and the anchor call decoder are
    libraries collected in [ProtocolLib]. *)

From stdpp Require Import base list list_numbers gmap fin_maps strings.
From Stdlib Require Import ZArith Lia.
From S2P Require Import Prelude Types ChainSpec Input Eip4844.
Open Scope Z_scope.

Inductive BlockMetaDataFork : Type :=
| MetaNone
| MetaHekla (m : BlockMetadata)
| MetaOntake (m : BlockMetadataV2)
| MetaPacaya (m : BatchMetadata).

Inductive TransitionFork : Type :=
| TrHekla (t : Transition)
| TrOnTake (t : Transition)
| TrPacaya (t : PacayaTransition).

(** The tuples whose ABI encoding is hashed: with the prover before Pacaya, and
    without it since. *)
Inductive InstanceTuple : Type :=
| Tuple7 (tag : string) (chain_id : Z) (verifier : bytes) (t : Transition) (sgx prover meta_hash : bytes)
| Tuple6 (tag : string) (chain_id : Z) (verifier : bytes) (t : PacayaTransition) (sgx meta_hash : bytes).

Class ProtocolLib (Tx : Type) := {
  keccak : bytes -> bytes;
  hash_slow : Header -> bytes;
  abi_encode_meta : BlockMetadata -> bytes;
  abi_encode_meta2 : BlockMetadataV2 -> bytes;
  abi_encode_batch_meta : BatchMetadata -> bytes;
  abi_encode_batch_info : BatchInfo -> bytes;
  abi_encode_txs : bytes * list bytes -> bytes;
  abi_encode_instance : InstanceTuple -> bytes;
  (** the signal slots of an anchor transaction of Pacaya *)
  decode_anchor_pacaya : Tx -> option (list bytes);
  ANCHOR_GAS_LIMIT : Z;
  (** [SupportedChainSpecs::default()], built in from a file *)
  default_specs : SupportedChainSpecs
}.

Definition EMPTY_ETH_DEPOSIT_ROOT : bytes :=
  [0x56; 0x9e; 0x75; 0xfc; 0x77; 0xc1; 0xa8; 0x56; 0xf6; 0xda; 0xaf; 0x9e; 0x69; 0xd8; 0xa9; 0x56;
   0x6c; 0xa3; 0x4a; 0xa4; 0x7f; 0x91; 0x33; 0x71; 0x1c; 0xe0; 0x65; 0xa5; 0x71; 0xaf; 0x0c; 0xfd].

Definition bytes_to_bytes32 (input : bytes) : bytes :=
  let len := Nat.min (length input) 32 in
  take len input ++ replicate (32 - len) 0.

(** [u32::to_le_bytes]. *)
Definition to_le_bytes (w : Z) : bytes :=
  [Z.land w 255; Z.land (Z.shiftr w 8) 255; Z.land (Z.shiftr w 16) 255; Z.land (Z.shiftr w 24) 255].
Definition words_to_bytes_le (words : list Z) : bytes := concat (to_le_bytes <$> words).
Definition words_to_bytes_be (words : list Z) : bytes := concat ((fun w => reverse (to_le_bytes w)) <$> words).

Definition aggregation_output_combine (public_inputs : list bytes) : bytes := concat public_inputs.
Definition aggregation_output (program : bytes) (public_inputs : list bytes) : bytes :=
  aggregation_output_combine ([program] ++ public_inputs).

Definition get_blob_proof_type (p : ProofType) (hint : BlobProofType) : BlobProofType :=
  match p with
  | Native => hint
  | Sgx | SgxGeth => KzgVersionedHash
  | Sp1 | Risc0 => ProofOfEquivalence
  end.

Record ProtocolInstance := mkProtocolInstance {
  transition : TransitionFork;
  block_metadata : BlockMetaDataFork;
  pi_prover : bytes;
  sgx_instance : bytes;
  pi_chain_id : Z;
  verifier_address : bytes
}.

Section protocol.
Context {Tx : Type} `{K : KzgLib} `{P : ProtocolLib Tx}.

(** ** Metadata *)
Definition gas_limit_without_anchor (input : GuestInput Tx) (h : Header) : Z :=
  wrap32 (wrap64 (gas_limit h - (if is_taiko (chain_spec input) then ANCHOR_GAS_LIMIT else 0))).

Definition BlockMetadata_from (input : GuestInput Tx) (h : Header) (tx_list_hash : bytes)
    (p : BlockProposed) : BlockMetadata :=
  let m := bp_meta p in
  {| bm_coinbase := beneficiary h;
     bm_id := number h;
     bm_gasLimit := gas_limit_without_anchor input h;
     bm_timestamp := timestamp h;
     bm_extraData := bytes_to_bytes32 (extra_data h);
     bm_l1Hash := hash_slow (l1_header (taiko input));
     bm_l1Height := number (l1_header (taiko input));
     bm_blobHash := tx_list_hash;
     bm_depositsHash := EMPTY_ETH_DEPOSIT_ROOT;
     bm_difficulty := bm_difficulty m;
     bm_minTier := bm_minTier m;
     bm_blobUsed := bm_blobUsed m;
     bm_parentMetaHash := bm_parentMetaHash m;
     bm_sender := bm_sender m |}.

Definition BlockMetadataV2_from (input : GuestInput Tx) (h : Header) (tx_list_hash : bytes)
    (p : BlockProposedV2) : BlockMetadataV2 :=
  let m := bp2_meta p in
  {| m2_id := number h;
     m2_coinbase := beneficiary h;
     m2_timestamp := timestamp h;
     m2_gasLimit := gas_limit_without_anchor input h;
     m2_extraData := bytes_to_bytes32 (extra_data h);
     m2_anchorBlockId := number (l1_header (taiko input));
     m2_anchorBlockHash := hash_slow (l1_header (taiko input));
     m2_blobHash := tx_list_hash;
     m2_difficulty := m2_difficulty m;
     m2_minTier := m2_minTier m;
     m2_blobUsed := m2_blobUsed m;
     m2_parentMetaHash := m2_parentMetaHash m;
     m2_proposer := m2_proposer m;
     m2_livenessBond := m2_livenessBond m;
     m2_proposedAt := m2_proposedAt m;
     m2_proposedIn := m2_proposedIn m;
     m2_blobTxListOffset := m2_blobTxListOffset m;
     m2_blobTxListLength := m2_blobTxListLength m;
     m2_blobIndex := m2_blobIndex m;
     m2_baseFeeConfig := m2_baseFeeConfig m |}.

Definition BlockMetaDataFork_from (input : GuestInput Tx) (h : Header) (tx_list_hash : bytes) :
    outcome string BlockMetaDataFork :=
  match block_proposed (taiko input) with
  | Nothing => Ok MetaNone
  | Hekla p => Ok (MetaHekla (BlockMetadata_from input h tx_list_hash p))
  | Ontake p => Ok (MetaOntake (BlockMetadataV2_from input h tx_list_hash p))
  | Pacaya _ => Panic
  end.

(** [.split_off(32)] panics on a shorter vector. *)
Definition calculate_pacaya_txs_hash (tx_list_hash : bytes) (blob_hashes : list bytes) :
    outcome string bytes :=
  let abi := abi_encode_txs (tx_list_hash, blob_hashes) in
  if (length abi <? 32)%nat then Panic else Ok (keccak (drop 32 abi)).

(** The fold over the final blocks zipped with the proposed parameters; [inputs]
    is indexed by the position. *)
Fixpoint block_params_fold (inputs : list (GuestInput Tx)) (index : nat)
    (zipped : list (EthBlock Tx * BlockParams)) (parent_ts : Z) : outcome string (list BlockParams) :=
  match zipped with
  | [] => Ok []
  | (b, proposal_info) :: rest =>
      input ← unwrap (inputs !! index);
      tx ← unwrap (anchor_tx (taiko input));
      signal_slots ← unwrap (decode_anchor_pacaya tx);
      let ts := timestamp (block_header b) in
      _ ← assert ((parent_ts <=? ts) && (ts - parent_ts <=? 255));
      params ← block_params_fold inputs (S index) rest ts;
      Ok (mkBlockParams (numTransactions proposal_info) (wrap8 (ts - parent_ts)) signal_slots :: params)
  end.

Definition from_batch_inputs (batch_input : GuestBatchInput Tx) (final_blocks : list (EthBlock Tx)) :
    outcome string BlockMetaDataFork :=
  let bt := batch_taiko batch_input in
  match batch_proposed bt with
  | Pacaya p =>
      let i := info p in
      txs_hash ← calculate_pacaya_txs_hash (keccak (tx_data_from_calldata bt)) (blobHashes i);
      _ ← assert (bool_decide (txs_hash = txsHash i));
      first ← unwrap (head final_blocks);
      params ← block_params_fold (inputs batch_input) 0 (zip final_blocks (blocks i))
                 (timestamp (block_header first));
      lst ← unwrap (last final_blocks);
      let last_block_id := number (block_header lst) in
      _ ← assert (last_block_id =? lastBlockId i);
      let last_block_timestamp := timestamp (block_header lst) in
      _ ← assert (last_block_timestamp =? lastBlockTimestamp i);
      let rebuilt :=
        {| txsHash := txs_hash;
           blocks := params;
           blobHashes := blobHashes i;
           extraData := extraData i;
           coinbase := coinbase i;
           proposedIn := proposedIn i;
           blobCreatedIn := blobCreatedIn i;
           blobByteOffset := blobByteOffset i;
           blobByteSize := blobByteSize i;
           gasLimit := gasLimit i;
           lastBlockId := last_block_id;
           lastBlockTimestamp := last_block_timestamp;
           anchorBlockId := number (batch_l1_header bt);
           anchorBlockHash := hash_slow (batch_l1_header bt);
           baseFeeConfig := baseFeeConfig i |} in
      Ok (MetaPacaya
        {| infoHash := keccak (abi_encode_batch_info rebuilt);
           proposer := proposer (meta p);
           batchId := batch_id bt;
           proposedAt := proposedAt (meta p) |})
  | _ => Panic
  end.

(** Whether the metadata matches, and whether there is a printable comparison. *)
Definition match_block_proposal (m : BlockMetaDataFork) (other : BlockProposedFork) : bool * bool :=
  match m, other with
  | MetaHekla a, Hekla b => (bool_decide (abi_encode_meta a = abi_encode_meta (bp_meta b)), true)
  | MetaOntake a, Ontake b => (bool_decide (abi_encode_meta2 a = abi_encode_meta2 (bp2_meta b)), true)
  | MetaPacaya a, Pacaya b => (bool_decide (abi_encode_batch_meta a = abi_encode_batch_meta (meta b)), true)
  | MetaNone, Nothing => (true, false)
  | _, _ => (false, false)
  end.

(** ** Blob data *)

(** [TryInto::<[u8; 48]>::try_into(v).unwrap()]. *)
Definition to_group (v : bytes) : outcome string bytes :=
  if (length v =? 48)%nat then Ok v else Panic.

Definition kzg_err {A} (m : outcome Eip4844Error A) : outcome string A :=
  map_err (fun _ => "blob error"%string) m.

Definition verify_blob (t : BlobProofType) (blob_data versioned_hash commitment : bytes)
    (proof : option bytes) : outcome string () :=
  match t with
  | ProofOfEquivalence =>
      '(x, y) ← kzg_err (proof_of_equivalence blob_data versioned_hash);
      p ← unwrap proof;
      p ← to_group p;
      verified ← kzg_err (verify_kzg_proof_impl commitment x y p);
      ensure verified "condition failed: verified"%string
  | KzgVersionedHash =>
      c ← kzg_err (calc_kzg_proof_commitment blob_data);
      ensure (bool_decide (commitment = c)) "condition failed: commitment"%string
  end.

Definition len_or_0 {A} (o : option (list A)) : nat := match o with Some l => length l | None => O end.
Definition or_default {A} (o : option (list A)) : list A := match o with Some l => l | None => [] end.

Fixpoint verify_blobs (t : BlobProofType) (l : list (bytes * bytes * bytes)) : outcome string () :=
  match l with
  | [] => Ok ()
  | (blob_data, commitment, proof) :: rest =>
      c ← to_group commitment;
      _ ← verify_blob t blob_data (commitment_to_version_hash c) c (Some proof);
      verify_blobs t rest
  end.

Definition verify_batch_mode_blob_usage (batch_input : GuestBatchInput Tx) (proof_type : ProofType) :
    outcome string () :=
  let bt := batch_taiko batch_input in
  let t := get_blob_proof_type proof_type (batch_blob_proof_type bt) in
  _ ← (match t with
       | KzgVersionedHash => assert (length (tx_data_from_blob bt) =? len_or_0 (blob_commitments bt))%nat
       | ProofOfEquivalence => assert (length (tx_data_from_blob bt) =? len_or_0 (blob_proofs bt))%nat
       end);
  verify_blobs t
    (zip (zip (tx_data_from_blob bt) (or_default (blob_commitments bt))) (or_default (blob_proofs bt))).

(** ** The chain specification

    A known chain id must come with the built-in values of that chain. *)
Definition check_chain_spec (cs : ChainSpec) : outcome string () :=
  match get_chain_spec_with_chain_id default_specs (chain_id cs) with
  | Some v =>
      _ ← ensure (max_spec_id cs =? max_spec_id v) "unexpected max_spec_id"%string;
      _ ← ensure (bool_decide (hard_forks cs = hard_forks v)) "unexpected hard_forks"%string;
      _ ← ensure (bool_decide (eip_1559_constants cs = eip_1559_constants v)) "unexpected eip_1559_constants"%string;
      _ ← ensure (bool_decide (l1_contract cs = l1_contract v)) "unexpected l1_contract"%string;
      _ ← ensure (bool_decide (l2_contract cs = l2_contract v)) "unexpected l2_contract"%string;
      ensure (bool_decide (is_taiko cs = is_taiko v)) "unexpected eip_1559_constants"%string
  | None => Ok ()
  end.

Fixpoint check_chain_specs (l : list (GuestInput Tx)) : outcome string () :=
  match l with
  | [] => Ok ()
  | input :: rest => _ ← check_chain_spec (chain_spec input); check_chain_specs rest
  end.

Definition verifier_or_default (input : GuestInput Tx) (proof_type : ProofType) : bytes :=
  match get_fork_verifier_address (chain_spec input) (block_number (block_proposed (taiko input))) proof_type with
  | Ok a => a
  | _ => Address_default
  end.

(** The sanity check of Taiko chains; a mismatch with nothing to print panics. *)
Definition sanity_check (cs : ChainSpec) (m : BlockMetaDataFork) (p : BlockProposedFork) : outcome string () :=
  if is_taiko cs then
    let '(same, printable) := match_block_proposal m p in
    if same then Ok () else if printable then Err "block hash mismatch"%string else Panic
  else Ok ().

(** ** Instances *)
Definition tx_list_hash_of (input : GuestInput Tx) (proof_type : ProofType) : outcome string bytes :=
  let t := taiko input in
  if blob_used (block_proposed t) then
    commitment ← unwrap (blob_commitment t);
    c ← to_group commitment;
    let versioned_hash := commitment_to_version_hash c in
    _ ← verify_blob (get_blob_proof_type proof_type (blob_proof_type t)) (tx_data t) versioned_hash c (blob_proof t);
    Ok versioned_hash
  else Ok (keccak (tx_data t)).

Definition single_transition (input : GuestInput Tx) (h : Header) : outcome string TransitionFork :=
  let t := mkTransition (parent_hash h) (hash_slow h) (state_root h) (graffiti (prover_data (taiko input))) in
  match block_proposed (taiko input) with
  | Hekla _ => Ok (TrHekla t)
  | Ontake _ => Ok (TrOnTake t)
  | _ => Err "unknown transition fork"%string
  end.

Definition ProtocolInstance_new (input : GuestInput Tx) (h : Header) (proof_type : ProofType) :
    outcome string ProtocolInstance :=
  tx_list_hash ← tx_list_hash_of input proof_type;
  _ ← check_chain_spec (chain_spec input);
  let verifier := verifier_or_default input proof_type in
  t ← single_transition input h;
  m ← BlockMetaDataFork_from input h tx_list_hash;
  let pi := mkProtocolInstance t m (prover (prover_data (taiko input))) Address_default
              (chain_id (chain_spec input)) verifier in
  _ ← sanity_check (chain_spec input) m (block_proposed (taiko input));
  Ok pi.

Definition ProtocolInstance_new_batch (batch_input : GuestBatchInput Tx) (final_blocks : list (EthBlock Tx))
    (proof_type : ProofType) : outcome string ProtocolInstance :=
  _ ← verify_batch_mode_blob_usage batch_input proof_type;
  _ ← check_chain_specs (inputs batch_input);
  input ← unwrap (inputs batch_input !! 0%nat);
  let verifier := verifier_or_default input proof_type in
  first_block ← unwrap (head final_blocks);
  last_block ← unwrap (last final_blocks);
  t ← (match batch_proposed (batch_taiko batch_input) with
       | Pacaya _ =>
           Ok (TrPacaya (mkPacayaTransition (parent_hash (block_header first_block))
                 (hash_slow (block_header last_block)) (state_root (block_header last_block))))
       | _ => Err "unknown transition fork"%string
       end);
  m ← from_batch_inputs batch_input final_blocks;
  let pi := mkProtocolInstance t m (prover (prover_data (taiko input))) Address_default
              (chain_id (chain_spec input)) verifier in
  _ ← sanity_check (chain_spec input) m (batch_proposed (batch_taiko batch_input));
  Ok pi.

Definition set_sgx_instance (pi : ProtocolInstance) (instance : bytes) : ProtocolInstance :=
  mkProtocolInstance (transition pi) (block_metadata pi) (pi_prover pi) instance (pi_chain_id pi)
    (verifier_address pi).

Definition meta_hash (pi : ProtocolInstance) : bytes :=
  match block_metadata pi with
  | MetaNone => keccak []
  | MetaHekla m => keccak (abi_encode_meta m)
  | MetaOntake m => keccak (abi_encode_meta2 m)
  | MetaPacaya m => keccak (abi_encode_batch_meta m)
  end.

Definition instance_tuple (pi : ProtocolInstance) : InstanceTuple :=
  match transition pi with
  | TrHekla t | TrOnTake t =>
      Tuple7 "VERIFY_PROOF" (pi_chain_id pi) (verifier_address pi) t (sgx_instance pi) (pi_prover pi) (meta_hash pi)
  | TrPacaya t =>
      Tuple6 "VERIFY_PROOF" (pi_chain_id pi) (verifier_address pi) t (sgx_instance pi) (meta_hash pi)
  end.

Definition instance_hash (pi : ProtocolInstance) : bytes :=
  keccak (drop 32 (abi_encode_instance (instance_tuple pi))).
End protocol.

(** ** What a successful construction means *)
Section properties.
Context {Tx : Type} `{K : KzgLib} `{P : ProtocolLib Tx}.

(** ABI encodings determine their value (Solidity's [abi.decode]), up to the
    leading offset word of a dynamic tuple, and hashes do not collide. *)
Class ProtocolLaws := {
  keccak_inj : forall a b : bytes, keccak a = keccak b -> a = b;
  abi_meta_inj : forall a b, abi_encode_meta a = abi_encode_meta b -> a = b;
  abi_meta2_inj : forall a b, abi_encode_meta2 a = abi_encode_meta2 b -> a = b;
  abi_batch_meta_inj : forall a b, abi_encode_batch_meta a = abi_encode_batch_meta b -> a = b;
  abi_batch_info_inj : forall a b, abi_encode_batch_info a = abi_encode_batch_info b -> a = b;
  abi_instance_inj : forall a b, drop 32 (abi_encode_instance a) = drop 32 (abi_encode_instance b) -> a = b
}.

(** The part of a proposal that describes the block itself. *)
Record ProposalView := mkProposalView {
  v_id : Z; v_coinbase : bytes; v_timestamp : Z; v_gasLimit : Z; v_extraData : bytes;
  v_anchorId : Z; v_anchorHash : bytes; v_blobHash : bytes
}.

Definition proposal_view (p : BlockProposedFork) : option ProposalView :=
  match p with
  | Hekla b => let m := bp_meta b in
      Some (mkProposalView (bm_id m) (bm_coinbase m) (bm_timestamp m) (bm_gasLimit m) (bm_extraData m)
              (bm_l1Height m) (bm_l1Hash m) (bm_blobHash m))
  | Ontake b => let m := bp2_meta b in
      Some (mkProposalView (m2_id m) (m2_coinbase m) (m2_timestamp m) (m2_gasLimit m) (m2_extraData m)
              (m2_anchorBlockId m) (m2_anchorBlockHash m) (m2_blobHash m))
  | _ => None
  end.

Definition header_view (input : GuestInput Tx) (h : Header) (tx_list_hash : bytes) : ProposalView :=
  mkProposalView (number h) (beneficiary h) (timestamp h) (gas_limit_without_anchor input h)
    (bytes_to_bytes32 (extra_data h)) (number (l1_header (taiko input)))
    (hash_slow (l1_header (taiko input))) tx_list_hash.

(** The chain specification agrees with the built-in one of its chain id. *)
Definition spec_verified (cs : ChainSpec) : Prop :=
  forall v, get_chain_spec_with_chain_id default_specs (chain_id cs) = Some v ->
    max_spec_id cs = max_spec_id v /\ hard_forks cs = hard_forks v /\
    eip_1559_constants cs = eip_1559_constants v /\ l1_contract cs = l1_contract v /\
    l2_contract cs = l2_contract v /\ is_taiko cs = is_taiko v.

Lemma check_chain_spec_Ok cs : check_chain_spec (P := P) cs = Ok () -> spec_verified cs.
Proof.
  unfold check_chain_spec, spec_verified. intros H v Hv. rewrite Hv in H.
  bind_inv. repeat match goal with H : ensure _ _ = Ok _ |- _ => apply ensure_Ok in H end.
  breflect. by split_and!.
Qed.

Lemma to_group_Ok v c : to_group v = Ok c -> c = v /\ length v = 48%nat.
Proof. unfold to_group. case_match; breflect; [|done]. by intros [= <-]. Qed.

(** The data a block was proposed with is what was executed: the commitment of
    its blob, or its hash. *)
Definition tx_list_bound (input : GuestInput Tx) (proof_type : ProofType) (tx_list_hash : bytes) : Prop :=
  let t := taiko input in
  if blob_used (block_proposed t) then
    exists c, blob_commitment t = Some c /\ length c = 48%nat /\
      tx_list_hash = commitment_to_version_hash c /\
      verify_blob (get_blob_proof_type proof_type (blob_proof_type t)) (tx_data t) tx_list_hash c (blob_proof t) = Ok ()
  else tx_list_hash = keccak (tx_data t).

Lemma tx_list_hash_of_Ok input pt h : tx_list_hash_of input pt = Ok h -> tx_list_bound input pt h.
Proof.
  unfold tx_list_hash_of, tx_list_bound. destruct (blob_used _); [|by intros [= <-]].
  destruct (blob_commitment (taiko input)) as [c|]; [|done]. cbn. intros H. bind_inv.
  apply to_group_Ok in Eb as [-> Hl]. exists c. destruct a0. by split_and!.
Qed.

(** The metadata as proposed. *)
Definition proposed_metadata (p : BlockProposedFork) : BlockMetaDataFork :=
  match p with
  | Nothing => MetaNone
  | Hekla b => MetaHekla (bp_meta b)
  | Ontake b => MetaOntake (bp2_meta b)
  | Pacaya b => MetaPacaya (meta b)
  end.

Lemma sanity_check_Ok `{!ProtocolLaws} cs m p :
  is_taiko cs = true -> sanity_check (P := P) cs m p = Ok () -> m = proposed_metadata p.
Proof.
  unfold sanity_check. intros -> Hs. destruct m, p; simpl in *; try done;
    case_bool_decide as Heq; try done; f_equal;
    eauto using abi_meta_inj, abi_meta2_inj, abi_batch_meta_inj.
Qed.


(** ** Batches *)
Lemma block_params_fold_Ok ins n zipped ts params :
  block_params_fold (P := P) ins n zipped ts = Ok params ->
  length params = length zipped /\
  (forall k prm b q, params !! k = Some prm -> zipped !! k = Some (b, q) ->
     numTransactions prm = numTransactions q /\
     (exists input tx, ins !! (n + k)%nat = Some input /\ anchor_tx (taiko input) = Some tx /\
        decode_anchor_pacaya tx = Some (signalSlots prm)) /\
     exists before, match k with O => before = ts | S k' => exists b' q', zipped !! k' = Some (b', q') /\
                      before = timestamp (block_header b') end /\
       timestamp (block_header b) = before + timeShift prm /\ 0 <= timeShift prm <= 255).
Proof.
  revert n ts params. induction zipped as [|[b0 q0] rest IH]; intros n ts params Hf; cbn in Hf.
  { injection Hf as <-. split; [done|]. intros k prm b q Hk. by rewrite lookup_nil in Hk. }
  destruct (ins !! n) as [input|] eqn:Ei; [|done]. cbn in Hf.
  destruct (anchor_tx (taiko input)) as [tx|] eqn:Et; [|done]. cbn in Hf.
  destruct (decode_anchor_pacaya tx) as [slots|] eqn:Es; [|done]. cbn in Hf.
  destruct (_ && _) eqn:Ets; [|done]. cbn in Hf. breflect.
  destruct (block_params_fold _ _ _ _) as [ps| |] eqn:Eps; try done. cbn in Hf. injection Hf as <-.
  destruct (IH _ _ _ Eps) as [Hl Hk']. split; [simpl; by rewrite Hl|].
  intros [|k] prm b q Hp Hz; simpl in Hp, Hz; simplify_eq; cbn [numTransactions timeShift signalSlots].
  - split; [done|]. rewrite Nat.add_0_r. split; [eauto|].
    exists ts. unfold wrap8. rewrite wrap_small by lia. lia.
  - destruct (Hk' k prm b q Hp Hz) as (H1 & H2 & before & H3 & H4). split; [done|].
    replace (n + S k)%nat with (S n + k)%nat by lia. split; [done|].
    exists before. split; [|done]. destruct k; [by exists b0, q0|done].
Qed.

(** What the proposed parameters of a batch say of the executed blocks. *)
Definition batch_bound (bi : GuestBatchInput Tx) (fb : list (EthBlock Tx)) (i : BatchInfo) : Prop :=
  (length (blocks i) <= length fb)%nat /\
  (exists lb, last fb = Some lb /\ number (block_header lb) = lastBlockId i /\
     timestamp (block_header lb) = lastBlockTimestamp i) /\
  number (batch_l1_header (batch_taiko bi)) = anchorBlockId i /\
  hash_slow (batch_l1_header (batch_taiko bi)) = anchorBlockHash i /\
  (forall k prm, blocks i !! k = Some prm ->
     exists input tx, inputs bi !! k = Some input /\ anchor_tx (taiko input) = Some tx /\
       decode_anchor_pacaya tx = Some (signalSlots prm)) /\
  (forall k b b' prm, fb !! k = Some b -> fb !! S k = Some b' -> blocks i !! S k = Some prm ->
     timestamp (block_header b') = timestamp (block_header b) + timeShift prm).

Lemma from_batch_inputs_Ok bi fb p m :
  batch_proposed (batch_taiko bi) = Pacaya p -> from_batch_inputs (P := P) bi fb = Ok m ->
  exists i, m = MetaPacaya (mkBatchMetadata (keccak (abi_encode_batch_info i)) (proposer (meta p))
                             (batch_id (batch_taiko bi)) (proposedAt (meta p))) /\
    (blocks i = blocks (info p) -> batch_bound bi fb i) /\ blobHashes i = blobHashes (info p).
Proof.
  intros Hp Hm. unfold from_batch_inputs in Hm. rewrite Hp in Hm. bind_inv.
  eexists. split; [done|]. cbn [blocks blobHashes]. split; [|done]. intros Hbl.
  destruct (head fb) as [b0|] eqn:Eh; [|done]. destruct (last fb) as [lb|] eqn:El; [|done]. simplify_eq/=.
  pose proof (block_params_fold_Ok _ _ _ _ _ Eb2) as [Hlen Hk].
  rewrite length_zip_with in Hlen.
  split; [simpl; lia|].
  split; [by eexists|]. split; [done|]. split; [done|]. cbn [blocks]. split.
  - intros k prm Hprm. assert (k < length (blocks (info p)))%nat as Hlt by (by eapply lookup_lt_Some).
    destruct (lookup_lt_is_Some_2 fb k) as [b Hb]; [lia|].
    destruct (Hk k prm b prm Hprm) as (_ & Hin & _); [|done]. rewrite lookup_zip_with, Hb, Hprm. done.
  - intros k b b' prm Hb Hb' Hprm.
    destruct (Hk (S k) prm b' prm Hprm) as (_ & _ & before & (b1 & q1 & Hz & ->) & Hts & _).
    { rewrite lookup_zip_with, Hb', Hprm. done. }
    rewrite lookup_zip_with, Hb in Hz. destruct (blocks (info p) !! k); simplify_eq/=. done.
Qed.

Lemma check_chain_specs_Ok l : check_chain_specs (P := P) l = Ok () ->
  Forall (fun input => spec_verified (chain_spec input)) l.
Proof.
  induction l as [|x l IH]; simpl; [constructor|]. intros Hc. bind_inv. destruct a.
  constructor; [by apply check_chain_spec_Ok|auto].
Qed.

(** C6: a protocol instance of a Taiko batch that is constructed binds the proof
    to the proposal, whose metadata hashes its own information as the contract
    does: the parameters the batch was proposed with describe the executed
    blocks (last id and timestamp, time shifts between consecutive blocks, the
    signal slots of the anchor transactions, the anchor block), and every chain
    specification is the built-in one of its chain id. *)
Theorem batch_instance_sound `{!ProtocolLaws} bi fb pt pi p input :
  inputs bi !! 0%nat = Some input -> is_taiko (chain_spec input) = true ->
  batch_proposed (batch_taiko bi) = Pacaya p ->
  infoHash (meta p) = keccak (abi_encode_batch_info (info p)) ->
  ProtocolInstance_new_batch bi fb pt = Ok pi ->
  batch_bound bi fb (info p) /\ batchId (meta p) = batch_id (batch_taiko bi) /\
  block_metadata pi = MetaPacaya (meta p) /\
  Forall (fun input => spec_verified (chain_spec input)) (inputs bi).
Proof.
  intros Hin Ht Hp Hinfo Hn. unfold ProtocolInstance_new_batch in Hn. rewrite Hin, Hp in Hn. cbn [unwrap] in Hn.
  bind_inv. destruct a0, a4. cbn [block_metadata].
  pose proof (sanity_check_Ok _ _ _ Ht Eb4) as ->. cbn [proposed_metadata] in *.
  destruct (from_batch_inputs_Ok bi fb p _ Hp Eb3) as (i & Hm & Hbound & _).
  injection Hm as Hm. rewrite Hm in Hinfo. cbn [infoHash] in Hinfo.
  apply keccak_inj, abi_batch_info_inj in Hinfo. subst i.
  split_and!; [by apply Hbound|by rewrite Hm|done|by apply check_chain_specs_Ok].
Qed.

(** ** Blob data of a batch *)
Lemma verify_blobs_Forall t l : verify_blobs t l = Ok () ->
  Forall (fun '(blob, c, proof) => length c = 48%nat /\
    verify_blob t blob (commitment_to_version_hash c) c (Some proof) = Ok ()) l.
Proof.
  induction l as [|[[blob c] proof] l IH]; simpl; [constructor|]. intros Hv. bind_inv. destruct a0.
  apply to_group_Ok in Eb as [-> Hl]. constructor; auto.
Qed.

Lemma zip3_lookup {A B C} (l : list A) (k : list B) (m : list C) i :
  zip (zip l k) m !! i = (a ← l !! i; b ← k !! i; c ← m !! i; Some (a, b, c)).
Proof. rewrite !lookup_zip_with. destruct (l !! i), (k !! i), (m !! i); done. Qed.

(** When a batch carries a commitment and a proof for each of its blobs, the
    check verifies every blob against its commitment. *)
Theorem batch_blobs_verified (bi : GuestBatchInput Tx) pt cs ps :
  blob_commitments (batch_taiko bi) = Some cs -> blob_proofs (batch_taiko bi) = Some ps ->
  length cs = length (tx_data_from_blob (batch_taiko bi)) -> length ps = length cs ->
  verify_batch_mode_blob_usage bi pt = Ok () ->
  forall i blob, tx_data_from_blob (batch_taiko bi) !! i = Some blob ->
  exists c proof, cs !! i = Some c /\ ps !! i = Some proof /\ length c = 48%nat /\
    verify_blob (get_blob_proof_type pt (batch_blob_proof_type (batch_taiko bi))) blob
      (commitment_to_version_hash c) c (Some proof) = Ok ().
Proof.
  intros Hc Hp Hlc Hlp Hv i blob Hi. unfold verify_batch_mode_blob_usage in Hv. rewrite Hc, Hp in Hv.
  bind_inv. apply verify_blobs_Forall in Hv. pose proof (lookup_lt_Some _ _ _ Hi) as Hlt.
  destruct (lookup_lt_is_Some_2 cs i) as [c Hci]; [lia|]. destruct (lookup_lt_is_Some_2 ps i) as [q Hqi]; [lia|].
  rewrite Forall_lookup in Hv. specialize (Hv i (blob, c, q)). rewrite zip3_lookup in Hv. cbn [or_default] in Hv.
  rewrite Hi, Hci, Hqi in Hv. exists c, q. split_and!; [done|done|by apply Hv..].
Qed.

Definition with_blobs (bi : GuestBatchInput Tx) (blobs : list bytes) (cs ps : option (list bytes)) :
    GuestBatchInput Tx :=
  let t := batch_taiko bi in
  mkGuestBatchInput (inputs bi)
    (mkTaikoGuestBatchInput (batch_id t) (batch_l1_header t) (batch_proposed t) (batch_chain_spec t)
       (batch_prover_data t) (tx_data_from_calldata t) blobs cs ps (batch_blob_proof_type t)).

(** Nothing ties the blob data of a batch to its proposal. The blob hashes of
    the proposal are never compared with the commitments, and when one of the two
    optional lists is absent no blob is checked at all: any other blobs, with as
    many arbitrary commitments and no proofs (or arbitrary proofs and no
    commitments), give the same instance. *)
Theorem batch_instance_ignores_blobs bi fb pt pi blobs l :
  length l = length blobs -> ProtocolInstance_new_batch bi fb pt = Ok pi ->
  let bi' := match get_blob_proof_type pt (batch_blob_proof_type (batch_taiko bi)) with
             | KzgVersionedHash => with_blobs bi blobs (Some l) None
             | ProofOfEquivalence => with_blobs bi blobs None (Some l)
             end in
  ProtocolInstance_new_batch bi' fb pt = Ok pi.
Proof.
  intros Hl Hn bi'. unfold ProtocolInstance_new_batch in *.
  assert (verify_batch_mode_blob_usage bi' pt = Ok ()) as ->.
  { unfold verify_batch_mode_blob_usage, bi'.
    destruct (get_blob_proof_type pt (batch_blob_proof_type (batch_taiko bi))) eqn:Et; simpl; rewrite Et; simpl;
      rewrite Hl, Nat.eqb_refl; simpl; [by destruct (zip blobs l)|by destruct blobs]. }
  destruct (verify_batch_mode_blob_usage bi pt) as [[]| |]; try done. cbn in *.
  unfold bi'. by destruct (get_blob_proof_type pt (batch_blob_proof_type (batch_taiko bi))).
Qed.

(** ** The hash on chain *)

(** Equal instance hashes are for the same statement: the same chain,
    verifier, transition, SGX instance and metadata hash, and before Pacaya the
    same prover. For Pacaya the prover is not part of the hash. *)
Theorem instance_hash_binds `{!ProtocolLaws} p1 p2 :
  (instance_hash p1 = instance_hash p2 ->
   pi_chain_id p1 = pi_chain_id p2 /\ verifier_address p1 = verifier_address p2 /\
   sgx_instance p1 = sgx_instance p2 /\ meta_hash p1 = meta_hash p2 /\
   match transition p1, transition p2 with
   | (TrHekla t1 | TrOnTake t1), (TrHekla t2 | TrOnTake t2) => t1 = t2 /\ pi_prover p1 = pi_prover p2
   | TrPacaya t1, TrPacaya t2 => t1 = t2
   | _, _ => False
   end) /\
  forall t, transition p1 = TrPacaya t -> forall prover,
    instance_hash (mkProtocolInstance (transition p1) (block_metadata p1) prover (sgx_instance p1)
                     (pi_chain_id p1) (verifier_address p1)) = instance_hash p1.
Proof.
  split.
  - unfold instance_hash. intros Heq. apply keccak_inj, abi_instance_inj in Heq. unfold instance_tuple in Heq.
    destruct (transition p1), (transition p2); simplify_eq; by split_and!.
  - intros t Ht prover. unfold instance_hash, instance_tuple, meta_hash. simpl. by rewrite Ht.
Qed.
End properties.

(** the public output of an aggregation determines its program and public
    inputs: 32-byte words are concatenated without ambiguity. *)
Theorem aggregation_output_injective program program' ins ins' :
  length program = 32%nat -> length program' = 32%nat ->
  Forall (fun i => length i = 32%nat) ins -> Forall (fun i => length i = 32%nat) ins' ->
  aggregation_output program ins = aggregation_output program' ins' -> program = program' /\ ins = ins'.
Proof.
  unfold aggregation_output, aggregation_output_combine. simpl. intros Hp Hp' Hi Hi' Heq.
  apply app_inj_1 in Heq as [-> Heq]; [|lia]. split; [done|]. revert ins' Hi' Heq.
  induction Hi as [|x l Hx _ IH]; intros [|y l'] Hi' Heq; simpl in *; [done| | |].
  - apply Forall_cons in Hi' as [Hy _]. apply (f_equal length) in Heq. rewrite length_app in Heq. simpl in Heq. lia.
  - apply (f_equal length) in Heq. rewrite length_app in Heq. simpl in Heq. lia.
  - apply Forall_cons in Hi' as [Hy Hi']. apply app_inj_1 in Heq as [-> Heq]; [|lia]. f_equal. auto.
Qed.

(** ** A concrete library

    The identity as a hash and a numbering of values as the encoding satisfy the
    laws; the witnesses evaluate with them. *)
Section toy.
Definition toy_kzg : KzgLib := {|
  Fr := Z; G1 := bytes; G2 := Z; BlobFields := bytes; Poly := bytes;
  sha256 := fun b => b;
  blob_from_bytes := Some;
  blob_to_polynomial := Some;
  hash_to_bls_field := fun _ => 0;
  evaluate_polynomial := fun _ x => Ok x;
  fr_to_bytes := fun x => [x];
  fr_from_bytes_le := head;
  compute_kzg_proof_rust := fun f x => Ok (f, x);
  blob_to_kzg_commitment_rust := fun f => Ok (take 48 (f ++ replicate 48 0));
  g1_to_bytes := fun g => g;
  g1_from_compressed := Some;
  g1_generator := [];
  g1_mul := fun g _ => g;
  g1_sub := fun a _ => a;
  g2_generator := 0;
  g2_mul := fun g _ => g;
  g2_sub := fun a _ => a;
  secret_g2_1 := 0;
  pairings_verify := fun _ _ _ _ => true
|}.

(** A list of byte strings as one, each behind its length. *)
Definition ser (l : list bytes) : bytes := concat ((fun x => Z.of_nat (length x) :: x) <$> l).

Lemma ser_inj a b : ser a = ser b -> a = b.
Proof.
  revert b. induction a as [|x a IH]; intros [|y b] Heq; simpl in Heq; simplify_eq; [done|].
  match goal with H : _ ++ _ = _ ++ _ |- _ => apply app_inj_1 in H as [-> H]; [|lia]; apply IH in H as -> end. done.
Qed.

Definition bit (b : bool) : bytes := [if b then 1 else 0].

Definition meta_fields (m : BlockMetadata) : list bytes :=
  [bm_l1Hash m; bm_difficulty m; bm_blobHash m; bm_extraData m; bm_depositsHash m; bm_coinbase m; [bm_id m];
   [bm_gasLimit m]; [bm_timestamp m]; [bm_l1Height m]; [bm_minTier m]; bit (bm_blobUsed m);
   bm_parentMetaHash m; bm_sender m].
Definition meta2_fields (m : BlockMetadataV2) : list bytes :=
  let c := m2_baseFeeConfig m in
  [m2_anchorBlockHash m; m2_difficulty m; m2_blobHash m; m2_extraData m; m2_coinbase m; [m2_id m]; [m2_gasLimit m];
   [m2_timestamp m]; [m2_anchorBlockId m]; [m2_minTier m]; bit (m2_blobUsed m); m2_parentMetaHash m; m2_proposer m;
   [m2_livenessBond m]; [m2_proposedAt m]; [m2_proposedIn m]; [m2_blobTxListOffset m]; [m2_blobTxListLength m];
   [m2_blobIndex m]; [obf_adjustmentQuotient c]; [obf_sharingPctg c]; [obf_gasIssuancePerSecond c];
   [obf_minGasExcess c]; [obf_maxGasIssuancePerBlock c]].
Definition batch_meta_fields (m : BatchMetadata) : list bytes :=
  [infoHash m; proposer m; [batchId m]; [proposedAt m]].
Definition params_fields (p : BlockParams) : bytes :=
  ser [[numTransactions p]; [timeShift p]; ser (signalSlots p)].
Definition batch_info_fields (i : BatchInfo) : list bytes :=
  let c := baseFeeConfig i in
  [txsHash i; ser (params_fields <$> blocks i); ser (blobHashes i); extraData i; coinbase i; [proposedIn i];
   [blobCreatedIn i]; [blobByteOffset i]; [blobByteSize i]; [gasLimit i]; [lastBlockId i]; [lastBlockTimestamp i];
   [anchorBlockId i]; anchorBlockHash i; [bf_adjustmentQuotient c]; [bf_sharingPctg c];
   [bf_gasIssuancePerSecond c]; [bf_minGasExcess c]; [bf_maxGasIssuancePerBlock c]].
Definition tuple_fields (t : InstanceTuple) : list bytes :=
  match t with
  | Tuple7 s c v t g p m =>
      [[Zpos (encode s)]; [c]; v; tr_parentHash t; tr_blockHash t; tr_stateRoot t; tr_graffiti t; g; p; m]
  | Tuple6 s c v t g m => [[Zpos (encode s)]; [c]; v; pt_parentHash t; pt_blockHash t; pt_stateRoot t; g; m]
  end.

#[local] Instance params_fields_inj : Inj (=) (=) params_fields.
Proof.
  intros [] [] Heq. apply ser_inj in Heq. simplify_eq/=.
  match goal with H : ser _ = ser _ |- _ => apply ser_inj in H as -> end. done.
Qed.

Definition toy_protocol : ProtocolLib bytes := {|
  keccak := fun b => b;
  hash_slow := fun h => [number h];
  abi_encode_meta := fun m => ser (meta_fields m);
  abi_encode_meta2 := fun m => ser (meta2_fields m);
  abi_encode_batch_meta := fun m => ser (batch_meta_fields m);
  abi_encode_batch_info := fun i => ser (batch_info_fields i);
  abi_encode_txs := fun p => replicate 32 0 ++ p.1 ++ concat p.2;
  abi_encode_instance := fun t => replicate 32 0 ++ ser (tuple_fields t);
  decode_anchor_pacaya := fun tx => Some [tx];
  ANCHOR_GAS_LIMIT := 250000;
  default_specs := ∅
|}.

Lemma toy_laws : ProtocolLaws (P := toy_protocol).
Proof.
  split; [done|intros a b Heq; apply ser_inj in Heq..].
  - destruct a, b. simplify_eq/=. by repeat match goal with x : bool |- _ => destruct x end; simplify_eq.
  - destruct a as [? ? ? ? ? ? ? ? ? ? ? ? ? ? ? ? ? ? ? []], b as [? ? ? ? ? ? ? ? ? ? ? ? ? ? ? ? ? ? ? []].
    simplify_eq/=. by repeat match goal with x : bool |- _ => destruct x end; simplify_eq.
  - destruct a, b. by simplify_eq/=.
  - destruct a as [? ? ? ? ? ? ? ? ? ? ? ? ? ? []], b as [? ? ? ? ? ? ? ? ? ? ? ? ? ? []]. simplify_eq/=.
    repeat match goal with H : ser _ = ser _ |- _ => apply ser_inj in H end. simplify_eq. done.
  - destruct a as [? ? ? t|? ? ? t], b as [? ? ? t'|? ? ? t']; unfold tuple_fields in Heq; simplify_eq; destruct t, t'; by simplify_eq/=.
Qed.
End toy.

(** ** Witnesses *)
#[local] Existing Instance toy_kzg.
#[local] Existing Instance toy_protocol.
#[local] Existing Instance toy_laws.

Definition toy_chain : ChainSpec := new_single "taiko_mainnet" 167000 1 Eip1559Constants_default true.
Definition toy_header (n ts : Z) : Header :=
  mkHeader [n - 1] [] [7] [n; 1] [] [] None [] 0 n 250100 0 ts [] 0 None [3].

Definition toy_meta2 : BlockMetadataV2 :=
  mkBlockMetadataV2 [50] [] [1; 2] (bytes_to_bytes32 [3]) [7] 9 100 10 50 0 false [] [] 0 0 0 0 0 0
    (mkOntakeBaseFeeConfig 0 0 0 0 0).
Definition toy_input : GuestInput bytes :=
  mkGuestInput (mkBlock (toy_header 9 10) [] []) toy_chain (toy_header 8 8) Mpt.default ∅ [] []
    (mkTaikoGuestInput (toy_header 50 1) [1; 2] (Some [4]) (Ontake (mkBlockProposedV2 9 toy_meta2))
       (mkTaikoProverData [6] [5]) None None KzgVersionedHash).
Definition toy_instance : ProtocolInstance :=
  mkProtocolInstance (TrOnTake (mkTransition [8] [9] [9; 1] [5])) (MetaOntake toy_meta2) [6] Address_default
    167000 Address_default.

Lemma toy_new : ProtocolInstance_new toy_input (toy_header 9 10) Sgx = Ok toy_instance.
Proof. vm_compute. reflexivity. Qed.


Definition toy_blob : bytes := [1; 2; 3].
Definition toy_commitment : bytes := toy_blob ++ replicate 45 0.
Definition toy_batch_info : BatchInfo :=
  mkBatchInfo [8; 8] [mkBlockParams 1 0 [[4]]; mkBlockParams 2 2 [[4]]] [[8; 8]] [] [] 0 0 0 0 0 10 12 50 [50]
    (mkBaseFeeConfig 0 0 0 0 0).
Definition toy_batch_proposed : BatchProposed :=
  mkBatchProposed toy_batch_info (mkBatchMetadata (ser (batch_info_fields toy_batch_info)) [] 3 0) [].
Definition toy_batch : GuestBatchInput bytes :=
  mkGuestBatchInput [toy_input; toy_input]
    (mkTaikoGuestBatchInput 3 (toy_header 50 1) (Pacaya toy_batch_proposed) toy_chain (mkTaikoProverData [6] [5])
       [] [toy_blob] (Some [toy_commitment]) (Some [[0]]) KzgVersionedHash).
Definition toy_blocks : list (EthBlock bytes) :=
  [mkBlock (toy_header 9 10) [] []; mkBlock (toy_header 10 12) [] []].
Definition toy_batch_instance : ProtocolInstance :=
  mkProtocolInstance (TrPacaya (mkPacayaTransition [8] [10] [10; 1])) (MetaPacaya (meta toy_batch_proposed)) [6]
    Address_default 167000 Address_default.

Lemma toy_new_batch : ProtocolInstance_new_batch toy_batch toy_blocks Sgx = Ok toy_batch_instance.
Proof. vm_compute. reflexivity. Qed.

Lemma toy_info_hash :
  infoHash (meta toy_batch_proposed) = keccak (abi_encode_batch_info (info toy_batch_proposed)).
Proof. vm_compute. reflexivity. Qed.

Lemma batch_instance_sound_witness : batch_bound toy_batch toy_blocks toy_batch_info.
Proof.
  exact (proj1 (batch_instance_sound toy_batch toy_blocks Sgx toy_batch_instance toy_batch_proposed toy_input
    eq_refl eq_refl eq_refl toy_info_hash toy_new_batch)).
Defined.

Lemma toy_blobs_verified : verify_batch_mode_blob_usage toy_batch Sgx = Ok ().
Proof. vm_compute. reflexivity. Qed.

Lemma batch_blobs_verified_witness : exists c proof,
  [toy_commitment] !! 0%nat = Some c /\ [[0]] !! 0%nat = Some proof /\ length c = 48%nat /\
  verify_blob KzgVersionedHash toy_blob (commitment_to_version_hash c) c (Some proof) = Ok ().
Proof.
  exact (batch_blobs_verified toy_batch Sgx [toy_commitment] [[0]] eq_refl eq_refl eq_refl eq_refl
    toy_blobs_verified 0%nat toy_blob eq_refl).
Defined.

Lemma batch_instance_ignores_blobs_witness :
  ProtocolInstance_new_batch (with_blobs toy_batch [[66; 66]; [77]] (Some [[]; []]) None) toy_blocks Sgx =
  Ok toy_batch_instance.
Proof.
  exact (batch_instance_ignores_blobs toy_batch toy_blocks Sgx toy_batch_instance [[66; 66]; [77]] [[]; []]
    eq_refl toy_new_batch).
Defined.

Lemma instance_hash_binds_witness :
  pi_chain_id toy_instance = pi_chain_id toy_instance.
Proof. exact (proj1 (proj1 (instance_hash_binds toy_instance toy_instance) eq_refl)). Defined.

Lemma aggregation_output_injective_witness :
  B256_default = B256_default /\ [replicate 32 7] = [replicate 32 7].
Proof.
  assert (Forall (fun i => length i = 32%nat) [replicate 32 7]) as Hf by (repeat constructor).
  exact (aggregation_output_injective B256_default B256_default [replicate 32 7] [replicate 32 7] eq_refl eq_refl
    Hf Hf eq_refl).
Defined.
