(* ===== verification/MemDb.v ===== *)
(** The in-memory EVM database of the guest ([lib/src/mem_db.rs]): account and
    storage lookups, and the commit of the changes of an executed block. The
    account, its flags and its storage slots are types of the EVM library: the
    records keep the fields the code uses, and the library's notion of an empty
    account is a parameter. The debug assertions are compiled out of a release
    build. *)

From stdpp Require Import base list list_numbers gmap fin_maps strings.
From Stdlib Require Import ZArith Lia.
From S2P Require Import Prelude.
Open Scope Z_scope.

(** ** Library types *)
Record AccountInfo := mkAccountInfo {
  balance : Z;
  nonce_ : Z;
  code_hash : bytes;
  code : option bytes
}.
#[global] Instance AccountInfo_eq_dec : EqDecision AccountInfo.
Proof. solve_decision. Defined.

(** Two infos are equal up to the loaded code, as the library compares them. *)
Definition info_eqb (a b : AccountInfo) : bool :=
  (balance a =? balance b) && (nonce_ a =? nonce_ b) && bool_decide (code_hash a = code_hash b).

Record EvmStorageSlot := mkSlot { original_value : Z; present_value : Z }.
Definition is_changed (s : EvmStorageSlot) : bool := negb (original_value s =? present_value s).

Record Account := mkAccount {
  new_info : AccountInfo;
  new_storage : gmap Z EvmStorageSlot;
  is_touched : bool;
  is_selfdestructed : bool;
  is_created : bool
}.

(** What [AccountInfo::default()] and [Account::is_empty] are in the library. *)
Class EvmAccounts := {
  AccountInfo_default : AccountInfo;
  info_is_empty : AccountInfo -> bool
}.

(** ** The database *)
Inductive AccountState : Type := Deleted | Touched | StorageCleared | NotTouched.
#[global] Instance AccountState_eq_dec : EqDecision AccountState.
Proof. solve_decision. Defined.

Record DbAccount := mkDbAccount {
  db_info : AccountInfo;
  db_state : AccountState;
  db_storage : gmap Z Z
}.

Definition DbAccount_new (info : AccountInfo) : DbAccount := mkDbAccount info NotTouched ∅.

Definition info_of (a : DbAccount) : option AccountInfo :=
  if decide (db_state a = Deleted) then None else Some (db_info a).

Record MemDb := mkMemDb {
  accounts : gmap bytes DbAccount;
  block_hashes : gmap Z bytes
}.

Inductive ProviderError : Type :=
| BestBlockNotFound
| RpcError (e : string)
| BlockNumberOverflow (n : Z).
#[global] Instance ProviderError_eq_dec : EqDecision ProviderError.
Proof. solve_decision. Defined.

Definition accounts_len (db : MemDb) : nat := size (accounts db).

Definition storage_keys (db : MemDb) : gmap bytes (gset Z) := (fun a => dom (db_storage a)) <$> accounts db.

Definition insert_account_info (db : MemDb) (address : bytes) (info : AccountInfo) : outcome ProviderError MemDb :=
  match accounts db !! address with
  | Some entry => if info_eqb info (db_info entry) then Ok db else Panic
  | None => Ok (mkMemDb (<[address := DbAccount_new info]> (accounts db)) (block_hashes db))
  end.

Definition insert_account_storage (db : MemDb) (address : bytes) (index data : Z) : outcome ProviderError MemDb :=
  match accounts db !! address with
  | Some a =>
      Ok (mkMemDb (<[address := mkDbAccount (db_info a) (db_state a) (<[index := data]> (db_storage a))]> (accounts db))
            (block_hashes db))
  | None => Panic
  end.

Definition insert_block_hash (db : MemDb) (block_no : Z) (h : bytes) : outcome ProviderError MemDb :=
  match block_hashes db !! block_no with
  | Some e => if bool_decide (h = e) then Ok db else Panic
  | None => Ok (mkMemDb (accounts db) (<[block_no := h]> (block_hashes db)))
  end.

(** [HashMap::extend]: the right-hand entries win. *)
Definition extend {K A} `{Countable K} (m other : gmap K A) : gmap K A := other ∪ m.

Fixpoint merge_accounts (l : list (bytes * DbAccount)) (m : gmap bytes DbAccount) :
    outcome ProviderError (gmap bytes DbAccount) :=
  match l with
  | [] => Ok m
  | (address, account) :: rest =>
      match m !! address with
      | Some e =>
          if info_eqb (db_info e) (db_info account) && bool_decide (db_state e = db_state account) then
            merge_accounts rest
              (<[address := mkDbAccount (db_info e) (db_state e) (extend (db_storage e) (db_storage account))]> m)
          else Panic
      | None => merge_accounts rest (<[address := account]> m)
      end
  end.

Definition merge (db other : MemDb) : outcome ProviderError MemDb :=
  accs ← merge_accounts (map_to_list (accounts other)) (accounts db);
  Ok (mkMemDb accs (extend (block_hashes db) (block_hashes other))).

(** ** Reads *)
Definition basic (db : MemDb) (address : bytes) : outcome ProviderError (option AccountInfo) :=
  match accounts db !! address with
  | Some a => Ok (info_of a)
  | None => Err BestBlockNotFound
  end.

(** Never called, since the code is loaded with the account. *)
Definition code_by_hash (db : MemDb) (h : bytes) : outcome ProviderError bytes := Panic.

Definition storage (db : MemDb) (address : bytes) (index : Z) : outcome ProviderError Z :=
  match accounts db !! address with
  | Some account =>
      match db_storage account !! index with
      | Some value => Ok value
      | None =>
          match db_state account with
          | Deleted => Panic
          | StorageCleared => Ok 0
          | _ => Err BestBlockNotFound
          end
      end
  | None => Err BestBlockNotFound
  end.

Definition block_hash (db : MemDb) (number : Z) : outcome ProviderError bytes :=
  if number <=? u64_max then ok_or (block_hashes db !! number) BestBlockNotFound else Panic.

(** ** Commit *)
Section commit.
Context `{EvmAccounts}.

Definition deleted_account : DbAccount := mkDbAccount AccountInfo_default Deleted ∅.

(** The changed slots of an account with their new values. *)
Definition changed_values (s : gmap Z EvmStorageSlot) : gmap Z Z :=
  present_value <$> filter (fun kv => is_changed kv.2 = true) s.

(** The end of the loop body: state and storage of the account [a] that now has
    the new info. *)
Definition update_account (new : Account) (a : DbAccount) : DbAccount :=
  let '(storage0, state0) :=
    if is_created new then (∅, StorageCleared)
    else if decide (db_state a = StorageCleared) then (db_storage a, StorageCleared)
    else (db_storage a, Touched) in
  mkDbAccount (db_info a) state0 (extend storage0 (changed_values (new_storage new))).

(** The effect of one change on the entry of its address. *)
Definition commit_entry (new : Account) (entry : option DbAccount) : option DbAccount :=
  if negb (is_touched new) then entry
  else if is_selfdestructed new then
    match entry with Some _ => Some deleted_account | None => None end
  else
    match entry with
    | Some a =>
        if info_is_empty (new_info new) then Some deleted_account
        else Some (update_account new (mkDbAccount (new_info new) (db_state a) (db_storage a)))
    | None =>
        if info_is_empty (new_info new) then None
        else Some (update_account new (DbAccount_new (new_info new)))
    end.

Fixpoint commit_loop (changes : list (bytes * Account)) (accs : gmap bytes DbAccount) : gmap bytes DbAccount :=
  match changes with
  | [] => accs
  | (address, new) :: rest => commit_loop rest (partial_alter (commit_entry new) address accs)
  end.

Definition commit (db : MemDb) (changes : gmap bytes Account) : MemDb :=
  mkMemDb (commit_loop (map_to_list changes) (accounts db)) (block_hashes db).
End commit.

(** ** Properties *)
Section properties.
Context `{EvmAccounts}.

Lemma commit_loop_lookup l accs a :
  NoDup l.*1 ->
  commit_loop l accs !! a =
  match (list_to_map l : gmap bytes Account) !! a with
  | Some new => commit_entry new (accs !! a)
  | None => accs !! a
  end.
Proof.
  revert accs. induction l as [|[x new] l IH]; intros accs Hnd; simpl; [by rewrite lookup_empty|].
  apply NoDup_cons in Hnd as [Hni Hnd]. rewrite IH by done. destruct (decide (a = x)) as [->|Hne].
  - rewrite lookup_insert_eq, lookup_partial_alter_eq.
    rewrite (proj1 (not_elem_of_list_to_map (M := gmap bytes) l x)) by done. done.
  - by rewrite lookup_insert_ne, lookup_partial_alter_ne by done.
Qed.

Lemma commit_lookup db changes a :
  accounts (commit db changes) !! a =
  match changes !! a with
  | Some new => commit_entry new (accounts db !! a)
  | None => accounts db !! a
  end.
Proof.
  unfold commit. cbn [accounts]. rewrite commit_loop_lookup by apply NoDup_fst_map_to_list.
  by rewrite list_to_map_to_list.
Qed.

(** After a block is committed, an account that it changed reads back with
    its new info, a changed slot with its present value, and any other slot as
    zero when the account was created in the block and as before when it was
    not (a missing slot of an account deleted earlier is an uncached load); accounts that were destroyed or left empty read as absent, and every
    other account as before. The order in which the map of changes is traversed
    does not matter. *)
Theorem commit_reads db changes a :
  (forall l, l ≡ₚ map_to_list changes -> commit_loop l (accounts db) = accounts (commit db changes)) /\
  match changes !! a with
  | Some new =>
      if negb (is_touched new) then
        basic (commit db changes) a = basic db a /\
        forall k, storage (commit db changes) a k = storage db a k
      else if is_selfdestructed new || info_is_empty (new_info new) then
        basic (commit db changes) a = (_ ← basic db a; Ok None)
      else
        basic (commit db changes) a = Ok (Some (new_info new)) /\
        forall k, storage (commit db changes) a k =
          match changed_values (new_storage new) !! k with
          | Some v => Ok v
          | None =>
              if is_created new then Ok 0
              else match storage db a k with Panic => Err BestBlockNotFound | r => r end
          end
  | None => basic (commit db changes) a = basic db a /\
            forall k, storage (commit db changes) a k = storage db a k
  end.
Proof.
  split.
  { intros l Hl. apply map_eq. intros x. unfold commit. cbn [accounts].
    assert (NoDup l.*1) as Hnd by (rewrite Hl; apply NoDup_fst_map_to_list).
    rewrite !commit_loop_lookup by (done || apply NoDup_fst_map_to_list).
    rewrite list_to_map_to_list. rewrite (list_to_map_proper l (map_to_list changes)) by done.
    by rewrite list_to_map_to_list. }
  unfold basic, storage. rewrite commit_lookup. destruct (changes !! a) as [new|]; [|done].
  unfold commit_entry. destruct (is_touched new); [|done]. cbn [negb].
  destruct (is_selfdestructed new); cbn [orb]; [by destruct (accounts db !! a)|].
  destruct (info_is_empty (new_info new)); [by destruct (accounts db !! a)|].
  destruct (accounts db !! a) as [[i st sto]|] eqn:Ee; unfold update_account, extend, info_of; simpl.
  - split; [by destruct (is_created new), st|]. intros k.
    destruct (is_created new), st; simpl; rewrite lookup_union, ?lookup_empty;
      destruct (changed_values (new_storage new) !! k) as [v|]; simpl; try done; by destruct (sto !! k).
  - split; [by destruct (is_created new)|]. intros k.
    destruct (is_created new); simpl; rewrite lookup_union, lookup_empty;
      by destruct (changed_values (new_storage new) !! k) as [v|].
Qed.
End properties.
