(* ===== verification/ProviderDb.v ===== *)
(** * ProviderDb: the database that fetches what an execution reads

    Models [core/src/provider/db.rs], the provider trait of
    [core/src/provider/mod.rs] and [execute_txs] of [core/src/preflight/util.rs].
    A provider is a service that may answer the same question differently, or
    not at all, at another time: its operations take the number of calls made so
    far. An execution is the tree of the reads that it makes; the transactions,
    the EVM and the checks of the block are the executor's, which is a
    parameter. *)
From stdpp Require Import base list list_numbers gmap fin_maps strings.
From Stdlib Require Import ZArith Lia.
From S2P Require Import Prelude Effect Types Interfaces ChainSpec MptProof Input MemDb.
Local Open Scope Z_scope.

(** ** Providers *)

(** A block as the RPC library returns it: the number and the hash are optional,
    two fields of the header are used as they are, the header is converted to the client's header or is not convertible, and the
    transactions are there, encoded, when the full block was asked for. *)
Record RpcBlock := mkRpcBlock {
  rpc_number : option Z;
  rpc_hash : option bytes;
  rpc_state_root : bytes;
  rpc_timestamp : Z;
  rpc_header : option Header;
  rpc_transactions : option (list bytes)
}.

Abbreviation MerkleProof := (gmap bytes AccountProof) (only parsing).

Class BlockDataProvider := {
  get_blocks : nat -> list (Z * bool) -> RaikoResult (list RpcBlock);
  get_accounts : nat -> Z -> list bytes -> RaikoResult (list AccountInfo);
  get_storage_values : nat -> Z -> list (bytes * Z) -> RaikoResult (list Z);
  get_merkle_proofs : nat -> Z -> gmap bytes (list Z) -> Z -> Z -> RaikoResult MerkleProof
}.

(** ** The database *)
Record ProviderDb := mkProviderDb {
  pdb_block_number : Z;
  initial_db : MemDb;
  initial_headers : gmap Z Header;
  current_db : MemDb;
  optimistic : bool;
  staging_db : MemDb;
  pending_accounts : gset bytes;
  pending_slots : gset (bytes * Z);
  pending_block_hashes : gset Z;
  calls : nat
}.

Definition MemDb_default : MemDb := mkMemDb ∅ ∅.

Definition with_initial (m : MemDb) (db : ProviderDb) : ProviderDb :=
  mkProviderDb (pdb_block_number db) m (initial_headers db) (current_db db) (optimistic db) (staging_db db)
    (pending_accounts db) (pending_slots db) (pending_block_hashes db) (calls db).
Definition with_headers (h : gmap Z Header) (db : ProviderDb) : ProviderDb :=
  mkProviderDb (pdb_block_number db) (initial_db db) h (current_db db) (optimistic db) (staging_db db)
    (pending_accounts db) (pending_slots db) (pending_block_hashes db) (calls db).
Definition with_current (m : MemDb) (db : ProviderDb) : ProviderDb :=
  mkProviderDb (pdb_block_number db) (initial_db db) (initial_headers db) m (optimistic db) (staging_db db)
    (pending_accounts db) (pending_slots db) (pending_block_hashes db) (calls db).
Definition with_optimistic (o : bool) (db : ProviderDb) : ProviderDb :=
  mkProviderDb (pdb_block_number db) (initial_db db) (initial_headers db) (current_db db) o (staging_db db)
    (pending_accounts db) (pending_slots db) (pending_block_hashes db) (calls db).
Definition with_staging (m : MemDb) (db : ProviderDb) : ProviderDb :=
  mkProviderDb (pdb_block_number db) (initial_db db) (initial_headers db) (current_db db) (optimistic db) m
    (pending_accounts db) (pending_slots db) (pending_block_hashes db) (calls db).
Definition with_pending (a : gset bytes) (s : gset (bytes * Z)) (h : gset Z) (db : ProviderDb) : ProviderDb :=
  mkProviderDb (pdb_block_number db) (initial_db db) (initial_headers db) (current_db db) (optimistic db)
    (staging_db db) a s h (calls db).
Definition tick (db : ProviderDb) : ProviderDb :=
  mkProviderDb (pdb_block_number db) (initial_db db) (initial_headers db) (current_db db) (optimistic db)
    (staging_db db) (pending_accounts db) (pending_slots db) (pending_block_hashes db) (S (calls db)).

Abbreviation PdbM E := (St ProviderDb E) (only parsing).

(** A question to the provider. *)
Definition ask {E A} (f : nat -> Z -> outcome E A) : PdbM E A :=
  fun db => (tick db, f (calls db) (pdb_block_number db)).

Definition is_valid_run (db : ProviderDb) : bool :=
  bool_decide (pending_accounts db = ∅) && bool_decide (pending_slots db = ∅) &&
  bool_decide (pending_block_hashes db = ∅).

(** Writes to the databases; their assertions may panic. *)
Definition on_initial {E} (f : MemDb -> outcome ProviderError MemDb) : PdbM E () :=
  updates (fun db => m ← unwrap_ok (f (initial_db db)); Ok (with_initial m db)).
Definition on_staging {E} (f : MemDb -> outcome ProviderError MemDb) : PdbM E () :=
  updates (fun db => m ← unwrap_ok (f (staging_db db)); Ok (with_staging m db)).

Section provider.
Context {P : BlockDataProvider}.

(** *** Construction *)
Definition history_blocks (block_number : Z) : list Z :=
  let start := saturating_sub block_number 255 in seqZ start (block_number - start + 1).

Definition record_history (block : RpcBlock) : PdbM RaikoError () :=
  number ← lift (ok_or (rpc_number block) (RPC "No block number"));
  hash ← lift (ok_or (rpc_hash block) (RPC "No block hash"));
  _ ← on_initial (fun m => insert_block_hash m number hash);
  header ← lift (unwrap (rpc_header block));
  modify (fun db => with_headers (<[number := header]> (initial_headers db)) db).

Fixpoint for_each {S E A} (f : A -> St S E ()) (l : list A) : St S E () :=
  match l with
  | [] => mret tt
  | a :: l' => _ ← f a; for_each f l'
  end.

Definition ProviderDb_new (chain_spec : ChainSpec) (block_number : Z)
    (initial : option (MemDb * gmap Z Header)) : ProviderDb * outcome RaikoError () :=
  let '(m, h) := default (MemDb_default, ∅) initial in
  (if is_taiko chain_spec then
     absent ← gets (fun db =>
       filter (fun bn => block_hashes (initial_db db) !! bn.1 = None)
         ((fun n => (n, false)) <$> history_blocks block_number));
     blocks ← ask (fun t _ => get_blocks t absent);
     for_each record_history blocks
   else mret tt)
  (mkProviderDb block_number m h MemDb_default false m ∅ ∅ ∅ 0).

(** *** Reads *)

(** What optimistic execution is given for an account it has to wait for. *)
Section reads.
Variable empty_code_hash : bytes.

Definition placeholder : AccountInfo := mkAccountInfo 0 u64_max empty_code_hash (Some []).

(** [if let Ok(r) = db.read() { return Ok(r) }]. *)
Definition or_read {S E A} (m : outcome ProviderError A) (found : A -> St S E A) (next : St S E A) : St S E A :=
  match m with Ok a => found a | Panic => lift Panic | Err _ => next end.

Definition rpc_err (e : RaikoError) : ProviderError := RpcError (RaikoError_to_string e).

Definition pdb_basic (address : bytes) : PdbM ProviderError (option AccountInfo) := fun db =>
  or_read (basic (current_db db) address) mret
  (or_read (basic (initial_db db) address) mret
  (or_read (basic (staging_db db) address) (fun r =>
     _ ← (if is_valid_run db then
            info ← lift (unwrap r); on_initial (fun m => insert_account_info m address info)
          else mret tt);
     mret r)
  (if optimistic db then
     _ ← modify (fun db => with_pending ({[address]} ∪ pending_accounts db) (pending_slots db)
                             (pending_block_hashes db) db);
     mret (Some placeholder)
   else
     accounts ← ask (fun t bn => map_err rpc_err (get_accounts t bn [address]));
     account ← lift (ok_or (head accounts) (RpcError "No account"));
     _ ← on_initial (fun m => insert_account_info m address account);
     mret (Some account)))) db.

Definition pdb_storage (address : bytes) (index : Z) : PdbM ProviderError Z := fun db =>
  or_read (storage (current_db db) address index) mret
  (or_read (storage (initial_db db) address index) mret
  (or_read (storage (staging_db db) address index) (fun v =>
     _ ← (if is_valid_run db then on_initial (fun m => insert_account_storage m address index v) else mret tt);
     mret v)
  (if optimistic db then
     _ ← pdb_basic address;
     _ ← modify (fun db => with_pending (pending_accounts db) ({[(address, index)]} ∪ pending_slots db)
                             (pending_block_hashes db) db);
     mret 0
   else
     _ ← lift (basic (initial_db db) address);
     values ← ask (fun t bn => map_err rpc_err (get_storage_values t bn [(address, index)]));
     value ← lift (ok_or (head values) (RpcError "No storage value"));
     _ ← on_initial (fun m => insert_account_storage m address index value);
     mret value))) db.

Definition pdb_block_hash (number : Z) : PdbM ProviderError bytes := fun db =>
  if u64_max <? number then (db, Err (BlockNumberOverflow number)) else
  or_read (block_hash (initial_db db) number) mret
  (or_read (block_hash (staging_db db) number) (fun h =>
     _ ← (if is_valid_run db then on_initial (fun m => insert_block_hash m number h) else mret tt);
     mret h)
  (if optimistic db then
     _ ← modify (fun db => with_pending (pending_accounts db) (pending_slots db)
                             ({[number]} ∪ pending_block_hashes db) db);
     mret B256_default
   else
     blocks ← ask (fun t _ => map_err rpc_err (get_blocks t [(number, false)]));
     block ← lift (ok_or (head blocks) (RpcError "No block"));
     hash ← lift (ok_or (rpc_hash block) (RpcError "No block hash"));
     _ ← on_initial (fun m => insert_block_hash m number hash);
     mret hash)) db.
End reads.

Definition pdb_commit `{EvmAccounts} (changes : gmap bytes Account) (db : ProviderDb) : ProviderDb :=
  with_current (commit (current_db db) changes) db.

(** *** Fetching what optimistic execution missed *)

(** [take(&mut self.pending)]: the entries, in the order of the request. *)
Definition stage_accounts (accounts : list AccountInfo) : PdbM RaikoError () :=
  pending ← gets (fun db => elements (pending_accounts db));
  _ ← modify (fun db => with_pending ∅ (pending_slots db) (pending_block_hashes db) db);
  for_each (fun '(address, account) => on_staging (fun m => insert_account_info m address account))
    (zip pending accounts).

Definition stage_slots (values : list Z) : PdbM RaikoError () :=
  pending ← gets (fun db => elements (pending_slots db));
  _ ← modify (fun db => with_pending (pending_accounts db) ∅ (pending_block_hashes db) db);
  for_each (fun '((address, index), value) => on_staging (fun m => insert_account_storage m address index value))
    (zip pending values).

Definition stage_block (bn : Z) (block : RpcBlock) : PdbM RaikoError () :=
  hash ← lift (unwrap (rpc_hash block));
  _ ← on_staging (fun m => insert_block_hash m bn hash);
  header ← lift (unwrap (rpc_header block));
  modify (fun db => with_headers (<[bn := header]> (initial_headers db)) db).

Definition stage_blocks (blocks : list RpcBlock) : PdbM RaikoError () :=
  pending ← gets (fun db => elements (pending_block_hashes db));
  _ ← modify (fun db => with_pending (pending_accounts db) (pending_slots db) ∅ db);
  for_each (fun '(bn, block) => stage_block bn block) (zip pending blocks).

(** [let Ok(r) = ask else { return false }]. *)
Definition or_false {E A} (m : PdbM E A) (k : A -> PdbM E bool) : PdbM E bool := fun db =>
  match m db with
  | (db', Ok a) => k a db'
  | (db', Err _) => (db', Ok false)
  | (db', Panic) => (db', Panic)
  end.

Definition fetch_data : PdbM RaikoError bool := fun db =>
  let valid_run := is_valid_run db in
  or_false (ask (fun t bn => get_accounts t bn (elements (pending_accounts db)))) (fun accounts =>
    _ ← stage_accounts accounts;
    slots ← gets (fun db => elements (pending_slots db));
    or_false (ask (fun t bn => get_storage_values t bn slots)) (fun values =>
      _ ← stage_slots values;
      hashes ← gets (fun db => elements (pending_block_hashes db));
      or_false (ask (fun t _ => get_blocks t ((fun n => (n, false)) <$> hashes))) (fun blocks =>
        _ ← stage_blocks blocks;
        _ ← (if valid_run then mret tt else modify (with_current MemDb_default));
        mret valid_run))) db.

(** *** Proofs and ancestors *)
Definition key_lists (m : MemDb) : gmap bytes (list Z) := elements <$> storage_keys m.

Definition append_keys (initial latest : gmap bytes (list Z)) : gmap bytes (list Z) :=
  union_with (fun a b => Some (a ++ b)) initial latest.

Definition num_values (keys : gmap bytes (list Z)) : Z := Z.of_nat (sum_list_with length (map_to_list keys).*2).

Definition get_proofs : PdbM RaikoError (MerkleProof * MerkleProof * Z) := fun db =>
  let initial_keys := key_lists (initial_db db) in
  let storage_keys := append_keys initial_keys (key_lists (current_db db)) in
  let num_initial_values := num_values initial_keys in
  let num_storage_proofs := num_initial_values + num_values storage_keys in
  (initial_proofs ← ask (fun t bn => get_merkle_proofs t bn initial_keys 0 num_storage_proofs);
   latest_proofs ← ask (fun t bn => get_merkle_proofs t (wrap64 (bn + 1)) storage_keys num_initial_values num_storage_proofs);
   mret (initial_proofs, latest_proofs, num_storage_proofs)) db.

Definition ancestor_header (bn : Z) : PdbM RaikoError Header := fun db =>
  match initial_headers db !! bn with
  | Some header => (db, Ok header)
  | None =>
      (blocks ← ask (fun t _ => get_blocks t [(bn, false)]);
       block ← lift (unwrap (head blocks));
       header ← lift (unwrap (rpc_header block));
       _ ← modify (fun db => with_headers (<[bn := header]> (initial_headers db)) db);
       mret header) db
  end.

Fixpoint collect_st {S E A B} (f : A -> St S E B) (l : list A) : St S E (list B) :=
  match l with
  | [] => mret []
  | a :: l' => b ← f a; bs ← collect_st f l'; mret (b :: bs)
  end.

Definition get_ancestor_headers : PdbM RaikoError (list Header) := fun db =>
  let earliest_block := saturating_sub (pdb_block_number db) 255 in
  collect_st ancestor_header (reverse (seqZ earliest_block (pdb_block_number db - earliest_block))) db.
End provider.

(** ** Executions *)

(** The reads of the trait [Database]. *)
Class Database (S : Type) := {
  read_basic : bytes -> St S ProviderError (option AccountInfo);
  read_storage : bytes -> Z -> St S ProviderError Z;
  read_block_hash : Z -> St S ProviderError bytes
}.

(** A program that reads a database and goes on with what the read returned. *)
Inductive Exec (A : Type) : Type :=
| Done (r : A)
| ReadBasic (address : bytes) (k : outcome ProviderError (option AccountInfo) -> Exec A)
| ReadStorage (address : bytes) (index : Z) (k : outcome ProviderError Z -> Exec A)
| ReadBlockHash (number : Z) (k : outcome ProviderError bytes -> Exec A).
Arguments Done {A} _.
Arguments ReadBasic {A} _ _.
Arguments ReadStorage {A} _ _ _.
Arguments ReadBlockHash {A} _ _.

(** The answer of a read, unless it panicked. *)
Definition answer {S E X A} (m : S * outcome E X) (k : outcome E X -> S -> S * outcome E A) : S * outcome E A :=
  match m with (s, Panic) => (s, Panic) | (s, r) => k r s end.

Fixpoint run {S A} `{Database S} (e : Exec A) : St S ProviderError A := fun s =>
  match e with
  | Done r => (s, Ok r)
  | ReadBasic a k => answer (read_basic a s) (fun r => run (k r))
  | ReadStorage a i k => answer (read_storage a i s) (fun r => run (k r))
  | ReadBlockHash n k => answer (read_block_hash n s) (fun r => run (k r))
  end.

#[global] Instance MemDb_database : Database MemDb := {
  read_basic a := reads (fun m => basic m a);
  read_storage a i := reads (fun m => storage m a i);
  read_block_hash n := reads (fun m => block_hash m n)
}.

Section execute.
Context {P : BlockDataProvider} {EA : EvmAccounts}.
Variable empty_code_hash : bytes.

#[local] Instance ProviderDb_database : Database ProviderDb := {
  read_basic := pdb_basic empty_code_hash;
  read_storage := pdb_storage empty_code_hash;
  read_block_hash := pdb_block_hash
}.

(** The executor on the block and its transactions, with the checks of the block
    when it is not optimistic: the changes to commit, or an error. *)
Variable executor : bool -> Exec (outcome string (gmap bytes Account)).

Definition pdb_execute_transactions (optimistic : bool) : PdbM string () := fun db =>
  match run (executor optimistic) db with
  | (db', Ok (Ok changes)) => (pdb_commit changes db', Ok ())
  | (db', Ok (Err e)) => (db', Err e)
  | (db', _) => (db', Panic)
  end.

Definition max_iterations : Z := 100.

(** The loop has no bound of its own: [None] when it has not ended after [fuel]
    iterations. *)
Fixpoint execute_txs_from (fuel : nat) (num_iterations : Z) (db : ProviderDb) :
    option (ProviderDb * outcome RaikoError ()) :=
  match fuel with
  | O => None
  | S fuel' =>
      let optimistic := num_iterations + 1 <? max_iterations in
      match pdb_execute_transactions optimistic (with_optimistic optimistic db) with
      | (db1, Ok _) =>
          match fetch_data db1 with
          | (db2, Ok true) => Some (db2, Ok ())
          | (db2, Ok false) => execute_txs_from fuel' (num_iterations + 1) db2
          | (db2, Err e) => Some (db2, Err e)
          | (db2, Panic) => Some (db2, Panic)
          end
      | (db1, Err e) => Some (db1, Err (Preflight ("Executing transactions in builder failed: " +:+ e)))
      | (db1, Panic) => Some (db1, Panic)
      end
  end.

Definition execute_txs (fuel : nat) : ProviderDb -> option (ProviderDb * outcome RaikoError ()) :=
  execute_txs_from fuel 0.
End execute.

(** ** The state of the chain *)

(** The accounts, slots and block hashes of the chain at the block of the
    database, and the headers of its blocks. *)
Record Chain := mkChain {
  true_account : bytes -> AccountInfo;
  true_slot : bytes -> Z -> Z;
  true_hash : Z -> bytes;
  true_header : Z -> Header;
  true_transactions : Z -> list bytes
}.

(** Reading the chain itself. *)
#[global] Instance Chain_database : Database Chain := {
  read_basic a := gets (fun c => Some (true_account c a));
  read_storage a i := gets (fun c => true_slot c a i);
  read_block_hash n := reads (fun c => if u64_max <? n then Err (BlockNumberOverflow n) else Ok (true_hash c n))
}.

Definition true_block (c : Chain) (block : Z * bool) : RpcBlock :=
  let h := true_header c block.1 in
  mkRpcBlock (Some block.1) (Some (true_hash c block.1)) (state_root h) (timestamp h) (Some h)
    (if block.2 then Some (true_transactions c block.1) else None).

(** A block without its transactions. *)
Definition bare_block (c : Chain) (n : Z) : RpcBlock := true_block c (n, false).

(** What the database promises its clients to have been told: an answer of the
    provider is the truth, in the order of the request, and a request for
    nothing is answered. Any other request may fail at any time. *)
Class Honest (P : BlockDataProvider) (c : Chain) (bn : Z) : Prop := {
  honest_accounts t l r : get_accounts t bn l = Ok r -> r = true_account c <$> l;
  honest_slots t l r : get_storage_values t bn l = Ok r -> r = (fun ai => true_slot c ai.1 ai.2) <$> l;
  honest_blocks t l r : get_blocks t l = Ok r -> r = true_block c <$> l;
  empty_accounts t : get_accounts t bn [] = Ok [];
  empty_slots t : get_storage_values t bn [] = Ok [];
  empty_blocks t : get_blocks t [] = Ok []
}.

(** *** What is known of the executor

    An execution that is not optimistic ends with an error when a read fails, and
    the hash of a block is only asked for one of the last 256 blocks, so for a
    number of 64 bits. *)
Fixpoint strict {X} (e : Exec (outcome string X)) : Prop :=
  match e with
  | Done _ => True
  | ReadBasic _ k => (forall x, exists m, k (Err x) = Done (Err m)) /\ forall v, strict (k (Ok v))
  | ReadStorage _ _ k => (forall x, exists m, k (Err x) = Done (Err m)) /\ forall v, strict (k (Ok v))
  | ReadBlockHash _ k => (forall x, exists m, k (Err x) = Done (Err m)) /\ forall v, strict (k (Ok v))
  end.

Fixpoint u64_hashes {A} (e : Exec A) : Prop :=
  match e with
  | Done _ => True
  | ReadBasic _ k => forall r, u64_hashes (k r)
  | ReadStorage _ _ k => forall r, u64_hashes (k r)
  | ReadBlockHash n k => n <= u64_max /\ forall r, u64_hashes (k r)
  end.

(** ** Databases that hold the truth *)
Record entry_true (c : Chain) (a : bytes) (e : DbAccount) : Prop := {
  et_info : db_info e = true_account c a;
  et_state : db_state e <> Deleted;
  et_slots : forall i v, db_storage e !! i = Some v -> v = true_slot c a i;
  et_cleared : db_state e = StorageCleared -> forall i, db_storage e !! i = None -> true_slot c a i = 0
}.

Record Faithful (c : Chain) (m : MemDb) : Prop := {
  fa_accounts : forall a e, accounts m !! a = Some e -> entry_true c a e;
  fa_hashes : forall n h, block_hashes m !! n = Some h -> h = true_hash c n
}.

(** [m'] answers whatever [m] does. *)
Record Ext (m m' : MemDb) : Prop := {
  ext_accounts : forall a e, accounts m !! a = Some e ->
    exists e', accounts m' !! a = Some e' /\ db_state e' = db_state e /\ db_storage e ⊆ db_storage e';
  ext_hashes : block_hashes m ⊆ block_hashes m'
}.

#[global] Instance Ext_preorder : PreOrder Ext.
Proof.
  split.
  - intros m. split; [eauto|done].
  - intros m1 m2 m3 [A1 H1] [A2 H2]. split; [|by transitivity (block_hashes m2)].
    intros a e He. destruct (A1 _ _ He) as (e2 & He2 & D2 & S2). destruct (A2 _ _ He2) as (e3 & He3 & D3 & S3).
    exists e3. split_and!; [done|congruence|by transitivity (db_storage e2)].
Qed.

Section faithful.
Variable c : Chain.

Lemma faithful_default : Faithful c MemDb_default.
Proof. split; cbn; intros *; by rewrite lookup_empty. Qed.

Lemma faithful_basic m a r : Faithful c m -> basic m a = Ok r -> r = Some (true_account c a).
Proof.
  intros [HA _]. unfold basic. case_match eqn:E; [|done]. intros; simplify_eq.
  destruct (HA _ _ E) as [Hi Hs _ _]. unfold info_of. by destruct (decide _); rewrite ?Hi.
Qed.

Lemma faithful_storage m a i r : Faithful c m -> storage m a i = r ->
  match r with Ok v => v = true_slot c a i | Err _ => True | Panic => False end.
Proof.
  intros [HA _] <-. unfold storage. destruct (accounts m !! a) as [e|] eqn:E; [|done].
  destruct (HA _ _ E) as [_ Hs Hv Hc]. destruct (db_storage e !! i) eqn:Ei; [by apply Hv|].
  destruct (db_state e); try done. symmetry. by apply Hc.
Qed.

Lemma faithful_hash m n h : Faithful c m -> block_hash m n = Ok h -> h = true_hash c n.
Proof. intros [_ HH]. unfold block_hash. destruct (_ <=? _); [|done]. destruct (_ !! _) eqn:E; cbn; intros; simplify_eq; eauto. Qed.

Lemma insert_info_faithful m a m' : Faithful c m -> insert_account_info m a (true_account c a) = Ok m' ->
  Faithful c m' /\ Ext m m' /\ is_Some (accounts m' !! a).
Proof.
  intros HF. unfold insert_account_info. case_match eqn:E.
  - case_match; [|done]. intros; simplify_eq. split_and!; [done|done|by rewrite E].
  - intros; simplify_eq. destruct HF as [HA HH]. split_and!.
    + split; cbn; [|done]. intros b e He. destruct (decide (a = b)) as [<-|].
      * rewrite lookup_insert_eq in He. simplify_eq. split; cbn; [done|done| |done]. intros *; by rewrite lookup_empty.
      * rewrite lookup_insert_ne in He by done. by apply HA.
    + split; cbn; [|done]. intros b e He. exists e. rewrite lookup_insert_ne by congruence. done.
    + cbn. by rewrite lookup_insert_eq.
Qed.

Lemma insert_storage_faithful m a i m' : Faithful c m -> insert_account_storage m a i (true_slot c a i) = Ok m' ->
  Faithful c m' /\ Ext m m' /\ storage m' a i = Ok (true_slot c a i).
Proof.
  intros [HA HH]. unfold insert_account_storage. case_match eqn:E; [|done]. intros; simplify_eq.
  destruct (HA _ _ E) as [Hi Hs Hv Hc]. split_and!.
  - split; cbn; [|done]. intros b e He. destruct (decide (a = b)) as [<-|]; [|rewrite lookup_insert_ne in He by done; by apply HA].
    rewrite lookup_insert_eq in He. simplify_eq. split; cbn; [done|done| |].
    + intros j v. rewrite lookup_insert. case_decide; [congruence|apply Hv].
    + intros Hcl j. rewrite lookup_insert. case_decide; [done|by apply Hc].
  - split; cbn; [|done]. intros b e He. destruct (decide (a = b)) as [<-|].
    + rewrite lookup_insert_eq. eexists; split; [done|]. cbn. simplify_eq. split; [done|]. apply map_subseteq_spec. intros j v Hj.
      destruct (decide (i = j)) as [<-|]; [rewrite lookup_insert_eq; f_equal; symmetry; by apply Hv|by rewrite lookup_insert_ne].
    + rewrite lookup_insert_ne by done. eauto.
  - unfold storage. cbn. by rewrite lookup_insert_eq; cbn; rewrite lookup_insert_eq.
Qed.

Lemma insert_hash_faithful m n m' : Faithful c m -> insert_block_hash m n (true_hash c n) = Ok m' ->
  Faithful c m' /\ Ext m m' /\ block_hashes m' !! n = Some (true_hash c n).
Proof.
  intros [HA HH]. unfold insert_block_hash. case_match eqn:E.
  - case_bool_decide; [|done]. intros; simplify_eq. split_and!; [done|done|]. congruence.
  - intros; simplify_eq. split_and!.
    + split; cbn; [done|]. intros j h. destruct (decide (n = j)) as [<-|]; [rewrite lookup_insert_eq; congruence|].
      rewrite lookup_insert_ne by done. apply HH.
    + split; cbn; [eauto|]. by apply insert_subseteq.
    + cbn. by rewrite lookup_insert_eq.
Qed.
End faithful.

(** ** Soundness of the collected data *)
Section sound.
Context {P : BlockDataProvider} {EA : EvmAccounts} (c : Chain) (bn : Z) {HP : Honest P c bn}.
Variable empty_code_hash : bytes.
#[local] Instance pdb_database : Database ProviderDb := ProviderDb_database empty_code_hash.
#[local] Abbreviation basic_ := (pdb_basic empty_code_hash).
#[local] Abbreviation storage_ := (pdb_storage empty_code_hash).

Record Inv (db : ProviderDb) : Prop := {
  inv_number : pdb_block_number db = bn;
  inv_initial : Faithful c (initial_db db);
  inv_staging : Faithful c (staging_db db);
  inv_headers : forall n h, initial_headers db !! n = Some h -> h = true_header c n
}.

(** How the database moves while an execution reads it. *)
Record Adv (db db' : ProviderDb) : Prop := {
  adv_inv : Inv db -> Inv db';
  adv_current : current_db db' = current_db db;
  adv_optimistic : optimistic db' = optimistic db;
  adv_initial : Inv db -> Ext (initial_db db) (initial_db db');
  adv_accounts : pending_accounts db ⊆ pending_accounts db';
  adv_slots : pending_slots db ⊆ pending_slots db';
  adv_hashes : pending_block_hashes db ⊆ pending_block_hashes db'
}.

#[local] Instance Adv_preorder : PreOrder Adv.
Proof.
  split.
  - intros db. by split.
  - intros db1 db2 db3 [I1 C1 O1 X1 A1 S1 H1] [I2 C2 O2 X2 A2 S2 H2].
    split; [auto|congruence|congruence| |set_solver..]. intros HI. transitivity (initial_db db2); auto.
Qed.

Definition clean (db : ProviderDb) : Prop := current_db db = MemDb_default.

Lemma is_valid_run_true db :
  is_valid_run db = true <-> pending_accounts db = ∅ /\ pending_slots db = ∅ /\ pending_block_hashes db = ∅.
Proof. unfold is_valid_run. rewrite !andb_true_iff, !bool_decide_eq_true. tauto. Qed.

Lemma adv_valid db db' : Adv db db' -> is_valid_run db' = true -> is_valid_run db = true.
Proof. intros []. rewrite !is_valid_run_true. intros (? & ? & ?). set_solver. Qed.

Lemma invalid_accounts db : pending_accounts db <> ∅ -> is_valid_run db = false.
Proof. intros H. apply not_true_is_false. rewrite is_valid_run_true. naive_solver. Qed.
Lemma invalid_slots db : pending_slots db <> ∅ -> is_valid_run db = false.
Proof. intros H. apply not_true_is_false. rewrite is_valid_run_true. naive_solver. Qed.
Lemma invalid_hashes db : pending_block_hashes db <> ∅ -> is_valid_run db = false.
Proof. intros H. apply not_true_is_false. rewrite is_valid_run_true. naive_solver. Qed.

(** The steps of the reads. *)
Lemma on_initial_eq {E} f db :
  on_initial (E := E) f db = match f (initial_db db) with Ok m => (with_initial m db, Ok ()) | _ => (db, Panic) end.
Proof. unfold on_initial, updates. by destruct (f (initial_db db)). Qed.

Lemma with_initial_adv m db :
  (Inv db -> Faithful c m /\ Ext (initial_db db) m) -> Adv db (with_initial m db).
Proof.
  intros Hf. split; try done.
  - intros HI. destruct (Hf HI) as [HF _]. by destruct HI.
  - intros HI. by apply Hf.
Qed.

Lemma tick_adv db : Adv db (tick db).
Proof. split; try done. by intros []. Qed.

Lemma with_pending_adv a s h db :
  pending_accounts db ⊆ a -> pending_slots db ⊆ s -> pending_block_hashes db ⊆ h -> Adv db (with_pending a s h db).
Proof. split; try done. by intros []. Qed.

Lemma with_pending_invalid a s h db : a <> ∅ \/ s <> ∅ \/ h <> ∅ -> is_valid_run (with_pending a s h db) = false.
Proof.
  intros H. apply not_true_is_false. rewrite is_valid_run_true. cbn. naive_solver.
Qed.

(** The reads of the databases, in their order; a read of the current database
    is of no interest when that is empty. *)
Ltac read_case e H :=
  let E := fresh "Er" in destruct e as [?r|?x|] eqn:E; cbn -[on_initial] in H;
  [unfold mret, st_ret in H| |unfold lift in H; by simplify_eq].

Lemma basic_some m a x : basic m a = Ok x -> is_Some (accounts m !! a).
Proof. unfold basic. by destruct (accounts m !! a). Qed.

(** What a read promises: the truth, kept in the initial database, unless
    something is pending. *)
Lemma basic_adv db a db' r : basic_ a db = (db', r) -> r <> Panic ->
  (Inv db -> Adv db db') /\
  (Inv db -> clean db ->
   match r with
   | Ok x => is_valid_run db' = true -> x = Some (true_account c a) /\ is_Some (accounts (initial_db db') !! a)
   | _ => optimistic db = false
   end).
Proof.
  unfold pdb_basic. intros Hb Hr.
  read_case (basic (current_db db) a) Hb.
  { simplify_eq. split; [done|]. intros _ Hc. by rewrite Hc in Er. }
  read_case (basic (initial_db db) a) Hb.
  { simplify_eq. split; [done|]. intros HI _ _. split; [by eapply faithful_basic, Er0; apply HI|by eapply basic_some]. }
  read_case (basic (staging_db db) a) Hb.
  { destruct (is_valid_run db) eqn:Ev; unfold mbind, st_bind, lift, mret, st_ret in Hb; cbn -[on_initial] in Hb.
    2: { simplify_eq. split; [done|]. intros _ _. by rewrite Ev. }
    destruct r0 as [x'|]; cbn in Hb; [|by simplify_eq]. rewrite on_initial_eq in Hb.
    destruct (insert_account_info _ _ _) as [m|?|] eqn:Ei; cbn in Hb; simplify_eq.
    assert (Inv db -> Faithful c m /\ Ext (initial_db db) m /\ is_Some (accounts m !! a)) as Hm.
    { intros HI. apply faithful_basic with (c := c) in Er1; [|apply HI]. simplify_eq.
      apply insert_info_faithful; [apply HI|done]. }
    split; [intros HI; apply with_initial_adv; naive_solver|]. intros HI _ _. split; [|by apply Hm].
    by eapply faithful_basic, Er1; apply HI. }
  destruct (optimistic db) eqn:Eo; unfold mbind, st_bind, modify, ask, lift, mret, st_ret in Hb; cbn -[on_initial] in Hb.
  { simplify_eq. split; [intros _; apply with_pending_adv; set_solver|]. intros _ _.
    rewrite with_pending_invalid; [done|]. left. set_solver. }
  destruct (get_accounts _ _ _) as [l|?|] eqn:Eg; cbn in Hb; simplify_eq; [|split; [intros _; apply tick_adv|done]].
  destruct (head l) as [y|] eqn:El; cbn in Hb; simplify_eq; [|split; [intros _; apply tick_adv|done]].
  rewrite on_initial_eq in Hb. destruct (insert_account_info _ _ _) as [m|?|] eqn:Ei; cbn in Hb; simplify_eq.
  assert (Inv db -> y = true_account c a /\ Faithful c m /\ Ext (initial_db db) m /\ is_Some (accounts m !! a)) as Hm.
  { intros HI. rewrite (inv_number _ HI) in Eg. apply honest_accounts in Eg as ->. cbn in El. simplify_eq.
    split; [done|]. apply insert_info_faithful; [apply HI|done]. }
  split.
  - intros HI. etransitivity; [apply tick_adv|]. apply with_initial_adv. naive_solver.
  - intros HI _ _. destruct (Hm HI) as (-> & ? & ? & ?). done.
Qed.

Lemma storage_adv db a i db' r : storage_ a i db = (db', r) -> r <> Panic ->
  (Inv db -> Adv db db') /\
  (Inv db -> clean db ->
   match r with
   | Ok v => is_valid_run db' = true -> v = true_slot c a i /\ storage (initial_db db') a i = Ok v
   | _ => optimistic db = false
   end).
Proof.
  unfold pdb_storage. intros Hb Hr.
  read_case (storage (current_db db) a i) Hb.
  { simplify_eq. split; [done|]. intros _ Hc. by rewrite Hc in Er. }
  read_case (storage (initial_db db) a i) Hb.
  { simplify_eq. split; [done|]. intros HI _ _. split; [|done].
    by apply (faithful_storage c _ _ _ _ (inv_initial _ HI)) in Er0. }
  read_case (storage (staging_db db) a i) Hb.
  { destruct (is_valid_run db) eqn:Ev; unfold mbind, st_bind, lift, mret, st_ret in Hb; cbn -[on_initial] in Hb.
    2: { simplify_eq. split; [done|]. intros _ _. by rewrite Ev. }
    rewrite on_initial_eq in Hb.
    destruct (insert_account_storage _ _ _ _) as [m|?|] eqn:Ei; cbn in Hb; simplify_eq.
    assert (Inv db -> r0 = true_slot c a i /\ Faithful c m /\ Ext (initial_db db) m /\ storage m a i = Ok (true_slot c a i)) as Hm.
    { intros HI. apply (faithful_storage c _ _ _ _ (inv_staging _ HI)) in Er1. cbn in Er1. subst r0.
      split; [done|]. apply insert_storage_faithful; [apply HI|done]. }
    split; [intros HI; apply with_initial_adv; naive_solver|]. intros HI _ _. by destruct (Hm HI) as (-> & _ & _ & ?). }
  destruct (optimistic db) eqn:Eo; unfold mbind, st_bind, modify, ask, lift, mret, st_ret in Hb; cbn -[on_initial] in Hb.
  { destruct (basic_ a db) as [db1 rb] eqn:Eb. apply basic_adv in Eb as [Hadv Hb2]; [|by destruct rb; simplify_eq].
    destruct rb as [y|?|]; simplify_eq.
    - split; [intros HI; etransitivity; [by apply Hadv|apply with_pending_adv; set_solver]|]. intros _ _.
      rewrite with_pending_invalid; [done|]. right; left. set_solver.
    - split; [done|]. intros HI Hc. by specialize (Hb2 HI Hc); rewrite Eo in Hb2. }
  destruct (basic (initial_db db) a); cbn -[on_initial] in Hb; [|by simplify_eq; split..].
  destruct (get_storage_values _ _ _) as [l|?|] eqn:Eg; cbn in Hb; simplify_eq; [|split; [intros _; apply tick_adv|done]].
  destruct (head l) as [y|] eqn:El; cbn in Hb; simplify_eq; [|split; [intros _; apply tick_adv|done]].
  rewrite on_initial_eq in Hb. destruct (insert_account_storage _ _ _ _) as [m|?|] eqn:Ei; cbn in Hb; simplify_eq.
  assert (Inv db -> y = true_slot c a i /\ Faithful c m /\ Ext (initial_db db) m /\ storage m a i = Ok (true_slot c a i)) as Hm.
  { intros HI. rewrite (inv_number _ HI) in Eg. apply honest_slots in Eg as ->. cbn in El. simplify_eq.
    split; [done|]. apply insert_storage_faithful; [apply HI|done]. }
  split.
  - intros HI. etransitivity; [apply tick_adv|]. apply with_initial_adv. naive_solver.
  - intros HI _ _. by destruct (Hm HI) as (-> & _ & _ & ?).
Qed.

Lemma block_hash_adv db n db' r : pdb_block_hash n db = (db', r) -> r <> Panic ->
  (Inv db -> Adv db db') /\
  (Inv db -> clean db ->
   match r with
   | Ok h => is_valid_run db' = true -> n <= u64_max /\ h = true_hash c n /\ block_hashes (initial_db db') !! n = Some h
   | Err e => optimistic db = false \/ u64_max < n /\ e = BlockNumberOverflow n
   | Panic => False
   end).
Proof.
  unfold pdb_block_hash. intros Hb Hr. destruct (u64_max <? n) eqn:En; breflect; [simplify_eq; split; [done|]; auto|].
  assert (forall m, block_hash m n = ok_or (block_hashes m !! n) BestBlockNotFound) as Hbh.
  { intros m. unfold block_hash. by rewrite (proj2 (Z.leb_le _ _)) by done. }
  rewrite !Hbh in Hb. destruct (block_hashes (initial_db db) !! n) as [h|] eqn:Er0; cbn -[on_initial] in Hb.
  { unfold mret, st_ret in Hb. simplify_eq. split; [done|]. intros HI _ _. split_and!; [done| |done].
    by apply (fa_hashes _ _ (inv_initial _ HI)). }
  destruct (block_hashes (staging_db db) !! n) as [h|] eqn:Er1; cbn -[on_initial] in Hb.
  { destruct (is_valid_run db) eqn:Ev; unfold mbind, st_bind, lift, mret, st_ret in Hb; cbn -[on_initial] in Hb.
    2: { simplify_eq. split; [done|]. intros _ _. by rewrite Ev. }
    rewrite on_initial_eq in Hb.
    destruct (insert_block_hash _ _ _) as [m|?|] eqn:Ei; cbn in Hb; simplify_eq.
    assert (Inv db -> h = true_hash c n /\ Faithful c m /\ Ext (initial_db db) m /\ block_hashes m !! n = Some (true_hash c n)) as Hm.
    { intros HI. apply (fa_hashes _ _ (inv_staging _ HI)) in Er1. subst h.
      split; [done|]. apply insert_hash_faithful; [apply HI|done]. }
    split; [intros HI; apply with_initial_adv; naive_solver|]. intros HI _ _. by destruct (Hm HI) as (-> & _ & _ & ?). }
  destruct (optimistic db) eqn:Eo; unfold mbind, st_bind, modify, ask, lift, mret, st_ret in Hb; cbn -[on_initial] in Hb.
  { simplify_eq. split; [intros _; apply with_pending_adv; set_solver|]. intros _ _.
    rewrite with_pending_invalid; [done|]. right; right. set_solver. }
  destruct (get_blocks _ _) as [l|?|] eqn:Eg; cbn in Hb; simplify_eq; [|split; [intros _; apply tick_adv|by left]].
  destruct (head l) as [y|] eqn:El; cbn in Hb; simplify_eq; [|split; [intros _; apply tick_adv|by left]].
  destruct (rpc_hash y) as [h|] eqn:Eh; cbn in Hb; simplify_eq; [|split; [intros _; apply tick_adv|by left]].
  rewrite on_initial_eq in Hb. destruct (insert_block_hash _ _ _) as [m|?|] eqn:Ei; cbn in Hb; simplify_eq.
  assert (Inv db -> h = true_hash c n /\ Faithful c m /\ Ext (initial_db db) m /\ block_hashes m !! n = Some (true_hash c n)) as Hm.
  { intros HI. apply honest_blocks in Eg as ->. cbn in El. simplify_eq. cbn in Eh. simplify_eq.
    split; [done|]. apply insert_hash_faithful; [apply HI|done]. }
  split.
  - intros HI. etransitivity; [apply tick_adv|]. apply with_initial_adv. naive_solver.
  - intros HI _ _. by destruct (Hm HI) as (-> & _ & _ & ?).
Qed.

(** *** Executions *)
Lemma answer_Ok {S E X A} (m : S * outcome E X) (k : outcome E X -> S -> S * outcome E A) s r :
  answer m k = (s, Ok r) -> exists s1 x, m = (s1, x) /\ x <> Panic /\ k x s1 = (s, Ok r).
Proof. destruct m as [s1 [x|x|]]; cbn; intros; simplify_eq; eauto 6. Qed.

Lemma run_adv {A} (e : Exec A) db db' r : run e db = (db', Ok r) -> Inv db -> Adv db db'.
Proof.
  revert db; induction e as [x|a k IH|a i k IH|n k IH]; intros db Hr HI; cbn -[pdb_basic pdb_storage pdb_block_hash] in Hr;
    [by simplify_eq|apply answer_Ok in Hr as (db1 & x & Hx & Hn & Hr)..].
  - destruct (basic_adv _ _ _ _ Hx Hn) as [Ha _]. specialize (Ha HI). etransitivity; [done|]. eapply IH; [done|by apply Ha].
  - destruct (storage_adv _ _ _ _ _ Hx Hn) as [Ha _]. specialize (Ha HI). etransitivity; [done|]. eapply IH; [done|by apply Ha].
  - destruct (block_hash_adv _ _ _ _ Hx Hn) as [Ha _]. specialize (Ha HI). etransitivity; [done|]. eapply IH; [done|by apply Ha].
Qed.

(** A database that answers what [m] does, with the truth. *)
Lemma ext_basic m m' a : Faithful c m' -> Ext m m' -> is_Some (accounts m !! a) -> basic m' a = Ok (Some (true_account c a)).
Proof.
  intros HF HE [e He]. destruct (ext_accounts _ _ HE _ _ He) as (e' & He' & _).
  unfold basic, info_of. rewrite He'. destruct (fa_accounts _ _ HF _ _ He') as [Hi Hs _ _].
  by destruct (decide _); rewrite ?Hi.
Qed.

Lemma ext_storage m m' a i v :
  Faithful c m -> Faithful c m' -> Ext m m' -> storage m a i = Ok v -> storage m' a i = Ok v.
Proof.
  intros HF HF' HE. unfold storage. destruct (accounts m !! a) as [e|] eqn:He; [|done].
  destruct (ext_accounts _ _ HE _ _ He) as (e' & He' & Hd & Hs). rewrite He'. destruct (db_storage e !! i) as [w|] eqn:Hi.
  - intros. simplify_eq. by rewrite (lookup_weaken _ _ _ _ Hi Hs).
  - rewrite Hd. destruct (db_state e) eqn:Es; try done. intros [= <-].
    pose proof (et_cleared _ _ _ (fa_accounts _ _ HF _ _ He) Es i Hi) as H0.
    destruct (db_storage e' !! i) as [w|] eqn:Hi'; [|done]. f_equal.
    rewrite (et_slots _ _ _ (fa_accounts _ _ HF' _ _ He') _ _ Hi'). done.
Qed.

Definition succeeded {X} (r : outcome string X) : Prop := exists x, r = Ok x.

(** After one read of an execution: where the rest of it starts, and that a read
    does not fail. *)
Lemma run_step {V X} (k : outcome ProviderError V -> Exec (outcome string X)) db db1 db' x r :
  Inv db -> clean db -> Adv db db1 -> run (k x) db1 = (db', Ok r) -> is_valid_run db' = true ->
  optimistic db = true \/
    ((forall y, exists m, k (Err y) = Done (Err m)) /\ forall v, strict (k (Ok v))) /\ succeeded r ->
  (Inv db1 /\ clean db1 /\ is_valid_run db1 = true /\ Ext (initial_db db1) (initial_db db')) /\
  (forall y, x = Err y -> optimistic db = true) /\
  (forall v, x = Ok v -> optimistic db1 = true \/ strict (k x) /\ succeeded r).
Proof.
  intros HI Hc Ha Hr Hv Ho. pose proof (adv_inv _ _ Ha HI) as HI1.
  pose proof (run_adv _ _ _ _ Hr HI1) as Ha'. split_and!; [done| | | | |].
  - unfold clean. by rewrite (adv_current _ _ Ha).
  - by eapply adv_valid.
  - by apply Ha'.
  - intros y ->. destruct Ho as [|[[Hk _] [z Hz]]]; [done|]. destruct (Hk y) as [m Hm].
    rewrite Hm in Hr. cbn in Hr. by simplify_eq.
  - intros v ->. rewrite (adv_optimistic _ _ Ha). naive_solver.
Qed.

Lemma run_true {X} (e : Exec (outcome string X)) db db' r :
  run e db = (db', Ok r) -> Inv db -> clean db -> is_valid_run db' = true -> u64_hashes e ->
  optimistic db = true \/ strict e /\ succeeded r ->
  run e c = (c, Ok r) /\
  forall m, Faithful c m -> Ext (initial_db db') m -> run e m = (m, Ok r).
Proof.
  revert db; induction e as [x|a k IH|a i k IH|n k IH]; intros db Hr HI Hc Hv Hu Ho;
    cbn -[pdb_basic pdb_storage pdb_block_hash] in Hr; [by simplify_eq|apply answer_Ok in Hr as (db1 & x & Hx & Hn & Hr)..].
  - destruct (basic_adv _ _ _ _ Hx Hn) as [Ha Hb]. specialize (Hb HI Hc).
    destruct (run_step k _ _ _ _ _ HI Hc (Ha HI) Hr Hv Ho) as ((HI1 & Hc1 & Hv1 & HE1) & Herr & Hok).
    destruct x as [x|x|]; [|by specialize (Herr x eq_refl); congruence|done]. destruct (Hb Hv1) as [-> Hs].
    edestruct IH as [Ht Hm]; [exact Hr|done|done|done|by apply Hu|by eapply Hok|]. split; [done|]. intros m HF HE.
    cbn. rewrite (ext_basic _ m _ HF (transitivity HE1 HE) Hs). by apply Hm.
  - destruct (storage_adv _ _ _ _ _ Hx Hn) as [Ha Hb]. specialize (Hb HI Hc).
    destruct (run_step k _ _ _ _ _ HI Hc (Ha HI) Hr Hv Ho) as ((HI1 & Hc1 & Hv1 & HE1) & Herr & Hok).
    destruct x as [x|x|]; [|by specialize (Herr x eq_refl); congruence|done]. destruct (Hb Hv1) as [-> Hs].
    edestruct IH as [Ht Hm]; [exact Hr|done|done|done|by apply Hu|by eapply Hok|]. split; [done|]. intros m HF HE.
    cbn. rewrite (ext_storage _ m _ _ _ (inv_initial _ HI1) HF (transitivity HE1 HE) Hs). by apply Hm.
  - destruct (block_hash_adv _ _ _ _ Hx Hn) as [Ha Hb]. specialize (Hb HI Hc). destruct Hu as [Hle Hu].
    destruct (run_step k _ _ _ _ _ HI Hc (Ha HI) Hr Hv Ho) as ((HI1 & Hc1 & Hv1 & HE1) & Herr & Hok).
    destruct x as [x|x|]; [|specialize (Herr x eq_refl); destruct Hb as [|[? _]]; [congruence|lia]|done].
    destruct (Hb Hv1) as (_ & -> & Hs).
    edestruct IH as [Ht Hm]; [exact Hr|done|done|done|by apply Hu|by eapply Hok|].
    split; [cbn; by rewrite (proj2 (Z.ltb_ge _ _))|]. intros m HF HE. cbn. unfold block_hash.
    rewrite (proj2 (Z.leb_le _ _)) by done.
    rewrite (lookup_weaken _ _ _ _ Hs (ext_hashes _ _ (transitivity HE1 HE))). by apply Hm.
Qed.

(** *** Fetching *)
Lemma for_each_inv {S E A} (R : S -> Prop) (f : A -> St S E ()) l s s' u :
  (forall a s s' u, a ∈ l -> R s -> f a s = (s', Ok u) -> R s') ->
  R s -> for_each f l s = (s', Ok u) -> R s'.
Proof.
  revert s. induction l as [|a l IH]; cbn; intros s Hf HR H; [unfold mret, st_ret in H; by simplify_eq|].
  apply st_bind_Ok in H as (s1 & x & H1 & H2). eapply IH; [|eapply Hf; [left|done..]|done].
  intros. eapply Hf; [by right|done..].
Qed.

(** What fetching leaves alone. *)
Definition fixed (db db' : ProviderDb) : Prop :=
  initial_db db' = initial_db db /\ current_db db' = current_db db /\ optimistic db' = optimistic db.

Definition pending (db : ProviderDb) := (pending_accounts db, pending_slots db, pending_block_hashes db).

Lemma on_staging_inv f db db' u :
  Inv db -> (forall m', f (staging_db db) = Ok m' -> Faithful c m') -> on_staging (E := RaikoError) f db = (db', Ok u) ->
  Inv db' /\ fixed db db' /\ pending db' = pending db.
Proof.
  intros HI Hf. unfold on_staging, updates. destruct (f (staging_db db)) eqn:E; cbn; intros; simplify_eq.
  split; [|done]. destruct HI. split; cbn; auto.
Qed.

(** Staging what was answered: the databases of the run do not change and the
    pending entries of that kind are gone. *)
Lemma zip_fmap_elem {A B} (f : A -> B) l x y : (x, y) ∈ zip l (f <$> l) -> y = f x.
Proof. induction l as [|a l IH]; cbn; [by intros ?%elem_of_nil|]. intros [?|?]%elem_of_cons; [by simplify_eq|auto]. Qed.

Lemma fixed_trans db1 db2 db3 : fixed db1 db2 -> fixed db2 db3 -> fixed db1 db3.
Proof. unfold fixed. naive_solver congruence. Qed.

Lemma stage_each {A} (f : A -> PdbM RaikoError ()) l db0 db db' u :
  (forall a s s' u, a ∈ l -> Inv s -> f a s = (s', Ok u) -> Inv s' /\ fixed s s' /\ pending s' = pending s) ->
  Inv db -> fixed db0 db -> for_each f l db = (db', Ok u) ->
  Inv db' /\ fixed db0 db' /\ pending db' = pending db.
Proof.
  intros Hf HI Hx. apply (for_each_inv (fun s => Inv s /\ fixed db0 s /\ pending s = pending db)); [|done].
  intros a s s' u' Ha (HIs & Hxs & Hp) H. destruct (Hf _ _ _ _ Ha HIs H) as (? & ? & ?).
  split_and!; [done|by eapply fixed_trans|congruence].
Qed.

Lemma with_pending_inv a s h db : Inv db -> Inv (with_pending a s h db).
Proof. by intros []. Qed.

Lemma stage_accounts_inv db db' u :
  Inv db -> stage_accounts (true_account c <$> elements (pending_accounts db)) db = (db', Ok u) ->
  Inv db' /\ fixed db db' /\ pending db' = (∅, pending_slots db, pending_block_hashes db).
Proof.
  intros HI H. unfold stage_accounts in H. op_inv. eapply stage_each in H; [exact H| |by apply with_pending_inv|done].
  intros [a y] s s' u' Hin HIs. apply zip_fmap_elem in Hin as ->. apply on_staging_inv; [done|].
  intros m' Hm. eapply insert_info_faithful, Hm. apply HIs.
Qed.

Lemma stage_slots_inv db db' u :
  Inv db -> stage_slots ((fun ai => true_slot c ai.1 ai.2) <$> elements (pending_slots db)) db = (db', Ok u) ->
  Inv db' /\ fixed db db' /\ pending db' = (pending_accounts db, ∅, pending_block_hashes db).
Proof.
  intros HI H. unfold stage_slots in H. op_inv. eapply stage_each in H; [exact H| |by apply with_pending_inv|done].
  intros [[a i] y] s s' u' Hin HIs. apply zip_fmap_elem in Hin as ->. apply on_staging_inv; [done|].
  intros m' Hm. eapply insert_storage_faithful, Hm. apply HIs.
Qed.

Lemma stage_blocks_inv db db' u :
  Inv db -> stage_blocks (bare_block c <$> elements (pending_block_hashes db)) db = (db', Ok u) ->
  Inv db' /\ fixed db db' /\ pending db' = (pending_accounts db, pending_slots db, ∅).
Proof.
  intros HI H. unfold stage_blocks in H. op_inv. eapply stage_each in H; [exact H| |by apply with_pending_inv|done].
  intros [n y] s s' u' Hin HIs Hs. apply zip_fmap_elem in Hin as ->. unfold stage_block in Hs. cbn in Hs. op_inv.
  cbn in *. simplify_eq.
  match goal with H : on_staging _ _ = _ |- _ => apply on_staging_inv in H as (HI2 & Hx2 & Hp2); [|done|] end.
  - split_and!; [|done|done]. destruct HI2. split; cbn; try done. intros j h.
    destruct (decide (n = j)) as [<-|]; [rewrite lookup_insert_eq; congruence|rewrite lookup_insert_ne by done; auto].
  - intros m' Hm. eapply insert_hash_faithful, Hm. apply HIs.
Qed.

Lemma or_false_Ok {E A} (m : PdbM E A) k db db' b : or_false m k db = (db', Ok b) ->
  (exists db1 a, m db = (db1, Ok a) /\ k a db1 = (db', Ok b)) \/
  (exists e, m db = (db', Err e) /\ b = false).
Proof. unfold or_false. destruct (m db) as [db1 [a|e|]]; intros; simplify_eq; eauto 6. Qed.

Lemma bare_blocks (l : list Z) : true_block c <$> ((fun n => (n, false)) <$> l) = bare_block c <$> l.
Proof. by rewrite <- list_fmap_compose. Qed.

Lemma tick_inv db : Inv db -> Inv (tick db).
Proof. by intros []. Qed.

(** Fetching says whether the run was valid; when it was, nothing changed, and
    when it was not, the next run starts from an empty current database unless
    something is still pending. *)
Lemma fetch_data_inv db db' b : Inv db -> fetch_data db = (db', Ok b) ->
  Inv db' /\ b = is_valid_run db /\
  (if b then fixed db db' /\ pending db' = pending db else is_valid_run db' = true -> clean db').
Proof.
  intros HI H. unfold fetch_data in H. cbv zeta in H.
  apply or_false_Ok in H as [(db1 & l & Hl & H)|(e & Hl & ->)]; unfold ask in Hl; injection Hl as <- Hl;
    rewrite (inv_number _ HI) in Hl.
  2: { assert (pending_accounts db <> ∅) by (intros E; rewrite E, elements_empty, empty_accounts in Hl; done).
       split; [by apply tick_inv|]. rewrite !invalid_accounts by done. done. }
  apply honest_accounts in Hl as ->. apply st_bind_Ok in H as (db2 & [] & H2 & H).
  apply (stage_accounts_inv (tick db)) in H2 as (HI2 & Hx2 & Hp2); [|by apply tick_inv].
  apply st_bind_Ok in H as (? & ? & Hg & H). unfold gets in Hg. injection Hg as <- <-.
  apply or_false_Ok in H as [(db3 & l & Hl & H)|(e & Hl & ->)]; unfold ask in Hl; injection Hl as <- Hl;
    rewrite (inv_number _ HI2) in Hl; unfold pending in Hp2; injection Hp2 as Hp2 Hs2 Hh2.
  2: { assert (pending_slots db <> ∅) by (intros E; rewrite Hs2 in Hl; cbn in Hl; rewrite E, elements_empty, empty_slots in Hl; done).
       split; [by apply tick_inv|]. rewrite (invalid_slots db) by done. rewrite invalid_slots by (cbn; by rewrite Hs2). done. }
  apply honest_slots in Hl as ->. apply st_bind_Ok in H as (db4 & [] & H4 & H).
  apply (stage_slots_inv (tick db2)) in H4 as (HI4 & Hx4 & Hp4); [|by apply tick_inv].
  apply st_bind_Ok in H as (? & ? & Hg & H). unfold gets in Hg. injection Hg as <- <-.
  apply or_false_Ok in H as [(db5 & l & Hl & H)|(e & Hl & ->)]; unfold ask in Hl; injection Hl as <- Hl;
    unfold pending in Hp4; injection Hp4 as Hp4 Hs4 Hh4.
  2: { assert (pending_block_hashes db <> ∅).
       { intros E. rewrite Hh4 in Hl. cbn in Hl. rewrite Hh2 in Hl. cbn in Hl. rewrite E, elements_empty in Hl. cbn in Hl.
         by rewrite empty_blocks in Hl. }
       split; [by apply tick_inv|]. rewrite (invalid_hashes db) by done.
       rewrite invalid_hashes by (cbn; rewrite Hh4; cbn; by rewrite Hh2). done. }
  apply honest_blocks in Hl as ->. rewrite bare_blocks in H. apply st_bind_Ok in H as (db6 & [] & H6 & H).
  apply (stage_blocks_inv (tick db4)) in H6 as (HI6 & Hx6 & Hp6); [|by apply tick_inv].
  assert (fixed db db6) as Hx by (eapply fixed_trans, fixed_trans, Hx6; [exact Hx2|exact Hx4]).
  assert (pending db6 = (∅, ∅, ∅)) as Hp.
  { rewrite Hp6. cbn. rewrite Hp4, Hs4. cbn. by rewrite Hp2. }
  destruct (is_valid_run db) eqn:Ev; op_inv.
  - split_and!; try done. apply is_valid_run_true in Ev as (E1 & E2 & E3). unfold pending at 2. by rewrite E1, E2, E3.
  - split_and!; [by destruct HI6|done|done].
Qed.

(** *** The construction *)
Lemma insert_hash_accounts m n h m' : insert_block_hash m n h = Ok m' -> accounts m' = accounts m.
Proof. unfold insert_block_hash. intros. by repeat (case_match || simplify_eq). Qed.

Lemma record_history_inv n db db' u :
  Inv db -> record_history (true_block c n) db = (db', Ok u) ->
  Inv db' /\ current_db db' = current_db db /\ pending db' = pending db /\
  accounts (initial_db db') = accounts (initial_db db) /\ staging_db db' = staging_db db.
Proof.
  intros HI H. unfold record_history in H. cbn in H. op_inv. cbn in *. simplify_eq.
  match goal with H : on_initial _ _ = _ |- _ => rewrite on_initial_eq in H end.
  destruct (insert_block_hash _ _ _) as [m| |] eqn:Em; simplify_eq.
  pose proof (insert_hash_accounts _ _ _ _ Em).
  apply insert_hash_faithful in Em as (HF & _ & _); [|apply HI]. split; [|done].
  destruct HI. split; cbn; try done. intros j h. rewrite lookup_insert. case_decide; naive_solver.
Qed.

Definition initial_true (init : option (MemDb * gmap Z Header)) : Prop :=
  forall m h, init = Some (m, h) -> Faithful c m /\ forall n x, h !! n = Some x -> x = true_header c n.

Lemma ProviderDb_new_inv spec init db u :
  initial_true init -> ProviderDb_new spec bn init = (db, Ok u) ->
  Inv db /\ clean db /\ is_valid_run db = true /\ accounts (initial_db db) = accounts (staging_db db).
Proof.
  intros Hi. unfold ProviderDb_new. destruct (default (MemDb_default, ∅) init) as [m h] eqn:Ed.
  assert (Faithful c m /\ forall n x, h !! n = Some x -> x = true_header c n) as [HF HH].
  { destruct init as [[m' h']|]; cbn in Ed; simplify_eq; [by apply Hi|].
    split; [apply faithful_default|]. intros n x. by rewrite lookup_empty. }
  set (db0 := mkProviderDb _ _ _ _ _ _ _ _ _ _). assert (Inv db0) as HI0 by done.
  set (R := fun db => Inv db /\ current_db db = current_db db0 /\ pending db = pending db0 /\
                      accounts (initial_db db) = accounts (initial_db db0) /\ staging_db db = staging_db db0).
  enough (forall db, R db -> Inv db /\ clean db /\ is_valid_run db = true /\
    accounts (initial_db db) = accounts (staging_db db)) as Hgo.
  2: { intros db1 (? & Hc & Hp & Ha & Hs). unfold pending in Hp. injection Hp as ???. split_and!; [done|done| |].
       - by apply is_valid_run_true.
       - by rewrite Ha, Hs. }
  destruct (is_taiko spec); intros H; [|unfold mret, st_ret in H; simplify_eq; by apply Hgo].
  apply Hgo. apply st_bind_Ok in H as (? & absent & Hg & H). unfold gets in Hg. injection Hg as <- <-.
  apply st_bind_Ok in H as (? & blocks & Hg & H). unfold ask in Hg. injection Hg as <- Hg.
  apply honest_blocks in Hg as ->.
  eapply (for_each_inv R); [|..|exact H].
  - intros b s s' u' (n & -> & _)%list_elem_of_fmap (HIs & Hcs & Hps & Has & Hss) Hr.
    apply record_history_inv in Hr as (? & ? & ? & ? & ?); [|done]. split_and!; [done|congruence..].
  - split_and!; [by apply tick_inv|done..].
Qed.

(** *** The loop *)
Section loop.
Variable executor : bool -> Exec (outcome string (gmap bytes Account)).
Hypothesis executor_strict : strict (executor false).
Hypothesis executor_hashes : forall o, u64_hashes (executor o).

(** What the loop leaves when it succeeds: the changes of an execution on the
    chain itself are committed, and the same execution on any database that
    holds the collected data has the same result. *)
Record Collected (db : ProviderDb) : Prop := {
  col_inv : Inv db;
  col_run : exists o changes,
    run (executor o) c = (c, Ok (Ok changes)) /\
    current_db db = commit MemDb_default changes /\
    forall m, Faithful c m -> Ext (initial_db db) m -> run (executor o) m = (m, Ok (Ok changes))
}.

Lemma with_optimistic_inv o db : Inv db -> Inv (with_optimistic o db).
Proof. by intros []. Qed.
Lemma with_current_inv m db : Inv db -> Inv (with_current m db).
Proof. by intros []. Qed.

Lemma execute_txs_collected fuel n db db' u :
  Inv db -> (is_valid_run db = true -> clean db) ->
  execute_txs_from empty_code_hash executor fuel n db = Some (db', Ok u) -> Collected db'.
Proof.
  revert n db. induction fuel as [|fuel IH]; intros n db HI Hc H; [done|]. cbn [execute_txs_from] in H.
  set (o := n + 1 <? max_iterations) in *. unfold pdb_execute_transactions in H.
  destruct (run (executor o) (with_optimistic o db)) as [db1 [[changes|?|]|?|]] eqn:Er; try done.
  assert (Inv (with_optimistic o db)) as HI0 by (by apply with_optimistic_inv).
  pose proof (run_adv _ _ _ _ Er HI0) as Ha. pose proof (adv_inv _ _ Ha HI0) as HI1.
  destruct (fetch_data (pdb_commit changes db1)) as [db2 [b|?|]] eqn:Ef; [|done|done].
  apply fetch_data_inv in Ef as (HI2 & -> & Hb); [|by apply with_current_inv].
  change (is_valid_run (pdb_commit changes db1)) with (is_valid_run db1) in *.
  destruct (is_valid_run db1) eqn:Ev; [|by apply (IH (n + 1) db2)].
  simplify_eq. destruct Hb as [(Hi & Hcur & _) _]. split; [done|].
  assert (clean (with_optimistic o db)) as Hcl.
  { apply Hc. by apply (adv_valid _ _ Ha) in Ev. }
  destruct (run_true _ _ _ _ Er HI0 Hcl Ev (executor_hashes o)) as [Ht Hm].
  { cbn. destruct o; [by left|]. right. split; [done|by eexists]. }
  exists o, changes. split_and!; [done| |].
  - rewrite Hcur. unfold pdb_commit. cbn. by rewrite (adv_current _ _ Ha), Hcl.
  - intros m HF HE. apply Hm; [done|]. by rewrite Hi in HE.
Qed.
End loop.
End sound.

(** C4: the data that preflight collects is right and enough. If the database is
    made with true initial data and every answer of the provider is true, though
    any request may fail at any time, then whenever the loop of optimistic
    executions ends with success, the committed changes are those of an execution
    on the chain itself, however many runs saw placeholders before; the collected
    database holds nothing but the truth; and executing again on it finds every
    account, slot and block hash it reads and gives the same changes. *)
Theorem collected_data_replays `{BlockDataProvider} `{EvmAccounts} c bn `{!Honest _ c bn} code_hash executor spec init fuel db0 db u v :
  initial_true c init -> strict (executor false) -> (forall o, u64_hashes (executor o)) ->
  ProviderDb_new spec bn init = (db0, Ok u) ->
  execute_txs code_hash executor fuel db0 = Some (db, Ok v) ->
  Faithful c (initial_db db) /\
  exists o changes,
    run (executor o) c = (c, Ok (Ok changes)) /\
    current_db db = commit MemDb_default changes /\
    run (executor o) (initial_db db) = (initial_db db, Ok (Ok changes)).
Proof.
  intros Hi Hs Hu Hn He. destruct (ProviderDb_new_inv c bn spec init db0 u Hi Hn) as (HI & Hc & _ & _).
  destruct (execute_txs_collected c bn code_hash executor Hs Hu _ _ _ _ _ HI (fun _ => Hc) He) as [[_ HF _ _] (o & ch & ? & ? & Hm)].
  split; [done|]. exists o, ch. split_and!; [done|done|]. by apply Hm.
Qed.

(** ** Termination *)

(** A provider that answers every request. *)
Class Answering (P : BlockDataProvider) (c : Chain) (bn : Z) : Prop := {
  answer_accounts t l : get_accounts t bn l = Ok (true_account c <$> l);
  answer_slots t l : get_storage_values t bn l = Ok ((fun ai => true_slot c ai.1 ai.2) <$> l);
  answer_blocks t l : get_blocks t l = Ok (true_block c <$> l)
}.

#[global] Instance answering_honest P c bn : Answering P c bn -> Honest P c bn.
Proof.
  intros HA. split; intros *; rewrite ?answer_accounts, ?answer_slots, ?answer_blocks; by intros; simplify_eq.
Qed.

(** The EVM loads an account before it reads its storage. *)
Fixpoint loads_first {A : Type} (loaded : gset bytes) (e : Exec A) : Prop :=
  match e with
  | Done _ => True
  | ReadBasic a k => forall r, loads_first ({[a]} ∪ loaded) (k r)
  | ReadStorage a _ k => a ∈ loaded /\ forall r, loads_first loaded (k r)
  | ReadBlockHash _ k => forall r, loads_first loaded (k r)
  end.

Section total.
Context {P : BlockDataProvider} {EA : EvmAccounts} (c : Chain) (bn : Z) {HA : Answering P c bn}.
Variable empty_code_hash : bytes.
#[local] Instance pdb_database' : Database ProviderDb := ProviderDb_database empty_code_hash.
#[local] Abbreviation basic_ := (pdb_basic empty_code_hash).
#[local] Abbreviation storage_ := (pdb_storage empty_code_hash).
#[local] Abbreviation Inv := (Inv c bn).

Definition known (m : MemDb) : gset bytes := dom (accounts m).

(** The state of a run that cannot panic, after the accounts of [loaded]. *)
Record Safe (loaded : gset bytes) (db : ProviderDb) : Prop := {
  sf_inv : Inv db;
  sf_clean : clean db;
  sf_staged : optimistic db = true -> known (initial_db db) ⊆ known (staging_db db);
  sf_pessimistic : optimistic db = false -> is_valid_run db = true;
  sf_valid : is_valid_run db = true -> loaded ⊆ known (initial_db db);
  sf_known : optimistic db = true -> loaded ⊆ known (staging_db db) ∪ pending_accounts db;
  sf_slots : forall a i, (a, i) ∈ pending_slots db -> a ∈ known (staging_db db) ∪ pending_accounts db
}.

Lemma insert_info_total m a : Faithful c m -> exists m', insert_account_info m a (true_account c a) = Ok m' /\
  Faithful c m' /\ known m' = {[a]} ∪ known m.
Proof.
  intros HF. destruct (insert_account_info m a (true_account c a)) as [m'| |] eqn:E.
  - destruct (insert_info_faithful c _ _ _ HF E) as (? & _ & ?). exists m'. split_and!; [done|done|].
    unfold insert_account_info in E. destruct (accounts m !! a) eqn:Ea.
    + case_match; simplify_eq. unfold known. apply elem_of_dom_2 in Ea. set_solver.
    + simplify_eq. unfold known. cbn. by rewrite dom_insert_L.
  - unfold insert_account_info in E. by repeat case_match.
  - unfold insert_account_info in E. destruct (accounts m !! a) as [e|] eqn:Ea; [|done].
    rewrite (et_info _ _ _ (fa_accounts _ _ HF _ _ Ea)) in E. unfold info_eqb in E.
    rewrite !Z.eqb_refl, bool_decide_eq_true_2 in E by done. done.
Qed.

Lemma insert_storage_total m a i : Faithful c m -> a ∈ known m ->
  exists m', insert_account_storage m a i (true_slot c a i) = Ok m' /\ Faithful c m' /\ known m' = known m.
Proof.
  intros HF Ha. destruct (insert_account_storage m a i (true_slot c a i)) as [m'| |] eqn:E.
  - destruct (insert_storage_faithful c _ _ _ _ HF E) as (? & _ & _). exists m'. split_and!; [done|done|].
    unfold insert_account_storage in E. case_match; simplify_eq. unfold known in *. cbn. rewrite dom_insert_L. set_solver.
  - unfold insert_account_storage in E. by case_match.
  - unfold known in Ha. apply elem_of_dom in Ha as [e He]. unfold insert_account_storage in E. by rewrite He in E.
Qed.

Lemma insert_hash_total m n : Faithful c m ->
  exists m', insert_block_hash m n (true_hash c n) = Ok m' /\ Faithful c m' /\ known m' = known m.
Proof.
  intros HF. destruct (insert_block_hash m n (true_hash c n)) as [m'| |] eqn:E.
  - destruct (insert_hash_faithful c _ _ _ HF E) as (? & _ & _). exists m'. split_and!; [done|done|].
    unfold insert_block_hash in E. by repeat (case_match || simplify_eq).
  - unfold insert_block_hash in E. by repeat case_match.
  - unfold insert_block_hash in E. destruct (block_hashes m !! n) as [h|] eqn:Eh; [|done].
    rewrite (fa_hashes _ _ HF _ _ Eh), bool_decide_eq_true_2 in E by done. done.
Qed.

Lemma basic_known m a : Faithful c m ->
  basic m a = if bool_decide (a ∈ known m) then Ok (Some (true_account c a)) else Err BestBlockNotFound.
Proof.
  intros HF. unfold known. case_bool_decide as Ha.
  - apply (ext_basic c m m); [done|done|]. by apply elem_of_dom in Ha.
  - apply not_elem_of_dom in Ha. unfold basic. by rewrite Ha.
Qed.

(** Recording a true account in the initial database. *)
Lemma safe_with_initial loaded loaded' m db :
  Safe loaded db -> Faithful c m -> known (initial_db db) ⊆ known m -> loaded' ⊆ loaded ∪ known m ->
  (optimistic db = true -> known m ⊆ known (staging_db db)) ->
  Safe loaded' (with_initial m db).
Proof.
  intros [] HF Hm Hl Ho. split; cbn; try done.
  - by destruct sf_inv0.
  - intros Hv. specialize (sf_valid0 Hv). set_solver.
  - intros Hop. specialize (sf_known0 Hop). specialize (Ho Hop). set_solver.
Qed.

Lemma safe_tick loaded db : Safe loaded db -> Safe loaded (tick db).
Proof. intros []. split; try done. by destruct sf_inv0. Qed.

Lemma safe_weaken loaded loaded' db : loaded' ⊆ loaded -> Safe loaded db -> Safe loaded' db.
Proof. intros Hs []. split; try done; intros; set_solver. Qed.

(** Putting something on the lists of an optimistic run. *)
Lemma safe_with_pending loaded loaded' a s h db :
  Safe loaded db -> optimistic db = true -> a <> ∅ \/ s <> ∅ \/ h <> ∅ -> pending_accounts db ⊆ a ->
  loaded' ⊆ loaded ∪ a -> (forall x i, (x, i) ∈ s -> (x, i) ∈ pending_slots db \/ x ∈ loaded) ->
  Safe loaded' (with_pending a s h db).
Proof.
  intros [] Ho Hne Ha Hl Hs. specialize (sf_known0 Ho). split; cbn.
  - by apply with_pending_inv.
  - done.
  - done.
  - congruence.
  - by rewrite with_pending_invalid.
  - intros _. clear -sf_known0 Ha Hl. set_solver.
  - intros x i Hx. destruct (Hs _ _ Hx) as [Hx'|Hx']; [specialize (sf_slots0 _ _ Hx')|]; clear -sf_slots0 sf_known0 Ha Hx'; set_solver.
Qed.

(** *** The reads succeed *)
Lemma basic_total loaded db a : Safe loaded db ->
  exists db' x, basic_ a db = (db', Ok x) /\ Safe ({[a]} ∪ loaded) db'.
Proof.
  intros HS. pose proof HS as [HI Hc Hst Hp Hv Hk Hsl]. unfold pdb_basic. rewrite Hc. cbn [MemDb_default].
  rewrite (basic_known (initial_db db)), (basic_known (staging_db db)) by apply HI.
  change (basic MemDb_default a) with (Err BestBlockNotFound : outcome ProviderError (option AccountInfo)). cbn [or_read].
  case_bool_decide as Hi; cbn [or_read].
  { do 2 eexists. split; [done|]. split; try done; intros; [set_solver|]. specialize (Hst ltac:(done)). set_solver. }
  case_bool_decide as Hs; cbn [or_read].
  { destruct (is_valid_run db) eqn:Ev; unfold mbind, st_bind.
    - cbn -[on_initial]. rewrite on_initial_eq.
      destruct (insert_info_total (initial_db db) a) as (m & -> & HF & Hm); [apply HI|]. cbn.
      do 2 eexists. split; [done|]. eapply safe_with_initial; [done|done|set_solver..].
    - do 2 eexists. split; [done|]. split; try apply HS; intros; [congruence|set_solver]. }
  destruct (optimistic db) eqn:Eo; unfold mbind, st_bind, modify, ask; cbn -[on_initial].
  - do 2 eexists. split; [done|]. eapply safe_with_pending; [done|done|left; set_solver|set_solver..].
  - rewrite (inv_number _ _ _ HI), answer_accounts. cbn -[on_initial]. rewrite on_initial_eq. cbn.
    destruct (insert_info_total (initial_db db) a) as (m & -> & HF & Hm); [apply HI|]. cbn.
    do 2 eexists. split; [done|]. eapply safe_with_initial; [by apply safe_tick|done|cbn; set_solver..|cbn; congruence].
Qed.

Lemma storage_total loaded db a i : Safe loaded db -> a ∈ loaded ->
  exists db' x, storage_ a i db = (db', Ok x) /\ Safe loaded db'.
Proof.
  intros HS Ha. pose proof HS as [HI Hc Hst Hp Hv Hk Hsl]. unfold pdb_storage. rewrite Hc.
  change (storage MemDb_default a i) with (Err BestBlockNotFound : outcome ProviderError Z). cbn [or_read].
  destruct (storage (initial_db db) a i) as [v|?|] eqn:Ei; cbn [or_read]; [by do 2 eexists| |].
  2: { by apply (faithful_storage c) in Ei; [|apply HI]. }
  destruct (storage (staging_db db) a i) as [v|?|] eqn:Es; apply (faithful_storage c) in Es; try apply HI; cbn in Es; [subst v| |done];
    cbn [or_read].
  { destruct (is_valid_run db) eqn:Ev; unfold mbind, st_bind; [|by do 2 eexists].
    rewrite on_initial_eq. destruct (insert_storage_total (initial_db db) a i) as (m & -> & HF & Hm);
      [apply HI|by apply Hv|]. cbn. do 2 eexists. split; [done|]. eapply safe_with_initial; [done|done|set_solver..]. }
  destruct (optimistic db) eqn:Eo; unfold mbind, st_bind, modify, ask.
  - destruct (basic_total loaded db a HS) as (db1 & x & Hb & HS1). rewrite Hb. cbn. do 2 eexists. split; [done|].
    pose proof HS1 as [HI1 Hc1 Hst1 Hp1 Hv1 Hk1 Hsl1].
    assert (optimistic db1 = true) as Eo1.
    { rewrite <- Eo. destruct (basic_adv c bn empty_code_hash _ _ _ _ Hb ltac:(done)) as [Hadv _]. by apply Hadv. }
    eapply safe_with_pending; [done|done|right; left; set_solver|set_solver..].
  - specialize (Hv (Hp eq_refl)). rewrite basic_known, bool_decide_eq_true_2 by (apply HI || by apply Hv). cbn -[on_initial].
    rewrite (inv_number _ _ _ HI), answer_slots. cbn -[on_initial]. rewrite on_initial_eq.
    destruct (insert_storage_total (initial_db db) a i) as (m & Hm & HF & Hkm); [apply HI|by apply Hv|]. cbn. rewrite Hm. cbn.
    do 2 eexists. split; [done|]. eapply safe_with_initial; [by apply safe_tick|done|cbn; set_solver..|cbn; congruence].
Qed.

Lemma block_hash_total loaded db n : Safe loaded db ->
  exists db' r, pdb_block_hash n db = (db', r) /\ r <> Panic /\ Safe loaded db'.
Proof.
  intros HS. pose proof HS as [HI Hc Hst Hp Hv Hk Hsl]. unfold pdb_block_hash.
  destruct (u64_max <? n) eqn:En; breflect; [by do 2 eexists|].
  assert (forall m, block_hash m n = ok_or (block_hashes m !! n) BestBlockNotFound) as Hbh.
  { intros m. unfold block_hash. by rewrite (proj2 (Z.leb_le _ _)) by done. }
  rewrite !Hbh. destruct (block_hashes (initial_db db) !! n) as [h|]; cbn [ok_or or_read]; [by do 2 eexists|].
  destruct (block_hashes (staging_db db) !! n) as [h|] eqn:Es; cbn [ok_or or_read].
  { apply (fa_hashes c) in Es; [subst h|apply HI].
    destruct (is_valid_run db) eqn:Ev; unfold mbind, st_bind; [|by do 2 eexists].
    rewrite on_initial_eq. destruct (insert_hash_total (initial_db db) n) as (m & -> & HF & Hm); [apply HI|].
    cbn. do 2 eexists. split_and!; [done|done|]. eapply safe_with_initial; [done|done|set_solver..]. }
  destruct (optimistic db) eqn:Eo; unfold mbind, st_bind, modify, ask; cbn -[on_initial].
  - do 2 eexists. split_and!; [done|done|]. eapply safe_with_pending; [done|done|right; right; set_solver|set_solver..].
  - rewrite answer_blocks. cbn -[on_initial]. rewrite on_initial_eq.
    destruct (insert_hash_total (initial_db db) n) as (m & Hm & HF & Hkm); [apply HI|]. cbn. rewrite Hm. cbn.
    do 2 eexists. split_and!; [done|done|]. eapply safe_with_initial; [by apply safe_tick|done|cbn; set_solver..|cbn; congruence].
Qed.

Lemma run_total {A} (e : Exec A) loaded db : Safe loaded db -> loads_first loaded e ->
  exists db' r, run e db = (db', Ok r) /\ Safe ∅ db'.
Proof.
  revert loaded db; induction e as [x|a k IH|a i k IH|n k IH]; intros loaded db HS Hl; cbn -[pdb_basic pdb_storage pdb_block_hash].
  - do 2 eexists. split; [done|]. eapply safe_weaken; [|done]. set_solver.
  - destruct (basic_total loaded db a HS) as (db1 & x & Hb & HS1). rewrite Hb. by eapply IH.
  - destruct Hl as [Ha Hl]. destruct (storage_total loaded db a i HS Ha) as (db1 & x & Hb & HS1). rewrite Hb. by eapply IH.
  - destruct (block_hash_total loaded db n HS) as (db1 & [x|x|] & Hb & Hp & HS1); rewrite Hb; [by eapply IH..|done].
Qed.

(** *** Fetching succeeds *)
Lemma on_staging_eq {E} f db :
  on_staging (E := E) f db = match f (staging_db db) with Ok m => (with_staging m db, Ok ()) | _ => (db, Panic) end.
Proof. unfold on_staging, updates. by destruct (f (staging_db db)). Qed.

Lemma with_staging_inv m db : Inv db -> Faithful c m -> Inv (with_staging m db).
Proof. by intros [] ?. Qed.

Lemma stage_account_list l db : Inv db ->
  exists db', for_each (fun '(address, account) => on_staging (fun m => insert_account_info m address account))
      (zip l (true_account c <$> l)) db = (db', Ok () : outcome RaikoError ()) /\
    known (staging_db db') = list_to_set l ∪ known (staging_db db).
Proof.
  revert db. induction l as [|a l IH]; intros db HI; cbn -[on_staging].
  - eexists. split; [done|]. set_solver.
  - unfold mbind, st_bind. rewrite on_staging_eq.
    destruct (insert_info_total (staging_db db) a) as (m & -> & HF & Hm); [apply HI|].
    destruct (IH (with_staging m db)) as (db' & -> & Hk); [by apply with_staging_inv|].
    eexists. split; [done|]. rewrite Hk. cbn. rewrite Hm. clear. set_solver.
Qed.

Lemma stage_slot_list l db : Inv db -> (forall ai, ai ∈ l -> ai.1 ∈ known (staging_db db)) ->
  exists db', for_each (fun '((address, index), value) => on_staging (fun m => insert_account_storage m address index value))
      (zip l ((fun ai => true_slot c ai.1 ai.2) <$> l)) db = (db', Ok () : outcome RaikoError ()) /\
    known (staging_db db') = known (staging_db db).
Proof.
  revert db. induction l as [|[a i] l IH]; intros db HI Hs; cbn -[on_staging].
  - by eexists.
  - unfold mbind, st_bind. rewrite on_staging_eq.
    destruct (insert_storage_total (staging_db db) a i) as (m & -> & HF & Hm); [apply HI|by apply (Hs (a, i)); left|].
    destruct (IH (with_staging m db)) as (db' & -> & Hk); [by apply with_staging_inv| |].
    + intros ai Hai. cbn. rewrite Hm. apply Hs. by right.
    + eexists. split; [done|]. rewrite Hk. cbn. by rewrite Hm.
Qed.

Lemma stage_block_list l db : Inv db ->
  exists db', for_each (fun '(bn, block) => stage_block bn block) (zip l (bare_block c <$> l)) db = (db', Ok ()) /\
    known (staging_db db') = known (staging_db db).
Proof.
  revert db. induction l as [|n l IH]; intros db HI; cbn -[on_staging].
  - by eexists.
  - unfold mbind, st_bind, stage_block. unfold mbind, st_bind. cbn -[on_staging]. rewrite on_staging_eq.
    destruct (insert_hash_total (staging_db db) n) as (m & -> & HF & Hm); [apply HI|]. unfold modify. cbn.
    match goal with |- context [for_each _ _ ?d] => destruct (IH d) as (db' & H & Hk) end.
    + destruct HI. split; cbn; try done. intros j h. rewrite lookup_insert. case_decide; naive_solver.
    + exists db'. split; [exact H|]. rewrite Hk. cbn. by rewrite Hm.
Qed.

Lemma stage_accounts_total db : Inv db ->
  exists db', stage_accounts (true_account c <$> elements (pending_accounts db)) db = (db', Ok ()) /\
    known (staging_db db') = pending_accounts db ∪ known (staging_db db).
Proof.
  intros HI. destruct (stage_account_list (elements (pending_accounts db))
    (with_pending ∅ (pending_slots db) (pending_block_hashes db) db)) as (db' & H & Hk); [by apply with_pending_inv|].
  exists db'. split; [exact H|]. rewrite Hk. by rewrite list_to_set_elements_L.
Qed.

Lemma stage_slots_total db : Inv db -> (forall a i, (a, i) ∈ pending_slots db -> a ∈ known (staging_db db)) ->
  exists db', stage_slots ((fun ai => true_slot c ai.1 ai.2) <$> elements (pending_slots db)) db = (db', Ok ()) /\
    known (staging_db db') = known (staging_db db).
Proof.
  intros HI Hs. apply (stage_slot_list (elements (pending_slots db))
    (with_pending (pending_accounts db) ∅ (pending_block_hashes db) db)); [by apply with_pending_inv|].
  intros [a i] ?%elem_of_elements. by eapply Hs.
Qed.

Lemma stage_blocks_total db : Inv db ->
  exists db', stage_blocks (bare_block c <$> elements (pending_block_hashes db)) db = (db', Ok ()) /\
    known (staging_db db') = known (staging_db db).
Proof.
  intros HI. apply (stage_block_list (elements (pending_block_hashes db))
    (with_pending (pending_accounts db) (pending_slots db) ∅ db)). by apply with_pending_inv.
Qed.

Lemma fetch_data_total db :
  Inv db -> (optimistic db = true -> known (initial_db db) ⊆ known (staging_db db)) ->
  (forall a i, (a, i) ∈ pending_slots db -> a ∈ known (staging_db db) ∪ pending_accounts db) ->
  exists db', fetch_data db = (db', Ok (is_valid_run db)) /\
    (is_valid_run db = false -> Safe ∅ db' /\ optimistic db' = optimistic db /\ is_valid_run db' = true).
Proof.
  intros HI Hst Hsl. unfold fetch_data. cbv zeta. unfold or_false, ask.
  rewrite (inv_number _ _ _ HI), answer_accounts.
  destruct (stage_accounts_total (tick db)) as (db1 & H1 & Hk1); [by apply tick_inv|].
  change (pending_accounts db) with (pending_accounts (tick db)). unfold mbind at 1, st_bind at 1. rewrite H1.
  apply (stage_accounts_inv c bn) in H1 as (HI1 & Hx1 & Hp1); [|by apply tick_inv]. injection Hp1 as Hpa1 Hps1 Hph1.
  unfold mbind at 1, st_bind at 1, gets at 1. rewrite (inv_number _ _ _ HI1), answer_slots.
  destruct (stage_slots_total (tick db1)) as (db2 & H2 & Hk2); [by apply tick_inv| |].
  { intros a i. cbn. rewrite Hps1, Hk1. cbn. intros Ha. specialize (Hsl a i Ha). set_solver. }
  change (pending_slots db1) with (pending_slots (tick db1)). unfold mbind at 1, st_bind at 1. rewrite H2.
  apply (stage_slots_inv c bn) in H2 as (HI2 & Hx2 & Hp2); [|by apply tick_inv]. injection Hp2 as Hpa2 Hps2 Hph2.
  unfold mbind at 1, st_bind at 1, gets at 1. rewrite answer_blocks, bare_blocks.
  destruct (stage_blocks_total (tick db2)) as (db3 & H3 & Hk3); [by apply tick_inv|].
  change (pending_block_hashes db2) with (pending_block_hashes (tick db2)). unfold mbind at 1, st_bind at 1. rewrite H3.
  apply (stage_blocks_inv c bn) in H3 as (HI3 & Hx3 & Hp3); [|by apply tick_inv].
  injection Hp3 as Hpa3 Hps3 Hph3. cbn in *.
  assert (fixed db db3) as (Hfi & _ & Hfo) by (eapply fixed_trans, fixed_trans, Hx3; [exact Hx1|exact Hx2]).
  destruct (is_valid_run db) eqn:Ev; unfold mbind, st_bind, modify; cbn; eexists; (split; [done|]); [done|].
  assert (is_valid_run (with_current MemDb_default db3) = true) as Hv
    by (apply is_valid_run_true; cbn; by rewrite Hpa3, Hps3, Hph3, Hpa2, Hps2, Hpa1).
  intros _. split_and!; [|done|done]. split; cbn; try done.
  - by destruct HI3.
  - rewrite Hfo, Hfi, Hk3, Hk2, Hk1. intros Ho. specialize (Hst Ho). set_solver.
  - set_solver.
Qed.

(** *** The loop ends *)
Fixpoint ends_with {A} (Q : A -> Prop) (e : Exec A) : Prop :=
  match e with
  | Done r => Q r
  | ReadBasic _ k => forall r, ends_with Q (k r)
  | ReadStorage _ _ k => forall r, ends_with Q (k r)
  | ReadBlockHash _ k => forall r, ends_with Q (k r)
  end.

Lemma run_ends {A} (Q : A -> Prop) (e : Exec A) db db' r : ends_with Q e -> run e db = (db', Ok r) -> Q r.
Proof.
  revert db; induction e as [x|a k IH|a i k IH|n k IH]; intros db He Hr; cbn -[pdb_basic pdb_storage pdb_block_hash] in Hr;
    [by simplify_eq|apply answer_Ok in Hr as (db1 & x & _ & _ & Hr); by eapply IH..].
Qed.

Variable executor : bool -> Exec (outcome string (gmap bytes Account)).
Hypothesis executor_loads : forall o, loads_first ∅ (executor o).

Hypothesis executor_quiet : forall o, ends_with (fun r => r <> Panic) (executor o).

Lemma safe_optimistic o db : Safe ∅ db -> is_valid_run db = true -> known (initial_db db) ⊆ known (staging_db db) ->
  Safe ∅ (with_optimistic o db).
Proof. intros [] Hv Hk. split; cbn; try done. by destruct sf_inv0. Qed.

Lemma execute_txs_total fuel n db :
  Safe ∅ db -> is_valid_run db = true -> known (initial_db db) ⊆ known (staging_db db) ->
  0 <= n < 100 -> (Z.to_nat (100 - n) <= fuel)%nat ->
  exists db' r, execute_txs_from empty_code_hash executor fuel n db = Some (db', r) /\ r <> Panic.
Proof.
  revert n db. induction fuel as [|fuel IH]; intros n db HS Hv Hk Hn Hf; [lia|]. cbn [execute_txs_from].
  set (o := n + 1 <? max_iterations). unfold pdb_execute_transactions.
  destruct (run_total (executor o) ∅ (with_optimistic o db)) as (db1 & r & Hr & HS1);
    [by apply safe_optimistic|by apply executor_loads|].
  unfold pdb_database' in Hr. rewrite Hr. pose proof (run_ends _ _ _ _ _ (executor_quiet o) Hr) as Hq.
  destruct r as [changes|e|]; [|by do 2 eexists|done].
  destruct (fetch_data_total (pdb_commit changes db1)) as (db2 & Hd & Hd2); try apply HS1.
  { by apply with_current_inv, HS1. }
  rewrite Hd. change (is_valid_run (pdb_commit changes db1)) with (is_valid_run db1) in *.
  destruct (is_valid_run db1) eqn:Ev1; [by do 2 eexists|].
  destruct (Hd2 eq_refl) as (HS2 & Ho2 & Hv2).
  assert (optimistic db1 = o) as Ho1.
  { apply (run_adv c bn empty_code_hash) in Hr; [by rewrite (adv_optimistic _ _ _ _ Hr)|by apply with_optimistic_inv, HS]. }
  destruct o eqn:Eo; [|by rewrite (sf_pessimistic _ _ HS1) in Ev1]. subst o. apply Z.ltb_lt in Eo. unfold max_iterations in Eo.
  apply IH; [done|done| |lia|lia]. apply HS2. by rewrite Ho2.
Qed.
End total.

Lemma execute_txs_ends `{BlockDataProvider} `{EvmAccounts} c bn `{!Answering _ c bn} code_hash executor spec init db0 u :
  initial_true c init -> (forall o, loads_first ∅ (executor o)) ->
  (forall o, ends_with (fun r => r <> Panic) (executor o)) ->
  ProviderDb_new spec bn init = (db0, Ok u) ->
  exists db r, execute_txs code_hash executor 100 db0 = Some (db, r) /\ r <> Panic.
Proof.
  intros Hi Hl Hq Hn. destruct (ProviderDb_new_inv c bn spec init db0 u Hi Hn) as (HI & Hc & Hv & Ha).
  assert (known (initial_db db0) = known (staging_db db0)) as Hk by (unfold known; by rewrite Ha).
  apply (execute_txs_total c bn); [done|done| |done|by rewrite Hk|lia|done].
  split; [done|done|by rewrite Hk|done|set_solver|set_solver|].
  apply is_valid_run_true in Hv as (_ & -> & _). set_solver.
Qed.

(** Preflight ends. When the provider answers, and the executor loads an
    account before its storage and does not panic itself, the loop of executions
    returns within its 100 iterations, with success or with the executor's error:
    the 99 optimistic runs and the final one never trip an assertion of the
    databases, whatever the executor reads and whatever it is told by
    placeholders. *)
Theorem preflight_terminates `{BlockDataProvider} `{EvmAccounts} c bn `{!Answering _ c bn} code_hash executor spec init db0 u :
  initial_true c init -> (forall o, loads_first ∅ (executor o)) ->
  (forall o, ends_with (fun r => r <> Panic) (executor o)) ->
  ProviderDb_new spec bn init = (db0, Ok u) ->
  exists db r, execute_txs code_hash executor 100 db0 = Some (db, r) /\ r <> Panic.
Proof. intros. by eapply execute_txs_ends. Qed.

(** ** Ancestors *)
Section ancestors.
Context {P : BlockDataProvider} (c : Chain) (bn : Z) {HP : Honest P c bn}.

Lemma ancestor_header_true n db db' h :
  Inv c bn db -> ancestor_header n db = (db', Ok h) -> Inv c bn db' /\ h = true_header c n.
Proof.
  intros HI. unfold ancestor_header. destruct (initial_headers db !! n) as [h'|] eqn:E.
  - intros; simplify_eq. split; [done|]. by eapply inv_headers.
  - unfold mbind, st_bind, ask, lift, modify. cbn. destruct (get_blocks _ _) as [l| |] eqn:Eg; cbn; try done.
    apply honest_blocks in Eg as ->. cbn. unfold mret, st_ret. intros; simplify_eq. split; [|done].
    destruct HI. split; cbn; try done. intros j x. rewrite lookup_insert. case_decide; naive_solver.
Qed.

Lemma collect_headers_true l db db' r :
  Inv c bn db -> collect_st ancestor_header l db = (db', Ok r) -> Inv c bn db' /\ r = true_header c <$> l.
Proof.
  revert db db' r; induction l as [|n l IH]; intros db db' r HI H; cbn -[ancestor_header] in H.
  - unfold mret, st_ret in H. by simplify_eq.
  - apply st_bind_Ok in H as (db1 & h & Hh & H). apply ancestor_header_true in Hh as [HI1 ->]; [|done].
    apply st_bind_Ok in H as (db2 & t & Ht & H). apply IH in Ht as [HI2 ->]; [|done].
    unfold mret, st_ret in H. by simplify_eq.
Qed.
End ancestors.

(** The ancestors handed to the guest are the headers of the 255 blocks before
    the parent block, or of all of them near genesis, the latest first, whether
    they were cached by earlier reads or are fetched now. *)
Theorem ancestor_headers_true `{BlockDataProvider} c bn `{!Honest _ c bn} db db' headers :
  Inv c bn db -> get_ancestor_headers db = (db', Ok headers) ->
  headers = true_header c <$> reverse (seqZ (Z.max 0 (bn - 255)) (bn - Z.max 0 (bn - 255))).
Proof.
  intros HI H1. unfold get_ancestor_headers, saturating_sub in H1. cbv zeta in H1.
  apply (collect_headers_true c bn) in H1 as [_ ->]; [|done]. by rewrite (inv_number _ _ _ HI).
Qed.

(** ** Examples *)
Module Example.
#[local] Instance accounts_lib : EvmAccounts := {
  AccountInfo_default := mkAccountInfo 0 0 [] None;
  info_is_empty i := (balance i =? 0) && (nonce_ i =? 0)
}.

Definition header_of (n : Z) : Header := mkHeader [] [] [] [] [] [] None [] 0 n 0 0 0 [] 0 None [].
Definition chain : Chain := mkChain (fun a => mkAccountInfo 10 (Z.of_nat (length a)) [] (Some []))
  (fun a i => i + 1) (fun n => [n]) header_of (fun n => [[n]]).

Definition answering : BlockDataProvider := {|
  get_blocks _ l := Ok (true_block chain <$> l);
  get_accounts _ _ l := Ok (true_account chain <$> l);
  get_storage_values _ _ l := Ok ((fun ai => true_slot chain ai.1 ai.2) <$> l);
  get_merkle_proofs _ _ _ _ _ := Ok ∅
|}.

#[local] Instance answering_ok : Answering answering chain 9.
Proof. by split. Qed.

(** Reads an account, the slot that its nonce names, the hash of the block that
    the slot names, and then pays one unit. *)
Definition executor (o : bool) : Exec (outcome string (gmap bytes Account)) :=
  ReadBasic [1; 2] (fun r => match r with
  | Ok (Some i) => ReadStorage [1; 2] (nonce_ i) (fun r => match r with
    | Ok v => ReadBlockHash (Z.max 0 (Z.min v 255)) (fun r => match r with
      | Ok h => Done (Ok {[ [1; 2] := mkAccount (mkAccountInfo (balance i - 1) (nonce_ i) h (Some [])) ∅ true false false ]})
      | _ => Done (Err "db") end)
    | _ => Done (Err "db") end)
  | _ => Done (Err "db") end).

Lemma executor_strict : strict (executor false).
Proof. cbn. split; [by eexists|]. intros [i|]; cbn; [|done]. split; [by eexists|]. intros v. split; [by eexists|done]. Qed.
Lemma executor_hashes o : u64_hashes (executor o).
Proof.
  cbn. intros [[i|]| |]; cbn; try done. intros [v| |]; cbn; try done. split; [unfold u64_max; lia|]. intros [h| |]; done.
Qed.
Lemma executor_loads o : loads_first ∅ (executor o).
Proof.
  cbn. intros [[i|]| |]; cbn; try done. split; [set_solver|]. intros [v| |]; cbn; try done. intros [h| |]; done.
Qed.
Lemma executor_quiet o : ends_with (fun r => r <> Panic) (executor o).
Proof.
  cbn. intros [[i|]| |]; cbn; try done. intros [v| |]; cbn; try done. intros [h| |]; done.
Qed.

Definition spec : ChainSpec := new_single "taiko_dev" 1 1 Eip1559Constants_default false.
Definition start : ProviderDb := (ProviderDb_new (P := answering) spec 9 None).1.
Definition finish : option (ProviderDb * outcome RaikoError ()) := execute_txs (P := answering) [] executor 100 start.
Definition finished : ProviderDb := default start (fst <$> finish).

Lemma start_new : ProviderDb_new (P := answering) spec 9 None = (start, Ok ()).
Proof. reflexivity. Qed.
Lemma finish_ok : finish = Some (finished, Ok ()).
Proof. vm_compute. reflexivity. Qed.
Lemma initial_none : initial_true chain None.
Proof. done. Qed.

Lemma collected_data_replays_witness :
  balance <$> (db_info <$> accounts (current_db finished) !! [1; 2]) = Some 9 /\
  exists o changes,
    run (executor o) chain = (chain, Ok (Ok changes)) /\
    current_db finished = commit MemDb_default changes /\
    run (executor o) (initial_db finished) = (initial_db finished, Ok (Ok changes)).
Proof.
  split; [vm_compute; reflexivity|].
  exact (proj2 (@collected_data_replays answering accounts_lib chain 9 _ [] executor spec None 100%nat start finished tt tt
    initial_none executor_strict executor_hashes start_new finish_ok)).
Defined.

Lemma preflight_terminates_witness :
  exists db r, execute_txs (P := answering) [] executor 100 start = Some (db, r) /\ r <> Panic.
Proof.
  exact (@preflight_terminates answering accounts_lib chain 9 _ [] executor spec None start tt
    initial_none executor_loads executor_quiet start_new).
Defined.

Lemma start_inv : Inv chain 9 start.
Proof. split; [done|apply faithful_default|apply faithful_default|]. intros n h. cbn. by rewrite lookup_empty. Qed.

Lemma ancestor_headers_true_witness : exists db,
  get_ancestor_headers (P := answering) start = (db, Ok (header_of <$> [8; 7; 6; 5; 4; 3; 2; 1; 0])) /\
  header_of <$> [8; 7; 6; 5; 4; 3; 2; 1; 0] = true_header chain <$> reverse (seqZ (Z.max 0 (9 - 255)) (9 - Z.max 0 (9 - 255))).
Proof.
  eexists. split; [vm_compute; reflexivity|].
  eapply (@ancestor_headers_true answering chain 9 _ start); [exact start_inv|vm_compute; reflexivity].
Defined.

(** *** A provider that refuses batches *)
Definition one_by_one : BlockDataProvider := {|
  get_blocks _ l := Ok (true_block chain <$> l);
  get_accounts _ _ l :=
    match l with [] | [_] => Ok (true_account chain <$> l) | _ => Err (RPC "batch too large") end;
  get_storage_values _ _ l := Ok ((fun ai => true_slot chain ai.1 ai.2) <$> l);
  get_merkle_proofs _ _ _ _ _ := Ok ∅
|}.

Lemma one_by_one_honest : Honest one_by_one chain 9.
Proof. split; try done; intros *; cbn; repeat case_match; by intros; simplify_eq. Qed.

(** Reads two accounts and changes nothing. *)
Definition two_reads (o : bool) : Exec (outcome string (gmap bytes Account)) :=
  ReadBasic [1] (fun _ => ReadBasic [2] (fun _ => Done (Ok ∅))).

Definition two : gset bytes := {[ [1] ]} ∪ {[ [2] ]}.

(** The state the loop does not leave. *)
Definition Stuck (db : ProviderDb) : Prop :=
  Inv chain 9 db /\ clean db /\ staging_db db = MemDb_default /\ pending_accounts db = two /\
  pending_slots db = ∅ /\ pending_block_hashes db = ∅.

Lemma stuck_read db a : a = [1] \/ a = [2] -> Stuck db ->
  exists db' x, pdb_basic (P := one_by_one) [] a db = (db', Ok x) /\ Stuck db'.
Proof.
  intros Ha (HI & Hc & Hs & Hp & Hps & Hph). unfold pdb_basic. rewrite Hc, Hs.
  change (basic MemDb_default a) with (Err BestBlockNotFound : outcome ProviderError (option AccountInfo)). cbn [or_read].
  rewrite (basic_known chain) by apply HI. case_bool_decide; cbn [or_read].
  { do 2 eexists. split; [done|]. by split_and!. }
  destruct (optimistic db); unfold mbind, st_bind, modify, ask; cbn -[on_initial].
  - do 2 eexists. split; [done|]. split_and!; try done; [by apply with_pending_inv|]. cbn. rewrite Hp. unfold two. set_solver.
  - rewrite on_initial_eq. cbn.
    destruct (@insert_info_total answering chain 9 _ (initial_db db) a) as (m & Hm & HF & _); [apply HI|]. cbn in Hm. rewrite Hm. cbn.
    do 2 eexists. split; [done|]. destruct HI. by split_and!.
Qed.

Lemma stuck_iteration n db fuel : Stuck db ->
  exists db', execute_txs_from (P := one_by_one) [] two_reads (S fuel) n db =
    execute_txs_from (P := one_by_one) [] two_reads fuel (n + 1) db' /\ Stuck db'.
Proof.
  intros HS. cbn [execute_txs_from]. set (o := n + 1 <? max_iterations).
  assert (Stuck (with_optimistic o db)) as HS0.
  { destruct HS as (HI & HS). split; [by apply with_optimistic_inv|exact HS]. }
  destruct (stuck_read _ [1] ltac:(auto) HS0) as (db1 & x & H1 & HS1).
  destruct (stuck_read _ [2] ltac:(auto) HS1) as (db2 & y & H2 & HS2).
  unfold pdb_execute_transactions. cbn -[pdb_basic execute_txs_from fetch_data]. rewrite H1. cbn -[pdb_basic execute_txs_from fetch_data].
  rewrite H2. cbn -[execute_txs_from fetch_data].
  destruct HS2 as (HI2 & Hc2 & Hs2 & Hp2 & HS2).
  assert (fetch_data (P := one_by_one) (pdb_commit ∅ db2) = (tick (pdb_commit ∅ db2), Ok false)) as ->.
  { unfold fetch_data, or_false, ask. cbn. rewrite Hp2. done. }
  eexists. split; [done|]. split_and!; try done; [by destruct HI2| |apply HS2..].
  unfold clean, pdb_commit. cbn. by rewrite Hc2.
Qed.

End Example.
