(* ===== verification/Rpc.v ===== *)
(** * Rpc: the data provider over JSON-RPC

    Models [core/src/provider/rpc.rs] and the two task queries of
    [core/src/provider/mod.rs]. The client that sends the batches is a library:
    a batch is sent at a time, as the [j]-th batch of a call, and the responses
    are collected one by one. *)
From stdpp Require Import base list list_numbers gmap fin_maps strings.
From Stdlib Require Import ZArith Lia.
From S2P Require Import Prelude Text Effect Types Interfaces ChainSpec MptProof Input MemDb ProviderDb.
Local Open Scope Z_scope.

(** ** The client *)
Inductive RpcCall : Type :=
| eth_getBlockByNumber (number : Z) (full : bool)
| eth_getTransactionCount (address : bytes) (block : Z)
| eth_getBalance (address : bytes) (block : Z)
| eth_getCode (address : bytes) (block : Z)
| eth_getStorageAt (address : bytes) (key : Z) (block : Z)
| eth_getProof (address : bytes) (keys : list Z) (block : Z).

Class RpcClient := {
  add_call : RpcCall -> bool;
  send : nat -> nat -> list RpcCall -> outcome string ();
  block_response : nat -> nat -> RpcCall -> outcome string RpcBlock;
  uint_response : nat -> nat -> RpcCall -> outcome string Z;
  bytes_response : nat -> nat -> RpcCall -> outcome string bytes;
  proof_response : nat -> nat -> RpcCall -> outcome string (bytes * AccountProof);
  (** The hash of bytecode. *)
  hash_slow : bytes -> bytes
}.

(** ** Batches *)

(** [slice::chunks]. *)
Fixpoint chunks_fuel {A} (fuel n : nat) (l : list A) : list (list A) :=
  match fuel, l with
  | S fuel', _ :: _ => take n l :: chunks_fuel fuel' n (drop n l)
  | _, _ => []
  end.
Definition chunks {A} (n : nat) (l : list A) : list (list A) := chunks_fuel (length l) n l.

(** One batch after the other, each with its number; the first error ends it. *)
Fixpoint batches {A B} (one : nat -> list A -> RaikoResult (list B)) (j : nat) (cs : list (list A)) :
    RaikoResult (list B) :=
  match cs with
  | [] => Ok []
  | ch :: cs' => r ← one j ch; rs ← batches one (S j) cs'; Ok (r ++ rs)
  end.

Definition rpc_error {A} (m : string) (r : outcome string A) : RaikoResult A := map_err (fun e => RPC (m +:+ e)) r.

Section rpc.
Context {C : RpcClient}.
(** The blocks the provider was made for. *)
Variable block_numbers : list Z.

(** Add the calls of a batch and send it. *)
Definition send_batch (what : string) (t j : nat) (added : list (string * RpcCall)) : RaikoResult () :=
  _ ← collect (fun '(method, call) => ensure (add_call call) (RPC ("Failed adding " +:+ method +:+ " call to batch"))) added;
  rpc_error ("Error sending batch request " +:+ what) (send t j added.*2).

(** The debug text of the blocks of a batch. *)
Definition block_debug (b : Z * bool) : string :=
  "(" +:+ print_u64 b.1 +:+ ", " +:+ (if b.2 then "true" else "false") +:+ ")".
Definition blocks_debug (l : list (Z * bool)) : string :=
  "[" +:+ String.concat ", " (block_debug <$> l) +:+ "]".

Definition block_batch (t j : nat) (ch : list (Z * bool)) : RaikoResult (list RpcBlock) :=
  let call := fun '(n, full) => eth_getBlockByNumber n full in
  _ ← send_batch ("for block " +:+ blocks_debug ch +:+ ": ") t j ((fun x => ("eth_getBlockByNumber"%string, call x)) <$> ch);
  collect (fun x => rpc_error "Error collecting request data: " (block_response t j (call x))) ch.

Definition rpc_get_blocks (t : nat) (blocks_to_fetch : list (Z * bool)) : RaikoResult (list RpcBlock) :=
  batches (block_batch t) 0 (chunks 32 blocks_to_fetch).

Definition collect_account (t j : nat) (block_number : Z) (a : bytes) : RaikoResult AccountInfo :=
  nonce ← rpc_error "Failed to collect nonce request: " (uint_response t j (eth_getTransactionCount a block_number));
  balance ← rpc_error "Failed to collect balance request: " (uint_response t j (eth_getBalance a block_number));
  code ← rpc_error "Failed to collect code request: " (bytes_response t j (eth_getCode a block_number));
  _ ← ensure (u64b nonce) (Conversion "Failed to convert nonce to u64");
  Ok (mkAccountInfo balance nonce (hash_slow code) (Some code)).

Definition account_batch (t : nat) (block_number : Z) (j : nat) (ch : list bytes) : RaikoResult (list AccountInfo) :=
  _ ← send_batch "" t j (ch ≫= fun a =>
        [("eth_getTransactionCount"%string, eth_getTransactionCount a block_number);
         ("eth_getBalance"%string, eth_getBalance a block_number); ("eth_getCode"%string, eth_getCode a block_number)]);
  collect (collect_account t j block_number) ch.

Definition rpc_get_accounts (t : nat) (block_number : Z) (accounts : list bytes) : RaikoResult (list AccountInfo) :=
  _ ← assert (bool_decide (block_number ∈ block_numbers));
  batches (account_batch t block_number) 0 (chunks 250 accounts).

Definition storage_batch (t : nat) (block_number : Z) (j : nat) (ch : list (bytes * Z)) : RaikoResult (list Z) :=
  let call := fun '(a, key) => eth_getStorageAt a key block_number in
  _ ← send_batch "" t j ((fun x => ("eth_getStorageAt"%string, call x)) <$> ch);
  collect (fun x => rpc_error "Error collecting request data: " (uint_response t j (call x))) ch.

Definition rpc_get_storage_values (t : nat) (block_number : Z) (accounts : list (bytes * Z)) : RaikoResult (list Z) :=
  _ ← assert (bool_decide (block_number ∈ block_numbers));
  batches (storage_batch t block_number) 0 (chunks 1000 accounts).

(** *** Proofs *)
Definition batch_limit : Z := 1000.

(** The inner loop: the requests of one batch, and the keys that are left. The
    accounts are in the order in which the map is traversed; an account whose
    keys do not all fit stays first. *)
Fixpoint fill_batch (fuel : nat) (accounts : list (bytes * list Z)) (batch_size : Z) (requests : list (bytes * list Z)) :
    list (bytes * list Z) * list (bytes * list Z) :=
  match fuel, accounts with
  | S fuel', (address, keys) :: rest =>
      if batch_size <? batch_limit then
        let num_keys_to_process :=
          if batch_size + Z.of_nat (length keys) <? batch_limit then Z.of_nat (length keys) else batch_limit - batch_size in
        let n := Z.to_nat num_keys_to_process in
        fill_batch fuel'
          (if num_keys_to_process =? Z.of_nat (length keys) then rest else (address, drop n keys) :: rest)
          (batch_size + 1 + num_keys_to_process) (requests ++ [(address, take n keys)])
      else (accounts, requests)
  | _, _ => (accounts, requests)
  end.

(** A response is added to what the earlier batches brought for its account. *)
Definition add_proof (proofs : gmap bytes AccountProof) (r : bytes * AccountProof) : gmap bytes AccountProof :=
  match proofs !! r.1 with
  | Some p => <[r.1 := mkAccountProof (account_proof p) (storage_hash p) (storage_proof p ++ storage_proof r.2)]> proofs
  | None => <[r.1 := r.2]> proofs
  end.

Definition proof_batch (t j : nat) (block_number : Z) (requests : list (bytes * list Z)) (proofs : gmap bytes AccountProof) :
    RaikoResult (gmap bytes AccountProof) :=
  let call := fun '(a, keys) => eth_getProof a keys block_number in
  _ ← send_batch "" t j ((fun x => ("eth_getProof"%string, call x)) <$> requests);
  responses ← collect (fun x => rpc_error "Error collecting request data: " (proof_response t j (call x))) requests;
  Ok (foldl add_proof proofs responses).

(** The outer loop: [None] when it has not ended after [fuel] batches. *)
Fixpoint proof_loop (fuel : nat) (t j : nat) (block_number : Z) (accounts : list (bytes * list Z))
    (proofs : gmap bytes AccountProof) : option (RaikoResult (gmap bytes AccountProof)) :=
  match accounts with
  | [] => Some (Ok proofs)
  | _ =>
      match fuel with
      | O => None
      | S fuel' =>
          let '(accounts', requests) := fill_batch (S (length accounts)) accounts 0 [] in
          match proof_batch t j block_number requests proofs with
          | Ok proofs' => proof_loop fuel' t (S j) block_number accounts' proofs'
          | Err e => Some (Err e)
          | Panic => Some Panic
          end
      end
  end.

(** The number of requests that are left, with those for the accounts. *)
Definition pending_requests (accounts : list (bytes * list Z)) : nat :=
  sum_list_with (fun ak => S (length ak.2)) accounts.

Definition rpc_get_merkle_proofs (t : nat) (block_number : Z) (accounts : gmap bytes (list Z))
    (offset num_storage_proofs : Z) : RaikoResult (gmap bytes AccountProof) :=
  _ ← assert (bool_decide (block_number ∈ block_numbers));
  default Panic (proof_loop (pending_requests (map_to_list accounts)) t 0 block_number (map_to_list accounts) ∅).

Definition rpc_provider : BlockDataProvider := {|
  get_blocks := rpc_get_blocks;
  get_accounts := rpc_get_accounts;
  get_storage_values := rpc_get_storage_values;
  get_merkle_proofs := rpc_get_merkle_proofs
|}.
End rpc.

(** ** Connections and the data of a task *)
Section task.
(** Which URLs can be parsed, and the client for a URL. *)
Variables (parse_url : string -> bool) (client : string -> RpcClient).

(** The blocks of a new provider: the block and the next one, or the given ones. *)
Definition rpc_new (url : string) (block_number : Z) : RaikoResult (list Z) :=
  _ ← ensure (parse_url url) (RPC "Invalid RPC URL");
  Ok [block_number; wrap64 (block_number + 1)].

Definition rpc_new_batch (url : string) (block_numbers : list Z) : RaikoResult (list Z) :=
  _ ← assert (bool_decide (1 < length block_numbers)%nat);
  _ ← ensure (parse_url url) (RPC "Invalid RPC URL");
  Ok block_numbers.

(** The hash of the only block asked for. *)
Definition task_block_hash (t : nat) (url : string) (block : Z * bool) : RaikoResult bytes :=
  _ ← rpc_new url (wrap64 (block.1 - 1));
  blocks ← rpc_get_blocks (C := client url) t [block];
  b ← ok_or (head blocks) (RPC "No block for requested block number");
  ok_or (rpc_hash b) (RPC "No block hash for requested block").

Definition get_task_data (t : nat) (network : string) (block_number : Z) (chain_specs : SupportedChainSpecs) :
    RaikoResult (Z * bytes) :=
  spec ← ok_or (get_chain_spec chain_specs network) (InvalidRequestConfig "Unsupported raiko network");
  blockhash ← task_block_hash t (rpc spec) (block_number, true);
  Ok (chain_id spec, blockhash).

(** The blocks of the batch are read from the proposal on L1. *)
Variable parse_proposal : ChainSpec -> ChainSpec -> Z -> Z -> RaikoResult (list Z).

Definition get_batch_task_data (t : nat) (network l1_network : string) (batch_id l1_inclusion_block_number : Z)
    (chain_specs : SupportedChainSpecs) : RaikoResult (Z * bytes) :=
  l1_spec ← ok_or (get_chain_spec chain_specs l1_network) (InvalidRequestConfig "Unsupported l1 network");
  spec ← ok_or (get_chain_spec chain_specs network) (InvalidRequestConfig "Unsupported raiko network");
  all_prove_blocks ← parse_proposal l1_spec spec l1_inclusion_block_number batch_id;
  batch_block_number_start ← unwrap (head all_prove_blocks);
  blockhash ← task_block_hash t (rpc spec) (batch_block_number_start, false);
  Ok (chain_id spec, blockhash).
End task.

(** ** Chunks *)
Lemma chunks_fuel_concat {A} fuel n (l : list A) : (0 < n)%nat -> (length l <= fuel)%nat -> concat (chunks_fuel fuel n l) = l.
Proof.
  intros Hn. revert l; induction fuel as [|fuel IH]; intros [|x l] Hl; cbn [chunks_fuel concat length] in *; try done; [lia|].
  rewrite IH, take_drop; [done|]. rewrite length_drop. cbn [length]. lia.
Qed.

Lemma chunks_whole {A} n (l : list A) : (0 < n)%nat -> concat (chunks n l) = l.
Proof. intros. by apply chunks_fuel_concat. Qed.

Lemma chunks_fuel_sizes {A} fuel n (l : list A) : Forall (fun ch => length ch <= n)%nat (chunks_fuel fuel n l).
Proof.
  revert l; induction fuel as [|fuel IH]; intros [|x l]; cbn [chunks_fuel]; constructor; [|apply IH].
  rewrite length_take. lia.
Qed.

(** ** A truthful node *)

(** What a node says of the chain at a block is true when it answers at all. *)
Class Truthful (C : RpcClient) (c : Chain) (bn : Z) : Prop := {
  truth_block t j n full b : block_response t j (eth_getBlockByNumber n full) = Ok b -> b = true_block c (n, full);
  truth_nonce t j a n : uint_response t j (eth_getTransactionCount a bn) = Ok n -> n = nonce_ (true_account c a);
  truth_balance t j a n : uint_response t j (eth_getBalance a bn) = Ok n -> n = balance (true_account c a);
  truth_code t j a x : bytes_response t j (eth_getCode a bn) = Ok x ->
    code (true_account c a) = Some x /\ code_hash (true_account c a) = hash_slow x;
  truth_slot t j a i v : uint_response t j (eth_getStorageAt a i bn) = Ok v -> v = true_slot c a i
}.

Lemma collect_true {E A B} (f : A -> outcome E B) (g : A -> B) l r :
  (forall a b, f a = Ok b -> b = g a) -> collect f l = Ok r -> r = g <$> l.
Proof.
  intros Hf. revert r; induction l as [|a l IH]; cbn; intros r H; [by simplify_eq|].
  destruct (f a) eqn:Ef; try done. destruct (collect f l); try done. simplify_eq. rewrite (Hf _ _ Ef). f_equal. by apply IH.
Qed.

Lemma batches_true {A B} (one : nat -> list A -> RaikoResult (list B)) (g : A -> B) j cs r :
  (forall j ch b, one j ch = Ok b -> b = g <$> ch) -> batches one j cs = Ok r -> r = g <$> concat cs.
Proof.
  intros Ho. revert j r; induction cs as [|ch cs IH]; cbn; intros j r H; [by simplify_eq|]. bind_inv.
  rewrite fmap_app. f_equal; [by eapply Ho|by eapply IH].
Qed.

Lemma rpc_error_Ok {A} m (r : outcome string A) a : rpc_error m r = Ok a -> r = Ok a.
Proof. by destruct r; cbn; intros; simplify_eq. Qed.

Section truthful.
Context {C : RpcClient} (c : Chain) (bn : Z) {HT : Truthful C c bn} (block_numbers : list Z).

Lemma collect_account_true t j a i : collect_account t j bn a = Ok i -> i = true_account c a.
Proof.
  unfold collect_account. intros H. bind_inv.
  repeat match goal with H : rpc_error _ _ = Ok _ |- _ => apply rpc_error_Ok in H end.
  apply truth_nonce in Eb as ->. apply truth_balance in Eb0 as ->. apply truth_code in Eb1 as [Hc Hh].
  destruct (true_account c a). cbn in *. by subst.
Qed.

Lemma rpc_honest : bn ∈ block_numbers -> Honest (rpc_provider block_numbers) c bn.
Proof.
  intros Hin. assert (bool_decide (bn ∈ block_numbers) = true) as Hb by by apply bool_decide_eq_true_2.
  split; cbn.
  - unfold rpc_get_accounts. rewrite Hb. intros t l r H. cbn in H.
    rewrite <- (chunks_whole 250 l) by lia. eapply batches_true, H. intros j ch b Hc. unfold account_batch in Hc. bind_inv.
    eapply collect_true, Hc. apply collect_account_true.
  - unfold rpc_get_storage_values. rewrite Hb. intros t l r H. cbn in H.
    rewrite <- (chunks_whole 1000 l) by lia. eapply batches_true, H. intros j ch b Hc. unfold storage_batch in Hc. bind_inv.
    eapply collect_true, Hc. intros [? ?] ? Hv%rpc_error_Ok. by apply truth_slot in Hv.
  - unfold rpc_get_blocks. intros t l r H. rewrite <- (chunks_whole 32 l) at 1 by lia.
    eapply batches_true, H. intros j ch b Hc. unfold block_batch in Hc. bind_inv.
    eapply collect_true, Hc. intros [? ?] ? Hv%rpc_error_Ok. by apply truth_block in Hv.
  - unfold rpc_get_accounts. by rewrite Hb.
  - unfold rpc_get_storage_values. by rewrite Hb.
  - done.
Qed.
End truthful.

(** ** Batching is invisible *)

(** A node that answers a question the same way whenever and however it is
    asked; the answer may be an error. *)
Class Steady (C : RpcClient) := {
  steady_add call : add_call call = true;
  steady_send t j calls : send t j calls = Ok ();
  steady_block t j call : block_response t j call = block_response 0 0 call;
  steady_uint t j call : uint_response t j call = uint_response 0 0 call;
  steady_bytes t j call : bytes_response t j call = bytes_response 0 0 call
}.

Lemma collect_app {E A B} (f : A -> outcome E B) l1 l2 :
  collect f (l1 ++ l2) = (r1 ← collect f l1; r2 ← collect f l2; Ok (r1 ++ r2)).
Proof.
  induction l1 as [|a l1 IH]; cbn; [by destruct (collect f l2)|].
  destruct (f a); cbn; [|done..]. rewrite IH. destruct (collect f l1); cbn; [|done..]. by destruct (collect f l2).
Qed.

Lemma collect_ext {E A B} (f g : A -> outcome E B) l : (forall a, f a = g a) -> collect f l = collect g l.
Proof. intros Hf. induction l as [|a l IH]; cbn; [done|]. by rewrite Hf, IH. Qed.

Lemma batches_collect {A B} (one : nat -> list A -> RaikoResult (list B)) (f : A -> RaikoResult B) j cs :
  (forall j ch, one j ch = collect f ch) -> batches one j cs = collect f (concat cs).
Proof.
  intros Ho. revert j; induction cs as [|ch cs IH]; intros j; cbn; [done|]. by rewrite Ho, IH, collect_app.
Qed.

(** The only answer to a request for one thing. *)
Definition single {A} (r : RaikoResult (list A)) : RaikoResult A :=
  l ← r; unwrap (head l).

Lemma collect_single {A B} (f : A -> RaikoResult B) a : single (collect f [a]) = f a.
Proof. cbn. by destruct (f a). Qed.

Section steady.
Context {C : RpcClient} {HS : Steady C} (block_numbers : list Z).

Lemma send_batch_ok what t j added : send_batch what t j added = Ok ().
Proof.
  unfold send_batch. assert (forall l, is_ok (collect (fun '(method, call) =>
    ensure (add_call call) (RPC ("Failed adding " +:+ method +:+ " call to batch"))) l) = true) as H.
  { intros l. induction l as [|[m call] l IH]; cbn; [done|]. rewrite steady_add. cbn. by destruct (collect _ l). }
  specialize (H added). destruct (collect _ added); cbn in *; try done. by rewrite steady_send.
Qed.

Definition ask_block (x : Z * bool) : RaikoResult RpcBlock :=
  rpc_error "Error collecting request data: " (block_response 0 0 (eth_getBlockByNumber x.1 x.2)).
Definition ask_slot (bn : Z) (x : bytes * Z) : RaikoResult Z :=
  rpc_error "Error collecting request data: " (uint_response 0 0 (eth_getStorageAt x.1 x.2 bn)).

Lemma get_blocks_collect t l : rpc_get_blocks t l = collect ask_block l.
Proof.
  unfold rpc_get_blocks. rewrite <- (chunks_whole 32 l) at 2 by lia. apply batches_collect. intros j ch.
  unfold block_batch. rewrite send_batch_ok. cbn. apply collect_ext. intros [n full]. by rewrite steady_block.
Qed.

Lemma get_accounts_collect t bn l : bn ∈ block_numbers -> rpc_get_accounts block_numbers t bn l = collect (collect_account 0 0 bn) l.
Proof.
  intros Hin. unfold rpc_get_accounts. rewrite bool_decide_eq_true_2 by done. cbn.
  rewrite <- (chunks_whole 250 l) at 2 by lia. apply batches_collect. intros j ch.
  unfold account_batch. rewrite send_batch_ok. cbn. apply collect_ext. intros a. unfold collect_account.
  by rewrite (steady_uint t j (eth_getTransactionCount a bn)), (steady_uint t j (eth_getBalance a bn)), (steady_bytes t j).
Qed.

Lemma get_storage_collect t bn l : bn ∈ block_numbers -> rpc_get_storage_values block_numbers t bn l = collect (ask_slot bn) l.
Proof.
  intros Hin. unfold rpc_get_storage_values. rewrite bool_decide_eq_true_2 by done. cbn.
  rewrite <- (chunks_whole 1000 l) at 2 by lia. apply batches_collect. intros j ch.
  unfold storage_batch. rewrite send_batch_ok. cbn. apply collect_ext. intros [a i]. by rewrite steady_uint.
Qed.
End steady.

(** Asking for many things in batches of 32 blocks, 250 accounts or 1000 slots
    is the same as asking for each on its own: with a node that answers the same
    question the same way, the answers come in the order of the request, and the
    first failing one in that order makes the request fail with its error. *)
Theorem batching_invisible `{RpcClient} `{!Steady _} block_numbers bn t blocks accounts slots :
  bn ∈ block_numbers ->
  rpc_get_blocks t blocks = collect (fun x => single (rpc_get_blocks t [x])) blocks /\
  rpc_get_accounts block_numbers t bn accounts = collect (fun a => single (rpc_get_accounts block_numbers t bn [a])) accounts /\
  rpc_get_storage_values block_numbers t bn slots =
    collect (fun x => single (rpc_get_storage_values block_numbers t bn [x])) slots.
Proof.
  intros Hin. split_and!.
  - rewrite get_blocks_collect. apply collect_ext. intros x. by rewrite get_blocks_collect, collect_single.
  - rewrite get_accounts_collect by done. apply collect_ext. intros x. by rewrite get_accounts_collect, collect_single.
  - rewrite get_storage_collect by done. apply collect_ext. intros x. by rewrite get_storage_collect, collect_single.
Qed.

(** C34: the provider over RPC keeps its promise to the database of preflight: with
    a node whose answers are true, whatever it fails to answer, every list it
    returns is the truth in the order of the request, and an empty request is
    answered without the node. *)
Theorem rpc_provider_honest `{RpcClient} c bn `{!Truthful _ c bn} block_numbers :
  bn ∈ block_numbers -> Honest (rpc_provider block_numbers) c bn.
Proof. intros. by apply (rpc_honest c bn). Qed.

(** ** Merkle proofs *)

(** A node that proves the state of a block: the proof of the account, and one
    proof for each key of the request, in its order. *)
Section proofs.
Context {C : RpcClient} (bn : Z) (nodes : bytes -> list bytes) (root : bytes -> bytes) (slot : bytes -> Z -> StorageProof).

Definition proof_of (a : bytes) (keys : list Z) : AccountProof := mkAccountProof (nodes a) (root a) (slot a <$> keys).

Definition add_keys (m : gmap bytes AccountProof) (ak : bytes * list Z) : gmap bytes AccountProof :=
  add_proof m (ak.1, proof_of ak.1 ak.2).

(** Keys of one account may be asked for in two requests. *)
Lemma add_keys_split m a k1 k2 : add_keys (add_keys m (a, k1)) (a, k2) = add_keys m (a, (k1 ++ k2)%list).
Proof.
  unfold add_keys, add_proof. cbn. destruct (m !! a) as [p|]; cbn; rewrite lookup_insert_eq, insert_insert_eq; cbn;
    unfold proof_of; by rewrite fmap_app, ?(assoc_L app).
Qed.

Lemma pending_requests_cons a ks l : pending_requests ((a, ks) :: l) = (S (length ks) + pending_requests l)%nat.
Proof. done. Qed.

(** One step of the inner loop. *)
Definition fill_step (a : bytes) (ks : list Z) (rest : list (bytes * list Z)) (size : Z) : list (bytes * list Z) * list Z :=
  let num := if size + Z.of_nat (length ks) <? batch_limit then Z.of_nat (length ks) else batch_limit - size in
  (if num =? Z.of_nat (length ks) then rest else (a, drop (Z.to_nat num) ks) :: rest, take (Z.to_nat num) ks).

Lemma fill_step_spec a ks rest size accounts' ks' : size < batch_limit -> fill_step a ks rest size = (accounts', ks') ->
  accounts' = rest /\ ks' = ks \/
  exists ks2, ks2 <> [] /\ ks' <> [] /\ accounts' = (a, ks2) :: rest /\ ks = (ks' ++ ks2)%list.
Proof.
  unfold fill_step. intros Hs Hf. cbv zeta in Hf. set (num := if _ <? _ then _ else _) in *.
  assert (0 <= num <= Z.of_nat (length ks) /\ (num = 0 -> ks = [])) as [Hn H0].
  { clear Hf. subst num. destruct (_ <? batch_limit) eqn:Hc; breflect; (split; [lia|]); intros; [|lia].
    destruct ks; [done|]. cbn in *. lia. }
  clearbody num. injection Hf as <- <-. destruct (num =? _) eqn:Hc; breflect.
  - left. split; [done|]. rewrite take_ge by lia. done.
  - right. exists (drop (Z.to_nat num) ks). split_and!; [| |done|by rewrite take_drop].
    + intros Hd. apply (f_equal length) in Hd. rewrite length_drop in Hd. cbn in Hd. lia.
    + intros Ht. apply (f_equal length) in Ht. rewrite length_take in Ht. cbn in Ht.
      assert (num = 0) as E by lia. rewrite (H0 E) in Hc. cbn in Hc. lia.
Qed.

Lemma fill_batch_cons fuel a ks rest size reqs :
  fill_batch (S fuel) ((a, ks) :: rest) size reqs =
  if size <? batch_limit then
    fill_batch fuel (fill_step a ks rest size).1
      (size + 1 + (if size + Z.of_nat (length ks) <? batch_limit then Z.of_nat (length ks) else batch_limit - size))
      (reqs ++ [(a, (fill_step a ks rest size).2)])
  else ((a, ks) :: rest, reqs).
Proof. done. Qed.

(** A batch asks for something, and what it asks for and what it leaves amounts to
    what was asked for. *)
Lemma fill_batch_spec fuel accounts size reqs accounts' reqs' :
  fill_batch fuel accounts size reqs = (accounts', reqs') ->
  (pending_requests accounts' <= pending_requests accounts)%nat /\
  (accounts <> [] -> size < batch_limit -> (0 < fuel)%nat -> (pending_requests accounts' < pending_requests accounts)%nat) /\
  forall m, foldl add_keys (foldl add_keys m reqs') accounts' = foldl add_keys (foldl add_keys m reqs) accounts.
Proof.
  revert accounts size reqs. induction fuel as [|fuel IH]; intros [|[a ks] rest] size reqs H;
    [cbn in H; simplify_eq; split_and!; [lia|done || lia|done]..|].
  rewrite fill_batch_cons in H. destruct (size <? batch_limit) eqn:Hs; breflect.
  2: { simplify_eq. split_and!; [lia|lia|done]. }
  destruct (fill_step a ks rest size) as [l ks'] eqn:Hst. cbn [fst snd] in H.
  apply IH in H as (Hle & _ & Heq).
  destruct (fill_step_spec _ _ _ _ _ _ Hs Hst) as [[-> ->]|(ks2 & Hne & Hne' & -> & ->)]; rewrite ?pending_requests_cons in *.
  - split_and!; [lia|lia|]. intros m. by rewrite Heq, foldl_app.
  - rewrite length_app. destruct ks' as [|x ks']; [done|]. cbn [length] in *. split_and!; [lia|lia|].
    intros m. rewrite Heq, foldl_app. cbn [foldl]. by rewrite add_keys_split.
Qed.

(** The fuel of the inner loop is enough: more changes nothing. *)
Lemma fill_batch_full fuel accounts size reqs : batch_limit <= size -> fill_batch fuel accounts size reqs = (accounts, reqs).
Proof. intros Hs. destruct fuel, accounts as [|[a ks] l]; try done. cbn. by rewrite (proj2 (Z.ltb_ge _ _)). Qed.

Lemma fill_batch_fuel fuel accounts size reqs :
  (length accounts < fuel)%nat -> fill_batch (S fuel) accounts size reqs = fill_batch fuel accounts size reqs.
Proof.
  revert accounts size reqs. induction fuel as [|fuel IH]; intros [|[a ks] rest] size reqs Hl; [cbn in Hl; lia..|done|].
  rewrite !fill_batch_cons. destruct (size <? batch_limit) eqn:Hs; breflect; [|done].
  destruct (fill_step a ks rest size) as [l ks'] eqn:Hst. cbn [fst snd].
  destruct (fill_step_spec _ _ _ _ _ _ Hs Hst) as [[-> ->]|(ks2 & Hne & Hne' & -> & ->)].
  - apply IH. cbn in Hl. lia.
  - rewrite length_app in *. destruct (_ <? batch_limit) eqn:Hc; breflect.
    + exfalso. unfold fill_step in Hst. cbv zeta in Hst. rewrite length_app, (proj2 (Z.ltb_lt _ _)), Z.eqb_refl in Hst by done.
      injection Hst as Hst _. apply (f_equal length) in Hst. cbn in Hst. lia.
    + rewrite !fill_batch_full by lia. done.
Qed.

Lemma foldl_add_keys m l : NoDup l.*1 -> (forall a, a ∈ l.*1 -> m !! a = None) ->
  foldl add_keys m l = list_to_map ((fun ak => (ak.1, proof_of ak.1 ak.2)) <$> l) ∪ m.
Proof.
  revert m; induction l as [|[a ks] l IH]; intros m Hn Hm; cbn; [by rewrite (left_id_L ∅ union)|].
  apply NoDup_cons in Hn as [Hni Hn]. unfold add_keys at 2, add_proof. cbn. rewrite (Hm a) by (by left).
  rewrite IH; [|done|].
  - rewrite <- insert_union_r, insert_union_l; [done|]. apply not_elem_of_list_to_map. by rewrite <- list_fmap_compose.
  - intros b Hb. rewrite lookup_insert_ne by (intros ->; done). apply Hm. by right.
Qed.

Hypothesis sends : forall call, add_call call = true.
Hypothesis sent : forall t j calls, send t j calls = Ok ().
Hypothesis proves : forall t j a keys, proof_response t j (eth_getProof a keys bn) = Ok (a, proof_of a keys).

Lemma proof_batch_ok t j requests m : proof_batch t j bn requests m = Ok (foldl add_keys m requests).
Proof.
  unfold proof_batch, send_batch. cbv zeta.
  assert (forall l, collect (fun '(method, call) => ensure (add_call call)
    (RPC ("Failed adding " +:+ method +:+ " call to batch"))) l = Ok (replicate (length l) ())) as ->.
  { intros l. induction l as [|[x call] l IH]; cbn; [done|]. rewrite sends. cbn. by rewrite IH. }
  cbn. rewrite sent. cbn.
  assert (collect (fun x => rpc_error "Error collecting request data: " (proof_response t j (let '(a, keys) := x in eth_getProof a keys bn)))
            requests = Ok ((fun ak => (ak.1, proof_of ak.1 ak.2)) <$> requests)) as ->.
  { induction requests as [|[a ks] l IH]; cbn; [done|]. rewrite proves. cbn. by rewrite IH. }
  cbn. f_equal. clear. revert m. induction requests as [|ak l IH]; intros m; cbn; [done|]. by rewrite IH.
Qed.

Lemma proof_loop_ok fuel t j accounts m :
  (pending_requests accounts <= fuel)%nat -> proof_loop fuel t j bn accounts m = Some (Ok (foldl add_keys m accounts)).
Proof.
  revert j accounts m. induction fuel as [|fuel IH]; intros j accounts m Hf.
  { destruct accounts as [|[a ks] l]; [done|]. cbn in Hf. lia. }
  destruct accounts as [|ak l]; [done|]. cbn [proof_loop].
  destruct (fill_batch (S (length (ak :: l))) (ak :: l) 0 []) as [accounts' reqs] eqn:E.
  apply fill_batch_spec in E as (_ & Hlt & Heq). rewrite proof_batch_ok.
  specialize (Hlt ltac:(done) ltac:(done) ltac:(lia)). rewrite IH by lia. by rewrite Heq.
Qed.
End proofs.

(** Collecting proofs in batches of about a thousand ends, and is the same as
    asking for each account once with all its keys: every account and every key
    is asked for exactly once, even when the keys of an account are spread over
    several batches, and the proofs of the keys are in the order of the keys. *)
Theorem merkle_proofs_complete `{RpcClient} block_numbers t bn accounts offset num nodes root slot :
  bn ∈ block_numbers ->
  (forall call, add_call call = true) -> (forall t j calls, send t j calls = Ok ()) ->
  (forall t j a keys, proof_response t j (eth_getProof a keys bn) = Ok (a, proof_of nodes root slot a keys)) ->
  rpc_get_merkle_proofs block_numbers t bn accounts offset num =
  Ok (map_imap (fun a keys => Some (proof_of nodes root slot a keys)) accounts).
Proof.
  intros Hin Ha Hs Hp. unfold rpc_get_merkle_proofs. rewrite bool_decide_eq_true_2 by done. cbn [assert mbind outcome_bind].
  rewrite (proof_loop_ok bn nodes root slot Ha Hs Hp) by done. cbn [default from_option id]. f_equal.
  rewrite foldl_add_keys; [|apply NoDup_fst_map_to_list|intros; apply lookup_empty].
  rewrite (right_id_L ∅ union). apply map_eq. intros a. rewrite map_lookup_imap.
  destruct (accounts !! a) as [ks|] eqn:E; cbn.
  - apply elem_of_list_to_map_1.
    + rewrite <- list_fmap_compose. apply NoDup_fst_map_to_list.
    + apply list_elem_of_fmap. exists (a, ks). split; [done|]. by apply elem_of_map_to_list.
  - apply not_elem_of_list_to_map_1. rewrite <- list_fmap_compose. intros ([b ks] & -> & Hb)%list_elem_of_fmap.
    apply elem_of_map_to_list in Hb. cbn in *. congruence.
Qed.

(** ** Examples *)
Module RpcExample.
#[local] Instance node : RpcClient := {|
  add_call _ := true;
  send _ _ _ := Ok ();
  block_response _ _ call :=
    match call with eth_getBlockByNumber n full => Ok (true_block Example.chain (n, full)) | _ => Err "invalid response"%string end;
  uint_response _ _ call :=
    match call with
    | eth_getTransactionCount a _ => Ok (nonce_ (true_account Example.chain a))
    | eth_getBalance a _ => Ok (balance (true_account Example.chain a))
    | eth_getStorageAt a i _ => Ok (true_slot Example.chain a i)
    | _ => Err "invalid response"%string
    end;
  bytes_response _ _ call := match call with eth_getCode _ _ => Ok [] | _ => Err "invalid response"%string end;
  proof_response _ _ call :=
    match call with
    | eth_getProof a keys _ => Ok (a, proof_of (fun a => [a]) (fun a => a) (fun a k => mkStorageProof [k] [a]) a keys)
    | _ => Err "invalid response"%string
    end;
  hash_slow _ := []
|}.

#[local] Instance node_truthful : Truthful node Example.chain 9.
Proof. split; cbn; intros; by simplify_eq. Qed.
#[local] Instance node_steady : Steady node.
Proof. by split. Qed.

Lemma nine_in : 9 ∈ [9; 10].
Proof. left. Defined.

Lemma rpc_provider_honest_witness : Honest (rpc_provider [9; 10]) Example.chain 9.
Proof. exact (rpc_provider_honest Example.chain 9 [9; 10] nine_in). Defined.

Lemma batching_invisible_witness :
  rpc_get_accounts [9; 10] 0 9 [[1]; [1; 2]] =
  collect (fun a => single (rpc_get_accounts [9; 10] 0 9 [a])) [[1]; [1; 2]].
Proof. exact (proj1 (proj2 (batching_invisible [9; 10] 9 0 [(3, true)] [[1]; [1; 2]] [([1], 5)] nine_in))). Defined.

Lemma merkle_proofs_complete_witness :
  storage_proof <$> (match rpc_get_merkle_proofs [9; 10] 0 9 {[ [7] := seqZ 0 1500 ]} 0 0 with Ok m => m !! [7] | _ => None end) =
  Some ((fun k => mkStorageProof [k] [[7]]) <$> seqZ 0 1500).
Proof.
  rewrite (merkle_proofs_complete [9; 10] 0 9 {[ [7] := seqZ 0 1500 ]} 0 0 (fun a => [a]) (fun a => a)
             (fun a k => mkStorageProof [k] [a]) nine_in); [|done..].
  rewrite map_lookup_imap, lookup_singleton_eq. reflexivity.
Defined.
End RpcExample.
