(* ===== verification/Builder.v ===== *)
(** The block builder of the guest ([lib/src/builder.rs]): the database loaded
    from the verified tries of the input, the execution of a block, its state
    root, and the linking of the blocks of a batch. The EVM executor, the
    consensus checks and the codecs of accounts and slots are libraries,
    collected in [BlockLib]. Reading a hash fills caches only
    ([MptHash.hash_fills_caches]), so [hash] is used as a function here. *)

From stdpp Require Import base list list_numbers gmap fin_maps strings.
From Stdlib Require Import ZArith Lia.
From S2P Require Import Prelude Nibbles Mpt MptWf MptSpec MptHash RlpCodec Types ChainSpec Input Blob MemDb.
Open Scope Z_scope.

Definition MAX_BLOCK_HASH_AGE : Z := 256.

(** [U256::to_be_bytes::<32>]. *)
Definition to_be_bytes32 (z : Z) : bytes := be_bytes 32 z.

(** The library's view of a changed account after execution. *)
Record BundleAccount := mkBundleAccount {
  bundle_info : option AccountInfo;
  original_info : option AccountInfo;
  bundle_storage : gmap Z EvmStorageSlot
}.

Record TaikoData := mkTaikoData {
  td_l1_header : Header;
  td_parent_header : Header;
  td_l2_contract : bytes;
  td_base_fee_config : ProtocolBaseFeeConfig;
  td_gas_limit : Z
}.

Inductive Hardfork : Type := HfHekla | HfOntake | HfPacaya | HfShasta.

Record ExecutionOutput := mkExecutionOutput {
  out_state : gmap bytes BundleAccount;
  out_receipts : list bytes;
  out_requests : list bytes;
  full_state : MemDb;
  valid_transaction_indices : list nat
}.

Class BlockLib (Tx : Type) := {
  header_hash : Header -> bytes;
  encode_account : StateAccount -> bytes;
  decode_account : bytes -> option StateAccount;
  encode_u256 : Z -> bytes;
  decode_u256 : bytes -> option Z;
  Bytecode_new : bytes;
  RethSpec : Type;
  reth_specs : string -> option RethSpec;
  reth_is_taiko : RethSpec -> bool;
  fork_active : RethSpec -> Hardfork -> Z -> bool;
  SpecId_HEKLA : Z; SpecId_ONTAKE : Z; SpecId_PACAYA : Z; SpecId_SHASTA : Z;
  lib_ANCHOR_GAS_LIMIT : Z; lib_ANCHOR_V3_GAS_LIMIT : Z;
  recover_senders : EthBlock Tx -> option (list bytes);
  execute : RethSpec -> MemDb -> TaikoData -> bool -> EthBlock Tx -> list bytes -> outcome string ExecutionOutput;
  validate_header_with_total_difficulty : RethSpec -> Header -> Z -> outcome string ();
  validate_header : RethSpec -> Header -> outcome string ();
  validate_header_against_parent : RethSpec -> Header -> Header -> outcome string ();
  validate_block_pre_execution : RethSpec -> EthBlock Tx -> outcome string ();
  validate_block_post_execution : RethSpec -> EthBlock Tx -> list bytes -> list bytes -> list bytes -> outcome string ()
}.

Section builder.
Context {Tx : Type} `{KK : Keccak} `{AR : AlloyRlp} `{EA : EvmAccounts} `{BL : BlockLib Tx}.

Definition mpt_err {A} (m : outcome Error A) : outcome string A := map_err (fun _ => "trie error"%string) m.

(** ** Loading the database *)

(** [get_rlp]. *)
Definition get_rlp {A} (dec : bytes -> option A) (n : MptNode) (key : bytes) : outcome string (option A) :=
  v ← mpt_err (get n key);
  match v with
  | Some b => a ← ok_or (dec b) "rlp error"%string; Ok (Some a)
  | None => Ok None
  end.

Definition or_else {A} (o : option A) (d : A) : A := match o with Some a => a | None => d end.

Definition contract_map (contracts : list bytes) : gmap bytes bytes :=
  foldl (fun m c => <[keccak c := c]> m) ∅ contracts.

Fixpoint load_slots (storage_trie : MptNode) (slots : list Z) (acc : gmap Z Z) : outcome string (gmap Z Z) :=
  match slots with
  | [] => Ok acc
  | slot :: rest =>
      v ← get_rlp decode_u256 storage_trie (keccak (to_be_bytes32 slot));
      load_slots storage_trie rest (<[slot := or_else v 0]> acc)
  end.

Definition load_account (state_trie : MptNode) (contracts : gmap bytes bytes) (address : bytes)
    (entry : StorageEntry) : outcome string DbAccount :=
  let '(storage_trie, slots) := entry in
  sa ← get_rlp decode_account state_trie (keccak address);
  let state_account := or_else sa StateAccount_default in
  _ ← ensure (bool_decide (hash storage_trie = acc_storage_root state_account)) "Invalid storage trie"%string;
  bytecode ← (if bool_decide (acc_code_hash state_account = KECCAK_EMPTY) then Ok Bytecode_new
              else unwrap (contracts !! acc_code_hash state_account));
  storage ← load_slots storage_trie slots ∅;
  Ok (mkDbAccount
        (mkAccountInfo (acc_balance state_account) (acc_nonce state_account) (acc_code_hash state_account)
           (Some bytecode))
        NotTouched storage).

Fixpoint load_accounts (state_trie : MptNode) (contracts : gmap bytes bytes)
    (l : list (bytes * StorageEntry)) (acc : gmap bytes DbAccount) : outcome string (gmap bytes DbAccount) :=
  match l with
  | [] => Ok acc
  | (address, entry) :: rest =>
      a ← load_account state_trie contracts address entry;
      load_accounts state_trie contracts rest (<[address := a]> acc)
  end.

Fixpoint load_ancestors (parent prev : Header) (l : list Header) (acc : gmap Z bytes) : outcome string (gmap Z bytes) :=
  match l with
  | [] => Ok acc
  | current :: rest =>
      let current_hash := header_hash current in
      _ ← ensure (bool_decide (parent_hash prev = current_hash)) "Invalid chain: not the parent"%string;
      _ ← ensure (negb ((number parent <? number current) || (MAX_BLOCK_HASH_AGE <=? number parent - number current)))
            "Invalid chain: too old"%string;
      load_ancestors parent current rest (<[number current := current_hash]> acc)
  end.

Definition create_mem_db (input : GuestInput Tx) : outcome string MemDb :=
  let parent := parent_header input in
  _ ← ensure (bool_decide (hash (parent_state_trie input) = state_root parent)) "Invalid state trie"%string;
  let contracts := contract_map (contracts input) in
  accs ← load_accounts (parent_state_trie input) contracts (map_to_list (parent_storage input)) ∅;
  hashes ← load_ancestors parent parent (ancestor_headers input) {[ number parent := header_hash parent ]};
  Ok (mkMemDb accs hashes).

(** ** The builder *)
Record RethBlockBuilder := mkBuilder {
  builder_chain_spec : ChainSpec;
  builder_input : GuestInput Tx;
  builder_db : option MemDb
}.

Definition RethBlockBuilder_new (input : GuestInput Tx) (db : MemDb) : RethBlockBuilder :=
  mkBuilder (chain_spec input) input (Some db).

Definition account_of_bundle (b : BundleAccount) : Account :=
  mkAccount (or_else (bundle_info b) AccountInfo_default) (bundle_storage b) true
    (bool_decide (bundle_info b = None)) (bool_decide (original_info b = None)).

(** The names of the supported execution specifications. *)
Definition reth_spec_of (name : string) : outcome string RethSpec :=
  if bool_decide (name ∈ ["taiko_a7"; "taiko_mainnet"; "ethereum"; "holesky"; "taiko_dev"; "taiko_hoodi"]%string)
  then unwrap (reth_specs name) else Panic.

(** The specification id of a Taiko block must be active in the executor. *)
Definition check_taiko_fork (spec : RethSpec) (input : GuestInput Tx) : outcome string () :=
  if reth_is_taiko spec then
    let block_num := block_number (block_proposed (taiko input)) in
    taiko_fork ← unwrap (spec_id (chain_spec input) block_num 0);
    if taiko_fork =? SpecId_HEKLA then assert (fork_active spec HfHekla block_num)
    else if taiko_fork =? SpecId_ONTAKE then assert (fork_active spec HfOntake block_num)
    else if taiko_fork =? SpecId_PACAYA then assert (fork_active spec HfPacaya block_num)
    else if taiko_fork =? SpecId_SHASTA then assert (fork_active spec HfShasta block_num)
    else Panic
  else Ok ().

Definition execute_transactions (b : RethBlockBuilder) (pool_txs : list Tx) (optimistic : bool) :
    outcome string RethBlockBuilder :=
  let input := builder_input b in
  spec ← reth_spec_of (name (chain_spec input));
  _ ← check_taiko_fork spec input;
  let blk := mkBlock (block_header (block input)) pool_txs (ommers (block input)) in
  senders ← ok_or (recover_senders blk) "sender recovery"%string;
  db ← unwrap (builder_db b);
  let td := mkTaikoData (l1_header (taiko input)) (parent_header input)
              (or_else (l2_contract (chain_spec input)) Address_default)
              (base_fee_config (block_proposed (taiko input)))
              (gas_limit_with_anchor lib_ANCHOR_GAS_LIMIT lib_ANCHOR_V3_GAS_LIMIT (block_proposed (taiko input))) in
  out ← execute spec db td optimistic blk senders;
  txs ← collect (fun i => unwrap (body blk !! i)) (valid_transaction_indices out);
  let blk := mkBlock (block_header blk) txs (ommers blk) in
  _ ← (if optimistic then Ok ()
       else
         _ ← validate_header_with_total_difficulty spec (block_header blk) 0;
         _ ← validate_header spec (block_header blk);
         _ ← validate_header_against_parent spec (block_header blk) (parent_header input);
         _ ← validate_block_pre_execution spec blk;
         validate_block_post_execution spec blk senders (out_receipts out) (out_requests out));
  let changes := account_of_bundle <$> out_state out in
  Ok (mkBuilder (builder_chain_spec b) input (Some (commit (full_state out) changes))).

(** ** The state root *)

(** The trie after an operation that succeeded. *)
Definition trie_step (r : MptNode * outcome Error bool) : outcome string MptNode :=
  match r.2 with Ok _ => Ok r.1 | Err _ => Err "trie error"%string | Panic => Panic end.

Fixpoint apply_slots (storage_trie : MptNode) (l : list (Z * Z)) : outcome string MptNode :=
  match l with
  | [] => Ok storage_trie
  | (key, value) :: rest =>
      let storage_trie_index := keccak (to_be_bytes32 key) in
      t ← trie_step (if value =? 0 then delete storage_trie storage_trie_index
                     else insert_rlp_encoded storage_trie storage_trie_index (encode_u256 value));
      apply_slots t rest
  end.

Fixpoint apply_accounts (state_trie : MptNode) (parent_storage : gmap bytes StorageEntry)
    (l : list (bytes * DbAccount)) : outcome string (MptNode * gmap bytes StorageEntry) :=
  match l with
  | [] => Ok (state_trie, parent_storage)
  | (address, account) :: rest =>
      match db_state account with
      | NotTouched => apply_accounts state_trie parent_storage rest
      | Deleted =>
          t ← trie_step (delete state_trie (keccak address));
          apply_accounts t parent_storage rest
      | state =>
          '(storage_trie, slots) ← unwrap (parent_storage !! address);
          let start := if decide (state = StorageCleared) then clear storage_trie else storage_trie in
          st ← apply_slots start (map_to_list (db_storage account));
          let state_account := mkStateAccount (nonce_ (db_info account)) (balance (db_info account)) (hash st)
                                 (code_hash (db_info account)) in
          t ← trie_step (insert_rlp_encoded state_trie (keccak address) (encode_account state_account));
          apply_accounts t (<[address := (st, slots)]> parent_storage) rest
      end
  end.

(** The input of the builder is left with an empty state trie and the updated
    storage tries. *)
Definition calculate_state_root (b : RethBlockBuilder) : outcome string (RethBlockBuilder * bytes) :=
  let input := builder_input b in
  db ← unwrap (builder_db b);
  '(t, st) ← apply_accounts (parent_state_trie input) (parent_storage input) (map_to_list (accounts db));
  let input' := mkGuestInput (block input) (chain_spec input) (parent_header input) Mpt.default st
                  (contracts input) (ancestor_headers input) (taiko input) in
  Ok (mkBuilder (builder_chain_spec b) input' (builder_db b), hash t).

Definition finalize_block (b : RethBlockBuilder) : outcome string (EthBlock Tx) :=
  '(b', root) ← calculate_state_root b;
  _ ← ensure (bool_decide (state_root (block_header (block (builder_input b'))) = root)) "state root"%string;
  Ok (block (builder_input b')).

Definition finalize (b : RethBlockBuilder) : outcome string Header :=
  blk ← finalize_block b;
  Ok (block_header blk).

(** ** Blocks *)
Variable zlib_decompress_data : bytes -> option bytes.
Variable rlp_decode_transactions : bytes -> option (list Tx).

(** Errors of the steps are unwrapped. *)
Definition calculate_block_header (input : GuestInput Tx) : outcome string Header :=
  db ← unwrap_ok (create_mem_db input);
  let builder := RethBlockBuilder_new input db in
  pool_tx ← generate_transactions zlib_decompress_data rlp_decode_transactions (chain_spec input)
              (block_proposed (taiko input)) (tx_data (taiko input)) (anchor_tx (taiko input));
  builder ← unwrap_ok (execute_transactions builder pool_tx false);
  unwrap_ok (finalize builder).

Fixpoint build_batch (inputs : list (GuestInput Tx)) (i : nat) (pool_txs_list : list (list Tx)) :
    outcome string (list (EthBlock Tx)) :=
  match pool_txs_list with
  | [] => Ok []
  | pool_txs :: rest =>
      input ← unwrap (inputs !! i);
      db ← unwrap_ok (create_mem_db input);
      anchor ← unwrap (anchor_tx (taiko input));
      builder ← unwrap_ok (execute_transactions (RethBlockBuilder_new input db) (anchor :: pool_txs) false);
      blk ← unwrap_ok (finalize_block builder);
      blks ← build_batch inputs (S i) rest;
      Ok (blk :: blks)
  end.

(** [windows(2)] over the inputs zipped with the blocks. *)
Fixpoint validate_windows (l : list (GuestInput Tx * EthBlock Tx)) : outcome string () :=
  match l with
  | (_, parent_block) :: (((current_input, current_block) :: _) as rest) =>
      let p := block_header parent_block in
      let c := block_header current_block in
      _ ← assert (bool_decide (header_hash p = parent_hash c));
      _ ← assert (wrap64 (number p + 1) =? number c);
      _ ← assert (bool_decide (state_root p = state_root (parent_header current_input)));
      validate_windows rest
  | _ => Ok ()
  end.

Definition validate_final_batch_blocks (input : GuestBatchInput Tx) (final_blocks : list (EthBlock Tx)) :
    outcome string () :=
  validate_windows (zip (inputs input) final_blocks).

Definition calculate_batch_blocks_final_header (input : GuestBatchInput Tx) : outcome string (list (EthBlock Tx)) :=
  pool_txs_list ← generate_transactions_for_batch_blocks zlib_decompress_data rlp_decode_transactions (batch_taiko input);
  final_blocks ← build_batch (inputs input) 0 pool_txs_list;
  _ ← validate_final_batch_blocks input final_blocks;
  Ok final_blocks.
End builder.

(** ** Updates of a trie *)
Section updates.
Context `{KK : Keccak} `{AR : AlloyRlp}.

Definition sound_trie (n : MptNode) : Prop := wf n = true /\ coherent n = true.

Definition put (n : MptNode) (key : bytes) (o : option bytes) : MptNode * outcome Error bool :=
  match o with Some v => insert_rlp_encoded n key v | None => delete n key end.

(** A successful update sets its key and nothing else. *)
Lemma put_sound n key o n' :
  sound_trie n -> bytes_ok key -> trie_step (put n key o) = Ok n' ->
  sound_trie n' /\
  forall key', bytes_ok key' -> get n' key' = if decide (key' = key) then Ok o else get n key'.
Proof.
  intros [W C] Hb Hs. unfold trie_step, put in Hs.
  assert (forall key', bytes_ok key' -> key' <> key -> to_nibs key' <> to_nibs key) as Hinj
    by (intros key' Hb' Hne Heq; apply Hne; by apply to_nibs_inj).
  destruct o as [v|].
  - pose proof (insert_internal_post n _ v W (to_nibs_nibbles _ Hb)) as Hp. unfold insert_rlp_encoded in Hs.
    destruct (insert_internal n (to_nibs key) v) as [m r] eqn:E. destruct r as [[]| |]; simpl in *; simplify_eq.
    + destruct Hp as (W' & _ & _ & _ & Hg). split; [split; [done|exact (insert_coherent_true n _ v n' W (to_nibs_nibbles _ Hb) C E)]|].
      intros key' Hb'. unfold get. rewrite Hg by auto using to_nibs_nibbles.
      repeat case_decide; subst; try done. exfalso. by eapply Hinj.
    + destruct Hp as [-> Hg]. split; [done|]. intros key' _. case_decide; [subst; exact Hg|done].
  - pose proof (delete_internal_post n _ W (to_nibs_nibbles _ Hb)) as Hp. unfold delete in Hs.
    destruct (delete_internal n (to_nibs key)) as [m r] eqn:E. destruct r as [[]| |]; simpl in *; simplify_eq.
    + destruct Hp as (W' & _ & Hg). split; [split; [done|exact (delete_coherent_true n _ n' W (to_nibs_nibbles _ Hb) C E)]|].
      intros key' Hb'. unfold get. rewrite Hg by auto using to_nibs_nibbles.
      repeat case_decide; subst; try done. exfalso. by eapply Hinj.
    + destruct Hp as [-> Hg]. split; [done|]. intros key' _. case_decide; [subst; exact Hg|done].
Qed.

Fixpoint apply_updates (n : MptNode) (l : list (bytes * option bytes)) : outcome string MptNode :=
  match l with
  | [] => Ok n
  | (key, o) :: rest => t ← trie_step (put n key o); apply_updates t rest
  end.

Lemma apply_updates_sound n l n' :
  sound_trie n -> Forall (fun u => bytes_ok u.1) l -> NoDup l.*1 -> apply_updates n l = Ok n' ->
  sound_trie n' /\
  (forall key o, (key, o) ∈ l -> get n' key = Ok o) /\
  (forall key, bytes_ok key -> key ∉ l.*1 -> get n' key = get n key).
Proof.
  intros Hn Hl. revert n Hn. induction Hl as [|[key o] l Hk Hl IH]; intros n Hn Hnd Ha; cbn in Ha.
  { injection Ha as <-. split_and!; [done|intros ? ? Hin; by apply elem_of_nil in Hin|done]. }
  apply NoDup_cons in Hnd as [Hni Hnd]. bind_inv.
  destruct (put_sound n key o a Hn Hk Eb) as [Ha' Hg]. destruct (IH a Ha' Hnd Ha) as (Hs & Hin & Hout).
  split_and!; [done| |].
  - intros key' o' [Heq|Hin']%elem_of_cons; [|by apply Hin]. simplify_eq.
    rewrite Hout by done. rewrite Hg by done. by rewrite decide_True.
  - intros key' Hb' Hn'. apply not_elem_of_cons in Hn' as [Hne Hn']. rewrite Hout by done.
    rewrite Hg by done. by rewrite decide_False.
Qed.
End updates.

(** ** The state root *)
Section state_root.
Context {Tx : Type} `{KK : Keccak} `{AR : AlloyRlp} `{EA : EvmAccounts} `{BL : BlockLib Tx}.

(** Distinct names are hashed to distinct keys of bytes. *)
Definition hashed_apart (l : list bytes) : Prop :=
  NoDup (keccak <$> l) /\ Forall (fun x => bytes_ok (keccak x)) l.

Definition slot_value (v : Z) : option bytes := if v =? 0 then None else Some (encode_u256 v).
Definition slot_keys (s : gmap Z Z) : list bytes := to_be_bytes32 <$> (map_to_list s).*1.

Lemma apply_slots_updates t l :
  apply_slots t l = apply_updates t ((fun kv => (keccak (to_be_bytes32 kv.1), slot_value kv.2)) <$> l).
Proof.
  revert t. induction l as [|[k v] l IH]; intros t; cbn; [done|].
  unfold slot_value. destruct (v =? 0); cbn [put]; destruct (trie_step _); cbn; auto.
Qed.

(** The storage trie holds the values of the account's slots, and what the start
    trie held for every other slot. *)
Definition storage_updated (start st : MptNode) (s : gmap Z Z) : Prop :=
  sound_trie st /\
  (forall k v, s !! k = Some v -> get st (keccak (to_be_bytes32 k)) = Ok (slot_value v)) /\
  (forall key, bytes_ok key -> key ∉ keccak <$> slot_keys s -> get st key = get start key).

Lemma apply_slots_sound start s st :
  sound_trie start -> hashed_apart (slot_keys s) -> apply_slots start (map_to_list s) = Ok st ->
  storage_updated start st s.
Proof.
  intros Hs [Hnd Hf] Ha. rewrite apply_slots_updates in Ha.
  assert (((fun kv : Z * Z => (keccak (to_be_bytes32 kv.1), slot_value kv.2)) <$> map_to_list s).*1 =
          keccak <$> slot_keys s) as Hkeys by (unfold slot_keys; by rewrite <-!list_fmap_compose).
  set (ups := _ <$> map_to_list s) in *.
  assert (Forall (fun u => bytes_ok u.1) ups) as Hok.
  { unfold ups. rewrite Forall_fmap. unfold slot_keys in Hf. rewrite !Forall_fmap in Hf. exact Hf. }
  destruct (apply_updates_sound start ups st Hs Hok) as (H1 & H2 & H3); [by rewrite Hkeys|done|].
  split_and!; [done| |by rewrite <-Hkeys]. intros k v Hk. apply H2. apply list_elem_of_fmap.
  exists (k, v). split; [done|]. by apply elem_of_map_to_list.
Qed.

(** What the final state holds for one account of the database. *)
Definition account_updated (parent : gmap bytes StorageEntry) (a : bytes) (acc : DbAccount) (o : option bytes) : Prop :=
  match db_state acc with
  | NotTouched => False
  | Deleted => o = None
  | s => exists t slots st, parent !! a = Some (t, slots) /\
      storage_updated (if decide (s = StorageCleared) then clear t else t) st (db_storage acc) /\
      o = Some (encode_account (mkStateAccount (nonce_ (db_info acc)) (balance (db_info acc)) (hash st)
                                  (code_hash (db_info acc))))
  end.

Definition touched (kv : bytes * DbAccount) : bool := negb (bool_decide (db_state kv.2 = NotTouched)).

Lemma sound_clear t : sound_trie (clear t).
Proof. done. Qed.

(** The updates of the rest of the accounts, seen from before the storage of
    [a] was replaced. *)
Lemma account_frame parent a e (l : list (bytes * DbAccount)) ups u :
  a ∉ l.*1 ->
  (forall b c, (b, c) ∈ l -> touched (b, c) = true ->
     exists o, (keccak b, o) ∈ ups /\ account_updated (<[a := e]> parent) b c o) ->
  forall b c, (b, c) ∈ l -> touched (b, c) = true ->
     exists o, (keccak b, o) ∈ u :: ups /\ account_updated parent b c o.
Proof.
  intros Hni Hups b c Hin Ht. destruct (Hups b c Hin Ht) as (o & Ho & Hacc).
  exists o. split; [by right|]. unfold account_updated in *.
  assert (b <> a) as Hne by (intros ->; apply Hni; apply list_elem_of_fmap; by exists (a, c)).
  destruct (db_state c); try done; by rewrite lookup_insert_ne in Hacc.
Qed.

(** The updates of a list of accounts that leads from one state to another. *)
Definition updates_of (parent : gmap bytes StorageEntry) (l : list (bytes * DbAccount)) (trie trie' : MptNode) : Prop :=
  exists ups, apply_updates trie ups = Ok trie' /\
    ups.*1 = keccak <$> (filter (fun kv => touched kv = true) l).*1 /\
    forall a acc, (a, acc) ∈ l -> touched (a, acc) = true ->
      exists o, (keccak a, o) ∈ ups /\ account_updated parent a acc o.

(** An account that is written back, followed by the rest. *)
Lemma changed_account trie parent a acc l trie' t0 slots start sto t1 :
  parent !! a = Some (t0, slots) -> a ∉ l.*1 -> db_state acc <> Deleted -> touched (a, acc) = true ->
  start = (if decide (db_state acc = StorageCleared) then clear t0 else t0) ->
  storage_updated start sto (db_storage acc) ->
  trie_step (insert_rlp_encoded trie (keccak a)
    (encode_account (mkStateAccount (nonce_ (db_info acc)) (balance (db_info acc)) (hash sto)
                       (code_hash (db_info acc))))) = Ok t1 ->
  updates_of (<[a := (sto, slots)]> parent) l t1 trie' ->
  updates_of parent ((a, acc) :: l) trie trie'.
Proof.
  intros Hpar Hni Hd Ht -> Hsto Hins (ups & Hu & Hk & Hacc).
  eexists (( keccak a, Some _) :: ups). split_and!.
  - cbn [apply_updates put]. rewrite Hins. exact Hu.
  - rewrite filter_cons_True by done. cbn. by rewrite Hk.
  - intros b c [Heq|Hin]%elem_of_cons Htb; [|by eapply account_frame]. simplify_eq.
    eexists. split; [by left|]. unfold account_updated. unfold touched in Ht. simpl in Ht.
    destruct (db_state acc) eqn:Est; try done; exists t0, slots, sto; split_and!; done.
Qed.

Lemma apply_accounts_updates trie parent l trie' parent' :
  map_Forall (fun _ e => sound_trie e.1) parent -> NoDup l.*1 ->
  Forall (fun kv => hashed_apart (slot_keys (db_storage kv.2))) l ->
  apply_accounts trie parent l = Ok (trie', parent') -> updates_of parent l trie trie'.
Proof.
  intros Hp Hnd Hs. revert trie parent Hp Hnd.
  induction Hs as [|[a acc] l Ha Hl IH]; intros trie parent Hp Hnd Hap; cbn in Hap.
  { injection Hap as <- <-. exists []. split_and!; [done|done|]. intros ? ? Hin. by apply elem_of_nil in Hin. }
  apply NoDup_cons in Hnd as [Hni Hnd]. cbn in Ha.
  assert (forall t0 slots start sto t1, parent !! a = Some (t0, slots) -> sound_trie start ->
    db_state acc <> Deleted -> touched (a, acc) = true ->
    start = (if decide (db_state acc = StorageCleared) then clear t0 else t0) ->
    apply_slots start (map_to_list (db_storage acc)) = Ok sto ->
    trie_step (insert_rlp_encoded trie (keccak a)
      (encode_account (mkStateAccount (nonce_ (db_info acc)) (balance (db_info acc)) (hash sto)
                         (code_hash (db_info acc))))) = Ok t1 ->
    apply_accounts t1 (<[a := (sto, slots)]> parent) l = Ok (trie', parent') ->
    updates_of parent ((a, acc) :: l) trie trie') as Hchanged.
  { intros t0 slots start sto t1 Hpar Hst Hd Ht Heq Hslots Hins Hrest.
    pose proof (apply_slots_sound start _ sto Hst Ha Hslots) as Hsto.
    eapply changed_account; [done..|]. apply IH; [|done|done].
    apply map_Forall_insert_2; [apply Hsto|done]. }
  destruct (db_state acc) eqn:Est.
  - bind_inv. destruct (IH _ _ Hp Hnd Hap) as (ups & Hu & Hk & Hacc).
    exists ((keccak a, None) :: ups). split_and!.
    + cbn [apply_updates put]. by rewrite Eb.
    + rewrite filter_cons_True by (unfold touched; simpl; by rewrite Est). cbn. by rewrite Hk.
    + intros b c [Heq|Hin]%elem_of_cons Ht; [|destruct (Hacc b c Hin Ht) as (o & Ho & ?); exists o; split; [by right|done]].
      simplify_eq. exists None. split; [by left|]. unfold account_updated. by rewrite Est.
  - destruct (parent !! a) as [[t0 slots]|] eqn:Epar; [|done]. cbn in Hap. bind_inv.
    eapply Hchanged; [done|exact (Hp _ _ Epar)|done|by unfold touched; simpl; rewrite Est|done..].
  - destruct (parent !! a) as [[t0 slots]|] eqn:Epar; [|done]. cbn in Hap. bind_inv.
    eapply Hchanged; [done|apply (sound_clear t0)|done|by unfold touched; simpl; rewrite Est|done..].
  - destruct (IH _ _ Hp Hnd Hap) as (ups & Hu & Hk & Hacc). exists ups. split_and!; [done| |].
    + rewrite filter_cons_False by (unfold touched; simpl; by rewrite Est). done.
    + intros b c [Heq|Hin]%elem_of_cons Ht; [|by apply Hacc]. simplify_eq.
      unfold touched in Ht. simpl in Ht. by rewrite Est in Ht.
Qed.

(** The addresses of the accounts that are written or deleted. *)
Definition touched_addresses (db : MemDb) : list bytes :=
  (filter (fun kv => touched kv = true) (map_to_list (accounts db))).*1.

(** The database and tries a state root is computed from. *)
Definition root_inputs_ok (input : GuestInput Tx) (db : MemDb) : Prop :=
  sound_trie (parent_state_trie input) /\
  map_Forall (fun _ e => sound_trie e.1) (parent_storage input) /\
  hashed_apart (map_to_list (accounts db)).*1 /\
  map_Forall (fun _ acc => hashed_apart (slot_keys (db_storage acc))) (accounts db).

Lemma touched_apart (l : list (bytes * DbAccount)) :
  hashed_apart l.*1 -> hashed_apart (filter (fun kv => touched kv = true) l).*1.
Proof.
  intros [Hnd Hf]. split.
  - induction l as [|kv l IH]; [constructor|]. cbn in Hnd. apply NoDup_cons in Hnd as [Hni Hnd].
    inversion Hf; subst. specialize (IH Hnd ltac:(done)). rewrite filter_cons. case_decide; [|done].
    cbn. apply NoDup_cons. split; [|done]. intros Hin. apply Hni.
    rewrite <-list_fmap_compose in Hin |- *. apply list_elem_of_fmap in Hin as (x & Hx & Hin).
    apply list_elem_of_filter in Hin as [_ Hin]. rewrite Hx. by apply list_elem_of_fmap_2.
  - rewrite Forall_fmap, Forall_forall in Hf |- *. intros x [_ Hin]%list_elem_of_filter. by apply Hf.
Qed.

(** C3: the state root of a block is the hash of the parent state updated by the
    executed changes and nothing else: a touched account reads back with its new
    nonce, balance, code hash and the root of its updated storage trie, whose
    changed slots hold their new values (zero slots are absent) and whose other
    slots are the parent's, or empty when the storage was cleared; a deleted
    account is absent; every other key of the state is as in the parent. *)
Theorem state_root_spec (b b' : RethBlockBuilder) root db :
  builder_db b = Some db -> root_inputs_ok (builder_input b) db ->
  calculate_state_root b = Ok (b', root) ->
  exists st, root = hash st /\ sound_trie st /\
    (forall a acc, accounts db !! a = Some acc -> touched (a, acc) = true ->
       exists o, get st (keccak a) = Ok o /\ account_updated (parent_storage (builder_input b)) a acc o) /\
    (forall key, bytes_ok key -> key ∉ keccak <$> touched_addresses db ->
       get st key = get (parent_state_trie (builder_input b)) key).
Proof.
  intros Hdb (Ht & Hp & Ha & Hs) Hc. unfold calculate_state_root in Hc. rewrite Hdb in Hc. cbn [unwrap] in Hc.
  bind_inv. destruct (apply_accounts _ _ _) as [[t st]| |] eqn:Eacc; try done. cbn in Hc. simplify_eq.
  exists t. split; [done|].
  destruct (apply_accounts_updates _ _ _ _ _ Hp ltac:(apply NoDup_fst_map_to_list)
    ltac:(apply map_Forall_to_list in Hs; eapply Forall_impl; [exact Hs|by intros []]) Eacc) as (ups & Hu & Hk & Hacc).
  pose proof (touched_apart _ Ha) as [Hnd Hf].
  destruct (apply_updates_sound _ ups t Ht) as (H1 & H2 & H3); [| |done|].
  - assert (Forall (fun k => bytes_ok k) ups.*1) as Hok by (rewrite Hk, Forall_fmap; exact Hf).
    rewrite Forall_fmap in Hok. exact Hok.
  - by rewrite Hk.
  - split_and!; [done| |].
    + intros addr acc Hin Htc. destruct (Hacc addr acc) as (o & Ho & Hau); [by apply elem_of_map_to_list|done|].
      exists o. split; [by apply H2|done].
    + intros key Hb Hni. apply H3; [done|]. by rewrite Hk.
Qed.
End state_root.

(** ** The loaded database *)
Section loading.
Context {Tx : Type} `{KK : Keccak} `{AR : AlloyRlp} `{EA : EvmAccounts} `{BL : BlockLib Tx}.

Definition slot_in (t : MptNode) (slot v : Z) : Prop :=
  exists o, get_rlp decode_u256 t (keccak (to_be_bytes32 slot)) = Ok o /\ v = or_else o 0.

Lemma load_slots_ok t slots acc m :
  load_slots t slots acc = Ok m ->
  (forall s v, m !! s = Some v -> acc !! s = Some v \/ slot_in t s v) /\
  (forall s, s ∈ slots \/ is_Some (acc !! s) -> is_Some (m !! s)).
Proof.
  revert acc. induction slots as [|s0 slots IH]; intros acc Hl; cbn in Hl.
  { injection Hl as <-. split; [auto|]. intros s [Hin|?]; [by apply elem_of_nil in Hin|done]. }
  bind_inv. destruct (IH _ Hl) as [H1 H2]. split.
  - intros s v Hs. destruct (H1 s v Hs) as [Hi|]; [|auto]. destruct (decide (s = s0)) as [->|Hne].
    + rewrite lookup_insert_eq in Hi. simplify_eq. right. by exists a.
    + rewrite lookup_insert_ne in Hi by done. auto.
  - intros s Hs. apply H2. destruct (decide (s = s0)) as [->|Hne]; [right; by rewrite lookup_insert_eq|].
    rewrite lookup_insert_ne by done. destruct Hs as [[?|?]%elem_of_cons|?]; [done|auto|auto].
Qed.

(** What is loaded for an address: its account in the verified state trie, the
    code with that hash and the values of its slots in the verified storage trie. *)
Definition account_loaded (state_trie : MptNode) (contracts : gmap bytes bytes) (a : bytes)
    (t : MptNode) (slots : list Z) (acc : DbAccount) : Prop :=
  exists o c, get_rlp decode_account state_trie (keccak a) = Ok o /\
    let sa := or_else o StateAccount_default in
    hash t = acc_storage_root sa /\
    db_info acc = mkAccountInfo (acc_balance sa) (acc_nonce sa) (acc_code_hash sa) (Some c) /\
    (acc_code_hash sa <> KECCAK_EMPTY -> contracts !! acc_code_hash sa = Some c) /\
    db_state acc = NotTouched /\
    (forall s, s ∈ slots -> exists v, db_storage acc !! s = Some v) /\
    (forall s v, db_storage acc !! s = Some v -> slot_in t s v).

Lemma load_account_ok state_trie contracts a t slots acc :
  load_account state_trie contracts a (t, slots) = Ok acc -> account_loaded state_trie contracts a t slots acc.
Proof.
  intros Hl. unfold load_account in Hl. bind_inv.
  destruct (load_slots_ok _ _ _ _ Eb2) as [H1 H2].
  eexists _, _. split; [done|]. cbn [db_info db_state db_storage].
  split_and!; [|done| |done| |].
  - apply ensure_Ok in Eb0. by breflect.
  - intros Hne. rewrite bool_decide_eq_false_2 in Eb1 by done. by destruct (_ !! _); simplify_eq/=.
  - intros s Hs. apply H2. auto.
  - intros s v Hs. destruct (H1 s v Hs) as [Hi|]; [by rewrite lookup_empty in Hi|done].
Qed.

Lemma load_accounts_ok state_trie contracts l acc m :
  NoDup l.*1 -> load_accounts state_trie contracts l acc = Ok m ->
  (forall a e, (a, e) ∈ l -> exists x, m !! a = Some x /\ load_account state_trie contracts a e = Ok x) /\
  (forall a, a ∉ l.*1 -> m !! a = acc !! a).
Proof.
  revert acc. induction l as [|[a0 e0] l IH]; intros acc Hnd Hl; cbn in Hl.
  { injection Hl as <-. split; [|done]. intros ? ? Hin. by apply elem_of_nil in Hin. }
  apply NoDup_cons in Hnd as [Hni Hnd]. bind_inv. destruct (IH _ Hnd Hl) as [H1 H2]. split.
  - intros x e [Heq|Hin]%elem_of_cons; [|auto]. simplify_eq. exists a.
    rewrite H2 by done. by rewrite lookup_insert_eq.
  - intros x [Hne Hnin]%not_elem_of_cons. rewrite H2 by done. by rewrite lookup_insert_ne.
Qed.

(** Every header is the parent of the one before. *)
Fixpoint linked (prev : Header) (l : list Header) : Prop :=
  match l with
  | [] => True
  | current :: rest => parent_hash prev = header_hash current /\ linked current rest
  end.

Lemma load_ancestors_ok parent prev l acc m :
  load_ancestors parent prev l acc = Ok m ->
  linked prev l /\
  (forall n h, m !! n = Some h -> acc !! n = Some h \/
     exists hd, hd ∈ l /\ number hd = n /\ header_hash hd = h /\ 0 <= number parent - n < MAX_BLOCK_HASH_AGE) /\
  (forall n, is_Some (acc !! n) \/ n ∈ number <$> l -> is_Some (m !! n)).
Proof.
  revert prev acc. induction l as [|c l IH]; intros prev acc Hl; cbn in Hl.
  { injection Hl as <-. split_and!; [done|auto|]. intros n [?|Hin]; [done|by apply elem_of_nil in Hin]. }
  bind_inv. apply ensure_Ok in Eb as Hp, Eb0 as Hr. breflect. destruct (IH _ _ Hl) as (H1 & H2 & H3). split_and!; [done| |].
  - intros n h Hn. destruct (H2 n h Hn) as [Hi|(hd & Hin & ? & ? & ?)]; [|right; exists hd; split_and!; [by right|done|done|lia|lia]].
    destruct (decide (n = number c)) as [->|Hne].
    + rewrite lookup_insert_eq in Hi. simplify_eq. right. exists c. split_and!; [by left|done|done|lia|lia].
    + rewrite lookup_insert_ne in Hi by done. auto.
  - intros n Hn. apply H3. destruct (decide (n = number c)) as [->|Hne]; [left; by rewrite lookup_insert_eq|].
    rewrite lookup_insert_ne by done. destruct Hn as [?|[?|?]%elem_of_cons]; [auto|done|auto].
Qed.

End loading.

(** ** Blocks of a batch *)
Section batch.
Context {Tx : Type} `{KK : Keccak} `{AR : AlloyRlp} `{EA : EvmAccounts} `{BL : BlockLib Tx}.
Variable zlib : bytes -> option bytes.
Variable rlp : bytes -> option (list Tx).

Lemma unwrap_ok_inv {E F A} (m : outcome E A) (a : A) : unwrap_ok (F := F) m = Ok a -> m = Ok a.
Proof. destruct m; cbn; [by intros [= ->]|done|done]. Qed.

(** A block that was built: its input is executed on its verified parent state
    and the root of the result is the header's. *)
Definition built (gi : GuestInput Tx) (b : EthBlock Tx) : Prop :=
  b = block gi /\ exists db txs bd b', create_mem_db gi = Ok db /\
    execute_transactions (RethBlockBuilder_new gi db) txs false = Ok bd /\
    calculate_state_root bd = Ok (b', state_root (block_header b)).

Lemma execute_transactions_input bd txs o bd' :
  execute_transactions bd txs o = Ok bd' -> builder_input bd' = builder_input bd.
Proof. intros Hx. unfold execute_transactions in Hx. bind_inv. done. Qed.

Lemma finalize_block_ok bd b :
  finalize_block bd = Ok b ->
  b = block (builder_input bd) /\ exists b', calculate_state_root bd = Ok (b', state_root (block_header b)).
Proof.
  intros Hf. unfold finalize_block in Hf. destruct (calculate_state_root bd) as [[b' root]| |] eqn:Ec; try done.
  cbn in Hf. bind_inv. apply ensure_Ok in Eb. breflect.
  assert (block (builder_input b') = block (builder_input bd)) as Hb.
  { unfold calculate_state_root in Ec. bind_inv. destruct a1. cbn in Ec. by simplify_eq. }
  split; [done|]. exists b'. by rewrite Eb.
Qed.

Lemma build_batch_ok ins i l fb :
  build_batch ins i l = Ok fb ->
  length fb = length l /\ forall k b, fb !! k = Some b -> exists gi, ins !! (i + k)%nat = Some gi /\ built gi b.
Proof.
  revert i fb. induction l as [|txs l IH]; intros i fb Hb; cbn in Hb.
  { injection Hb as <-. split; [done|]. intros k b Hk. by rewrite lookup_nil in Hk. }
  destruct (ins !! i) as [gi|] eqn:Ei; [|done]. cbn in Hb. bind_inv.
  destruct (anchor_tx (taiko gi)) as [anchor|]; [|done]. simplify_eq/=.
  repeat match goal with H : unwrap_ok _ = Ok _ |- _ => apply unwrap_ok_inv in H end.
  destruct (IH _ _ ltac:(eassumption)) as [Hl Hk]. split; [simpl; by rewrite Hl|].
  intros [|k] b Hb; simpl in Hb; simplify_eq.
  - rewrite Nat.add_0_r. exists gi. split; [done|].
    destruct (finalize_block_ok _ _ ltac:(eassumption)) as (Hblk & b' & Hr).
    pose proof (execute_transactions_input _ _ _ _ ltac:(eassumption)) as Hin. cbn [RethBlockBuilder_new builder_input] in Hin.
    rewrite Hin in Hblk. split; [done|]. by eexists _, _, _, _.
  - replace (i + S k)%nat with (S i + k)%nat by lia. by apply Hk.
Qed.

Lemma validate_windows_ok l :
  validate_windows l = Ok () ->
  forall i gp p gc c, l !! i = Some (gp, p) -> l !! S i = Some (gc, c) ->
    header_hash (block_header p) = parent_hash (block_header c) /\
    wrap64 (number (block_header p) + 1) = number (block_header c) /\
    state_root (block_header p) = state_root (parent_header gc).
Proof.
  induction l as [|[g0 p0] l IH]; intros Hv i gp p gc c Hi Hc; [done|].
  destruct l as [|[g1 c1] l]; [by destruct i|].
  assert (validate_windows ((g1, c1) :: l) = Ok () /\
    (header_hash (block_header p0) = parent_hash (block_header c1) /\
     wrap64 (number (block_header p0) + 1) = number (block_header c1) /\
     state_root (block_header p0) = state_root (parent_header g1))) as [Hrest Hhead].
  { change (validate_windows ((g0, p0) :: (g1, c1) :: l)) with
      (_ ← assert (bool_decide (header_hash (block_header p0) = parent_hash (block_header c1)));
       _ ← assert (wrap64 (number (block_header p0) + 1) =? number (block_header c1));
       _ ← assert (bool_decide (state_root (block_header p0) = state_root (parent_header g1)));
       validate_windows ((g1, c1) :: l)) in Hv.
    bind_inv. repeat match goal with H : assert _ = Ok _ |- _ => apply assert_Ok in H end. breflect.
    split; [exact Hv|done]. }
  destruct i as [|i]; [|by eapply IH]. simpl in Hi, Hc. by simplify_eq.
Qed.

(** C8: the blocks of a batch form a chain over verified states: each is the
    block of its input and its header carries the computed state root, and each
    next block has the previous block's hash as parent hash, the next number, and
    starts from a state trie whose root is the previous block's state root. *)
Theorem batch_blocks_linked input fb :
  calculate_batch_blocks_final_header zlib rlp input = Ok fb ->
  (forall i b, fb !! i = Some b -> exists gi, inputs input !! i = Some gi /\ built gi b) /\
  (forall i b c, fb !! i = Some b -> fb !! S i = Some c ->
     parent_hash (block_header c) = header_hash (block_header b) /\
     number (block_header c) = wrap64 (number (block_header b) + 1) /\
     exists gc, inputs input !! S i = Some gc /\
       hash (parent_state_trie gc) = state_root (block_header b)).
Proof.
  intros Hc. unfold calculate_batch_blocks_final_header in Hc. bind_inv. destruct a1.
  destruct (build_batch_ok _ _ _ _ Eb0) as [_ Hb]. simpl in Hb. split; [done|].
  intros i b c Hi Hci. destruct (Hb _ _ Hi) as (gb & Hgb & _). destruct (Hb _ _ Hci) as (gc & Hgc & _ & db & txs & bd & b' & Hdb & _).
  destruct (validate_windows_ok _ Eb1 i gb b gc c) as (H1 & H2 & H3).
  - by rewrite lookup_zip_with, Hgb, Hi.
  - by rewrite lookup_zip_with, Hgc, Hci.
  - split_and!; [done|done|]. exists gc. split; [done|].
    unfold create_mem_db in Hdb. bind_inv. apply ensure_Ok in Eb2. breflect. congruence.
Qed.
End batch.

(** ** Witnesses

    An executor that changes nothing, over the concrete hash and codec. *)
#[local] Instance model_accounts : EvmAccounts := {|
  AccountInfo_default := mkAccountInfo 0 0 KECCAK_EMPTY None;
  info_is_empty := fun i => (balance i =? 0) && (nonce_ i =? 0) && bool_decide (code_hash i = KECCAK_EMPTY)
|}.

#[local] Instance model_blocks : BlockLib bytes := {|
  header_hash := fun h => [number h];
  encode_account := fun a => [acc_nonce a; acc_balance a] ++ acc_storage_root a ++ acc_code_hash a;
  decode_account := fun b => match b with
    | n :: bal :: rest => Some (mkStateAccount n bal (take 32 rest) (drop 32 rest)) | _ => None end;
  encode_u256 := fun v => [v];
  decode_u256 := head;
  Bytecode_new := [];
  RethSpec := ();
  reth_specs := fun _ => Some tt;
  reth_is_taiko := fun _ => true;
  fork_active := fun _ _ _ => true;
  SpecId_HEKLA := 1; SpecId_ONTAKE := 2; SpecId_PACAYA := 3; SpecId_SHASTA := 4;
  lib_ANCHOR_GAS_LIMIT := 250000; lib_ANCHOR_V3_GAS_LIMIT := 1000000;
  recover_senders := fun b => Some ((fun _ => []) <$> body b);
  execute := fun _ db _ _ b _ => Ok (mkExecutionOutput ∅ [] [] db (seq 0 (length (body b))));
  validate_header_with_total_difficulty := fun _ _ _ => Ok tt;
  validate_header := fun _ _ => Ok tt;
  validate_header_against_parent := fun _ _ _ => Ok tt;
  validate_block_pre_execution := fun _ _ => Ok tt;
  validate_block_post_execution := fun _ _ _ _ _ => Ok tt
|}.

Definition model_header (n : Z) : Header :=
  mkHeader [n - 1] [] [] EMPTY_ROOT [] [] None [] 0 n 0 0 0 [] 0 None [].
Definition model_address : bytes := [1; 2; 3].
Definition model_input (n : Z) : GuestInput bytes :=
  mkGuestInput (mkBlock (model_header n) [] []) taiko_test_chain (model_header (n - 1)) Mpt.default
    {[ model_address := (Mpt.default, [5]) ]} [] [model_header (n - 2)]
    (mkTaikoGuestInput (model_header 1) [] (Some [42]) Nothing (mkTaikoProverData [] []) None None KzgVersionedHash).

Definition model_db : MemDb :=
  mkMemDb {[ model_address := mkDbAccount (mkAccountInfo 0 0 KECCAK_EMPTY (Some [])) NotTouched {[ 5 := 0 ]} ]}
    (<[8 := [8]]> {[ 9 := [9] ]}).

Lemma model_create : create_mem_db (model_input 10) = Ok model_db.
Proof. vm_compute. reflexivity. Qed.


Definition model_batch : GuestBatchInput bytes :=
  mkGuestBatchInput [model_input 10; model_input 11] (batch_of [1; 1] [20; 21]).

Lemma model_batch_blocks :
  calculate_batch_blocks_final_header Some (fun b => Some ((fun x => [x]) <$> b)) model_batch =
  Ok [block (model_input 10); block (model_input 11)].
Proof. vm_compute. reflexivity. Qed.

Lemma batch_blocks_linked_witness :
  parent_hash (model_header 11) = header_hash (model_header 10).
Proof.
  exact (proj1 (proj2 (batch_blocks_linked _ _ model_batch _ model_batch_blocks) 0%nat
    (block (model_input 10)) (block (model_input 11)) eq_refl eq_refl)).
Defined.

(** One account that received a balance and wrote two slots. *)
Definition touched_account : DbAccount :=
  mkDbAccount (mkAccountInfo 7 1 KECCAK_EMPTY None) Touched (<[5 := 0]> {[ 6 := 9 ]}).
Definition touched_db : MemDb := mkMemDb {[ model_address := touched_account ]} ∅.
Definition touched_builder : RethBlockBuilder := mkBuilder taiko_test_chain (model_input 10) (Some touched_db).

Definition apartb (l : list bytes) : bool :=
  bool_decide (NoDup (keccak <$> l)) && forallb (fun x => forallb is_byte (keccak x)) l.

Lemma apartb_ok l : apartb l = true -> hashed_apart l.
Proof.
  unfold apartb. intros Hb. breflect. split; [done|]. apply Forall_forall. intros x Hx.
  pose proof (forallb_elem _ _ _ H0 Hx) as Hk. apply Forall_forall. intros y Hy.
  pose proof (forallb_elem _ _ _ Hk Hy) as Hb. unfold is_byte in Hb. breflect. lia.
Qed.

Lemma touched_inputs_ok : root_inputs_ok (model_input 10) touched_db.
Proof.
  split_and!; [done| |apply apartb_ok; vm_compute; reflexivity|].
  - apply map_Forall_singleton. done.
  - apply map_Forall_singleton. apply apartb_ok. vm_compute. reflexivity.
Qed.

Lemma touched_root_ok : is_ok (calculate_state_root touched_builder) = true.
Proof. vm_compute. reflexivity. Qed.

Lemma state_root_spec_witness : exists b' root st,
  calculate_state_root touched_builder = Ok (b', root) /\ root = hash st.
Proof.
  destruct (calculate_state_root touched_builder) as [[b' root]| |] eqn:E;
    [|pose proof touched_root_ok as Hf; rewrite E in Hf; discriminate Hf..].
  destruct (state_root_spec touched_builder b' root touched_db eq_refl touched_inputs_ok E) as (st & Hr & _).
  exists b', root, st. split; [reflexivity|exact Hr].
Defined.
