(* ===== verification/Raiko.v ===== *)
(** * Raiko: proving one request on the host

    Models [core/src/lib.rs] (the output the host expects of a guest, and the
    proof), the native prover of [core/src/prover.rs] and the choice of a prover
    in [core/src/interfaces.rs]. The provers other than the native one are
    implementations of the trait [Prover] and are given. *)
From stdpp Require Import base list list_numbers gmap fin_maps strings.
From Stdlib Require Import ZArith Lia.
From S2P Require Import Prelude Text Effect Types Interfaces ChainSpec Mpt MptHash RlpCodec MptProof Input Blob Eip4844 ProtocolInstance MemDb Builder.
Local Open Scope Z_scope.

(** ** Outputs *)
Record GuestOutput := mkGuestOutput { out_header : Header; out_hash : bytes }.
Record GuestBatchOutput (Tx : Type) := mkGuestBatchOutput { out_blocks : list (EthBlock Tx); out_batch_hash : bytes }.
Arguments mkGuestBatchOutput {Tx} _ _.
Arguments out_blocks {Tx} _.
Arguments out_batch_hash {Tx} _.
Record AggregationGuestInput := mkAggregationGuestInput { agg_proofs : list Proof_ }.
Record AggregationGuestOutput := mkAggregationGuestOutput { agg_hash : bytes }.

(** ** Provers *)

(** The trait [Prover], with the store of request ids as its state. *)
Record Prover (S Tx : Type) := mkProver {
  prover_run : GuestInput Tx -> GuestOutput -> Value -> St S ProverError Proof_;
  prover_batch_run : GuestBatchInput Tx -> GuestBatchOutput Tx -> Value -> St S ProverError Proof_;
  prover_aggregate : AggregationGuestInput -> AggregationGuestOutput -> Value -> St S ProverError Proof_;
  prover_cancel : ProofKey -> St S ProverError ()
}.
Arguments mkProver {S Tx} _ _ _ _.
Arguments prover_run {S Tx} _ _ _ _.
Arguments prover_batch_run {S Tx} _ _ _ _.
Arguments prover_aggregate {S Tx} _ _ _ _.
Arguments prover_cancel {S Tx} _ _.

(** The provers that are compiled in. *)
Record Features (S Tx : Type) := mkFeatures {
  sp1_driver : option (Prover S Tx);
  risc0_driver : option (Prover S Tx);
  sgx_prover : option (ProofType -> Prover S Tx)
}.
Arguments mkFeatures {S Tx} _ _ _.
Arguments sp1_driver {S Tx} _.
Arguments risc0_driver {S Tx} _.
Arguments sgx_prover {S Tx} _.

Record Raiko := mkRaiko { l1_chain_spec : ChainSpec; taiko_chain_spec : ChainSpec; request : ProofRequest }.

Section raiko.
Context {S Tx : Type} `{KK : Keccak} `{AR : AlloyRlp} `{EA : EvmAccounts} `{BL : BlockLib Tx} `{KL : KzgLib} `{PL : ProtocolLib Tx}.
Variable zlib_decompress_data : bytes -> option bytes.
Variable rlp_decode_transactions : bytes -> option (list Tx).
(** The debug text of a hash. *)
Variable debug_b256 : bytes -> string.

(** *** The native prover *)

(** The settings of the native prover: where to write the input, if anywhere. *)
Definition native_param (v : Value) : outcome ProverError (option string) :=
  match v with
  | JObject _ => map_err (fun _ => Param "invalid native param") (opt_field as_str (Interfaces.get "json_guest_input" v))
  | JArray [x] => ok_or (opt_dec as_str x) (Param "invalid native param")
  | _ => Err (Param "invalid native param")
  end.

(** Creating the directory and writing the input in JSON. *)
Variable write_input : string -> GuestInput Tx + GuestBatchInput Tx -> outcome ProverError ().

Definition native_dump (input : GuestInput Tx + GuestBatchInput Tx) (config : Value) : outcome ProverError () :=
  v ← ok_or (Interfaces.get "native" config) (Param "native param not provided");
  path ← native_param v;
  match path with Some p => write_input p input | None => Ok () end.

Definition native_run (input : GuestInput Tx) (output : GuestOutput) (config : Value) : outcome ProverError Proof_ :=
  _ ← native_dump (inl input) config;
  pi ← map_err GuestError (ProtocolInstance_new input (out_header output) Native);
  _ ← ensure (bool_decide (instance_hash (P := PL) pi = out_hash output)) (GuestError "Protocol Instance hash not matched");
  Ok (mkProof None None None None None).

Definition native_batch_run (input : GuestBatchInput Tx) (output : GuestBatchOutput Tx) (config : Value) : outcome ProverError Proof_ :=
  _ ← native_dump (inr input) config;
  pi ← map_err GuestError (ProtocolInstance_new_batch input (out_blocks output) Native);
  _ ← ensure (bool_decide (instance_hash (P := PL) pi = out_batch_hash output)) (GuestError "Protocol Instance hash not matched");
  Ok (mkProof None (Some (out_batch_hash output)) None None None).

Definition NativeProver : Prover S Tx :=
  mkProver (fun input output config => lift (native_run input output config))
    (fun input output config => lift (native_batch_run input output config))
    (fun _ _ _ => mret Proof_default) (fun _ => mret tt).

(** *** The choice of a prover *)
Definition prover_for (f : Features S Tx) (proof_type : ProofType) : RaikoResult (Prover S Tx) :=
  match proof_type with
  | Native => Ok NativeProver
  | Sp1 => ok_or (sp1_driver f) (FeatureNotSupportedError proof_type)
  | Risc0 => ok_or (risc0_driver f) (FeatureNotSupportedError proof_type)
  | Sgx | SgxGeth => ok_or ((fun new => new proof_type) <$> sgx_prover f) (FeatureNotSupportedError proof_type)
  end.

Definition run_prover (f : Features S Tx) (proof_type : ProofType) (input : GuestInput Tx) (output : GuestOutput)
    (config : Value) : St S RaikoError Proof_ :=
  p ← lift (prover_for f proof_type); map_st_err Guest (prover_run p input output config).

Definition run_batch_prover (f : Features S Tx) (proof_type : ProofType) (input : GuestBatchInput Tx)
    (output : GuestBatchOutput Tx) (config : Value) : St S RaikoError Proof_ :=
  p ← lift (prover_for f proof_type); map_st_err Guest (prover_batch_run p input output config).

Definition aggregate_proofs (f : Features S Tx) (proof_type : ProofType) (input : AggregationGuestInput)
    (output : AggregationGuestOutput) (config : Value) : St S RaikoError Proof_ :=
  p ← lift (prover_for f proof_type); map_st_err Guest (prover_aggregate p input output config).

Definition cancel_proof (f : Features S Tx) (proof_type : ProofType) (proof_key : ProofKey) : St S RaikoError () :=
  p ← lift (prover_for f proof_type); map_st_err Guest (prover_cancel p proof_key).

(** *** The expected output *)
Definition require (b : bool) (message : string) : RaikoResult () :=
  ensure b (Anyhow ("Assertion failed: " +:+ message)).

Definition require_eq (expected actual : bytes) (message : string) : RaikoResult () :=
  require (bool_decide (expected = actual))
    (message +:+ " - Expected: " +:+ debug_b256 expected +:+ ", Found: " +:+ debug_b256 actual).

(** The comparisons of the single fields only print. *)
Definition check_header (exp header : Header) : RaikoResult () :=
  require_eq (hash_slow exp) (hash_slow header) ("block hash unexpected for block " +:+ print_u64 (number exp)).

Definition bad_block {A} (m : outcome string A) : RaikoResult A := map_err (fun e => Guest (GuestError e)) m.

Definition get_output (self : Raiko) (input : GuestInput Tx) : RaikoResult GuestOutput :=
  db ← unwrap_ok (create_mem_db input);
  let builder := RethBlockBuilder_new input db in
  pool_tx ← unwrap_ok (generate_transactions zlib_decompress_data rlp_decode_transactions (chain_spec input)
              (block_proposed (taiko input)) (tx_data (taiko input)) (anchor_tx (taiko input)) : outcome string _);
  builder ← unwrap_ok (execute_transactions builder pool_tx false);
  header ← bad_block (finalize builder);
  _ ← check_header (block_header (block input)) header;
  pi ← map_err Anyhow (ProtocolInstance_new input header (Interfaces.proof_type (request self)));
  Ok (mkGuestOutput header (instance_hash (P := PL) pi)).

Definition single_output_for_batch (origin_pool_txs : list Tx) (input : GuestInput Tx) : RaikoResult (EthBlock Tx) :=
  db ← unwrap_ok (create_mem_db input);
  let builder := RethBlockBuilder_new input db in
  anchor ← unwrap (anchor_tx (taiko input));
  builder ← unwrap_ok (execute_transactions builder (anchor :: origin_pool_txs) false);
  blk ← bad_block (finalize_block builder);
  _ ← check_header (block_header (block input)) (block_header blk);
  Ok blk.

Fixpoint check_parents (blocks : list (EthBlock Tx)) : RaikoResult () :=
  match blocks with
  | parent :: ((current :: _) as rest) =>
      _ ← ensure (bool_decide (hash_slow (block_header parent) = parent_hash (block_header current)))
            (Guest (GuestError "Parent hash mismatch"));
      check_parents rest
  | _ => Ok ()
  end.

Definition get_batch_output (self : Raiko) (batch_input : GuestBatchInput Tx) : RaikoResult (GuestBatchOutput Tx) :=
  pool_txs_list ← unwrap_ok (generate_transactions_for_batch_blocks zlib_decompress_data rlp_decode_transactions
                               (batch_taiko batch_input) : outcome string _);
  blocks ← collect (fun '(input, pool_txs) => single_output_for_batch pool_txs input) (zip (inputs batch_input) pool_txs_list);
  _ ← check_parents blocks;
  pi ← map_err Anyhow (ProtocolInstance_new_batch batch_input blocks (Interfaces.proof_type (request self)));
  Ok (mkGuestBatchOutput blocks (instance_hash (P := PL) pi)).

(** *** Proving *)

(** The text of a hash, an address and the two kinds in JSON. *)
Variables (b256_text address_text : bytes -> string).
Variable blob_proof_type_text : BlobProofType -> string.

(** [serde_json::to_value(&self.request)]: the prover arguments are flattened. *)
Definition request_to_value (r : ProofRequest) : Value :=
  JObject ([("block_number", JNumber (Interfaces.block_number r)); ("batch_id", JNumber (Interfaces.batch_id r));
    ("l1_inclusion_block_number", JNumber (l1_inclusion_block_number r));
    ("l2_block_numbers", JArray (JNumber <$> l2_block_numbers r)); ("network", JString (network r));
    ("l1_network", JString (l1_network r)); ("graffiti", JString (b256_text (Interfaces.graffiti r)));
    ("prover", JString (address_text (Interfaces.prover r))); ("proof_type", JString (proof_type_to_string (proof_type r)));
    ("blob_proof_type", JString (blob_proof_type_text (Interfaces.blob_proof_type r)))]%string
    ++ map_to_list (prover_args r))%list.

Definition prove (f : Features S Tx) (self : Raiko) (input : GuestInput Tx) (output : GuestOutput) : St S RaikoError Proof_ :=
  run_prover f (proof_type (request self)) input output (request_to_value (request self)).

Definition batch_prove (f : Features S Tx) (self : Raiko) (input : GuestBatchInput Tx) (output : GuestBatchOutput Tx) :
    St S RaikoError Proof_ :=
  run_batch_prover f (proof_type (request self)) input output (request_to_value (request self)).

Definition cancel (f : Features S Tx) (self : Raiko) (proof_key : ProofKey) : St S RaikoError () :=
  cancel_proof f (proof_type (request self)) proof_key.
End raiko.

(** ** The host expects what the guest computes *)
Section agreement.
Context {S Tx : Type} `{KK : Keccak} `{AR : AlloyRlp} `{EA : EvmAccounts} `{BL : BlockLib Tx} `{KL : KzgLib} `{PL : ProtocolLib Tx}.
Variable zlib : bytes -> option bytes.
Variable rlp : bytes -> option (list Tx).
Variable debug_b256 : bytes -> string.

Lemma finalize_block_input b blk : finalize_block b = Ok blk -> blk = block (builder_input b).
Proof.
  unfold finalize_block, calculate_state_root. intros H. bind_inv.
  repeat (case_match; simplify_eq/=; bind_inv). done.
Qed.

Lemma finalize_input b h : finalize b = Ok h -> h = block_header (block (builder_input b)).
Proof. unfold finalize. intros H. bind_inv. by apply finalize_block_input in Eb as ->. Qed.

(** The header that is checked is the one of the input. *)
Lemma check_header_same h : check_header debug_b256 h h = Ok ().
Proof. unfold check_header, require_eq, require. by rewrite bool_decide_eq_true_2. Qed.

Lemma unwrap_ok_Ok {E F A} (m : outcome E A) a : unwrap_ok (F := F) m = Ok a <-> m = Ok a.
Proof. destruct m; cbn; naive_solver. Qed.

(** The output the host expects of a guest is the guest's own: it is computed
    exactly when the guest computes the header of the block and the host can form
    the protocol instance, with that header and the hash of that instance; in
    particular the final comparison of the block hash, which is of the header of
    the input with itself, never fails. *)
Theorem host_output_is_guest_output self input o :
  get_output zlib rlp debug_b256 self input = Ok o <->
  exists pi, calculate_block_header zlib rlp input = Ok (out_header o) /\
    ProtocolInstance_new input (out_header o) (Interfaces.proof_type (request self)) = Ok pi /\
    out_hash o = instance_hash (P := PL) pi.
Proof.
  unfold get_output, calculate_block_header. cbv zeta.
  destruct (create_mem_db input) as [db| |]; cbn; [|naive_solver..].
  destruct (generate_transactions _ _ _ _ _ _) as [txs| |]; cbn; [|naive_solver..].
  destruct (execute_transactions _ _ _) as [b| |] eqn:Ex; cbn; [|naive_solver..].
  destruct (finalize b) as [h| |] eqn:Ef; cbn; [|naive_solver..].
  apply finalize_input in Ef. rewrite (execute_transactions_input _ _ _ _ Ex) in Ef. cbn in Ef. subst h.
  rewrite check_header_same. cbn. destruct (ProtocolInstance_new _ _ _) as [pi| |] eqn:Ep; cbn.
  - split.
    + intros; simplify_eq. cbn. eauto.
    + intros (pi' & Hh & Hp & Hi). destruct o. cbn in *. simplify_eq. rewrite Ep in Hp. by simplify_eq.
  - split; [done|]. intros (pi' & Hh & Hp & Hi). destruct o. cbn in *. simplify_eq. congruence.
  - split; [done|]. intros (pi' & Hh & Hp & Hi). destruct o. cbn in *. simplify_eq. congruence.
Qed.

(** *** Batches *)
Hypothesis same_hash : forall h, header_hash h = hash_slow h.

Lemma single_output_block txs input :
  single_output_for_batch debug_b256 txs input =
  (db ← unwrap_ok (create_mem_db input);
   anchor ← unwrap (anchor_tx (taiko input));
   builder ← unwrap_ok (execute_transactions (RethBlockBuilder_new input db) (anchor :: txs) false);
   bad_block (finalize_block builder)).
Proof.
  unfold single_output_for_batch. cbv zeta. destruct (create_mem_db input) as [db| |]; cbn; try done.
  destruct (anchor_tx (taiko input)) as [anchor|]; cbn; try done.
  destruct (execute_transactions _ _ _) as [b| |] eqn:Ex; cbn; try done.
  destruct (finalize_block b) as [blk| |] eqn:Ef; cbn; try done.
  apply finalize_block_input in Ef. rewrite (execute_transactions_input _ _ _ _ Ex) in Ef. cbn in Ef. subst blk.
  by rewrite check_header_same.
Qed.

Definition one_block : GuestInput Tx * list Tx -> RaikoResult (EthBlock Tx) :=
  fun '(input, pool_txs) => single_output_for_batch debug_b256 pool_txs input.

Lemma build_batch_step inputs i txs rest input :
  inputs !! i = Some input ->
  build_batch inputs i (txs :: rest) = (blk ← unwrap_ok (one_block (input, txs)); blks ← build_batch inputs (Datatypes.S i) rest; Ok (blk :: blks)).
Proof.
  intros Hi. cbn [build_batch]. rewrite Hi. unfold one_block. rewrite single_output_block. cbn [unwrap mbind outcome_bind fst snd].
  destruct (create_mem_db input) as [db| |]; cbn; try done.
  destruct (anchor_tx (taiko input)) as [anchor|]; cbn; try done.
  destruct (execute_transactions _ _ _) as [b| |]; cbn; try done. by destruct (finalize_block b).
Qed.

Lemma build_batch_host inputs i lists blocks :
  build_batch inputs i lists = Ok blocks -> collect one_block (zip (drop i inputs) lists) = Ok blocks.
Proof.
  revert i blocks; induction lists as [|txs rest IH]; intros i blocks H; [rewrite zip_with_nil_r; by cbn in *; simplify_eq|].
  destruct (inputs !! i) as [input|] eqn:Hi; [|by cbn in H; rewrite Hi in H].
  rewrite (build_batch_step _ _ _ _ _ Hi) in H. rewrite (drop_S _ _ _ Hi). cbn [zip_with collect].
  destruct (one_block (input, txs)); cbn in H; try done.
  destruct (build_batch inputs (Datatypes.S i) rest) eqn:Er; cbn in H; try done. simplify_eq. by rewrite (IH _ _ Er).
Qed.

Lemma host_build_batch inputs i lists blocks :
  collect one_block (zip (drop i inputs) lists) = Ok blocks ->
  build_batch inputs i lists = Ok blocks \/ build_batch inputs i lists = Panic.
Proof.
  revert i blocks; induction lists as [|txs rest IH]; intros i blocks H; [rewrite zip_with_nil_r in H; left; by cbn in *; simplify_eq|].
  destruct (inputs !! i) as [input|] eqn:Hi; [|right; by cbn; rewrite Hi].
  rewrite (build_batch_step _ _ _ _ _ Hi). rewrite (drop_S _ _ _ Hi) in H. cbn [zip_with collect] in H.
  destruct (one_block (input, txs)); cbn; try done.
  destruct (collect one_block (zip (drop (Datatypes.S i) inputs) rest)) eqn:Er; try done. simplify_eq.
  destruct (IH _ _ Er) as [-> | ->]; [by left|by right].
Qed.

Lemma check_parents_validated l blocks :
  validate_windows (zip l blocks) = Ok () -> (length blocks <= length l)%nat -> check_parents (Tx := Tx) blocks = Ok ().
Proof.
  revert l; induction blocks as [|p blocks IH]; intros l Hv Hl; [done|]. destruct blocks as [|q blocks]; [done|].
  destruct l as [|x [|y l]]; cbn in Hl; [lia|lia|]. cbn in Hv. bind_inv.
  repeat match goal with H : assert _ = Ok _ |- _ => apply assert_Ok in H end. breflect.
  cbn [check_parents]. rewrite bool_decide_eq_true_2 by (by rewrite <- same_hash). cbn.
  apply (IH (y :: l)); [done|cbn; lia].
Qed.

Lemma build_batch_length inputs i lists blocks :
  build_batch inputs i lists = Ok blocks -> (length blocks <= length (drop i inputs))%nat.
Proof.
  revert i blocks; induction lists as [|txs rest IH]; intros i blocks H; [cbn in H; simplify_eq; cbn; lia|].
  destruct (inputs !! i) as [input|] eqn:Hi; [|by cbn in H; rewrite Hi in H].
  rewrite (build_batch_step _ _ _ _ _ Hi) in H. bind_inv. apply IH in Eb0. rewrite (drop_S _ _ _ Hi). cbn. lia.
Qed.

Lemma validate_windows_cons x p y q l :
  validate_windows (Tx := Tx) ((x, p) :: (y, q) :: l) =
  (_ ← assert (bool_decide (header_hash (block_header p) = parent_hash (block_header q)));
   _ ← assert (wrap64 (number (block_header p) + 1) =? number (block_header q));
   _ ← assert (bool_decide (state_root (block_header p) = state_root (parent_header y)));
   validate_windows ((y, q) :: l)).
Proof. done. Qed.

Lemma validate_windows_outcome l : validate_windows (Tx := Tx) l = Ok () \/ validate_windows l = Panic.
Proof.
  induction l as [|[x p] l IH]; [by left|]. destruct l as [|[y q] l]; [by left|]. rewrite validate_windows_cons.
  generalize (validate_windows ((y, q) :: l)) IH. intros w Hw.
  destruct (bool_decide _), (_ =? _), (bool_decide _); cbn; auto.
Qed.

Lemma guest_blocks_expected self input blocks pi :
  calculate_batch_blocks_final_header zlib rlp input = Ok blocks ->
  ProtocolInstance_new_batch input blocks (Interfaces.proof_type (request self)) = Ok pi ->
  get_batch_output zlib rlp debug_b256 self input = Ok (mkGuestBatchOutput blocks (instance_hash (P := PL) pi)).
Proof.
  unfold get_batch_output, calculate_batch_blocks_final_header.
  destruct (generate_transactions_for_batch_blocks _ _ _) as [lists| |]; cbn [unwrap_ok mbind outcome_bind]; [|done..].
  intros Hb Hp. bind_inv. apply build_batch_host in Eb as Ec. rewrite drop_0 in Ec. unfold one_block in Ec. rewrite Ec. cbn.
  rewrite (check_parents_validated (inputs input) blocks).
  - cbn. rewrite Hp. done.
  - unfold validate_final_batch_blocks in Eb0. by destruct a0.
  - apply build_batch_length in Eb. done.
Qed.

(** C35: for a batch, whenever the guest computes blocks the host expects exactly
    these, with the hash of their protocol instance; and when the host expects
    some blocks, the guest either computes the same blocks or refuses the batch
    (it also checks that numbers and state roots are linked, and that there are
    enough inputs), but never computes others. *)
Theorem host_batch_output_is_guest_output self input :
  (forall blocks pi,
    calculate_batch_blocks_final_header zlib rlp input = Ok blocks ->
    ProtocolInstance_new_batch input blocks (Interfaces.proof_type (request self)) = Ok pi ->
    get_batch_output zlib rlp debug_b256 self input = Ok (mkGuestBatchOutput blocks (instance_hash (P := PL) pi))) /\
  (forall o, get_batch_output zlib rlp debug_b256 self input = Ok o ->
    calculate_batch_blocks_final_header zlib rlp input = Ok (out_blocks o) \/
    calculate_batch_blocks_final_header zlib rlp input = Panic).
Proof.
  split; [intros blocks pi; apply guest_blocks_expected|]. unfold get_batch_output, calculate_batch_blocks_final_header.
  destruct (generate_transactions_for_batch_blocks _ _ _) as [lists| |]; cbn [unwrap_ok mbind outcome_bind]; [|naive_solver..].
  intros o Ho. destruct (collect _ (zip _ _)) as [bl| |] eqn:Ec; cbn [mbind outcome_bind] in Ho; try done. bind_inv.
  cbn [out_blocks]. destruct (host_build_batch (inputs input) 0 lists bl Ec) as [-> | ->]; cbn [mbind outcome_bind]; [|by right].
  destruct (validate_windows_outcome (zip (inputs input) bl)) as [E|E]; unfold validate_final_batch_blocks; rewrite E;
    [by left|by right].
Qed.
End agreement.

(** ** The native prover *)
Section native.
Context {S Tx : Type} `{KK : Keccak} `{AR : AlloyRlp} `{EA : EvmAccounts} `{BL : BlockLib Tx} `{KL : KzgLib} `{PL : ProtocolLib Tx}.
Variables (zlib : bytes -> option bytes) (rlp : bytes -> option (list Tx)).
Variables (debug_b256 b256_text address_text : bytes -> string) (blob_proof_type_text : BlobProofType -> string).
Variable write_input : string -> GuestInput Tx + GuestBatchInput Tx -> outcome ProverError ().

Lemma get_output_instance self input o :
  get_output zlib rlp debug_b256 self input = Ok o ->
  exists pi, ProtocolInstance_new input (out_header o) (proof_type (request self)) = Ok pi /\
    out_hash o = instance_hash (P := PL) pi.
Proof.
  unfold get_output. cbv zeta. intros H. bind_inv. cbn.
  match goal with H : map_err Anyhow _ = Ok ?pi |- _ => exists pi; destruct (ProtocolInstance_new _ _ _) eqn:E; cbn in H; by simplify_eq end.
Qed.

(** The settings of a prover reach it through the request. *)
Lemma assoc_app_r {A} k (l1 l2 : list (string * A)) : k ∉ l1.*1 -> assoc k (l1 ++ l2) = assoc k l2.
Proof.
  induction l1 as [|[j v] l1 IH]; cbn; intros Hk; [done|]. apply not_elem_of_cons in Hk as [Hne Hk].
  rewrite bool_decide_eq_false_2 by done. by apply IH.
Qed.

Lemma assoc_map_to_list {A} k (m : gmap string A) : assoc k (map_to_list m) = m !! k.
Proof.
  destruct (m !! k) as [v|] eqn:E.
  - apply assoc_elem; [apply NoDup_fst_map_to_list|by apply elem_of_map_to_list].
  - assert (k ∉ (map_to_list m).*1) as Hk.
    { intros ([j v] & -> & Hj)%list_elem_of_fmap. apply elem_of_map_to_list in Hj. cbn in *. congruence. }
    rewrite <- (app_nil_r (map_to_list m)). by rewrite assoc_app_r.
Qed.

Lemma config_args r k :
  k ∈ ["native"; "sgx"; "sgxgeth"; "sp1"; "risc0"]%string ->
  Interfaces.get k (request_to_value b256_text address_text blob_proof_type_text r) = prover_args r !! k.
Proof.
  intros Hk. cbn [request_to_value Interfaces.get]. rewrite assoc_app_r; [apply assoc_map_to_list|].
  cbn. set_unfold in Hk. by destruct_or?; subst; apply (bool_decide_unpack _).
Qed.

(** The native prover, which a development server runs in place of a guest,
    accepts the output that the host computed for the block, and no output with
    another hash: its only error then is that the protocol instance does not
    match. *)
Theorem native_accepts_host_output f self input o s hash :
  get_output zlib rlp debug_b256 self input = Ok o -> proof_type (request self) = Native ->
  prover_args (request self) !! "native"%string = Some (JObject []) ->
  prove (S := S) write_input b256_text address_text blob_proof_type_text f self input (mkGuestOutput (out_header o) hash) s =
  if bool_decide (hash = out_hash o) then (s, Ok Proof_default)
  else (s, Err (Guest (GuestError "Protocol Instance hash not matched"))).
Proof.
  intros Ho Hp Ha. destruct (get_output_instance _ _ _ Ho) as (pi & Hpi & Hh). rewrite Hp in Hpi.
  unfold prove, run_prover, mbind, st_bind, lift, map_st_err. rewrite Hp. cbn -[native_run]. unfold lift.
  unfold native_run, native_dump. rewrite config_args, Ha by set_solver. cbn. rewrite Hpi. cbn. rewrite <- Hh.
  destruct (decide (hash = out_hash o)) as [->|].
  - by rewrite !bool_decide_eq_true_2.
  - by rewrite !bool_decide_eq_false_2.
Qed.
End native.

(** ** Examples *)
Section examples.
#[local] Existing Instance model_accounts.
#[local] Existing Instance model_blocks.
#[local] Existing Instance toy_kzg.
#[local] Existing Instance toy_protocol.

Definition example_zlib : bytes -> option bytes := Some.
Definition example_rlp (b : bytes) : option (list bytes) := Some ((fun x => [x]) <$> b).
Definition no_text (b : bytes) : string := "".

Definition example_request (p : ProofType) : ProofRequest :=
  mkProofRequest 10 0 0 [] "taiko_mainnet" "ethereum" [] [] p ProofOfEquivalence {[ "native"%string := JObject [] ]}.
Definition example_raiko (p : ProofType) : Raiko := mkRaiko toy_chain toy_chain (example_request p).

Definition example_meta : BlockMetadataV2 :=
  mkBlockMetadataV2 [1] [] [] (bytes_to_bytes32 []) [] 10 100 0 1 0 false [] [] 0 0 0 0 0 0
    (mkOntakeBaseFeeConfig 0 0 0 0 0).
Definition example_header (n : Z) : Header :=
  mkHeader [n - 1] [] [] EMPTY_ROOT [] [] None [] 0 n 250100 0 0 [] 0 None [].
Definition example_input (n : Z) (p : BlockProposedFork) : GuestInput bytes :=
  mkGuestInput (mkBlock (example_header n) [] []) toy_chain (model_header (n - 1)) Mpt.default ∅ [] [model_header (n - 2)]
    (mkTaikoGuestInput (model_header 1) [] (Some [42]) p (mkTaikoProverData [] []) None None KzgVersionedHash).
Definition example_block : GuestInput bytes := example_input 10 (Ontake (mkBlockProposedV2 10 example_meta)).

Definition example_output : GuestOutput :=
  match get_output example_zlib example_rlp no_text (example_raiko Native) example_block with
  | Ok o => o | _ => mkGuestOutput (example_header 0) [] end.

Lemma example_output_ok :
  get_output example_zlib example_rlp no_text (example_raiko Native) example_block = Ok example_output.
Proof. vm_compute. reflexivity. Qed.

Definition no_provers : Features () bytes := mkFeatures None None None.

Lemma native_accepts_host_output_witness :
  prove (S := ()) (fun _ _ => Ok ()) no_text no_text (fun _ => ""%string) no_provers (example_raiko Native) example_block
    (mkGuestOutput (out_header example_output) (out_hash example_output)) () = ((), Ok Proof_default).
Proof.
  rewrite (native_accepts_host_output example_zlib example_rlp no_text no_text no_text (fun _ => ""%string) (fun _ _ => Ok ())
    no_provers (example_raiko Native) example_block example_output () (out_hash example_output) example_output_ok eq_refl eq_refl).
  by rewrite bool_decide_eq_true_2.
Defined.

Definition example_info : BatchInfo :=
  mkBatchInfo [20; 21; 22] [mkBlockParams 1 0 [[42]]; mkBlockParams 2 0 [[42]]] [] [] [] 0 0 0 0 0 11 0 1 [1]
    (mkBaseFeeConfig 0 0 0 0 0).
Definition example_proposed : BatchProposed :=
  mkBatchProposed example_info (mkBatchMetadata (ser (batch_info_fields example_info)) [] 3 0) [].
Definition example_batch : GuestBatchInput bytes :=
  mkGuestBatchInput [example_input 10 (Pacaya example_proposed); example_input 11 (Pacaya example_proposed)]
    (mkTaikoGuestBatchInput 3 (model_header 1) (Pacaya example_proposed) toy_chain (mkTaikoProverData [] [])
       [20; 21; 22] [] None None ProofOfEquivalence).
Definition example_blocks : list (EthBlock bytes) :=
  [mkBlock (example_header 10) [] []; mkBlock (example_header 11) [] []].
Definition example_instance : ProtocolInstance :=
  match ProtocolInstance_new_batch example_batch example_blocks Native with Ok pi => pi | _ => toy_instance end.

Lemma example_instance_ok : ProtocolInstance_new_batch example_batch example_blocks Native = Ok example_instance.
Proof. vm_compute. reflexivity. Qed.
Lemma example_blocks_ok : calculate_batch_blocks_final_header example_zlib example_rlp example_batch = Ok example_blocks.
Proof. vm_compute. reflexivity. Qed.

Lemma host_batch_output_is_guest_output_witness :
  get_batch_output example_zlib example_rlp no_text (example_raiko Native) example_batch =
  Ok (mkGuestBatchOutput example_blocks (instance_hash example_instance)).
Proof.
  exact (proj1 (host_batch_output_is_guest_output example_zlib example_rlp no_text (fun _ => eq_refl) (example_raiko Native)
    example_batch) example_blocks example_instance example_blocks_ok example_instance_ok).
Defined.
End examples.
