(* ===== verification/L1Data.v ===== *)
(** * L1Data: the data of a proposal on L1

    Models the part of [core/src/preflight/util.rs] that reads L1: the proposal
    events, the headers, the blobs with their commitments and proofs, and the
    inputs that are prepared from them. The node, the beacon service and the ABI
    decoders are given. *)
From stdpp Require Import base list list_numbers gmap fin_maps strings.
From Stdlib Require Import ZArith Lia Ascii.
From S2P Require Import Prelude Text Types Interfaces ChainSpec Input Eip4844 ProtocolInstance MemDb ProviderDb Rpc Builder.
Local Open Scope string_scope.
Local Open Scope Z_scope.

(** ** Text *)
(** [trim_start_matches("0x")]: as often as it occurs. *)
Fixpoint trim_0x (s : string) : string :=
  match s with
  | String "0" (String "x" s') => trim_0x s'
  | _ => s
  end.

(** [trim_end_matches('/')]. *)
Fixpoint trim_end_slash (s : string) : string :=
  match s with
  | "" => ""
  | String c s' =>
      let t := trim_end_slash s' in
      if bool_decide (t = "") && bool_decide (c = "/"%char) then "" else String c t
  end.

Definition contains (s sub : string) : bool := match String.index 0 sub s with Some _ => true | None => false end.

(** ** Services *)
Record GetBlobData := mkGetBlobData { gb_index : string; gb_blob : string; gb_kzg_commitment : string; gb_kzg_proof : string }.
Record BlobScanData := mkBlobScanData { bs_commitment : string; bs_data : string }.

(** A response: whether the status is a success, its text, and the body. *)
Record Response (A : Type) := mkResponse { is_success : bool; status : string; json : outcome string A }.
Arguments mkResponse {A} _ _ _.
Arguments is_success {A} _.
Arguments status {A} _.
Arguments json {A} _.

Record L1Tx := mkL1Tx { tx_input : bytes; blob_versioned_hashes : option (list bytes) }.

Inductive EventSignature : Type := SigBatchProposed | SigBlockProposedV2 | SigBlockProposed | SigCalldataTxList.

(** The filter of an event query. *)
Inductive BlockFilter : Type := AtBlockHash (h : bytes) | FromTo (from to : Z).
Record Filter := mkFilter { f_address : bytes; f_blocks : BlockFilter; f_signature : EventSignature }.

Inductive EventFilterConditioin : Type := Hash (h : bytes) | Height (n : Z) | Range (r : Z * Z).

(** The L1 node behind a URL, the beacon service and the decoders. *)
Class L1Lib (Tx : Type) := {
  Log : Type;
  l1_provider : string -> BlockDataProvider;
  parse_url : string -> bool;
  get_logs : string -> Filter -> outcome string (list Log);
  get_block_number : string -> outcome string Z;
  get_transaction_by_hash : string -> bytes -> outcome string (option L1Tx);
  log_struct : Log -> bool;
  log_transaction_hash : Log -> option bytes;
  log_block_number : Log -> option Z;
  decode_batch_proposed : Log -> option BatchProposed;
  decode_block_proposed_v2 : Log -> option BlockProposedV2;
  decode_block_proposed : Log -> option BlockProposed;
  decode_calldata_txlist : Log -> option (Z * bytes);
  decode_propose_call : bytes -> option bytes;
  anchor_pacaya : Tx -> outcome string (Z * bytes);
  anchor_ontake : Tx -> outcome string (Z * bytes);
  anchor_hekla : Tx -> outcome string (Z * bytes);
  hex_decode : string -> option bytes;
  get_sidecars : string -> outcome string (Response (list GetBlobData));
  get_blobscan : string -> outcome string (Response BlobScanData);
  b256_display : bytes -> string;
  b256_debug : bytes -> string
}.

(** ** Slots *)
Definition block_time_to_block_slot (block_time genesis_time block_per_slot : Z) : RaikoResult Z :=
  if genesis_time =? 0 then Err (Anyhow "genesis time is 0, please check chain spec")
  else if block_time <? genesis_time then Err (Anyhow "provided block_time precedes genesis time")
  else if block_per_slot =? 0 then Panic
  else Ok ((block_time - genesis_time) / block_per_slot).

Section l1.
Context {Tx : Type} `{EA : EvmAccounts} `{BL : BlockLib Tx} `{K : KzgLib} `{L : L1Lib Tx}.

(** ** Blobs *)
Definition blob_text (s : string) : option bytes := hex_decode (trim_0x (to_lowercase s)).
Definition blob_to_bytes (s : string) : bytes := default [] (blob_text s).

Definition calc_blob_versioned_hash (s : string) : outcome string bytes :=
  blob_bytes ← unwrap (blob_text s);
  fields ← unwrap (blob_from_bytes blob_bytes);
  commitment ← unwrap_ok (blob_to_kzg_commitment_rust fields);
  Ok (commitment_to_version_hash (g1_to_bytes commitment)).

(** [iter().find(..)]: the predicate may panic. *)
Fixpoint find_blob (blob_hash : bytes) (blobs : list string) : outcome string (option string) :=
  match blobs with
  | [] => Ok None
  | b :: rest =>
      h ← calc_blob_versioned_hash b;
      if bool_decide (blob_hash = h) then Ok (Some b) else find_blob blob_hash rest
  end.

Definition filter_blob_data_beacon (blobs : list string) (blob_hash : bytes) : outcome string bytes :=
  tx_blob ← find_blob blob_hash blobs;
  match tx_blob with
  | Some b => Ok (blob_to_bytes b)
  | None => Err "couldn't find blob data matching blob hash"
  end.

Definition get_blob_data_beacon (beacon_rpc_url : string) (block_id : Z) : outcome string (list GetBlobData) :=
  response ← get_sidecars (trim_end_slash beacon_rpc_url +:+ "/eth/v1/beacon/blob_sidecars/" +:+ print_u64 block_id);
  _ ← ensure (is_success response) ("Request failed with status code: " +:+ status response);
  blobs ← json response;
  _ ← ensure (negb (bool_decide (length blobs = 0%nat))) "blob data not available anymore";
  Ok blobs.

Definition get_and_filter_blob_data_beacon (beacon_rpc_url : string) (block_id : Z) (blob_hash : bytes) : outcome string bytes :=
  blobs ← get_blob_data_beacon beacon_rpc_url block_id;
  filter_blob_data_beacon (gb_blob <$> blobs) blob_hash.

Definition get_and_filter_blob_data_by_blobscan (beacon_rpc_url : string) (blob_hash : bytes) : outcome string bytes :=
  response ← get_blobscan (trim_end_slash beacon_rpc_url +:+ "/blobs/" +:+ b256_display blob_hash);
  _ ← ensure (is_success response) ("Request failed with status code: " +:+ status response);
  blob ← json response;
  Ok (blob_to_bytes (bs_data blob)).

Definition get_and_filter_blob_data (beacon_rpc_url : string) (block_id : Z) (blob_hash : bytes) : outcome string bytes :=
  if contains beacon_rpc_url "blobscan.com" then get_and_filter_blob_data_by_blobscan beacon_rpc_url blob_hash
  else get_and_filter_blob_data_beacon beacon_rpc_url block_id blob_hash.

(** Not implemented for blobscan. *)
Definition get_blob_data (beacon_rpc_url : string) (block_id : Z) : outcome string (list GetBlobData) :=
  if contains beacon_rpc_url "blobscan.com" then Panic else get_blob_data_beacon beacon_rpc_url block_id.

(** An error of a service keeps its text; that of the KZG library is not
    modelled. *)
Definition anyhow {A} (m : outcome string A) : RaikoResult A := map_err Anyhow m.
Definition kzg {A} (m : outcome Eip4844Error A) : RaikoResult A := map_err (fun _ => Anyhow "blob error") m.

(** The commitment of a blob, and the proof of its evaluation where the request
    asks for one: the same steps in [get_tx_blob] and for each blob of a batch. *)
Definition BlobData : Type := bytes * option bytes * option bytes.

Definition commit_blob (blob : bytes) (blob_proof_type : BlobProofType) : RaikoResult BlobData :=
  commitment ← kzg (calc_kzg_proof_commitment blob);
  blob_proof ←
    (match blob_proof_type with
     | KzgVersionedHash => Ok None
     | ProofOfEquivalence =>
         '(x, _) ← kzg (proof_of_equivalence blob (commitment_to_version_hash commitment));
         z ← unwrap (fr_from_bytes_le (reverse x));
         point ← kzg (calc_kzg_proof_with_point blob z);
         Ok (Some (g1_to_bytes point))
     end);
  Ok (blob, Some commitment, blob_proof).

Definition beacon_url (chain_spec : ChainSpec) : RaikoResult string :=
  ok_or (beacon_rpc chain_spec) (Preflight "Beacon RPC URL is required for Taiko chains").

Definition get_tx_blob (blob_hash : bytes) (timestamp : Z) (chain_spec : ChainSpec) (blob_proof_type : BlobProofType) :
    RaikoResult BlobData :=
  slot_id ← block_time_to_block_slot timestamp (genesis_time chain_spec) (seconds_per_slot chain_spec);
  url ← beacon_url chain_spec;
  blob ← anyhow (get_and_filter_blob_data url slot_id blob_hash);
  commit_blob blob blob_proof_type.

Definition filter_tx_blob_beacon_with_proof (blob_hash : bytes) (blobs : list string) (blob_proof_type : BlobProofType) :
    RaikoResult BlobData :=
  blob ← anyhow (filter_blob_data_beacon blobs blob_hash);
  commit_blob blob blob_proof_type.

Definition get_batch_tx_data_with_proofs (blob_hashes : list bytes) (timestamp : Z) (chain_spec : ChainSpec)
    (blob_proof_type : BlobProofType) : RaikoResult (list BlobData) :=
  url ← beacon_url chain_spec;
  slot_id ← block_time_to_block_slot timestamp (genesis_time chain_spec) (seconds_per_slot chain_spec);
  blob_data ← anyhow (get_blob_data url slot_id);
  collect (fun h => filter_tx_blob_beacon_with_proof h (gb_blob <$> blob_data) blob_proof_type) blob_hashes.

(** ** Events *)

(** The text of the error that a log that cannot be decoded gives. *)
Definition not_decoded : string := RaikoError_to_string (Anyhow "Could not decode log").

Definition l1_address (chain_spec : ChainSpec) : outcome string bytes :=
  ok_or (l1_contract chain_spec) "No L1 contract address in the chain spec".

(** The transaction of a log. *)
Definition log_tx (url : string) (log : Log) : outcome string L1Tx :=
  h ← ok_or (log_transaction_hash log) "No transaction hash in the log";
  r ← unwrap_ok (get_transaction_by_hash url h);
  unwrap r.

Fixpoint find_calldata_txlist (url : string) (l2_block_number : Z) (logs : list Log) : outcome string (L1Tx * bytes) :=
  match logs with
  | [] => Err ("No BlockProposedV2 event found for block " +:+ print_u64 l2_block_number)
  | log :: rest =>
      _ ← ensure (log_struct log) "Could not create log";
      '(block_id, tx_list) ← ok_or (decode_calldata_txlist log) not_decoded;
      if block_id =? l2_block_number then tx ← log_tx url log; Ok (tx, tx_list)
      else find_calldata_txlist url l2_block_number rest
  end.

Definition get_calldata_txlist_event (url : string) (chain_spec : ChainSpec) (block_hash : bytes) (l2_block_number : Z) :
    outcome string (L1Tx * bytes) :=
  address ← l1_address chain_spec;
  logs ← get_logs url (mkFilter address (AtBlockHash block_hash) SigCalldataTxList);
  find_calldata_txlist url l2_block_number logs.

Definition event_signature (fork : Z) : EventSignature :=
  if fork =? SpecId_PACAYA then SigBatchProposed
  else if fork =? SpecId_ONTAKE then SigBlockProposedV2 else SigBlockProposed.

Definition block_filter (c : EventFilterConditioin) : BlockFilter :=
  match c with
  | Hash h => AtBlockHash h
  | Height n => FromTo n (wrap64 (n + 1))
  | Range (from, to) => FromTo from to
  end.

(** The id and the proposal in a log of the fork. *)
Definition decode_proposal (fork : Z) (log : Log) : outcome string (Z * BlockProposedFork) :=
  if fork =? SpecId_PACAYA then
    e ← ok_or (decode_batch_proposed log) not_decoded; Ok (batchId (meta e), Pacaya e)
  else if fork =? SpecId_ONTAKE then
    e ← ok_or (decode_block_proposed_v2 log) not_decoded; Ok (bp2_blockId e, Ontake e)
  else
    e ← ok_or (decode_block_proposed log) not_decoded; Ok (bp_blockId e, Hekla e).

Fixpoint find_proposal (url : string) (fork block_num_or_batch_id : Z) (logs : list Log) :
    outcome string (Z * L1Tx * BlockProposedFork) :=
  match logs with
  | [] => Err ("No BlockProposed event found for block " +:+ print_u64 block_num_or_batch_id)
  | log :: rest =>
      _ ← ensure (log_struct log) "Could not create log";
      '(id, event) ← decode_proposal fork log;
      if id =? block_num_or_batch_id then
        tx ← log_tx url log;
        n ← unwrap (log_block_number log);
        Ok (n, tx, event)
      else find_proposal url fork block_num_or_batch_id rest
  end.

Definition filter_block_proposed_event (url : string) (chain_spec : ChainSpec) (filter_condition : EventFilterConditioin)
    (block_num_or_batch_id fork : Z) : outcome string (Z * L1Tx * BlockProposedFork) :=
  address ← l1_address chain_spec;
  logs ← get_logs url (mkFilter address (block_filter filter_condition) (event_signature fork));
  find_proposal url fork block_num_or_batch_id logs.

Definition get_block_proposed_event_by_hash (url : string) (chain_spec : ChainSpec)
    (l1_inclusion_block_hash : bytes) (l2_block_number fork : Z) :=
  filter_block_proposed_event url chain_spec (Hash l1_inclusion_block_hash) l2_block_number fork.

Definition get_block_proposed_event_by_height (url : string) (chain_spec : ChainSpec)
    (l1_inclusion_block_number block_num_or_batch_id fork : Z) :=
  filter_block_proposed_event url chain_spec (Height l1_inclusion_block_number) block_num_or_batch_id fork.

Definition MAX_ANCHOR_BLOCK_RANGE : Z := 96.

Definition get_block_proposed_event_by_traversal (url : string) (chain_spec : ChainSpec)
    (l1_anchor_block_number l2_block_number fork : Z) :=
  latest_block_number ← get_block_number url;
  let range_start := wrap64 (l1_anchor_block_number + 1) in
  let range_end := Z.min (wrap64 (l1_anchor_block_number + MAX_ANCHOR_BLOCK_RANGE)) latest_block_number in
  filter_block_proposed_event url chain_spec (Range (range_start, range_end)) l2_block_number fork.

(** ** Headers *)

(** A header of the RPC library is the block without its transactions. *)
Definition get_headers {P : BlockDataProvider} (t : nat) (ab : Z * Z) : RaikoResult (RpcBlock * RpcBlock) :=
  blocks ← get_blocks t [(ab.1, true); (ab.2, false)];
  a ← ok_or (blocks !! 0%nat) (Preflight "No block data for the requested block");
  b ← ok_or (blocks !! 1%nat) (Preflight "No block data for the requested block");
  Ok (a, b).

(** ** The input of one block *)
Definition anchor_info_of (fork : Z) (anchor_tx : Tx) : outcome string (Z * bytes) :=
  if fork =? SpecId_ONTAKE then anchor_ontake anchor_tx else anchor_hekla anchor_tx.

Definition pacaya_unsupported {A} : RaikoResult A :=
  Err (Preflight "pacaya fork does not support prepare_taiko_chain_input for single block").

(** The transactions of a proposal, from its blob or from calldata. *)
Definition single_tx_data (l1_chain_spec taiko_chain_spec : ChainSpec) (fork block_number : Z) (proposal_tx : L1Tx)
    (block_proposed : BlockProposedFork) (inclusion_timestamp : Z) (inclusion_hash : bytes)
    (blob_proof_type : BlobProofType) : RaikoResult BlobData :=
  if blob_used block_proposed then
    let expected_blob_hash := blob_hash block_proposed in
    let blob_hashes := default [] (blob_versioned_hashes proposal_tx) in
    _ ← ensure (bool_decide (expected_blob_hash ∈ blob_hashes))
          (Anyhow ("Assertion failed: Proposal blobs hash mismatch: " +:+ b256_debug expected_blob_hash +:+ " not in [" +:+
             String.concat ", " (b256_debug <$> blob_hashes) +:+ "]"));
    get_tx_blob expected_blob_hash inclusion_timestamp l1_chain_spec blob_proof_type
  else if fork =? SpecId_PACAYA then pacaya_unsupported
  else if fork =? SpecId_ONTAKE then
    '(_, tx_list) ← anyhow (get_calldata_txlist_event (rpc l1_chain_spec) taiko_chain_spec inclusion_hash block_number);
    Ok (tx_list, None, None)
  else
    tx_list ← ok_or (decode_propose_call (tx_input proposal_tx)) (Preflight "Could not decode proposeBlockCall");
    Ok (tx_list, None, None).

Definition prepare_taiko_chain_input (l1_chain_spec taiko_chain_spec : ChainSpec) (block_number : Z)
    (l1_inclusion_block_number : option Z) (block : EthBlock Tx) (prover_data : TaikoProverData)
    (blob_proof_type : BlobProofType) : RaikoResult (TaikoGuestInput Tx) :=
  anchor_tx ← ok_or (head (body block)) (Preflight "No anchor tx in the block");
  fork ← anyhow (active_fork taiko_chain_spec (number (block_header block)) (timestamp (block_header block)));
  '(anchor_block_height, anchor_state_root) ←
    (if fork =? SpecId_PACAYA then pacaya_unsupported else anyhow (anchor_info_of fork anchor_tx));
  _ ← rpc_new parse_url (rpc l1_chain_spec) 0;
  '(l1_inclusion_block_number, proposal_tx, block_proposed) ←
    anyhow (match l1_inclusion_block_number with
            | Some n => get_block_proposed_event_by_height (rpc l1_chain_spec) taiko_chain_spec n block_number fork
            | None => get_block_proposed_event_by_traversal (rpc l1_chain_spec) taiko_chain_spec anchor_block_height block_number fork
            end);
  '(l1_inclusion_header, l1_state_header) ←
    get_headers (P := l1_provider (rpc l1_chain_spec)) 0 (l1_inclusion_block_number, anchor_block_height);
  _ ← assert (bool_decide (anchor_state_root = rpc_state_root l1_state_header));
  _ ← ok_or (rpc_hash l1_state_header) (Preflight "No L1 state block hash for the requested block");
  l1_inclusion_block_hash ← ok_or (rpc_hash l1_inclusion_header)
    (Preflight "No L1 inclusion block hash for the requested block");
  '(tx_data, blob_commitment, blob_proof) ←
    single_tx_data l1_chain_spec taiko_chain_spec fork block_number proposal_tx block_proposed
      (rpc_timestamp l1_inclusion_header) l1_inclusion_block_hash blob_proof_type;
  l1_header ← unwrap (rpc_header l1_state_header);
  Ok (mkTaikoGuestInput l1_header tx_data (Some anchor_tx) block_proposed prover_data blob_commitment blob_proof blob_proof_type).

(** ** The input of a batch *)
Definition get_anchor_tx_info_by_fork (fork : Z) (anchor_tx : Tx) : RaikoResult (Z * bytes) :=
  anyhow (if fork =? SpecId_PACAYA then anchor_pacaya anchor_tx
          else if fork =? SpecId_ONTAKE then anchor_ontake anchor_tx else anchor_hekla anchor_tx).

(** [start..=end]. *)
Definition inclusive_range (start last : Z) : list Z := seqZ start (last - start + 1).

Definition batch_block_numbers (b : BatchInfo) : list Z :=
  inclusive_range (wrap64 (lastBlockId b - wrap64 (Z.of_nat (length (blocks b)) - 1))) (lastBlockId b).

Definition parse_l1_batch_proposal_tx_for_pacaya_fork (l1_chain_spec taiko_chain_spec : ChainSpec)
    (l1_inclusion_block_number batch_id : Z) : RaikoResult (list Z) :=
  _ ← rpc_new parse_url (rpc l1_chain_spec) 0;
  '(l1_inclusion_height, _, batch_proposed_fork) ←
    anyhow (get_block_proposed_event_by_height (rpc l1_chain_spec) taiko_chain_spec l1_inclusion_block_number batch_id SpecId_PACAYA);
  _ ← assert (l1_inclusion_block_number =? l1_inclusion_height);
  match batch_proposed_fork with
  | Pacaya batch_proposed => Ok (batch_block_numbers (info batch_proposed))
  | _ => Err (Preflight "BatchProposedFork is not Pacaya")
  end.

Definition batch_anchor_info (taiko_chain_spec : ChainSpec) (block : EthBlock Tx) : RaikoResult (Z * bytes) :=
  anchor_tx ← ok_or (head (body block)) (Preflight "No anchor tx in the block");
  fork ← anyhow (active_fork taiko_chain_spec (number (block_header block)) (timestamp (block_header block)));
  _ ← ensure (fork =? SpecId_PACAYA) (Anyhow "Only pacaya fork supports batch");
  get_anchor_tx_info_by_fork fork anchor_tx.

(** [windows(2).all(|w| w[0] == w[1])]. *)
Fixpoint all_same (l : list (Z * bytes)) : bool :=
  match l with
  | x :: ((y :: _) as rest) => bool_decide (x = y) && all_same rest
  | _ => true
  end.

(** [iter().map(..).collect::<Option<Vec<_>>>()]. *)
Definition collect_option {A B} (f : A -> option B) (l : list A) : option (list B) := mapM f l.

(** The blobs of a batch were created in the block of a forced inclusion, if it
    has one, or in the block of the proposal. *)
Definition blob_timestamp (l1_chain_spec : ChainSpec) (l1_inclusion_block_number anchor_block_height created_in : Z)
    (l1_inclusion_header : RpcBlock) : RaikoResult Z :=
  if negb (created_in =? 0) && negb (created_in =? l1_inclusion_block_number) then
    '(force_inclusion_header, _) ← get_headers (P := l1_provider (rpc l1_chain_spec)) 1 (created_in, anchor_block_height);
    Ok (rpc_timestamp force_inclusion_header)
  else Ok (rpc_timestamp l1_inclusion_header).

Definition prepare_taiko_chain_batch_input (l1_chain_spec taiko_chain_spec : ChainSpec)
    (l1_inclusion_block_number batch_id : Z) (batch_blocks : list (EthBlock Tx)) (prover_data : TaikoProverData)
    (blob_proof_type : BlobProofType) : RaikoResult TaikoGuestBatchInput :=
  batch_anchor_tx_info ← collect (batch_anchor_info taiko_chain_spec) batch_blocks;
  _ ← assert (all_same batch_anchor_tx_info);
  '(anchor_block_height, anchor_state_root) ← unwrap (batch_anchor_tx_info !! 0%nat);
  first ← unwrap (batch_blocks !! 0%nat);
  fork ← anyhow (active_fork taiko_chain_spec (number (block_header first)) (timestamp (block_header first)));
  _ ← rpc_new parse_url (rpc l1_chain_spec) 0;
  '(l1_inclusion_height, _, batch_proposed_fork) ←
    anyhow (get_block_proposed_event_by_height (rpc l1_chain_spec) taiko_chain_spec l1_inclusion_block_number batch_id fork);
  _ ← assert (l1_inclusion_block_number =? l1_inclusion_height);
  '(l1_inclusion_header, l1_state_header) ←
    get_headers (P := l1_provider (rpc l1_chain_spec)) 0 (l1_inclusion_block_number, anchor_block_height);
  _ ← assert (bool_decide (anchor_state_root = rpc_state_root l1_state_header));
  match batch_proposed_fork with
  | Pacaya batch_proposed =>
      let batch_info := info batch_proposed in
      l1_blob_timestamp ← blob_timestamp l1_chain_spec l1_inclusion_block_number anchor_block_height
                            (blobCreatedIn batch_info) l1_inclusion_header;
      '(tx_data_from_calldata, blobs) ←
        (if bool_decide (blobHashes batch_info = []) then Ok (txList batch_proposed, [])
         else
           bufs ← get_batch_tx_data_with_proofs (blobHashes batch_info) l1_blob_timestamp l1_chain_spec blob_proof_type;
           Ok ([], bufs));
      l1_header ← unwrap (rpc_header l1_state_header);
      Ok (mkTaikoGuestBatchInput batch_id l1_header (Pacaya batch_proposed) taiko_chain_spec prover_data
            tx_data_from_calldata ((fun b : BlobData => b.1.1) <$> blobs)
            (collect_option (fun b : BlobData => b.1.2) blobs) (collect_option (fun b : BlobData => b.2) blobs) blob_proof_type)
  | _ => Err (Preflight "BatchProposedFork is not Pacaya")
  end.
End l1.

(** ** The blobs of a proposal *)
Section blobs.
Context {Tx : Type} `{EA : EvmAccounts} `{BL : BlockLib Tx} `{K : KzgLib} `{L : L1Lib Tx}.

(** The blob found for a hash has a commitment with that hash. *)
Lemma find_blob_hash h blobs b :
  find_blob h blobs = Ok (Some b) ->
  exists c, calc_kzg_proof_commitment (blob_to_bytes b) = Ok c /\ commitment_to_version_hash c = h.
Proof.
  induction blobs as [|x blobs IH]; cbn; [done|]. destruct (calc_blob_versioned_hash x) as [hx| |] eqn:E; cbn; try done.
  case_bool_decide as Hh; [|done]. intros; simplify_eq. unfold calc_blob_versioned_hash in E.
  unfold blob_to_bytes, calc_kzg_proof_commitment. destruct (blob_text b) as [bs|]; cbn in *; [|done].
  destruct (blob_from_bytes bs) as [f|]; cbn in *; [|done].
  destruct (blob_to_kzg_commitment_rust f) as [g| |]; cbn in *; try done. simplify_eq. eauto.
Qed.

(** What is prepared for a blob: the data, the commitment to it, and for a proof
    of equivalence the opening at the challenge point. *)
Definition blob_prepared (t : BlobProofType) (h : bytes) (b : BlobData) : Prop :=
  let '(blob, commitment, proof) := b in
  exists c, commitment = Some c /\ calc_kzg_proof_commitment blob = Ok c /\ commitment_to_version_hash c = h /\
  match t with
  | KzgVersionedHash => proof = None
  | ProofOfEquivalence => exists x y z g, proof_of_equivalence blob h = Ok (x, y) /\
      fr_from_bytes_le (reverse x) = Some z /\ calc_kzg_proof_with_point blob z = Ok g /\ proof = Some (g1_to_bytes g)
  end.

Lemma kzg_Ok {A} (m : outcome Eip4844Error A) a : kzg m = Ok a -> m = Ok a.
Proof. destruct m; cbn; intros; by simplify_eq. Qed.
Lemma anyhow_Ok {A} (m : outcome string A) a : anyhow m = Ok a -> m = Ok a.
Proof. destruct m; cbn; intros; by simplify_eq. Qed.

Lemma filter_tx_blob_prepared h blobs t b :
  filter_tx_blob_beacon_with_proof h blobs t = Ok b -> blob_prepared t h b.
Proof.
  unfold filter_tx_blob_beacon_with_proof, filter_blob_data_beacon. intros H. bind_inv.
  apply anyhow_Ok in Eb. bind_inv. destruct a0 as [s|]; simplify_eq.
  destruct (find_blob_hash _ _ _ Eb0) as (c & Hc & Hh). unfold commit_blob in H. rewrite Hc in H. cbn in H.
  destruct t; cbn in H.
  - simplify_eq. cbn. eauto.
  - bind_inv. cbn. exists c. split_and!; [done|done|done|].
    apply kzg_Ok in Eb1. destruct a0 as [x y].
    destruct (fr_from_bytes_le (reverse x)) as [z|] eqn:Ez; cbn in Eb; [|done].
    destruct (calc_kzg_proof_with_point _ z) as [g| |] eqn:Eg; cbn in Eb; try done. simplify_eq. eauto 10.
Qed.

Lemma batch_tx_data_prepared hashes ts spec t l :
  get_batch_tx_data_with_proofs hashes ts spec t = Ok l -> Forall2 (blob_prepared t) hashes l.
Proof.
  unfold get_batch_tx_data_with_proofs. intros H. bind_inv.
  match goal with H : collect _ _ = Ok l |- _ => revert l H end. clear.
  induction hashes as [|h hs IH]; intros l H; cbn in H; [by simplify_eq; constructor|].
  destruct (filter_tx_blob_beacon_with_proof _ _ _) eqn:E; try done. destruct (collect _ hs); try done. simplify_eq.
  constructor; [by eapply filter_tx_blob_prepared|by apply IH].
Qed.

(** All blocks of a batch have the anchor of the first. *)
Lemma all_same_head x l : all_same (x :: l) = true -> Forall (eq x) (x :: l).
Proof.
  revert x; induction l as [|y l IH]; intros x H; [by repeat constructor|].
  cbn [all_same] in H. apply andb_prop in H as [H1 H2]. apply bool_decide_eq_true in H1 as ->.
  constructor; [done|]. by apply IH.
Qed.

Lemma collect_Forall2 {E A B} (f : A -> outcome E B) l r : collect f l = Ok r -> Forall2 (fun a b => f a = Ok b) l r.
Proof.
  revert r; induction l as [|a l IH]; cbn; intros r H; [by simplify_eq; constructor|].
  destruct (f a) eqn:Ef; try done. destruct (collect f l); try done. simplify_eq. constructor; auto.
Qed.

Lemma anchors_same spec bs a x u :
  collect (batch_anchor_info spec) bs = Ok a -> assert (E := RaikoError) (all_same a) = Ok u -> a !! 0%nat = Some x ->
  exists anchor, Forall (fun b => batch_anchor_info spec b = Ok anchor) bs.
Proof.
  intros Hc%collect_Forall2 Ha%assert_Ok Hx. destruct a as [|y a]; [done|]. simplify_eq/=. exists x.
  apply all_same_head in Ha. apply Forall_forall. intros b Hb. apply list_elem_of_lookup in Hb as [k Hk].
  destruct (Forall2_lookup_l _ _ _ _ _ Hc Hk) as (z & Hz & Hbz).
  rewrite Forall_forall in Ha. rewrite Hbz. f_equal. symmetry. apply Ha. by eapply list_elem_of_lookup_2.
Qed.

Ltac split_pairs := repeat match goal with x : prod _ _ |- _ => destruct x end.

(** What a batch input was prepared from. *)
Record batch_prepared (spec : ChainSpec) (inclusion id : Z) (bs : list (EthBlock Tx)) (t : BlobProofType)
    (i : TaikoGuestBatchInput) (p : BatchProposed) (ds : list BlobData) : Prop := {
  bpr_proposed : batch_proposed i = Pacaya p;
  bpr_id : batch_id i = id;
  bpr_anchor : exists anchor, Forall (fun b => batch_anchor_info spec b = Ok anchor) bs;
  bpr_type : batch_blob_proof_type i = t;
  bpr_data : tx_data_from_blob i = (fun b : BlobData => b.1.1) <$> ds;
  bpr_commitments : blob_commitments i = collect_option (fun b : BlobData => b.1.2) ds;
  bpr_proofs : blob_proofs i = collect_option (fun b : BlobData => b.2) ds;
  bpr_calldata : tx_data_from_calldata i = if bool_decide (blobHashes (info p) = []) then txList p else [];
  bpr_blobs : Forall2 (blob_prepared t) (blobHashes (info p)) ds
}.

Lemma prepare_batch_prepared l1 spec inclusion id bs pd t i :
  prepare_taiko_chain_batch_input l1 spec inclusion id bs pd t = Ok i ->
  exists p ds, batch_prepared spec inclusion id bs t i p ds.
Proof.
  unfold prepare_taiko_chain_batch_input. intros H. do 5 (bind_inv; split_pairs).
  match goal with p : BlockProposedFork |- _ => destruct p; try done end. do 4 (bind_inv; split_pairs).
  match goal with p : BatchProposed, ds : list BlobData |- _ => exists p, ds end.
  case_bool_decide as Hb; bind_inv; split; cbn; try done; try (by rewrite bool_decide_eq_true_2);
    try (by rewrite bool_decide_eq_false_2).
  - eapply anchors_same; [done|done|]. by destruct (_ !! 0%nat) eqn:E0; cbn in *; simplify_eq.
  - rewrite Hb. constructor.
  - eapply anchors_same; [done|done|]. by destruct (_ !! 0%nat) eqn:E0; cbn in *; simplify_eq.
  - by eapply batch_tx_data_prepared.
Qed.

(** The blobs that preflight prepares for a batch are the blobs of the proposal
    on L1: one for each blob hash of the event, in order, each with the KZG
    commitment computed from its data whose versioned hash is the hash of the
    event; the calldata of the event is used exactly when it has no blobs; and all
    blocks of the batch are anchored to the same L1 block. *)
Theorem prepared_batch_blobs l1 spec inclusion id bs pd t i :
  prepare_taiko_chain_batch_input l1 spec inclusion id bs pd t = Ok i ->
  exists p cs anchor,
    batch_proposed i = Pacaya p /\ batch_id i = id /\
    Forall (fun b => batch_anchor_info spec b = Ok anchor) bs /\
    blob_commitments i = Some cs /\
    Forall2 (fun data c => calc_kzg_proof_commitment data = Ok c) (tx_data_from_blob i) cs /\
    commitment_to_version_hash <$> cs = blobHashes (info p) /\
    tx_data_from_calldata i = if bool_decide (blobHashes (info p) = []) then txList p else [].
Proof.
  intros (p & ds & [Hp Hid [anchor Ha] _ Hd Hc _ Hcd Hb])%prepare_batch_prepared.
  enough (exists cs, collect_option (fun b : BlobData => b.1.2) ds = Some cs /\
    Forall2 (fun data c => calc_kzg_proof_commitment data = Ok c) ((fun b : BlobData => b.1.1) <$> ds) cs /\
    commitment_to_version_hash <$> cs = blobHashes (info p)) as (cs & H1 & H2 & H3).
  { exists p, cs, anchor. rewrite Hc, Hd. by split_and!. }
  clear -Hb. induction Hb as [|h [[blob comm] proof] hs ds (c & -> & Hc & Hh & _) _ (cs & H1 & H2 & H3)].
  - exists []. by split_and!.
  - exists (c :: cs). split_and!.
    + change (collect_option (fun b : BlobData => b.1.2) ((blob, Some c, proof) :: ds)) with
        (y ← Some c; k ← collect_option (fun b : BlobData => b.1.2) ds; mret (y :: k)). by rewrite H1.
    + by constructor.
    + cbn. by rewrite H3, Hh.
Qed.

(** Points of the group are encoded in 48 bytes. *)
Context {PL : ProtocolLib Tx} {KLaws : KzgLaws}.
Hypothesis g1_length : forall g : G1, length (g1_to_bytes g) = 48%nat.

Lemma prepared_blob_verifies t' h blob c proof :
  blob_prepared ProofOfEquivalence h (blob, Some c, Some proof) ->
  length c = 48%nat /\ verify_blob t' blob (commitment_to_version_hash c) c (Some proof) = Ok ().
Proof.
  intros (c' & [= <-] & Hc & Hh & x & y & z & g & He & Hz & Hg & [= ->]).
  assert (length c = 48%nat) as Hl.
  { unfold calc_kzg_proof_commitment in Hc. destruct (blob_from_bytes blob); cbn in Hc; [|done].
    destruct (blob_to_kzg_commitment_rust _); cbn in Hc; try done. simplify_eq. apply g1_length. }
  split; [done|]. destruct t'; cbn.
  - rewrite Hc. cbn. by rewrite bool_decide_eq_true_2.
  - rewrite Hh, He. cbn. unfold to_group. rewrite g1_length. cbn.
    assert (z = get_evaluation_point blob h) as ->.
    { unfold proof_of_equivalence in He. destruct (blob_from_bytes blob); cbn in He; [|done].
      destruct (blob_to_polynomial _); cbn in He; [|done]. destruct (evaluate_polynomial _ _); cbn in He; try done.
      simplify_eq. rewrite fr_bytes_roundtrip in Hz. by simplify_eq. }
    pose proof (equivalence_completeness blob h c g x y Hc Hg He) as Hv. unfold kzg_proof_to_bytes in Hv.
    rewrite Hv. done.
Qed.

Lemma prepared_lists hs ds : Forall2 (blob_prepared ProofOfEquivalence) hs ds ->
  exists cs ps, collect_option (fun b : BlobData => b.1.2) ds = Some cs /\ collect_option (fun b : BlobData => b.2) ds = Some ps /\
    length cs = length ds /\ length ps = length ds /\
    forall t', verify_blobs t' (zip (zip ((fun b : BlobData => b.1.1) <$> ds) cs) ps) = Ok ().
Proof.
  induction 1 as [|h [[blob comm] proof] hs ds Hb _ (cs & ps & H1 & H2 & L1 & L2 & Hv)].
  - exists [], []. by split_and!.
  - pose proof Hb as (c & -> & _ & _ & x & y & z & g & _ & _ & _ & ->).
    exists (c :: cs), (g1_to_bytes g :: ps). split_and!; [| |cbn; lia|cbn; lia|].
    + change (collect_option (fun b : BlobData => b.1.2) ((blob, Some c, Some (g1_to_bytes g)) :: ds)) with
        (y ← Some c; k ← collect_option (fun b : BlobData => b.1.2) ds; mret (y :: k)). by rewrite H1.
    + change (collect_option (fun b : BlobData => b.2) ((blob, Some c, Some (g1_to_bytes g)) :: ds)) with
        (y ← Some (g1_to_bytes g); k ← collect_option (fun b : BlobData => b.2) ds; mret (y :: k)). by rewrite H2.
    + intros t'. cbn [zip_with fmap list_fmap fst snd verify_blobs].
      destruct (prepared_blob_verifies t' h blob c (g1_to_bytes g) Hb) as [Hl Hvb].
      unfold to_group at 1. rewrite Hl. cbn [Nat.eqb mbind outcome_bind]. rewrite Hvb. cbn. apply Hv.
Qed.

(** A batch prepared with proofs of equivalence passes the guest's check of
    its blobs, for every kind of prover. *)
Theorem prepared_batch_passes_guest_check l1 spec inclusion id bs pd i (inputs : list (GuestInput Tx)) pt :
  prepare_taiko_chain_batch_input l1 spec inclusion id bs pd ProofOfEquivalence = Ok i ->
  verify_batch_mode_blob_usage (mkGuestBatchInput inputs i) pt = Ok ().
Proof.
  intros (p & ds & [_ _ _ Ht Hd Hc Hp _ Hb])%prepare_batch_prepared.
  destruct (prepared_lists _ _ Hb) as (cs & ps & H1 & H2 & L1 & L2 & Hv).
  unfold verify_batch_mode_blob_usage. cbn [batch_taiko]. rewrite Hd, Hc, Hp, H1, H2. cbn [len_or_0 or_default].
  rewrite length_fmap, L1, L2, Nat.eqb_refl.
  destruct (get_blob_proof_type pt (batch_blob_proof_type i)); cbn [assert mbind outcome_bind]; apply Hv.
Qed.

(** A batch prepared for a request that asks for versioned hashes comes without
    proofs, and then the guest checks none of its blobs: an SGX prover accepts any
    other data in their place, with the commitments unchanged. *)
Theorem versioned_hash_batch_unchecked l1 spec inclusion id bs pd i (bi : GuestBatchInput Tx) blobs :
  prepare_taiko_chain_batch_input l1 spec inclusion id bs pd KzgVersionedHash = Ok i ->
  batch_taiko bi = i -> tx_data_from_blob i <> [] -> length blobs = length (tx_data_from_blob i) ->
  blob_proofs i = None /\
  verify_batch_mode_blob_usage (with_blobs bi blobs (blob_commitments i) (blob_proofs i)) Sgx = Ok ().
Proof.
  intros (p & ds & [_ _ _ Ht Hd Hc Hp _ Hb])%prepare_batch_prepared Hi Hne Hl.
  assert (blob_proofs i = None) as Hn.
  { rewrite Hp. rewrite Hd in Hne. destruct Hb as [|h [[blob comm] proof] hs ds (c & _ & _ & _ & ->) _]; [done|done]. }
  split; [done|]. assert (exists cs, blob_commitments i = Some cs /\ length cs = length ds) as (cs & Hcs & Hlc).
  { rewrite Hc. clear -Hb. induction Hb as [|h [[blob comm] proof] hs ds (c & -> & _) _ (cs & H1 & L1)]; [by exists []|].
    exists (c :: cs). split; [|cbn; lia].
    change (collect_option (fun b : BlobData => b.1.2) ((blob, Some c, proof) :: ds)) with
      (y ← Some c; k ← collect_option (fun b : BlobData => b.1.2) ds; mret (y :: k)). by rewrite H1. }
  unfold verify_batch_mode_blob_usage. cbn. rewrite Hcs, Hn. cbn.
  rewrite Hd, length_fmap in Hl. rewrite Hl, Hlc, Nat.eqb_refl. cbn. by destruct (zip blobs cs).
Qed.
End blobs.

(** ** The proposal of a batch *)
Section proposals.
Context {Tx : Type} `{EA : EvmAccounts} `{BL : BlockLib Tx} `{K : KzgLib} `{L : L1Lib Tx}.

(** A log that is read and is the proposal of another block or batch. *)
Definition other_proposal (fork id : Z) (log : Log) : Prop :=
  log_struct log = true /\ exists i e, decode_proposal fork log = Ok (i, e) /\ i <> id.

Definition log_answer (url : string) (fork id : Z) (log : Log) (r : Z * L1Tx * BlockProposedFork) : Prop :=
  let '(n, tx, e) := r in
  log_struct log = true /\ decode_proposal fork log = Ok (id, e) /\ log_tx url log = Ok tx /\ log_block_number log = Some n.

(** The event found for a block or a batch is the first of the queried logs with its
    number, when the logs before it can be decoded; its transaction is the one of
    the log. Nothing else is ever returned. *)
Theorem proposal_found url fork id logs r :
  find_proposal url fork id logs = Ok r <->
  exists before log after, logs = (before ++ log :: after)%list /\ Forall (other_proposal fork id) before /\
    log_answer url fork id log r.
Proof.
  induction logs as [|log logs IH]; cbn.
  - split; [done|]. intros ([|] & ? & ? & ? & _); done.
  - destruct (log_struct log) eqn:Es; cbn.
    2:{ split; [done|]. intros ([|x b] & y & a & [= <- ->] & Hb & Hy); [destruct r as [[]], Hy; congruence|].
        apply Forall_cons in Hb as [[] _]. congruence. }
    destruct (decode_proposal fork log) as [[i e]|er|] eqn:Ed; cbn.
    2,3: split; [done|]; intros ([|x b] & y & a & [= <- ->] & Hb & Hy);
         [destruct r as [[]]; destruct Hy as (_ & ? & _); congruence|];
         apply Forall_cons in Hb as [(_ & ? & ? & ? & _) _]; congruence.
    destruct (Z.eqb_spec i id) as [->|Hi].
    + split.
      * intros H. bind_inv. exists [], log, logs. split_and!; [done|constructor|].
        destruct (log_block_number log) eqn:En; cbn in *; simplify_eq. cbn. by rewrite Es, Ed, Eb.
      * intros ([|x b] & y & a & [= <- ->] & Hb & Hy).
        -- destruct r as [[n tx] e']. destruct Hy as (_ & He & Ht & Hn). rewrite Ht, Hn. cbn. congruence.
        -- apply Forall_cons in Hb as [(_ & ? & ? & ? & ?) _]. congruence.
    + rewrite IH. split.
      * intros (b & y & a & -> & Hb & Hy). exists (log :: b), y, a. split_and!; [done| |done]. constructor; [|done]. hnf. eauto.
      * intros ([|x b] & y & a & [= <- ->] & Hb & Hy).
        -- destruct r as [[n tx] e']. destruct Hy as (_ & He & _). congruence.
        -- apply Forall_cons in Hb as [_ Hb]. by exists b, y, a.
Qed.

(** The blocks of a Pacaya batch are as many consecutive numbers as the proposal has
    blocks, the last of them its last block; a proposal of no blocks has none. *)
Theorem batch_blocks_consecutive (b : BatchInfo) :
  0 <= lastBlockId b < u64_max -> Z.of_nat (length (blocks b)) <= lastBlockId b + 1 ->
  length (batch_block_numbers b) = length (blocks b) /\
  forall k n, batch_block_numbers b !! k = Some n <->
    (k < length (blocks b))%nat /\ n = lastBlockId b - Z.of_nat (length (blocks b)) + 1 + Z.of_nat k.
Proof.
  intros Hl Hn. unfold batch_block_numbers, inclusive_range.
  assert (wrap64 (lastBlockId b - wrap64 (Z.of_nat (length (blocks b)) - 1)) = lastBlockId b - Z.of_nat (length (blocks b)) + 1) as ->.
  { unfold wrap64, wrap in *. unfold u64_max in Hl. rewrite Zminus_mod_idemp_r.
    rewrite Z.mod_small; lia. }
  replace (lastBlockId b - (lastBlockId b - Z.of_nat (length (blocks b)) + 1) + 1) with (Z.of_nat (length (blocks b))) by lia.
  split; [rewrite length_seqZ; lia|]. intros k n. rewrite lookup_seqZ. lia.
Qed.
End proposals.

(** ** Examples

    Commitments over the integers with a known secret satisfy the laws: a
    polynomial is committed by its value at the secret, and an opening is the
    quotient of the differences. *)
Module L1Example.
Definition secret : Z := 3.
Fixpoint horner (p : list Z) (x : Z) : Z := match p with [] => 0 | a :: p => a + x * horner p x end.
Definition kzg_opening (p : list Z) (x : Z) : Z := (horner p secret - horner p x) / (secret - x).

Lemma horner_divides p x y : (x - y | horner p x - horner p y).
Proof.
  induction p as [|a p [k Hk]]; cbn; [exists 0; lia|].
  exists (horner p x + y * k). transitivity ((x - y) * horner p x + y * (horner p x - horner p y)); [|rewrite Hk]; ring.
Qed.

#[local] Instance example_kzg : KzgLib := {|
  Fr := Z; G1 := Z; G2 := Z; BlobFields := list Z; Poly := list Z;
  sha256 := fun b => take 32 b;
  blob_from_bytes := Some;
  blob_to_polynomial := Some;
  hash_to_bls_field := fun b => foldr Z.add 0 b;
  evaluate_polynomial := fun p x => Ok (horner p x);
  fr_to_bytes := fun x => [x];
  fr_from_bytes_le := head;
  compute_kzg_proof_rust := fun f x => Ok (kzg_opening f x, horner f x);
  blob_to_kzg_commitment_rust := fun f => Ok (horner f secret);
  g1_to_bytes := fun g => g :: replicate 47 0;
  g1_from_compressed := head;
  g1_generator := 1;
  g1_mul := Z.mul;
  g1_sub := Z.sub;
  g2_generator := 1;
  g2_mul := Z.mul;
  g2_sub := Z.sub;
  secret_g2_1 := secret;
  pairings_verify := fun a b c d => a * b =? c * d
|}.

#[local] Instance example_kzg_laws : KzgLaws.
Proof.
  split; cbn -[kzg_opening secret]; try done; try (intros f; by eexists).
  intros f p c proof x y y' [= ->] [= <-] [= <- _] [= <-]. apply Z.eqb_eq. unfold kzg_opening.
  rewrite !Z.mul_1_l, Z.mul_1_r. destruct (horner_divides p secret x) as [k Hk]. rewrite Hk.
  destruct (Z.eq_dec (secret - x) 0) as [Hz|Hz]; [rewrite Hz; lia|]. by rewrite Z.div_mul.
Qed.

#[local] Existing Instance model_accounts.
#[local] Existing Instance model_blocks.

Fixpoint text_bytes (s : string) : bytes :=
  match s with "" => [] | String c s => Z.of_nat (nat_of_ascii c) :: text_bytes s end.
Definition l1_block (n : Z) : RpcBlock := mkRpcBlock (Some n) (Some [n]) [n; 7] (1000 + 12 * n) (Some (model_header n)) None.

Definition blob : string := "abc".
Definition hash_of (s : string) : bytes :=
  match calc_kzg_proof_commitment (text_bytes s) with Ok c => commitment_to_version_hash c | _ => [] end.

Definition example_batch_info : BatchInfo :=
  mkBatchInfo [] [mkBlockParams 1 0 []; mkBlockParams 2 0 []] [hash_of "abc"; hash_of "xy"] [] [] 0 0 0 0 0 11 0 1 [1]
    (mkBaseFeeConfig 0 0 0 0 0).
Definition batch_event : BatchProposed := mkBatchProposed example_batch_info (mkBatchMetadata [] [] 3 0) [].

#[local] Instance example_l1 : L1Lib bytes := {|
  Log := BatchProposed;
  l1_provider _ := {|
    get_blocks _ l := Ok ((fun b => l1_block b.1) <$> l);
    get_accounts _ _ _ := Err (RPC "no accounts");
    get_storage_values _ _ _ := Err (RPC "no storage");
    get_merkle_proofs _ _ _ _ _ := Err (RPC "no proofs")
  |};
  parse_url _ := true;
  get_logs _ f := Ok [mkBatchProposed example_batch_info (mkBatchMetadata [] [] 2 0) []; batch_event];
  get_block_number _ := Ok 100;
  get_transaction_by_hash _ h := Ok (Some (mkL1Tx h None));
  log_struct _ := true;
  log_transaction_hash _ := Some [9];
  log_block_number _ := Some 50;
  decode_batch_proposed := Some;
  decode_block_proposed_v2 _ := None;
  decode_block_proposed _ := None;
  decode_calldata_txlist _ := None;
  decode_propose_call _ := None;
  anchor_pacaya _ := Ok (40, [40; 7]);
  anchor_ontake _ := Err "wrong fork";
  anchor_hekla _ := Err "wrong fork";
  hex_decode s := Some (text_bytes s);
  get_sidecars _ := Ok (mkResponse true "200" (Ok [mkGetBlobData "0" "xy" "" ""; mkGetBlobData "1" "abc" "" ""]));
  get_blobscan _ := Err "not found";
  b256_display _ := "";
  b256_debug _ := ""
|}.

Definition l2_spec : ChainSpec := mkChainSpec "taiko" 167000 3 [(3, Block 0)] Eip1559Constants_default (Some [1]) (Some [2])
  "l2" None ∅ 0 1 true.
Definition l1_spec : ChainSpec := mkChainSpec "eth" 1 3 [(3, Block 0)] Eip1559Constants_default None None
  "l1" (Some "beacon") ∅ 1000 12 false.
Definition l2_blocks : list (EthBlock bytes) :=
  [mkBlock (model_header 10) [[1]] []; mkBlock (model_header 11) [[2]] []].
Definition provers : TaikoProverData := mkTaikoProverData [] [].

Definition prepared (t : BlobProofType) : TaikoGuestBatchInput :=
  match prepare_taiko_chain_batch_input l1_spec l2_spec 50 3 l2_blocks provers t with
  | Ok i => i
  | _ => mkTaikoGuestBatchInput 0 (model_header 0) Nothing l1_spec provers [] [] None None t
  end.

Lemma prepared_ok t :
  prepare_taiko_chain_batch_input l1_spec l2_spec 50 3 l2_blocks provers t = Ok (prepared t).
Proof. destruct t; vm_compute; reflexivity. Qed.

Lemma prepared_batch_blobs_witness : exists p cs anchor,
  batch_proposed (prepared ProofOfEquivalence) = Pacaya p /\
  Forall (fun b => batch_anchor_info l2_spec b = Ok anchor) l2_blocks /\
  blob_commitments (prepared ProofOfEquivalence) = Some cs /\
  commitment_to_version_hash <$> cs = blobHashes (info p).
Proof.
  destruct (prepared_batch_blobs _ _ _ _ _ _ _ _ (prepared_ok ProofOfEquivalence)) as (p & cs & a & H1 & _ & H3 & H4 & _ & H6 & _).
  exists p, cs, a. by split_and!.
Defined.

Lemma prepared_batch_passes_guest_check_witness :
  length (tx_data_from_blob (prepared ProofOfEquivalence)) = 2%nat /\
  verify_batch_mode_blob_usage (mkGuestBatchInput (Tx := bytes) [] (prepared ProofOfEquivalence)) Sgx = Ok ().
Proof.
  split; [vm_compute; reflexivity|].
  exact (prepared_batch_passes_guest_check (fun g => eq_refl) _ _ _ _ _ _ _ [] Sgx (prepared_ok ProofOfEquivalence)).
Defined.

Lemma versioned_hash_batch_unchecked_witness :
  blob_proofs (prepared KzgVersionedHash) = None.
Proof.
  refine (proj1 (versioned_hash_batch_unchecked _ _ _ _ _ _ _ (mkGuestBatchInput (Tx := bytes) [] (prepared KzgVersionedHash)) [[]; []]
    (prepared_ok KzgVersionedHash) eq_refl _ _)); vm_compute; done.
Defined.

Lemma batch_blocks_consecutive_witness : batch_block_numbers example_batch_info !! 1%nat = Some 11.
Proof. apply (batch_blocks_consecutive example_batch_info); vm_compute; [done|done|]. split; [lia|done]. Defined.
End L1Example.
