(* ===== verification/Preflight.v ===== *)
(** * Preflight: the input of a block or a batch

    Models [core/src/preflight/mod.rs], [core/src/preflight/lru.rs], the block
    pairs of [core/src/preflight/util.rs] and the input generation of
    [core/src/lib.rs]. The states that executions leave are shared by all requests
    through a cache behind a lock; a task is a program whose only steps that others
    can see are the loads and saves of the cache, so that the tasks of a batch
    interleave at those steps. The executor, the node behind a URL and the
    conversions of the client libraries are given. *)
From stdpp Require Import base list list_numbers gmap fin_maps strings.
From Stdlib Require Import ZArith Lia.
From S2P Require Import Prelude Text Effect Nibbles Types Interfaces Lru ChainSpec Mpt MptHash RlpCodec MptProof Input Blob Eip4844 MemDb ProviderDb.
From S2P Require Import Rpc Builder Raiko L1Data.
Local Open Scope string_scope.
Local Open Scope Z_scope.

(** ** The cache of states *)
Abbreviation ChainBlockCacheKey := (Z * bytes)%type.
Abbreviation ChainBlockCacheEntry := (MemDb * gmap Z Header)%type.

(** A task: what it does between two accesses of the cache is not visible.
    [Diverge] is a task that has not ended within the given number of
    executions. *)
Inductive Task (A : Type) : Type :=
| Finish (r : RaikoResult A)
| Diverge
| Load (k : ChainBlockCacheKey) (f : option ChainBlockCacheEntry -> Task A)
| Save (k : ChainBlockCacheKey) (v : ChainBlockCacheEntry) (t : Task A).
Arguments Finish {A} _.
Arguments Diverge {A}.
Arguments Load {A} _ _.
Arguments Save {A} _ _ _.

Fixpoint task_bind {A B} (t : Task A) (g : A -> Task B) : Task B :=
  match t with
  | Finish (Ok a) => g a
  | Finish (Err e) => Finish (Err e)
  | Finish Panic => Finish Panic
  | Diverge => Diverge
  | Load k f => Load k (fun e => task_bind (f e) g)
  | Save k v t' => Save k v (task_bind t' g)
  end.
#[global] Instance Task_bind : MBind Task := fun A B g t => task_bind t g.

Definition HISTORY_STATE_DB_SIZE : nat := 256.

Section cache.
Context {C : Type} `{LruCache ChainBlockCacheKey ChainBlockCacheEntry C}.

Definition save_state_db (key : ChainBlockCacheKey) (value : ChainBlockCacheEntry) (cache : C) : C := lru_put key value cache.
Definition load_state_db (key : ChainBlockCacheKey) (cache : C) : C * option ChainBlockCacheEntry := lru_get key cache.

(** A task on its own. *)
Fixpoint run_task {A} (t : Task A) (cache : C) : option (C * RaikoResult A) :=
  match t with
  | Finish r => Some (cache, r)
  | Diverge => None
  | Load k f => let '(cache', e) := load_state_db k cache in run_task (f e) cache'
  | Save k v t' => run_task t' (save_state_db k v cache)
  end.

(** One access of one task, and the accesses of tasks in the order in which they
    get the lock; a number that is not of a task that can go on does nothing. *)
Definition task_step {A} (t : Task A) (cache : C) : C * Task A :=
  match t with
  | Load k f => let '(cache', e) := load_state_db k cache in (cache', f e)
  | Save k v t' => (save_state_db k v cache, t')
  | _ => (cache, t)
  end.

Fixpoint run_schedule {A} (schedule : list nat) (ts : list (Task A)) (cache : C) : C * list (Task A) :=
  match schedule with
  | [] => (cache, ts)
  | i :: rest =>
      match ts !! i with
      | Some t => let '(cache', t') := task_step t cache in run_schedule rest (<[i := t']> ts) cache'
      | None => run_schedule rest ts cache
      end
  end.
End cache.

(** ** Requests *)
Record PreflightData := mkPreflightData {
  pf_block_number : Z;
  pf_l1_chain_spec : ChainSpec;
  pf_l1_inclusion_block_number : Z;
  pf_taiko_chain_spec : ChainSpec;
  pf_prover_data : TaikoProverData;
  pf_blob_proof_type : BlobProofType
}.

Record BatchPreflightData := mkBatchPreflightData {
  bpf_batch_id : Z;
  bpf_block_numbers : list Z;
  bpf_l1_inclusion_block_number : Z;
  bpf_l1_chain_spec : ChainSpec;
  bpf_taiko_chain_spec : ChainSpec;
  bpf_prover_data : TaikoProverData;
  bpf_blob_proof_type : BlobProofType
}.

Definition PreflightData_new (block_number l1_inclusion_block_number : Z) (l1_chain_spec taiko_chain_spec : ChainSpec)
    (prover_data : TaikoProverData) (blob_proof_type : BlobProofType) : PreflightData :=
  mkPreflightData block_number l1_chain_spec l1_inclusion_block_number taiko_chain_spec prover_data blob_proof_type.

Definition get_preflight_data (self : Raiko) : PreflightData :=
  let r := request self in
  PreflightData_new (Interfaces.block_number r) (l1_inclusion_block_number r) (l1_chain_spec self) (taiko_chain_spec self)
    (mkTaikoProverData (Interfaces.prover r) (Interfaces.graffiti r)) (Interfaces.blob_proof_type r).

Definition get_batch_preflight_data (self : Raiko) : BatchPreflightData :=
  let r := request self in
  mkBatchPreflightData (Interfaces.batch_id r) (l2_block_numbers r) (l1_inclusion_block_number r) (l1_chain_spec self)
    (taiko_chain_spec self) (mkTaikoProverData (Interfaces.prover r) (Interfaces.graffiti r)) (Interfaces.blob_proof_type r).

(** ** Block data *)
Section preflight.
Context {Tx : Type} `{KK : Keccak} `{AR : AlloyRlp} `{RP : RlpParser} `{EA : EvmAccounts} `{BL : BlockLib Tx} `{K : KzgLib} `{L : L1Lib Tx}.

(** The conversions of the client library, with their errors. *)
Variable reth_block : RpcBlock -> outcome string (EthBlock Tx).
Variable header_error : RpcBlock -> string.

Definition reth_header (b : RpcBlock) : RaikoResult Header :=
  ok_or (rpc_header b) (Conversion ("Failed converting to reth header: " +:+ header_error b)).

(** The logged hash is unwrapped. *)
Definition get_block_and_parent_data {P : BlockDataProvider} (t : nat) (block_number : Z) : RaikoResult (EthBlock Tx * RpcBlock) :=
  blocks ← get_blocks t [(block_number, true); (wrap64 (block_number - 1), false)];
  block ← ok_or (blocks !! 0%nat) (Preflight "No block data for the requested block");
  parent_block ← ok_or (blocks !! 1%nat) (Preflight "No parent block data for the requested block");
  _ ← unwrap (rpc_hash block);
  block ← map_err (fun e => Conversion ("Failed converting to reth block: " +:+ e)) (reth_block block);
  Ok (block, parent_block).

(** [windows(2)]. *)
Fixpoint windows2 {A} (l : list A) : list (A * A) :=
  match l with
  | a :: ((b :: _) as rest) => (a, b) :: windows2 rest
  | _ => []
  end.

Definition batch_target_blocks (first : Z) (block_numbers : list Z) : list (Z * bool) :=
  (wrap64 (first - 1), false) :: ((fun n => (n, true)) <$> block_numbers).

Definition block_pair (w : RpcBlock * RpcBlock) : RaikoResult (EthBlock Tx * RpcBlock) :=
  prove_block ← unwrap_ok (reth_block w.2); Ok (prove_block, w.1).

Definition get_batch_blocks_and_parent_data {P : BlockDataProvider} (t : nat) (block_numbers : list Z) :
    RaikoResult (list (EthBlock Tx * RpcBlock)) :=
  first ← unwrap (block_numbers !! 0%nat);
  blocks ← get_blocks t (batch_target_blocks first block_numbers);
  _ ← assert (length blocks =? length block_numbers + 1)%nat;
  b ← unwrap (head blocks);
  _ ← unwrap (rpc_hash b);
  b ← unwrap (last blocks);
  _ ← unwrap (rpc_hash b);
  collect block_pair (windows2 blocks).

(** ** The data of one block *)
Variable zlib_compress_data : bytes -> outcome string bytes.
Variable zlib_decompress_data : bytes -> option bytes.
Variable rlp_encode_transactions : list Tx -> bytes.
Variable rlp_decode_transactions : bytes -> option (list Tx).
Variable Header_default : Header.

(** [impl TryFrom<Vec<TransactionSigned>> for TaikoGuestInput]. *)
Definition TaikoGuestInput_try_from (value : list Tx) : outcome string (TaikoGuestInput Tx) :=
  tx_data ← zlib_compress_data (rlp_encode_transactions value);
  Ok (mkTaikoGuestInput Header_default tx_data None Nothing (mkTaikoProverData Address_default B256_default) None None KzgVersionedHash).

(** The code of the accounts, without duplicates. *)
Definition contracts_of (m : MemDb) : list bytes :=
  elements (list_to_set (omap (fun a => code (db_info a.2)) (map_to_list (accounts m))) : gset bytes).

Variable empty_code_hash : bytes.
Variable executor : GuestInput Tx -> list Tx -> bool -> Exec (outcome string (gmap bytes Account)).
(** How many executions are waited for, and the depth to which tries are resolved. *)
Variables (fuel mpt_fuel : nat).

(** A provider that was asked [k] questions before. *)
Definition later (k : nat) (P : BlockDataProvider) : BlockDataProvider := {|
  get_blocks t := get_blocks (k + t);
  get_accounts t := get_accounts (k + t);
  get_storage_values t := get_storage_values (k + t);
  get_merkle_proofs t := get_merkle_proofs (k + t)
|}.

Definition with_state (input : GuestInput Tx) (trie : MptNode) (storage : gmap bytes StorageEntry)
    (contracts : list bytes) (ancestors : list Header) : GuestInput Tx :=
  mkGuestInput (block input) (chain_spec input) (parent_header input) trie storage contracts ancestors (taiko input).

(** The proofs, the tries, the ancestors and the contracts of a block that was
    executed. The text of the error of invalid proofs is not modelled. *)
Definition gather {P : BlockDataProvider} (input : GuestInput Tx) (db : ProviderDb) : RaikoResult (GuestInput Tx) :=
  let '(db1, proofs) := get_proofs db in
  '(parent_proofs, current_proofs, _) ← proofs;
  '(parent_state_trie, parent_storage) ←
    map_err (fun _ => Anyhow "invalid proofs")
      (proofs_to_tries mpt_fuel (state_root (parent_header input)) (map_to_list parent_proofs) current_proofs);
  let '(db2, ancestors) := get_ancestor_headers db1 in
  ancestor_headers ← ancestors;
  Ok (with_state input parent_state_trie parent_storage (contracts_of (initial_db db2)) ancestor_headers).

(** Execute the transactions of the block, leave the committed state to the next
    block under [key], and gather the rest of the input. *)
Definition execute_and_gather {P : BlockDataProvider} (input : GuestInput Tx) (pool_txs : RaikoResult (list Tx)) (parent_block_number : Z)
    (initial : option ChainBlockCacheEntry) (key : ChainBlockCacheKey) (header_number : Z) : Task (GuestInput Tx) :=
  let '(provider_db, made) := ProviderDb_new (chain_spec input) parent_block_number initial in
  _ ← Finish made;
  pool_txs ← Finish pool_txs;
  match execute_txs empty_code_hash (executor input pool_txs) fuel provider_db with
  | None => Diverge
  | Some (db, done) =>
      _ ← Finish done;
      Save key (current_db db, <[header_number := block_header (block input)]> (initial_headers db))
        (Finish (gather input db))
  end.

Definition taiko_input {P : BlockDataProvider} (d : PreflightData) (blk : EthBlock Tx) : RaikoResult (TaikoGuestInput Tx) :=
  if is_taiko (pf_taiko_chain_spec d) then
    prepare_taiko_chain_input (pf_l1_chain_spec d) (pf_taiko_chain_spec d) (pf_block_number d)
      (if pf_l1_inclusion_block_number d =? 0 then None else Some (pf_l1_inclusion_block_number d)) blk
      (pf_prover_data d) (pf_blob_proof_type d)
  else map_err Conversion (TaikoGuestInput_try_from (body blk)).

Definition preflight (P : BlockDataProvider) (d : PreflightData) : Task (GuestInput Tx) :=
  '(blk, parent_block) ← Finish (get_block_and_parent_data 0 (pf_block_number d));
  taiko_guest_input ← Finish (taiko_input d blk);
  parent_header ← Finish (reth_header parent_block);
  let parent_block_number := number parent_header in
  let input := mkGuestInput blk (pf_taiko_chain_spec d) parent_header Mpt.default ∅ [] [] taiko_guest_input in
  parent_hash ← Finish (unwrap (rpc_hash parent_block));
  Load (parent_block_number, parent_hash) (fun initial_db_with_headers =>
    let pool_tx := unwrap_ok (generate_transactions zlib_decompress_data rlp_decode_transactions (chain_spec input)
                     (block_proposed (taiko input)) (tx_data (taiko input)) (anchor_tx (taiko input)) : outcome string _) in
    execute_and_gather (P := later 1 P) input pool_tx parent_block_number initial_db_with_headers
      (wrap64 (parent_block_number + 1), header_hash (block_header blk)) (pf_block_number d)).

(** ** The data of a batch *)

(** The client of the node behind a URL, and the text of the error of a task
    that panicked. *)
Variable client : string -> RpcClient.
Variable join_error : nat -> string.

Definition block_task (spec : ChainSpec) (batch_input : TaikoGuestBatchInput) (task : (EthBlock Tx * RpcBlock) * list Tx) :
    Task (GuestInput Tx) :=
  let '((prove_block, parent_block), pure_pool_txs) := task in
  parent_header ← Finish (reth_header parent_block);
  let parent_block_number := number parent_header in
  parent_hash ← Finish (unwrap (rpc_hash parent_block));
  Load (parent_block_number, parent_hash) (fun initial_db =>
    anchor_tx ← Finish (unwrap (head (body prove_block)));
    let taiko_input := mkTaikoGuestInput (batch_l1_header batch_input) [] (Some anchor_tx) (batch_proposed batch_input)
                         (batch_prover_data batch_input) None None (batch_blob_proof_type batch_input) in
    let input := mkGuestInput prove_block spec parent_header Mpt.default ∅ [] [] taiko_input in
    let provider_target_blocks := [parent_block_number; wrap64 (parent_block_number + 1)] in
    targets ← Finish (unwrap_ok (rpc_new_batch parse_url (rpc spec) provider_target_blocks));
    execute_and_gather (P := rpc_provider (C := client (rpc spec)) targets) input (Ok (anchor_tx :: pure_pool_txs))
      parent_block_number initial_db
      (number (block_header prove_block), header_hash (block_header prove_block)) (number (block_header prove_block))).

(** The blocks of a chunk, one after the other. *)
Fixpoint chunk_task (spec : ChainSpec) (batch_input : TaikoGuestBatchInput)
    (tasks : list ((EthBlock Tx * RpcBlock) * list Tx)) : Task (list (GuestInput Tx)) :=
  match tasks with
  | [] => Finish (Ok [])
  | task :: rest =>
      input ← block_task spec batch_input task;
      inputs ← chunk_task spec batch_input rest;
      Finish (Ok (input :: inputs))
  end.

(** [env::var(..).unwrap_or("10").parse().unwrap_or(10)]. *)
Definition prefetch_chunk_size (PREFETCH_CHUNK_SIZE : option string) : nat :=
  Z.to_nat (from_option id 10 (parse_u64 (from_option id "10" PREFETCH_CHUNK_SIZE))).

(** The tasks that are spawned. *)
Definition batch_start (P : BlockDataProvider) (PREFETCH_CHUNK_SIZE : option string) (d : BatchPreflightData) :
    RaikoResult (TaikoGuestBatchInput * list (Task (list (GuestInput Tx)))) :=
  block_parent_pairs ← get_batch_blocks_and_parent_data 0 (bpf_block_numbers d);
  let all_prove_blocks := block_parent_pairs.*1 in
  taiko_guest_batch_input ←
    (if is_taiko (bpf_taiko_chain_spec d) then
       prepare_taiko_chain_batch_input (bpf_l1_chain_spec d) (bpf_taiko_chain_spec d) (bpf_l1_inclusion_block_number d)
         (bpf_batch_id d) all_prove_blocks (bpf_prover_data d) (bpf_blob_proof_type d)
     else Err (Preflight "Batch preflight is only used for Taiko chains"));
  pool_txs_list ← unwrap_ok (generate_transactions_for_batch_blocks zlib_decompress_data rlp_decode_transactions
                               taiko_guest_batch_input : outcome string _);
  _ ← assert (length block_parent_pairs =? length pool_txs_list)%nat;
  let chunk_size := prefetch_chunk_size PREFETCH_CHUNK_SIZE in
  _ ← assert (negb (chunk_size =? 0)%nat);
  Ok (taiko_guest_batch_input,
      chunk_task (bpf_taiko_chain_spec d) taiko_guest_batch_input <$> chunks chunk_size (zip block_parent_pairs pool_txs_list)).

(** What waiting for a task returns, once it has ended. *)
Definition join_result (j : nat) (t : Task (list (GuestInput Tx))) : option (RaikoResult (list (GuestInput Tx))) :=
  match t with
  | Finish (Ok batch) => Some (Ok batch)
  | Finish (Err e) => Some (Err e)
  | Finish Panic => Some (Err (Preflight (join_error j)))
  | _ => None
  end.

(** [join_all(handles).await], and the first error in the order of the tasks. *)
Definition batch_join (batch_input : TaikoGuestBatchInput) (ts : list (Task (list (GuestInput Tx)))) :
    option (RaikoResult (GuestBatchInput Tx)) :=
  results ← mapM (fun jt => join_result jt.1 jt.2) (imap pair ts);
  Some (batches ← collect (fun r : RaikoResult (list (GuestInput Tx)) => r) results;
        Ok (mkGuestBatchInput (concat batches) batch_input)).

(** The batch with its tasks scheduled in the given order; [None] when a task
    has not ended after it. *)
Definition batch_preflight `{LruCache ChainBlockCacheKey ChainBlockCacheEntry C} (P : BlockDataProvider)
    (PREFETCH_CHUNK_SIZE : option string) (d : BatchPreflightData) (schedule : list nat) (cache : C) :
    C * option (RaikoResult (GuestBatchInput Tx)) :=
  match batch_start P PREFETCH_CHUNK_SIZE d with
  | Ok (batch_input, ts) =>
      let '(cache', ts') := run_schedule schedule ts cache in (cache', batch_join batch_input ts')
  | Err e => (cache, Some (Err e))
  | Panic => (cache, Some Panic)
  end.

Definition generate_input (P : BlockDataProvider) (self : Raiko) : Task (GuestInput Tx) := preflight P (get_preflight_data self).

Definition generate_batch_input `{LruCache ChainBlockCacheKey ChainBlockCacheEntry C} (P : BlockDataProvider)
    (PREFETCH_CHUNK_SIZE : option string) (self : Raiko) : list nat -> C -> C * option (RaikoResult (GuestBatchInput Tx)) :=
  batch_preflight P PREFETCH_CHUNK_SIZE (get_batch_preflight_data self).
End preflight.

(** ** The blockchain

    The state after each block, with the blocks themselves. *)
Record Blockchain := mkBlockchain {
  bc_account : Z -> bytes -> AccountInfo;
  bc_slot : Z -> bytes -> Z -> Z;
  bc_hash : Z -> bytes;
  bc_header : Z -> Header;
  bc_transactions : Z -> list bytes
}.

Definition state_at (b : Blockchain) (n : Z) : Chain :=
  mkChain (bc_account b n) (bc_slot b n) (bc_hash b) (bc_header b) (bc_transactions b).

Class BlockchainLaws {Tx} `{BlockLib Tx} (b : Blockchain) : Prop := {
  bc_number n : number (bc_header b n) = n;
  bc_hashed n : header_hash (bc_header b n) = bc_hash b n;
  bc_root n : state_root (bc_header b n) <> ZERO
}.

(** The changes [ch] lead from the state after block [n] to the next one. *)
Record leads `{EvmAccounts} (b : Blockchain) (n : Z) (ch : gmap bytes Account) : Prop := {
  leads_info a new : ch !! a = Some new -> is_touched new = true -> is_selfdestructed new = false ->
    info_is_empty (new_info new) = false -> bc_account b (n + 1) a = new_info new;
  leads_slot a new i v : ch !! a = Some new -> is_touched new = true -> is_selfdestructed new = false ->
    changed_values (new_storage new) !! i = Some v -> bc_slot b (n + 1) a i = v;
  leads_created a new i : ch !! a = Some new -> is_touched new = true -> is_selfdestructed new = false ->
    is_created new = true -> changed_values (new_storage new) !! i = None -> bc_slot b (n + 1) a i = 0
}.

(** The state that an execution commits is true of the next block: an account
    that the block deletes leaves no entry. *)
Lemma committed_faithful `{EvmAccounts} b n ch : leads b n ch -> Faithful (state_at b (n + 1)) (commit MemDb_default ch).
Proof.
  intros [Hi Hs Hc]. split; [|intros k h; cbn; by rewrite lookup_empty].
  intros a e. rewrite commit_lookup. cbn [accounts MemDb_default]. rewrite lookup_empty.
  destruct (ch !! a) as [new|] eqn:Ea; [|done]. unfold commit_entry.
  destruct (is_touched new) eqn:Et; [|done]. destruct (is_selfdestructed new) eqn:Es; [done|]. cbn.
  destruct (info_is_empty _) eqn:Ee; [done|]. intros; simplify_eq. unfold update_account, extend. cbn -[union].
  rewrite decide_False by done. destruct (is_created new) eqn:Ec; split; cbn -[union]; try done; try (symmetry; by eapply Hi).
  - intros i v. rewrite (right_id_L ∅ (∪)). intros. symmetry. by eapply Hs.
  - intros _ i. rewrite (right_id_L ∅ (∪)). intros. by eapply Hc.
  - intros i v. rewrite (right_id_L ∅ (∪)). intros. symmetry. by eapply Hs.
Qed.

(** ** Tasks that keep the cache true *)
Definition cached_true (b : Blockchain) (k : ChainBlockCacheKey) (e : option ChainBlockCacheEntry) : Prop :=
  k.2 = bc_hash b k.1 -> initial_true (state_at b k.1) e.

Fixpoint sound {A} (b : Blockchain) (Q : A -> Prop) (t : Task A) : Prop :=
  match t with
  | Finish (Ok a) => Q a
  | Finish _ => True
  | Diverge => True
  | Load k f => forall e, cached_true b k e -> sound b Q (f e)
  | Save k v t' => cached_true b k (Some v) /\ sound b Q t'
  end.

Lemma sound_bind {A B} b (R : A -> Prop) (Q : B -> Prop) (t : Task A) (g : A -> Task B) :
  sound b R t -> (forall a, R a -> sound b Q (g a)) -> sound b Q (t ≫= g).
Proof.
  unfold mbind, Task_bind. intros Ht Hg. induction t as [[a|e|]| |k f IH|k v t IH]; cbn in *; auto.
  naive_solver.
Qed.

Lemma sound_finish {A B} b (Q : B -> Prop) (r : RaikoResult A) (g : A -> Task B) :
  (forall a, r = Ok a -> sound b Q (g a)) -> sound b Q (Finish r ≫= g).
Proof. destruct r; cbn; auto. Qed.

Section runs.
Context {C : Type} `{LC : LruCache ChainBlockCacheKey ChainBlockCacheEntry C} {LL : LruLaws ChainBlockCacheKey ChainBlockCacheEntry C} (b : Blockchain).

Definition cache_true (cache : C) : Prop := forall k, cached_true b k (lru_view cache !! k).

Lemma load_true k cache : cache_true cache ->
  cache_true (load_state_db k cache).1 /\ cached_true b k (load_state_db k cache).2.
Proof.
  unfold load_state_db, cache_true. intros Hc. split.
  - intros k'. rewrite lru_get_view. apply Hc.
  - rewrite lru_get_value. apply Hc.
Qed.

Lemma save_true k v cache : (0 < lru_cap cache)%nat -> cache_true cache -> cached_true b k (Some v) ->
  cache_true (save_state_db k v cache).
Proof.
  unfold save_state_db. intros Hcap Hc Hv k'. destruct (decide (k' = k)) as [->|Hne]; [by rewrite lru_put_same|].
  destruct (lru_put_other k v cache k' Hne) as [->| ->]; [apply Hc|]. intros _ m h. done.
Qed.

(** Only true entries are ever in the cache. *)
Record cache_ok (cache : C) : Prop := { ok_cap : (0 < lru_cap cache)%nat; ok_true : cache_true cache }.

Lemma step_ok {A} (Q : A -> Prop) t cache : cache_ok cache -> sound b Q t ->
  cache_ok (task_step t cache).1 /\ sound b Q (task_step t cache).2.
Proof.
  intros [Hcap Hc] Ht. destruct t as [r| |k f|k v t]; cbn in *; try done.
  - destruct (load_true k cache Hc) as [Hc' He]. destruct (load_state_db k cache) as [cache' e] eqn:El. cbn in *.
    split; [split; [|done]|by apply Ht]. unfold load_state_db in El. by rewrite <- (lru_get_cap k), El in Hcap.
  - destruct Ht as [Hv Ht]. split; [|done]. split; [by unfold save_state_db; rewrite lru_put_cap|by apply save_true].
Qed.

Lemma run_task_ok {A} (Q : A -> Prop) t cache cache' r : cache_ok cache -> sound b Q t ->
  run_task t cache = Some (cache', r) -> cache_ok cache' /\ match r with Ok a => Q a | _ => True end.
Proof.
  revert cache. induction t as [r0| |k f IH|k v t IH]; intros cache Hc Ht; cbn; intros Hr; simplify_eq.
  - split; [done|]. by destruct r.
  - destruct (step_ok Q (Load k f) cache Hc Ht) as [Hc' Ht']. cbn in *.
    destruct (load_state_db k cache) as [c' e]. by eapply IH.
  - destruct (step_ok Q (Save k v t) cache Hc Ht) as [Hc' Ht']. by eapply IH.
Qed.

Lemma run_schedule_ok {A} (Qs : list (A -> Prop)) schedule ts cache :
  cache_ok cache -> Forall2 (fun Q t => sound b Q t) Qs ts ->
  cache_ok (run_schedule schedule ts cache).1 /\ Forall2 (fun Q t => sound b Q t) Qs (run_schedule schedule ts cache).2.
Proof.
  revert ts cache. induction schedule as [|i s IH]; intros ts cache Hc Hts; cbn; [done|].
  destruct (ts !! i) as [t|] eqn:Et; [|by apply IH].
  destruct (Forall2_lookup_r _ _ _ _ _ Hts Et) as (Q & HQ & Ht).
  destruct (step_ok Q t cache Hc Ht) as [Hc' Ht']. destruct (task_step t cache) as [cache' t']. apply IH; [done|].
  rewrite <- (list_insert_id Qs i Q HQ). by apply Forall2_insert.
Qed.
End runs.

(** ** What preflight produces *)
Section produces.
Context {Tx : Type} `{KK : Keccak} `{AR : AlloyRlp} `{RP : RlpParser} `{EA : EvmAccounts} `{BL : BlockLib Tx} `{K : KzgLib} `{L : L1Lib Tx}.
Variable reth_block : RpcBlock -> outcome string (EthBlock Tx).
Variable header_error : RpcBlock -> string.
Variable zlib_decompress_data : bytes -> option bytes.
Variable rlp_decode_transactions : bytes -> option (list Tx).
Variable empty_code_hash : bytes.
Variable executor : GuestInput Tx -> list Tx -> bool -> Exec (outcome string (gmap bytes Account)).
Variables (fuel mpt_fuel : nat).
Variable client : string -> RpcClient.
Variable join_error : nat -> string.
Context (b : Blockchain) {BCL : BlockchainLaws b}.

(** A converted block has the header of the block. *)
Hypothesis reth_block_header : forall blk r, reth_block blk = Ok r -> rpc_header blk = Some (block_header r).
Hypothesis executor_strict : forall i txs, strict (executor i txs false).
Hypothesis executor_hashes : forall i txs o, u64_hashes (executor i txs o).
(** An execution of a block of the chain that succeeds on the state before it
    makes the state after it. *)
Hypothesis executions_lead : forall n i txs o ch,
  block_header (block i) = bc_header b (n + 1) -> parent_header i = bc_header b n ->
  run (executor i txs o) (state_at b n) = (state_at b n, Ok (Ok ch)) -> leads b n ch.

#[local] Abbreviation gather := (gather mpt_fuel).
#[local] Abbreviation execute_and_gather := (execute_and_gather empty_code_hash executor fuel mpt_fuel).
#[local] Abbreviation get_block_and_parent_data := (get_block_and_parent_data reth_block).
#[local] Abbreviation block_task := (block_task header_error empty_code_hash executor fuel mpt_fuel client).
#[local] Abbreviation chunk_task := (chunk_task header_error empty_code_hash executor fuel mpt_fuel client).
#[local] Abbreviation get_batch_blocks_and_parent_data := (get_batch_blocks_and_parent_data reth_block).
#[local] Abbreviation batch_preflight := (batch_preflight reth_block header_error zlib_decompress_data
  rlp_decode_transactions empty_code_hash executor fuel mpt_fuel client join_error).

(** The input of the block after [n]. *)
Record input_true (n : Z) (input : GuestInput Tx) : Prop := {
  it_block : block_header (block input) = bc_header b (n + 1);
  it_parent : parent_header input = bc_header b n;
  it_root : hash (parent_state_trie input) = state_root (bc_header b n);
  it_ancestors : ancestor_headers input = bc_header b <$> reverse (seqZ (Z.max 0 (n - 255)) (n - Z.max 0 (n - 255)));
  it_data : exists txs o ch m,
    run (executor (with_state input Mpt.default ∅ [] []) txs o) (state_at b n) = (state_at b n, Ok (Ok ch)) /\
    Faithful (state_at b n) m /\
    run (executor (with_state input Mpt.default ∅ [] []) txs o) m = (m, Ok (Ok ch)) /\
    contracts input = contracts_of m
}.

(** The fetched data keeps the initial database. *)
Lemma ancestor_header_initial {P : BlockDataProvider} n db db' r :
  ancestor_header n db = (db', r) -> initial_db db' = initial_db db.
Proof.
  unfold ancestor_header. destruct (initial_headers db !! n); [intros; by simplify_eq|].
  unfold mbind, st_bind, ask, lift, modify, mret, st_ret. cbn.
  destruct (get_blocks _ _) as [l| |]; cbn; try (intros; by simplify_eq).
  destruct (head l) as [x|]; cbn; try (intros; by simplify_eq).
  destruct (rpc_header x); cbn; intros; by simplify_eq.
Qed.

Lemma collect_headers_initial {P : BlockDataProvider} l db db' r :
  collect_st ancestor_header l db = (db', r) -> initial_db db' = initial_db db.
Proof.
  revert db db' r; induction l as [|n l IH]; intros db db' r H; unfold mret, st_ret in *; cbn -[ancestor_header] in H; [by injection H as <- <-|].
  unfold mbind, st_bind in H. destruct (ancestor_header n db) as [db1 [h| |]] eqn:E1;
    apply ancestor_header_initial in E1; try (simplify_eq; done).
  destruct (collect_st ancestor_header l db1) as [db2 [hs| |]] eqn:E2; apply IH in E2; unfold mret, st_ret in *; simplify_eq; congruence.
Qed.

Lemma get_proofs_keeps {P : BlockDataProvider} n db db' r : Inv (state_at b n) n db -> get_proofs db = (db', r) ->
  Inv (state_at b n) n db' /\ initial_db db' = initial_db db.
Proof.
  intros HI. unfold get_proofs, mbind, st_bind, ask, mret, st_ret. cbn.
  repeat match goal with |- context [get_merkle_proofs ?t ?n ?k ?x ?y] => destruct (get_merkle_proofs t n k x y); cbn end;
    intros; simplify_eq; (split; [by destruct HI|done]).
Qed.

Lemma gather_true {P : BlockDataProvider} n `{!Honest P (state_at b n) n} (input : GuestInput Tx) db input' :
  Inv (state_at b n) n db -> parent_header input = bc_header b n -> gather input db = Ok input' ->
  exists trie storage,
    input' = with_state input trie storage (contracts_of (initial_db db))
      (bc_header b <$> reverse (seqZ (Z.max 0 (n - 255)) (n - Z.max 0 (n - 255)))) /\
    hash trie = state_root (bc_header b n).
Proof.
  intros HI Hp. unfold Preflight.gather. destruct (get_proofs db) as [db1 [[[pp cp] k]| |]] eqn:Ep; cbn; try done.
  apply (get_proofs_keeps n) in Ep as [HI1 Hi1]; [|done].
  destruct (proofs_to_tries _ _ _ _) as [[trie storage]| |] eqn:Et; cbn; try done.
  destruct (get_ancestor_headers _) as [db2 [hs| |]] eqn:Ea; cbn; try done. intros; simplify_eq.
  unfold get_ancestor_headers, saturating_sub in Ea. cbv zeta in Ea. rewrite (inv_number _ _ _ HI1) in Ea.
  pose proof (collect_headers_initial _ _ _ _ Ea) as Hi2. rewrite Hi2, Hi1.
  apply (collect_headers_true (state_at b n) n) in Ea as [_ ->]; [|done].
  exists trie, storage. split; [done|]. apply proofs_to_tries_root in Et as [->|[_ Hz]]; [by rewrite Hp|].
  rewrite Hp in Hz. by apply bc_root in Hz.
Qed.

Lemma execute_and_gather_sound {P : BlockDataProvider} n `{!Honest P (state_at b n) n} blk spec taiko pool initial key hn :
  block_header blk = bc_header b (n + 1) -> initial_true (state_at b n) initial ->
  key = (n + 1, bc_hash b (n + 1)) -> hn = n + 1 ->
  sound b (input_true n)
    (execute_and_gather (mkGuestInput blk spec (bc_header b n) Mpt.default ∅ [] [] taiko) pool n initial key hn).
Proof.
  intros Hb Hi -> ->. set (input := mkGuestInput _ _ _ _ _ _ _ _). unfold Preflight.execute_and_gather.
  destruct (ProviderDb_new _ n initial) as [db0 made] eqn:En. apply sound_finish. intros u ->.
  apply sound_finish. intros txs ->.
  destruct (ProviderDb_new_inv _ n _ _ _ _ Hi En) as (HI0 & Hcl & _).
  destruct (execute_txs _ _ _ _) as [[db r]|] eqn:Ee; [|done]. apply sound_finish. intros v ->.
  destruct (execute_txs_collected (state_at b n) n empty_code_hash (executor input txs) (executor_strict _ _)
    (executor_hashes _ _) _ _ _ _ _ HI0 (fun _ => Hcl) Ee) as [HI (o & ch & Hrun & Hcur & Hm)].
  pose proof (executions_lead n input txs o ch Hb eq_refl Hrun) as Hl. cbn [sound]. split.
  - intros _ m h [= <- <-]. cbn [fst]. split; [rewrite Hcur; by apply committed_faithful|].
    intros k x. rewrite lookup_insert. case_decide; [intros; simplify_eq; done|]. apply (inv_headers _ _ _ HI).
  - destruct (gather input db) as [input'| |] eqn:Eg; cbn; try done.
    destruct (gather_true n input db input' HI eq_refl Eg) as (trie & storage & -> & Hh). split; try done.
    exists txs, o, ch, (initial_db db). split_and!; [done|apply HI| |done]. apply Hm; [apply HI|done].
Qed.

#[local] Instance later_honest k P c n : Honest P c n -> Honest (later k P) c n.
Proof. intros []. split; cbn; intros; eauto. Qed.

Lemma block_and_parent_true {P : BlockDataProvider} n `{!Honest P (state_at b n) n} t N blk parent :
  n = N - 1 -> 1 <= N < 2 ^ 64 -> get_block_and_parent_data t N = Ok (blk, parent) ->
  block_header blk = bc_header b N /\ parent = true_block (state_at b n) (n, false).
Proof.
  intros -> HN. unfold Preflight.get_block_and_parent_data. unfold wrap64. rewrite wrap_small by lia.
  destruct (get_blocks _ _) as [l| |] eqn:El; cbn; try done. apply honest_blocks in El as ->. cbn.
  destruct (reth_block _) as [x| |] eqn:Ex; cbn; try done. intros; simplify_eq.
  apply reth_block_header in Ex. cbn in Ex. by simplify_eq.
Qed.

(** A block of a batch with its parent. *)
Definition task_true (n : Z) (task : (EthBlock Tx * RpcBlock) * list Tx) : Prop :=
  block_header task.1.1 = bc_header b (n + 1) /\ exists full, task.1.2 = true_block (state_at b n) (n, full).

Lemma block_task_sound n spec bi task `{!Truthful (client (rpc spec)) (state_at b n) n} :
  task_true n task -> sound b (input_true n) (block_task spec bi task).
Proof.
  destruct task as [[blk parent] txs]. intros [Hb [full Hp]]. cbn in Hb, Hp. subst parent. unfold Preflight.block_task.
  apply sound_finish. intros ph Hph. cbn in Hph. simplify_eq.
  apply sound_finish. intros h Hh. cbn in Hh. simplify_eq. rewrite bc_number. cbn [sound]. intros e He.
  apply sound_finish. intros a _. apply sound_finish. intros targets Ht.
  unfold rpc_new_batch in Ht. rewrite bool_decide_eq_true_2 in Ht by (cbn; lia).
  destruct (parse_url _); cbn in Ht; simplify_eq.
  rewrite Hb, bc_number, bc_hashed.
  pose proof (rpc_honest (C := client (rpc spec)) (state_at b n) n [n; wrap64 (n + 1)] ltac:(set_solver)).
  by apply (execute_and_gather_sound (P := rpc_provider (C := client (rpc spec)) [n; wrap64 (n + 1)]) n); [|apply He| |].
Qed.

Lemma chunk_task_sound spec bi ns tasks :
  (forall n, Truthful (client (rpc spec)) (state_at b n) n) -> Forall2 (fun n => task_true (n - 1)) ns tasks ->
  sound b (fun inputs => Forall2 (fun n => input_true (n - 1)) ns inputs) (chunk_task spec bi tasks).
Proof.
  intros Ht. induction 1 as [|n task ns tasks H _ IH]; cbn [Preflight.chunk_task]; [by constructor|].
  eapply sound_bind; [by apply block_task_sound|]. intros i Hi.
  eapply sound_bind; [exact IH|]. intros l Hl. by constructor.
Qed.

Lemma collect_windows (f : RpcBlock * RpcBlock -> RaikoResult (EthBlock Tx * RpcBlock)) x l :
  collect f (windows2 (x :: l)) =
  match l with [] => Ok [] | y :: _ => r ← f (x, y); rs ← collect f (windows2 l); Ok (r :: rs) end.
Proof. destruct l as [|y l]; [done|]. cbn [windows2 collect]. by destruct (f (x, y)). Qed.

Lemma pairs_true n full j pairs :
  collect (block_pair reth_block) (windows2 (true_block (state_at b n) (n, full) ::
    (true_block (state_at b n) <$> ((fun m => (m, true)) <$> seqZ (n + 1) (Z.of_nat j))))) = Ok pairs ->
  Forall2 (fun m (p : EthBlock Tx * RpcBlock) => forall txs, task_true (m - 1) (p, txs)) (seqZ (n + 1) (Z.of_nat j)) pairs.
Proof.
  revert n full pairs. induction j as [|j IH]; intros n full pairs H; rewrite collect_windows in H.
  { rewrite seqZ_nil in * by lia. cbn in H. simplify_eq. constructor. }
  rewrite Nat2Z.inj_succ, seqZ_cons, Z.pred_succ in H |- * by lia. rewrite !fmap_cons in H. cbn beta iota in H. bind_inv.
  constructor; [|by eapply IH].
  unfold block_pair in Eb. cbn [fst snd] in Eb. destruct (reth_block _) as [blk| |] eqn:Er; cbn in Eb; simplify_eq.
  apply reth_block_header in Er. cbn in Er. simplify_eq. intros txs. replace (n + 1 - 1) with n by lia.
  split; [done|by eexists].
Qed.

Lemma batch_pairs_true {P : BlockDataProvider} first t k pairs `{!Honest P (state_at b (first - 1)) (first - 1)} :
  1 <= first < 2 ^ 64 -> get_batch_blocks_and_parent_data t (seqZ first k) = Ok pairs ->
  Forall2 (fun n (p : EthBlock Tx * RpcBlock) => forall txs, task_true (n - 1) (p, txs)) (seqZ first k) pairs.
Proof.
  intros Hf. unfold Preflight.get_batch_blocks_and_parent_data. intros H. bind_inv.
  destruct (seqZ first k !! 0%nat) as [f|] eqn:E0; cbn in *; simplify_eq. apply lookup_seqZ in E0 as [-> Hk].
  apply honest_blocks in Eb0 as ->. rewrite Z.add_0_r in *. unfold batch_target_blocks, wrap64 in H.
  rewrite wrap_small in H by lia. rewrite fmap_cons in H.
  replace k with (Z.of_nat (Z.to_nat k)) in * by lia. replace (seqZ first) with (seqZ (first - 1 + 1)) in * by (f_equal; lia).
  by eapply pairs_true.
Qed.

(** A batch that is joined has all its tasks finished. *)
Lemma joined (ts : list (Task (list (GuestInput Tx)))) j results l :
  mapM (fun jt => join_result join_error jt.1 jt.2) (imap (fun i => pair (i + j)%nat) ts) = Some results ->
  collect (fun r => r) results = Ok l -> ts = (fun l => Finish (Ok l)) <$> l.
Proof.
  revert j results l. induction ts as [|t ts IH]; intros j results l Em Ec; cbn in Em.
  - injection Em as <-. cbn in Ec. by injection Ec as <-.
  - destruct (join_result _ _ _) as [x|] eqn:Ej; cbn in Em; [|done].
    destruct (mapM _ _) as [xs|] eqn:Ex; cbn in Em; [|done]. injection Em as <-. cbn in Ec.
    destruct x as [a|?|]; try done. destruct (collect (fun r => r) xs) eqn:Ecs; try done. injection Ec as <-. cbn.
    destruct t as [[a'|?|]| | |]; cbn in Ej; simplify_eq. f_equal. eapply (IH (S j)); [|done].
    rewrite <- Ex. f_equal. apply imap_ext. intros. cbn. f_equal. lia.
Qed.

Lemma join_Ok bi ts (r : GuestBatchInput Tx) : batch_join join_error bi ts = Some (Ok r) ->
  exists batches, ts = (fun l => Finish (Ok l)) <$> batches /\ r = mkGuestBatchInput (concat batches) bi.
Proof.
  unfold batch_join. destruct (mapM _ _) as [results|] eqn:Em; cbn; [|done]. intros [= H]. bind_inv.
  eexists. split; [|done]. eapply (joined ts 0); [|done]. rewrite <- Em. f_equal.
  apply imap_ext. intros. by rewrite Nat.add_0_r.
Qed.

Lemma Forall2_concat {A B} (R : A -> B -> Prop) ls ls' : Forall2 (Forall2 R) ls ls' -> Forall2 R (concat ls) (concat ls').
Proof. induction 1; cbn; [constructor|by apply Forall2_app]. Qed.

Lemma chunks_Forall2 {A B} (R : A -> B -> Prop) k l l' : Forall2 R l l' -> Forall2 (Forall2 R) (chunks k l) (chunks k l').
Proof.
  intros H. unfold chunks. rewrite (Forall2_length _ _ _ H). generalize (length l') as f. intros f.
  revert l l' H. induction f as [|f IH]; intros l l' H; [constructor|].
  destruct H as [|x y l l' Hx H]; cbn [chunks_fuel]; constructor; [by apply Forall2_take; constructor|].
  apply IH. apply Forall2_drop. by constructor.
Qed.

Lemma zip_true ns pairs (txs : list (list Tx)) : length pairs = length txs ->
  Forall2 (fun n (p : EthBlock Tx * RpcBlock) => forall txs, task_true (n - 1) (p, txs)) ns pairs ->
  Forall2 (fun n => task_true (n - 1)) ns (zip pairs txs).
Proof. intros Hl H. revert txs Hl. induction H; intros [|t txs] Hl; cbn in *; try done; constructor; auto. Qed.

Context {C : Type} `{LC : LruCache ChainBlockCacheKey ChainBlockCacheEntry C} {LL : LruLaws ChainBlockCacheKey ChainBlockCacheEntry C}.


(** A batch with chunks of no blocks. *)
Lemma chunk_size_zero : prefetch_chunk_size (Some "0") = 0%nat.
Proof. reflexivity. Qed.

(** No batch can be prefetched when [PREFETCH_CHUNK_SIZE] is 0: what would
    start with the default size panics on the empty chunks. *)
Theorem zero_chunks_panic P d r :
  batch_start reth_block header_error zlib_decompress_data rlp_decode_transactions empty_code_hash executor fuel mpt_fuel client
    P None d = Ok r ->
  batch_start reth_block header_error zlib_decompress_data rlp_decode_transactions empty_code_hash executor fuel mpt_fuel client
    P (Some "0") d = Panic.
Proof.
  unfold batch_start. rewrite chunk_size_zero. intros H. bind_inv. cbn [mbind outcome_bind].
  rewrite Eb0. cbn [mbind outcome_bind]. rewrite Eb1. cbn [mbind outcome_bind]. by rewrite Eb2.
Qed.

(** *** One block *)
Variable zlib_compress_data : bytes -> outcome string bytes.
Variable rlp_encode_transactions : list Tx -> bytes.
Variable Header_default : Header.
#[local] Abbreviation preflight := (preflight reth_block header_error zlib_compress_data zlib_decompress_data
  rlp_encode_transactions rlp_decode_transactions Header_default empty_code_hash executor fuel mpt_fuel).

(** The run of one request. *)
Lemma preflight_sound (P : BlockDataProvider) d `{!Honest P (state_at b (pf_block_number d - 1)) (pf_block_number d - 1)} :
  1 <= pf_block_number d < 2 ^ 64 -> sound b (input_true (pf_block_number d - 1)) (preflight P d).
Proof.
  intros HN. unfold Preflight.preflight. apply sound_finish. intros [blk parent] Hb.
  apply (block_and_parent_true (pf_block_number d - 1)) in Hb as [Hb ->]; [|done|done].
  apply sound_finish. intros ti _. apply sound_finish. intros ph Hph. cbn in Hph. simplify_eq.
  apply sound_finish. intros h Hh. cbn in Hh. simplify_eq. rewrite bc_number. cbn [sound]. intros e He.
  apply (execute_and_gather_sound (P := later 1 P) (pf_block_number d - 1)); [|by apply He| |lia].
  - rewrite Hb. f_equal. lia.
  - unfold wrap64. rewrite wrap_small by lia. f_equal. rewrite Hb, bc_hashed. f_equal. lia.
Qed.


(** A block of a chain that is not Taiko is proved from its own transactions:
    the list that is compressed into the input is the list that the guest decodes
    from it. *)
Theorem ethereum_transactions_roundtrip cs txs ti :
  is_taiko cs = false ->
  (forall d z, zlib_compress_data d = Ok z -> zlib_decompress_data z = Some d) ->
  rlp_decode_transactions (rlp_encode_transactions txs) = Some txs ->
  TaikoGuestInput_try_from zlib_compress_data rlp_encode_transactions Header_default txs = Ok ti ->
  generate_transactions (E := string) zlib_decompress_data rlp_decode_transactions cs (block_proposed ti) (tx_data ti) (anchor_tx ti) = Ok txs.
Proof.
  intros Hcs Hz Hr H. unfold TaikoGuestInput_try_from in H. bind_inv. cbn.
  unfold generate_transactions, unzip_tx_list_from_data_buf, decompress, decode_transactions. rewrite Hcs. cbn.
  by rewrite (Hz _ _ Eb), Hr.
Qed.

Lemma run_finish {A B} (r : RaikoResult A) (g : A -> Task B) (cache : C) :
  (forall a, r = Ok a -> exists x, run_task (g a) cache = Some x) -> exists x, run_task (Finish r ≫= g) cache = Some x.
Proof. destruct r; cbn; eauto. Qed.
End produces.


(** ** Examples *)
Module PreflightExample.
#[local] Existing Instance model_accounts.
#[local] Existing Instance model_blocks.
#[local] Existing Instance L1Example.example_kzg.

(** A chain on which every block increments a counter. *)
Definition counter : bytes := [1].
(** The state trie of every block is one leaf, and its hash the encoding. *)
#[local] Instance plain_hash : Keccak := fun b => b.
Definition leaf : MptNode := from (Leaf (to_encoded_path [1] true) long_value).
Definition root : bytes := Eval vm_compute in hash leaf.
Definition leaf_proof : AccountProof := Eval vm_compute in mkAccountProof [encode leaf] EMPTY_ROOT [].
Definition header_at (n : Z) : Header := mkHeader [n - 1] [] [] root [] [] None [] 0 n 0 0 0 [] 0 None [].
Definition chain : Blockchain := mkBlockchain (fun n a => mkAccountInfo 10 n [] (Some [])) (fun _ _ _ => 0) (fun n => [n])
  header_at (fun n => [[n]]).

#[local] Instance chain_laws : BlockchainLaws chain.
Proof. by split. Qed.

Definition count (i : GuestInput bytes) (txs : list bytes) (o : bool) : Exec (outcome string (gmap bytes Account)) :=
  ReadBasic counter (fun r => match r with
  | Ok (Some info) =>
      Done (Ok {[ counter := mkAccount (mkAccountInfo (balance info) (nonce_ info + 1) (code_hash info) (code info)) ∅ true false false ]})
  | _ => Done (Err "db") end).

Lemma count_strict i txs : strict (count i txs false).
Proof. cbn. split; [by eexists|]. by intros [|]. Qed.
Lemma count_hashes i txs o : u64_hashes (count i txs o).
Proof. by intros [[]| |]. Qed.
Lemma count_loads i txs o : loads_first ∅ (count i txs o).
Proof. by intros [[]| |]. Qed.
Lemma count_quiet i txs o : ends_with (fun r => r <> Panic) (count i txs o).
Proof. by intros [[]| |]. Qed.
Lemma count_leads n i txs o ch :
  block_header (block i) = bc_header chain (n + 1) -> parent_header i = bc_header chain n ->
  run (count i txs o) (state_at chain n) = (state_at chain n, Ok (Ok ch)) -> leads chain n ch.
Proof.
  intros _ _ [= <-]. split; intros a new; intros *; rewrite lookup_singleton_Some; intros [<- <-]; cbn; try done.
Qed.

Definition reth (blk : RpcBlock) : outcome string (EthBlock bytes) :=
  match rpc_header blk, rpc_transactions blk with
  | Some h, Some txs => Ok (mkBlock h txs [])
  | _, _ => Err "missing field"
  end.
Lemma reth_header blk r : reth blk = Ok r -> rpc_header blk = Some (block_header r).
Proof. unfold reth. destruct (rpc_header blk), (rpc_transactions blk); intros; by simplify_eq. Qed.

(** The node. *)
#[local] Instance node : RpcClient := {|
  add_call _ := true;
  send _ _ _ := Ok ();
  block_response _ _ call :=
    match call with eth_getBlockByNumber n full => Ok (true_block (state_at chain 0) (n, full)) | _ => Err "invalid response" end;
  uint_response _ _ call :=
    match call with
    | eth_getTransactionCount a n => Ok (nonce_ (bc_account chain n a))
    | eth_getBalance a n => Ok (balance (bc_account chain n a))
    | eth_getStorageAt a i n => Ok (bc_slot chain n a i)
    | _ => Err "invalid response"
    end;
  bytes_response _ _ call := match call with eth_getCode _ _ => Ok [] | _ => Err "invalid response" end;
  proof_response _ _ call :=
    match call with eth_getProof a keys _ => Ok (a, leaf_proof) | _ => Err "invalid response" end;
  hash_slow _ := []
|}.
#[local] Instance node_truthful n : Truthful node (state_at chain n) n.
Proof. split; cbn; intros; by simplify_eq. Qed.

Definition answering : BlockDataProvider := {|
  get_blocks _ l := Ok (true_block (state_at chain 0) <$> l);
  get_accounts _ n l := Ok (bc_account chain n <$> l);
  get_storage_values _ n l := Ok ((fun ai => bc_slot chain n ai.1 ai.2) <$> l);
  get_merkle_proofs _ _ _ _ _ := Ok ∅
|}.
#[local] Instance answering_ok n : Answering answering (state_at chain n) n.
Proof. by split. Qed.

#[local] Existing Instance L1Example.example_l1.

Definition states : Type := ListCache ChainBlockCacheKey ChainBlockCacheEntry.
Definition empty_cache : states := lru_new HISTORY_STATE_DB_SIZE.
Lemma empty_ok : cache_ok chain empty_cache.
Proof.
  unfold empty_cache. split; [rewrite lru_new_cap; unfold HISTORY_STATE_DB_SIZE; lia|].
  intros k. rewrite lru_new_view, lookup_empty. by intros _ m h.
Qed.

Definition decode_txs (b : bytes) : option (list bytes) := Some ((fun x => [x]) <$> b).
Definition encode_txs (txs : list bytes) : bytes := concat txs.
Definition eth_spec : ChainSpec := new_single "ethereum" 1 1 Eip1559Constants_default false.
Definition block_request (n : Z) : PreflightData :=
  PreflightData_new n 0 eth_spec eth_spec (mkTaikoProverData [] []) KzgVersionedHash.

Definition preflight_of (n : Z) : Task (GuestInput bytes) :=
  preflight reth (fun _ => "") Ok Some encode_txs decode_txs (header_at 0) [] count 100 3 answering (block_request n).
Definition ran (t : Task (GuestInput bytes)) (c : states) : states * RaikoResult (GuestInput bytes) :=
  match run_task t c with Some x => x | None => (c, Panic) end.
Definition after_10 : states := (ran (preflight_of 10) empty_cache).1.
Definition input_11 : GuestInput bytes :=
  match (ran (preflight_of 11) after_10).2 with Ok i => i | _ => model_input 0 end.

Definition input_10 : GuestInput bytes :=
  match (ran (preflight_of 10) empty_cache).2 with Ok i => i | _ => model_input 0 end.

Lemma run_10 : run_task (preflight_of 10) empty_cache = Some (after_10, Ok input_10).
Proof. vm_compute. reflexivity. Qed.

Lemma run_11 : exists c, run_task (preflight_of 11) after_10 = Some (c, Ok input_11).
Proof. eexists. vm_compute. reflexivity. Qed.



Lemma ethereum_transactions_roundtrip_witness :
  generate_transactions (E := string) Some decode_txs eth_spec Nothing [5; 6] None = Ok [[5]; [6]].
Proof.
  refine (ethereum_transactions_roundtrip Some decode_txs Ok encode_txs (header_at 0) eth_spec [[5]; [6]]
    (mkTaikoGuestInput (header_at 0) [5; 6] None Nothing (mkTaikoProverData Address_default B256_default) None None KzgVersionedHash)
    eq_refl _ eq_refl eq_refl). by intros d z [= ->].
Defined.
End PreflightExample.

(** *** A batch *)
Module BatchExample.
Import PreflightExample.
#[local] Existing Instance model_accounts.
#[local] Existing Instance model_blocks.
#[local] Existing Instance L1Example.example_kzg.
#[local] Existing Instance PreflightExample.plain_hash.
#[local] Existing Instance PreflightExample.chain_laws.
#[local] Existing Instance PreflightExample.node_truthful.
#[local] Existing Instance PreflightExample.answering_ok.

Definition info : BatchInfo :=
  mkBatchInfo [] [mkBlockParams 1 0 []; mkBlockParams 2 0 []] [] [] [] 0 0 0 0 0 11 0 1 [1] (mkBaseFeeConfig 0 0 0 0 0).
Definition event : BatchProposed := mkBatchProposed info (mkBatchMetadata [] [] 3 0) [20; 21; 22].

#[local] Instance calldata_l1 : L1Lib bytes := {|
  Log := BatchProposed;
  l1_provider := l1_provider (L1Lib := L1Example.example_l1);
  parse_url _ := true;
  get_logs _ _ := Ok [event];
  get_block_number _ := Ok 100;
  get_transaction_by_hash _ h := Ok (Some (mkL1Tx h None));
  log_struct _ := true;
  log_transaction_hash _ := Some [9];
  log_block_number _ := Some 50;
  decode_batch_proposed := Some;
  decode_block_proposed_v2 _ := None;
  decode_block_proposed _ := None;
  decode_calldata_txlist _ := None;
  decode_propose_call _ := None;
  anchor_pacaya _ := Ok (40, [40; 7]);
  anchor_ontake _ := Err "wrong fork";
  anchor_hekla _ := Err "wrong fork";
  hex_decode _ := None;
  get_sidecars _ := Err "no sidecars";
  get_blobscan _ := Err "not found";
  b256_display _ := "";
  b256_debug _ := ""
|}.

Definition batch_data : BatchPreflightData :=
  mkBatchPreflightData 3 [10; 11] 50 L1Example.l1_spec L1Example.l2_spec (mkTaikoProverData [] []) KzgVersionedHash.

(** Two tasks of one block each; the second block is loaded and saved first. *)
Definition result : states * option (RaikoResult (GuestBatchInput bytes)) :=
  batch_preflight reth (fun _ => "") Some decode_txs [] count 100 3 (fun _ => node) (fun _ => "panicked") answering (Some "1") batch_data
    [1; 0; 1; 0]%nat empty_cache.
Definition no_batch : GuestBatchInput bytes := mkGuestBatchInput (Tx := bytes) [] (L1Example.prepared KzgVersionedHash).
Definition input_or (d : GuestBatchInput bytes) (r : option (RaikoResult (GuestBatchInput bytes))) : GuestBatchInput bytes :=
  match r with Some (Ok i) => i | _ => d end.
Definition batch_input : GuestBatchInput bytes := input_or no_batch result.2.
Definition after_batch : states := result.1.

Lemma batch_ran :
  batch_preflight reth (fun _ => "") Some decode_txs [] count 100 3 (fun _ => node) (fun _ => "panicked") answering (Some "1") batch_data
    [1; 0; 1; 0]%nat empty_cache = (after_batch, Some (Ok batch_input)).
Proof. vm_compute. reflexivity. Qed.


Definition start (size : option string) :=
  batch_start reth (fun _ => "") Some decode_txs [] count 100 3 (fun _ => node) answering size batch_data.

Lemma start_ok : is_ok (start None) = true.
Proof. vm_compute. reflexivity. Qed.

Lemma zero_chunks_panic_witness : start (Some "0") = Panic.
Proof.
  pose proof start_ok as Hok. destruct (start None) as [r| |] eqn:E; [|discriminate Hok..].
  exact (zero_chunks_panic reth (fun _ => "") Some decode_txs [] count 100 3 (fun _ => node) answering batch_data r E).
Defined.
End BatchExample.
