(* ===== verification/Backend.v ===== *)
(** * Backend: the jobs of the backend

    Models the proving functions of [reqactor/src/backend.rs]: a job makes or
    takes a guest input, computes the expected output and runs a prover. A job
    changes the cache of states that preflight shares and the store of request
    ids that provers write; [None] is a job that has not ended within the given
    number of executions. How jobs are scheduled is in [Actor]. *)
From stdpp Require Import base list list_numbers gmap fin_maps strings.
From Stdlib Require Import ZArith Lia Ascii.
From S2P Require Import Prelude Text Effect Types Interfaces Request Lru ChainSpec Mpt MptHash MptProof Input Blob Eip4844.
From S2P Require Import RlpCodec ProtocolInstance MemDb ProviderDb Rpc Builder Raiko L1Data Preflight.
Local Open Scope string_scope.
Local Open Scope Z_scope.

(** ** Jobs *)
Definition Job (W A : Type) : Type := W -> option (W * outcome string A).

#[global] Instance job_ret {W} : MRet (Job W) := fun A a w => Some (w, Ok a).
#[global] Instance job_bind {W} : MBind (Job W) := fun A B f m w =>
  match m w with
  | Some (w', Ok a) => f a w'
  | Some (w', Err e) => Some (w', Err e)
  | Some (w', Panic) => Some (w', Panic)
  | None => None
  end.

Definition pure {W A} (r : outcome string A) : Job W A := fun w => Some (w, r).

Section jobs.
Context {C S Tx : Type} `{LC : LruCache ChainBlockCacheKey ChainBlockCacheEntry C}.
Context `{KK : Keccak} `{AR : AlloyRlp} `{RP : RlpParser} `{EA : EvmAccounts} `{BL : BlockLib Tx} `{K : KzgLib} `{PL : ProtocolLib Tx}
  `{L : L1Lib Tx}.

(** What preflight is given. *)
Variable reth_block : RpcBlock -> outcome string (EthBlock Tx).
Variable header_error : RpcBlock -> string.
Variable zlib_compress_data : bytes -> outcome string bytes.
Variable zlib_decompress_data : bytes -> option bytes.
Variable rlp_encode_transactions : list Tx -> bytes.
Variable rlp_decode_transactions : bytes -> option (list Tx).
Variable Header_default : Header.
Variable empty_code_hash : bytes.
Variable executor : GuestInput Tx -> list Tx -> bool -> Exec (outcome string (gmap bytes Account)).
Variables (fuel mpt_fuel : nat).
Variable client : string -> RpcClient.
Variable join_error : nat -> string.
Variable PREFETCH_CHUNK_SIZE : option string.
(** The order in which the tasks of a batch get the lock of the cache. *)
Variable schedule : list nat.
(** What the expected output and the provers are given. *)
Variables (debug_b256 b256_text address_text : bytes -> string).
Variable blob_proof_type_text : BlobProofType -> string.
Variable write_input : string -> GuestInput Tx + GuestBatchInput Tx -> outcome ProverError ().
Variable features : Features S Tx.
(** The debug text of an error, and the encodings of inputs. *)
Variable debug_error : RaikoError -> string.
Variable input_to_json : GuestInput Tx -> outcome string string.
Variable input_from_json : string -> outcome string (GuestInput Tx).
Variable bincode_serialize : GuestBatchInput Tx -> outcome string bytes.
Variable bincode_deserialize : bytes -> outcome string (GuestBatchInput Tx).
Variable base64_encode : bytes -> string.
Variable base64_decode : string -> option bytes.
Variable zlib_error : bytes -> string.

#[local] Abbreviation J := (Job (C * S)).

Definition of_task {A} (what : string) (t : Task A) : J A := fun w =>
  match run_task t w.1 with
  | Some (c, r) => Some ((c, w.2), map_err (fun e => what +:+ debug_error e) r)
  | None => None
  end.

Definition of_st {A} (what : string) (m : St S RaikoError A) : J A := fun w =>
  let '(s, r) := m w.2 in Some ((w.1, s), map_err (fun e => what +:+ debug_error e) r).

Definition of_result {A} (what : string) (r : RaikoResult A) : J A := pure (map_err (fun e => what +:+ debug_error e) r).

(** *** The request of a block *)
Definition find_spec (kind : string) (chain_specs : SupportedChainSpecs) (network : string) : J ChainSpec :=
  pure (ok_or (get_chain_spec chain_specs network)
          ("unsupported " +:+ kind +:+ " network: " +:+ network +:+ ", it should not happen, please issue a bug report")).

Definition block_provider (spec : ChainSpec) (block_number : Z) : J BlockDataProvider :=
  targets ← of_result "failed to create rpc block data provider: " (rpc_new parse_url (rpc spec) (wrap64 (block_number - 1)));
  mret (rpc_provider (C := client (rpc spec)) targets).

#[local] Abbreviation generate_input := (generate_input reth_block header_error zlib_compress_data zlib_decompress_data
  rlp_encode_transactions rlp_decode_transactions Header_default empty_code_hash executor fuel mpt_fuel).

(** No prover yet. *)
Definition guest_input_request (e : GuestInputRequestEntity) : ProofRequest :=
  mkProofRequest (gie_block_number e) 0 (gie_l1_inclusion_block_number e) [] (gie_network e) (gie_l1_network e)
    (gie_graffiti e) Address_default Native (gie_blob_proof_type e) (gie_prover_args e).

Definition do_generate_guest_input (chain_specs : SupportedChainSpecs) (e : GuestInputRequestEntity) : J Proof_ :=
  l1_chain_spec ← find_spec "l1" chain_specs (gie_l1_network e);
  taiko_chain_spec ← find_spec "raiko" chain_specs (gie_network e);
  let raiko := mkRaiko l1_chain_spec taiko_chain_spec (guest_input_request e) in
  provider ← block_provider taiko_chain_spec (gie_block_number e);
  input ← of_task "failed to generate input: " (generate_input provider raiko);
  input_proof ← pure (unwrap_ok (input_to_json input));
  mret (mkProof (Some input_proof) None None None None).

Definition with_prover_data (pd : TaikoProverData) (t : TaikoGuestInput Tx) : TaikoGuestInput Tx :=
  mkTaikoGuestInput (l1_header t) (tx_data t) (anchor_tx t) (block_proposed t) pd (blob_commitment t) (blob_proof t) (blob_proof_type t).
Definition with_taiko (t : TaikoGuestInput Tx) (i : GuestInput Tx) : GuestInput Tx :=
  mkGuestInput (block i) (chain_spec i) (parent_header i) (parent_state_trie i) (parent_storage i) (contracts i) (ancestor_headers i) t.
Definition set_prover (pd : TaikoProverData) (i : GuestInput Tx) : GuestInput Tx := with_taiko (with_prover_data pd (taiko i)) i.

Definition same_prover (pd : TaikoProverData) (g p : bytes) : bool :=
  bool_decide (Input.graffiti pd = g) && bool_decide (Input.prover pd = p).

(** The input that came with the request. *)
Definition given_input (e : SingleProofRequestEntity) (guest_input_value : Value) : outcome string (GuestInput Tx) :=
  guest_input_json ← unwrap (as_str guest_input_value);
  input ← map_err (fun m => "failed to deserialize guest_input: " +:+ m) (input_from_json guest_input_json);
  let prover_data := prover_data (taiko input) in
  Ok (if same_prover prover_data (spe_graffiti e) (spe_prover e) then input
      else set_prover (mkTaikoProverData (spe_prover e) (spe_graffiti e)) input).

Definition single_request (e : SingleProofRequestEntity) : ProofRequest :=
  mkProofRequest (spe_block_number e) 0 (spe_l1_inclusion_block_number e) [] (spe_network e) (spe_l1_network e)
    (spe_graffiti e) (spe_prover e) (spe_proof_type e) (spe_blob_proof_type e) (spe_prover_args e).

Definition single_input (raiko : Raiko) (provider : BlockDataProvider) (e : SingleProofRequestEntity) : J (GuestInput Tx) :=
  match spe_prover_args e !! "guest_input" with
  | Some guest_input_value => pure (given_input e guest_input_value)
  | None => of_task "failed to generate input: " (generate_input provider raiko)
  end.

Definition do_prove_single (chain_specs : SupportedChainSpecs) (e : SingleProofRequestEntity) : J Proof_ :=
  l1_chain_spec ← find_spec "l1" chain_specs (spe_l1_network e);
  taiko_chain_spec ← find_spec "raiko" chain_specs (spe_network e);
  let raiko := mkRaiko l1_chain_spec taiko_chain_spec (single_request e) in
  provider ← block_provider taiko_chain_spec (spe_block_number e);
  input ← single_input raiko provider e;
  output ← of_result "failed to get output: " (get_output zlib_decompress_data rlp_decode_transactions debug_b256 raiko input);
  of_st "failed to generate single proof: " (prove write_input b256_text address_text blob_proof_type_text features raiko input output).

(** *** Aggregation *)
Definition do_prove_aggregation (request_key : RequestKey) (e : AggregationRequestEntity) : J Proof_ :=
  let proof_type := request_proof_type request_key in
  let input := mkAggregationGuestInput (age_proofs e) in
  let output := mkAggregationGuestOutput B256_default in
  let config := JObject (opts_entries (age_prover_args e)) in
  of_st "failed to generate aggregation proof: " (aggregate_proofs write_input features proof_type input output config).

(** *** The request of a batch *)
Definition batch_request (e : BatchProofRequestEntity) (all_prove_blocks : list Z) : ProofRequest :=
  let g := bpe_guest_input_entity e in
  mkProofRequest 0 (bge_batch_id g) (bge_l1_inclusion_block_number g) all_prove_blocks (bge_network g) (bge_l1_network g)
    (bge_graffiti g) (bpe_prover e) (bpe_proof_type e) (bge_blob_proof_type g) (bpe_prover_args e).

(** Unknown networks panic here. *)
Definition new_raiko_for_batch_request (chain_specs : SupportedChainSpecs) (e : BatchProofRequestEntity) : J Raiko :=
  let g := bpe_guest_input_entity e in
  l1_chain_spec ← pure (unwrap (get_chain_spec chain_specs (bge_l1_network g)));
  taiko_chain_spec ← pure (unwrap (get_chain_spec chain_specs (bge_network g)));
  all_prove_blocks ← of_result "Could not parse L1 batch proposal tx: "
    (parse_l1_batch_proposal_tx_for_pacaya_fork l1_chain_spec taiko_chain_spec (bge_l1_inclusion_block_number g) (bge_batch_id g));
  mret (mkRaiko l1_chain_spec taiko_chain_spec (batch_request e all_prove_blocks)).

#[local] Abbreviation generate_batch_input := (generate_batch_input reth_block header_error zlib_decompress_data
  rlp_decode_transactions empty_code_hash executor fuel mpt_fuel client join_error).

Definition of_batch {A} (what : string) (m : C -> C * option (RaikoResult A)) : J A := fun w =>
  match m w.1 with
  | (c, Some r) => Some ((c, w.2), map_err (fun e => what +:+ debug_error e) r)
  | (_, None) => None
  end.

Definition generate_input_for_batch (raiko : Raiko) : J (GuestBatchInput Tx) :=
  let numbers := l2_block_numbers (request raiko) in
  first ← pure (unwrap (numbers !! 0%nat));
  lst ← pure (unwrap (last numbers));
  targets ← pure (unwrap_ok (rpc_new_batch parse_url (rpc (taiko_chain_spec raiko)) (inclusive_range (wrap64 (first - 1)) lst)));
  let provider := rpc_provider (C := client (rpc (taiko_chain_spec raiko))) targets in
  of_batch "failed to generate batch input: " (generate_batch_input provider PREFETCH_CHUNK_SIZE raiko schedule).

(** The text with which an error text is wrapped once more: [{err:?}] of a
    string. *)
Variable debug_text : string -> string.
Definition wrap_text {A} (what : string) (m : J A) : J A := fun w =>
  match m w with Some (w', r) => Some (w', map_err (fun e => what +:+ debug_text e) r) | None => None end.

Definition do_generate_batch_guest_input (chain_specs : SupportedChainSpecs) (e : BatchGuestInputRequestEntity) : J Proof_ :=
  raiko ← wrap_text "failed to create raiko: "
    (new_raiko_for_batch_request chain_specs (new_with_guest_input_entity e Address_default Native ∅));
  input ← wrap_text "failed to generate batch guest input: " (generate_input_for_batch raiko);
  input_proof ← pure (map_err (fun m => "failed to serialize input to bincode: " +:+ m) (bincode_serialize input));
  compressed_bytes ← pure (unwrap_ok (zlib_compress_data input_proof));
  mret (mkProof (Some (base64_encode compressed_bytes)) None None None None).

(** The input that came with the request. *)
Definition given_batch_input (batch_guest_input : Value) : outcome string (GuestBatchInput Tx) :=
  b64_encoded_string ← ok_or (as_str batch_guest_input) "failed to deserialize batch_guest_input from value: not a string";
  compressed_bytes ← unwrap (base64_decode b64_encoded_string);
  decompressed_bytes ← ok_or (zlib_decompress_data compressed_bytes)
    ("failed to decompress batch_guest_input: " +:+ zlib_error compressed_bytes);
  map_err (fun m => "failed to deserialize bincode batch_guest_input: " +:+ m) (bincode_deserialize decompressed_bytes).

Definition batch_job_input (raiko : Raiko) : J (GuestBatchInput Tx) :=
  match prover_args (request raiko) !! "batch_guest_input" with
  | Some batch_guest_input => pure (given_batch_input batch_guest_input)
  | None => wrap_text "failed to generate batch guest input: " (generate_input_for_batch raiko)
  end.

Definition do_prove_batch (chain_specs : SupportedChainSpecs) (e : BatchProofRequestEntity) : J Proof_ :=
  raiko ← new_raiko_for_batch_request chain_specs e;
  input ← batch_job_input raiko;
  output ← of_result "failed to get guest batch output: "
    (get_batch_output zlib_decompress_data rlp_decode_transactions debug_b256 raiko input);
  of_st "failed to generate batch proof: "
    (batch_prove write_input b256_text address_text blob_proof_type_text features raiko input output).

(** The job of a request. *)
Definition run_job (chain_specs : SupportedChainSpecs) (request_key : RequestKey) (request_entity : RequestEntity) : J Proof_ :=
  match request_entity with
  | ESingleProof e => do_prove_single chain_specs e
  | EAggregation e => do_prove_aggregation request_key e
  | EBatchProof e => do_prove_batch chain_specs e
  | EGuestInput e => do_generate_guest_input chain_specs e
  | EBatchGuestInput e => do_generate_batch_guest_input chain_specs e
  end.
End jobs.

(** ** Inputs that differ in the prover

    An input may be made by one job, for no prover, and proved by another. Two
    tasks correspond when they use the cache in the same way and end with
    corresponding results. *)
Fixpoint corresponds {A B} (R : A -> B -> Prop) (t : Task A) (t' : Task B) : Prop :=
  match t, t' with
  | Finish (Ok a), Finish (Ok b) => R a b
  | Finish (Err e), Finish (Err e') => e = e'
  | Finish Panic, Finish Panic => True
  | Diverge, Diverge => True
  | Load k f, Load k' f' => k = k' /\ forall e, corresponds R (f e) (f' e)
  | Save k v t, Save k' v' t' => k = k' /\ v = v' /\ corresponds R t t'
  | _, _ => False
  end.

Lemma corresponds_bind {A B A' B'} (R : A -> B -> Prop) (Q : A' -> B' -> Prop) t t' g g' :
  corresponds R t t' -> (forall a b, R a b -> corresponds Q (g a) (g' b)) -> corresponds Q (t ≫= g) (t' ≫= g').
Proof.
  unfold mbind, Task_bind. intros Ht Hg. revert t' Ht.
  induction t as [[a|e|]| |k f IH|k v t IH]; intros [[a'|e'|]| |k' f'|k' v' t'] Ht; cbn in *; try done; auto.
  - destruct Ht as [-> Hf]. split; [done|]. auto.
  - destruct Ht as (-> & -> & Ht). split_and!; auto.
Qed.

Lemma corresponds_finish {A A' B'} (Q : A' -> B' -> Prop) (r : RaikoResult A) g g' :
  (forall a, r = Ok a -> corresponds Q (g a) (g' a)) -> corresponds Q (Finish r ≫= g) (Finish r ≫= g').
Proof. destruct r; cbn; auto. Qed.

Section runs.
Context {C : Type} `{LC : LruCache ChainBlockCacheKey ChainBlockCacheEntry C}.

Definition related {A B} (R : A -> B -> Prop) (r : RaikoResult A) (r' : RaikoResult B) : Prop :=
  match r, r' with Ok a, Ok b => R a b | Err e, Err e' => e = e' | Panic, Panic => True | _, _ => False end.

Lemma run_corresponds {A B} (R : A -> B -> Prop) t t' (c : C) : corresponds R t t' ->
  match run_task t c, run_task t' c with
  | Some (c1, r), Some (c1', r') => c1 = c1' /\ related R r r'
  | None, None => True
  | _, _ => False
  end.
Proof.
  revert t' c. induction t as [[a|e|]| |k f IH|k v t IH]; intros [[a'|e'|]| |k' f'|k' v' t'] c Ht; cbn in *; try done.
  - destruct Ht as [-> Hf]. destruct (load_state_db k' c) as [c1 e]. apply IH, Hf.
  - destruct Ht as (-> & -> & Ht). by apply IH.
Qed.

Lemma step_corresponds {A B} (R : A -> B -> Prop) t t' (c : C) : corresponds R t t' ->
  (task_step t c).1 = (task_step t' c).1 /\ corresponds R (task_step t c).2 (task_step t' c).2.
Proof.
  destruct t as [[a|e|]| |k f|k v t], t' as [[a'|e'|]| |k' f'|k' v' t']; cbn; try done.
  - intros [-> Hf]. destruct (load_state_db k' c). split; [done|apply Hf].
  - intros (-> & -> & Ht). split; [done|exact Ht].
Qed.

Lemma schedule_corresponds {A B} (R : A -> B -> Prop) s ts ts' (c : C) : Forall2 (corresponds R) ts ts' ->
  (run_schedule s ts c).1 = (run_schedule s ts' c).1 /\
  Forall2 (corresponds R) (run_schedule s ts c).2 (run_schedule s ts' c).2.
Proof.
  revert ts ts' c. induction s as [|i s IH]; intros ts ts' c H; cbn; [done|].
  destruct (ts !! i) as [t|] eqn:Et.
  - destruct (Forall2_lookup_l _ _ _ _ _ H Et) as (t' & -> & Ht).
    destruct (step_corresponds R t t' c Ht) as [Hc Hs].
    destruct (task_step t c), (task_step t' c). cbn in *. subst. apply IH. by apply Forall2_insert.
  - assert (ts' !! i = None) as ->; [|by apply IH].
    apply lookup_ge_None. rewrite <- (Forall2_length _ _ _ H). by apply lookup_ge_None.
Qed.
End runs.

(** *** The prover does not matter to preflight *)
Section provers.
Context {Tx : Type} `{KK : Keccak} `{AR : AlloyRlp} `{RP : RlpParser} `{EA : EvmAccounts} `{BL : BlockLib Tx} `{K : KzgLib} `{PL : ProtocolLib Tx}
  `{L : L1Lib Tx}.
Variable reth_block : RpcBlock -> outcome string (EthBlock Tx).
Variable header_error : RpcBlock -> string.
Variable zlib_decompress_data : bytes -> option bytes.
Variable rlp_decode_transactions : bytes -> option (list Tx).
Variable empty_code_hash : bytes.
Variable executor : GuestInput Tx -> list Tx -> bool -> Exec (outcome string (gmap bytes Account)).
Variables (fuel mpt_fuel : nat).
Variable client : string -> RpcClient.
Variable join_error : nat -> string.
Variable pd : TaikoProverData.
(** The builder runs the block with the proposal, the headers and the chain
    specification only ([execute_transactions_prover] below). *)
Hypothesis executor_prover : forall pd i txs o, executor (set_prover pd i) txs o = executor i txs o.

Lemma prepare_input_prover l1 spec n inclusion blk pd0 t :
  prepare_taiko_chain_input l1 spec n inclusion blk pd t =
  (ti ← prepare_taiko_chain_input l1 spec n inclusion blk pd0 t; Ok (with_prover_data pd ti)).
Proof.
  unfold prepare_taiko_chain_input.
  repeat match goal with
  | |- mbind _ ?m = _ => destruct m as [?x| |]; cbn [mbind outcome_bind]; [|reflexivity..]
  | x : prod _ _ |- _ => destruct x
  | x : BlobData |- _ => destruct x
  end. reflexivity.
Qed.

Lemma gather_prover {P : BlockDataProvider} (i : GuestInput Tx) db :
  Preflight.gather mpt_fuel (set_prover pd i) db = (x ← Preflight.gather mpt_fuel i db; Ok (set_prover pd x)).
Proof.
  unfold Preflight.gather. destruct (get_proofs db) as [db1 [[[pp cp] k]| |]]; cbn; try done.
  destruct (proofs_to_tries _ _ _ _) as [[trie storage]| |]; cbn; try done.
  destruct (get_ancestor_headers db1) as [db2 [hs| |]]; done.
Qed.

Lemma execute_txs_ext {P : BlockDataProvider} ex ex' f db :
  (forall o, ex o = ex' o) -> execute_txs empty_code_hash ex f db = execute_txs empty_code_hash ex' f db.
Proof.
  intros He. unfold execute_txs. generalize 0%Z as k. revert db. induction f as [|f IH]; intros db k; [done|].
  cbn [execute_txs_from]. unfold pdb_execute_transactions. rewrite He.
  repeat case_match; try done; simplify_eq; try done.
Qed.

Definition for_prover (i i' : GuestInput Tx) : Prop := i' = set_prover pd i.

Lemma execute_and_gather_prover {P : BlockDataProvider} (i : GuestInput Tx) txs n initial key hn :
  corresponds for_prover (execute_and_gather empty_code_hash executor fuel mpt_fuel i txs n initial key hn)
    (execute_and_gather empty_code_hash executor fuel mpt_fuel (set_prover pd i) txs n initial key hn).
Proof.
  unfold execute_and_gather. change (chain_spec (set_prover pd i)) with (chain_spec i).
  destruct (ProviderDb_new _ _ _) as [db0 made]. apply corresponds_finish. intros u _. apply corresponds_finish. intros l _.
  rewrite <- (execute_txs_ext (executor (set_prover pd i) l)) by auto.
  destruct (execute_txs _ _ _ _) as [[db r]|]; [|done]. apply corresponds_finish. intros v _. cbn.
  split_and!; [done|done|]. rewrite gather_prover. destruct (Preflight.gather _ _ _); done.
Qed.

Lemma run_for_prover {C : Type} `{LC : LruCache ChainBlockCacheKey ChainBlockCacheEntry C} t t' (c c1 : C) i :
  corresponds for_prover t t' -> run_task t c = Some (c1, Ok i) -> run_task t' c = Some (c1, Ok (set_prover pd i)).
Proof.
  intros Ht Hr. pose proof (run_corresponds _ _ _ c Ht) as Hc. rewrite Hr in Hc.
  destruct (run_task t' c) as [[c2 [i'| |]]|]; cbn in Hc; [|by destruct Hc as [_ []]..|done]. by destruct Hc as [<- ->].
Qed.

Definition set_pf_prover (d : PreflightData) : PreflightData :=
  mkPreflightData (pf_block_number d) (pf_l1_chain_spec d) (pf_l1_inclusion_block_number d) (pf_taiko_chain_spec d) pd (pf_blob_proof_type d).

Lemma preflight_prover compress encode header0 P d :
  is_taiko (pf_taiko_chain_spec d) = true ->
  corresponds for_prover
    (preflight reth_block header_error compress zlib_decompress_data encode rlp_decode_transactions header0 empty_code_hash executor
       fuel mpt_fuel P d)
    (preflight reth_block header_error compress zlib_decompress_data encode rlp_decode_transactions header0 empty_code_hash executor
       fuel mpt_fuel P (set_pf_prover d)).
Proof.
  intros Ht. unfold preflight. cbn [pf_block_number pf_taiko_chain_spec set_pf_prover].
  apply corresponds_finish. intros [blk parent] _. unfold taiko_input. cbn [pf_taiko_chain_spec set_pf_prover]. rewrite Ht.
  cbn [pf_block_number pf_l1_chain_spec pf_taiko_chain_spec pf_l1_inclusion_block_number pf_prover_data pf_blob_proof_type set_pf_prover].
  rewrite (prepare_input_prover _ _ _ _ _ (pf_prover_data d)).
  destruct (prepare_taiko_chain_input _ _ _ _ _ _ _) as [ti| |]; cbn [mbind outcome_bind]; try done.
  apply (corresponds_bind (fun t t' => t' = with_prover_data pd t)); [done|]. intros t t' ->.
  apply corresponds_finish. intros h _. apply corresponds_finish. intros ph _. cbn [corresponds]. split; [done|]. intros e.
  apply execute_and_gather_prover.
Qed.

(** *** Batches *)
Definition set_batch_prover (bi : TaikoGuestBatchInput) : TaikoGuestBatchInput :=
  mkTaikoGuestBatchInput (batch_id bi) (batch_l1_header bi) (batch_proposed bi) (batch_chain_spec bi) pd (tx_data_from_calldata bi)
    (tx_data_from_blob bi) (blob_commitments bi) (blob_proofs bi) (batch_blob_proof_type bi).
Definition set_provers (bi : GuestBatchInput Tx) : GuestBatchInput Tx :=
  mkGuestBatchInput (set_prover pd <$> inputs bi) (set_batch_prover (batch_taiko bi)).

Lemma prepare_batch_prover l1 spec inclusion id bs pd0 t :
  prepare_taiko_chain_batch_input l1 spec inclusion id bs pd t =
  (bi ← prepare_taiko_chain_batch_input l1 spec inclusion id bs pd0 t; Ok (set_batch_prover bi)).
Proof.
  unfold prepare_taiko_chain_batch_input.
  repeat match goal with
  | |- mbind _ ?m = _ => destruct m as [?x| |]; cbn [mbind outcome_bind]; [|reflexivity..]
  | |- match ?p with _ => _ end = _ => destruct p; try reflexivity
  | x : prod _ _ |- _ => destruct x
  end. reflexivity.
Qed.

Lemma block_task_prover spec bi task :
  corresponds for_prover (block_task header_error empty_code_hash executor fuel mpt_fuel client spec bi task)
    (block_task header_error empty_code_hash executor fuel mpt_fuel client spec (set_batch_prover bi) task).
Proof.
  destruct task as [[blk parent] txs]. unfold block_task. apply corresponds_finish. intros h _.
  apply corresponds_finish. intros ph _. cbn [corresponds]. split; [done|]. intros e.
  apply corresponds_finish. intros a _. apply corresponds_finish. intros targets _.
  apply (execute_and_gather_prover (P := rpc_provider (C := client (rpc spec)) targets)
    (mkGuestInput blk spec h Mpt.default ∅ [] [] (mkTaikoGuestInput (batch_l1_header bi) [] (Some a) (batch_proposed bi)
       (batch_prover_data bi) None None (batch_blob_proof_type bi)))).
Qed.

Lemma chunk_task_prover spec bi tasks :
  corresponds (Forall2 for_prover) (chunk_task header_error empty_code_hash executor fuel mpt_fuel client spec bi tasks)
    (chunk_task header_error empty_code_hash executor fuel mpt_fuel client spec (set_batch_prover bi) tasks).
Proof.
  induction tasks as [|task tasks IH]; cbn [chunk_task]; [by constructor|].
  eapply corresponds_bind; [apply block_task_prover|]. intros i i' Hi.
  eapply corresponds_bind; [exact IH|]. intros l l' Hl. by constructor.
Qed.

Lemma join_finished bi (batches : list (list (GuestInput Tx))) :
  batch_join join_error bi ((fun l => Finish (Ok l)) <$> batches) = Some (Ok (mkGuestBatchInput (concat batches) bi)).
Proof.
  unfold batch_join.
  assert (forall j, mapM (fun jt => join_result join_error jt.1 jt.2) (imap (fun i => pair (i + j)%nat) ((fun l => Finish (Ok l)) <$> batches))
    = Some (Ok <$> batches)) as Hm.
  { induction batches as [|l ls IH]; intros j; [done|]. rewrite fmap_cons, imap_cons. cbn -[mapM].
    cbn. rewrite (imap_ext _ (fun i => pair (i + S j)%nat)) by (intros; cbn; f_equal; lia). by rewrite IH. }
  rewrite (imap_ext _ (fun i => pair (i + 0)%nat)) by (intros; by rewrite Nat.add_0_r). rewrite Hm. cbn.
  assert (collect (fun r : RaikoResult (list (GuestInput Tx)) => r) (Ok <$> batches) = Ok batches) as ->; [|done].
  clear. induction batches as [|l ls IH]; [done|]. cbn. by rewrite IH.
Qed.

Lemma corresponds_finished (ts' : list (Task (list (GuestInput Tx)))) (batches : list (list (GuestInput Tx))) : Forall2 (corresponds (Forall2 for_prover)) ((fun l => Finish (Ok l)) <$> batches) ts' ->
  ts' = (fun l : list (GuestInput Tx) => Finish (Ok (set_prover pd <$> l))) <$> batches.
Proof.
  revert ts'. induction batches as [|l ls IH]; intros ts' H; rewrite ?fmap_cons in *; [by apply Forall2_nil_inv_l in H|].
  apply Forall2_cons_inv_l in H as (t' & ts & Ht & H & ->). f_equal; [|by apply IH].
  destruct t' as [[l'|?|]| | |]; cbn in Ht; try done. do 2 f_equal. clear -Ht.
  induction Ht as [|i i' l l' -> _ IH]; [done|]. by rewrite fmap_cons, <- IH.
Qed.

Lemma join_prover bi ts ts' r : Forall2 (corresponds (Forall2 for_prover)) ts ts' ->
  batch_join join_error bi ts = Some (Ok r) -> batch_join join_error (set_batch_prover bi) ts' = Some (Ok (set_provers r)).
Proof.
  intros Hts Hj. apply (join_Ok (Tx := Tx)) in Hj as (batches & -> & ->). apply corresponds_finished in Hts as ->.
  change (fun l => Finish (Ok (set_prover pd <$> l))) with ((fun l : list (GuestInput Tx) => Finish (A := list (GuestInput Tx)) (Ok l)) ∘ fmap (set_prover pd)).
  rewrite list_fmap_compose, join_finished. unfold set_provers. cbn [inputs batch_taiko]. do 3 f_equal.
  clear. induction batches as [|l ls IH]; [done|]. cbn. by rewrite fmap_app, IH.
Qed.

Definition set_bpf_prover (d : BatchPreflightData) : BatchPreflightData :=
  mkBatchPreflightData (bpf_batch_id d) (bpf_block_numbers d) (bpf_l1_inclusion_block_number d) (bpf_l1_chain_spec d)
    (bpf_taiko_chain_spec d) pd (bpf_blob_proof_type d).

Lemma batch_preflight_prover {C : Type} `{LC : LruCache ChainBlockCacheKey ChainBlockCacheEntry C} P size d schedule (c c' : C) bi :
  batch_preflight reth_block header_error zlib_decompress_data rlp_decode_transactions empty_code_hash executor fuel mpt_fuel
    client join_error P size d schedule c = (c', Some (Ok bi)) ->
  batch_preflight reth_block header_error zlib_decompress_data rlp_decode_transactions empty_code_hash executor fuel mpt_fuel
    client join_error P size (set_bpf_prover d) schedule c = (c', Some (Ok (set_provers bi))).
Proof.
  unfold batch_preflight, batch_start. cbn [bpf_block_numbers bpf_taiko_chain_spec bpf_l1_chain_spec bpf_l1_inclusion_block_number
    bpf_batch_id bpf_prover_data bpf_blob_proof_type set_bpf_prover].
  destruct (get_batch_blocks_and_parent_data _ _ _) as [pairs| |]; cbn [mbind outcome_bind]; try done.
  destruct (is_taiko _); [|done]. rewrite (prepare_batch_prover _ _ _ _ _ (bpf_prover_data d)).
  destruct (prepare_taiko_chain_batch_input _ _ _ _ _ _ _) as [tb| |]; cbn [mbind outcome_bind]; try done.
  change (generate_transactions_for_batch_blocks zlib_decompress_data rlp_decode_transactions (set_batch_prover tb)) with
    (generate_transactions_for_batch_blocks (E := string) zlib_decompress_data rlp_decode_transactions tb).
  destruct (unwrap_ok _) as [txs| |]; cbn [mbind outcome_bind]; try done.
  destruct (assert (length pairs =? length txs)%nat) as [[]| |]; cbn [mbind outcome_bind]; try done.
  destruct (assert _) as [[]| |]; cbn [mbind outcome_bind]; try done.
  set (tasks := chunks _ _).
  destruct (schedule_corresponds (Forall2 for_prover) schedule
    (chunk_task header_error empty_code_hash executor fuel mpt_fuel client (bpf_taiko_chain_spec d) tb <$> tasks)
    (chunk_task header_error empty_code_hash executor fuel mpt_fuel client (bpf_taiko_chain_spec d) (set_batch_prover tb) <$> tasks) c)
    as [Hc Hts].
  { apply Forall2_fmap, Forall_Forall2_diag, Forall_true. intros ch. apply chunk_task_prover. }
  destruct (run_schedule schedule _ c) as [c1 ts1], (run_schedule schedule _ c) as [c2 ts2]. cbn in *. subst c2.
  intros [= <- Hj]. f_equal. by eapply join_prover.
Qed.

(** *** Nor does it matter to the output of a batch *)
Definition set_builder_prover (b : RethBlockBuilder (Tx := Tx)) : RethBlockBuilder :=
  mkBuilder (builder_chain_spec b) (set_prover pd (builder_input b)) (builder_db b).

Lemma execute_transactions_prover b txs o :
  execute_transactions (set_builder_prover b) txs o = (b' ← execute_transactions b txs o; Ok (set_builder_prover b')).
Proof.
  unfold execute_transactions, check_taiko_fork, set_builder_prover, set_prover, with_taiko, with_prover_data.
  cbn [builder_input builder_db builder_chain_spec block chain_spec parent_header taiko l1_header block_proposed].
  repeat match goal with |- mbind _ ?m = _ => destruct m as [?x| |]; cbn [mbind outcome_bind]; [|reflexivity..] end.
  reflexivity.
Qed.

Lemma finalize_block_prover b : finalize_block (set_builder_prover b) = finalize_block b.
Proof.
  unfold finalize_block, calculate_state_root. cbn [builder_input builder_db set_builder_prover].
  destruct (unwrap (builder_db b)) as [db| |]; cbn [mbind outcome_bind]; [|done..].
  change (parent_state_trie (set_prover pd ?i)) with (parent_state_trie i).
  change (parent_storage (set_prover pd ?i)) with (parent_storage i).
  destruct (apply_accounts _ _ _) as [[t st]| |]; done.
Qed.

Lemma single_output_prover debug txs (i : GuestInput Tx) :
  single_output_for_batch debug txs (set_prover pd i) = single_output_for_batch debug txs i.
Proof.
  unfold single_output_for_batch. cbv zeta. change (create_mem_db (set_prover pd i)) with (create_mem_db i).
  destruct (create_mem_db i) as [db| |]; cbn [unwrap_ok mbind outcome_bind]; [|done..].
  change (anchor_tx (taiko (set_prover pd i))) with (anchor_tx (taiko i)).
  destruct (unwrap (anchor_tx (taiko i))) as [a| |]; cbn [mbind outcome_bind]; [|done..].
  change (RethBlockBuilder_new (set_prover pd i) db) with (set_builder_prover (RethBlockBuilder_new i db)).
  rewrite execute_transactions_prover.
  destruct (execute_transactions _ _ _) as [b| |]; cbn [unwrap_ok mbind outcome_bind]; [|done..].
  by rewrite finalize_block_prover.
Qed.

Lemma block_params_prover (l : list (GuestInput Tx)) k z ts :
  block_params_fold (set_prover pd <$> l) k z ts = block_params_fold l k z ts.
Proof.
  revert k ts. induction z as [|[b p] z IH]; intros k ts; [done|]. cbn [block_params_fold]. rewrite list_lookup_fmap.
  destruct (l !! k) as [i|]; cbn [fmap option_fmap option_map unwrap mbind outcome_bind]; [|done].
  change (anchor_tx (taiko (set_prover pd i))) with (anchor_tx (taiko i)).
  repeat match goal with |- mbind _ ?m = mbind _ ?m => destruct m as [?x| |]; cbn [mbind outcome_bind]; [|done..] end.
  by rewrite IH.
Qed.

Lemma check_chain_specs_prover (l : list (GuestInput Tx)) : check_chain_specs (set_prover pd <$> l) = check_chain_specs l.
Proof. induction l as [|i l IH]; [done|]. rewrite fmap_cons. cbn [check_chain_specs]. by rewrite IH. Qed.

Lemma from_batch_inputs_prover bi bs : from_batch_inputs (set_provers bi) bs = from_batch_inputs bi bs.
Proof.
  unfold from_batch_inputs. cbn [inputs batch_taiko set_provers].
  change (batch_proposed (set_batch_prover ?t)) with (batch_proposed t).
  destruct (batch_proposed (batch_taiko bi)) as [| | |p]; try done.
  change (tx_data_from_calldata (set_batch_prover ?t)) with (tx_data_from_calldata t).
  repeat match goal with |- mbind _ ?m = mbind _ ?m => destruct m as [?x| |]; cbn [mbind outcome_bind]; [|done..] end.
  by rewrite block_params_prover.
Qed.

(** The hash of a batch does not contain the prover. *)
Lemma instance_hash_prover bi bs pt :
  (pi ← ProtocolInstance_new_batch (set_provers bi) bs pt; Ok (instance_hash (P := PL) pi)) =
  (pi ← ProtocolInstance_new_batch bi bs pt; Ok (instance_hash (P := PL) pi)).
Proof.
  unfold ProtocolInstance_new_batch. rewrite from_batch_inputs_prover.
  change (verify_batch_mode_blob_usage (set_provers bi) pt) with (verify_batch_mode_blob_usage bi pt).
  cbn [inputs batch_taiko set_provers]. rewrite check_chain_specs_prover, list_lookup_fmap.
  change (batch_proposed (set_batch_prover ?t)) with (batch_proposed t).
  destruct (verify_batch_mode_blob_usage bi pt); cbn [mbind outcome_bind]; [|done..].
  destruct (check_chain_specs (inputs bi)); cbn [mbind outcome_bind]; [|done..].
  destruct (inputs bi !! 0%nat) as [i|]; cbn [fmap option_fmap option_map unwrap mbind outcome_bind]; [|done].
  repeat match goal with
  | |- mbind _ (mbind _ ?m) = mbind _ (mbind _ ?m) => destruct m as [?x| |] eqn:?E; cbn [mbind outcome_bind]; [|done..]
  end.
  change (sanity_check (chain_spec (set_prover pd i))) with (sanity_check (chain_spec i)).
  destruct (sanity_check _ _ _); cbn [mbind outcome_bind]; [|done..].
  destruct (batch_proposed (batch_taiko bi)); by simplify_eq.
Qed.

Lemma get_batch_output_prover debug self bi :
  get_batch_output zlib_decompress_data rlp_decode_transactions debug self (set_provers bi) =
  get_batch_output zlib_decompress_data rlp_decode_transactions debug self bi.
Proof.
  unfold get_batch_output.
  change (generate_transactions_for_batch_blocks zlib_decompress_data rlp_decode_transactions (batch_taiko (set_provers bi))) with
    (generate_transactions_for_batch_blocks (E := string) zlib_decompress_data rlp_decode_transactions (batch_taiko bi)).
  destruct (unwrap_ok _) as [txs| |]; cbn [mbind outcome_bind]; [|done..].
  assert (forall l : list (GuestInput Tx), collect (fun '(input, pool_txs) => single_output_for_batch debug pool_txs input) (zip (set_prover pd <$> l) txs) =
    collect (fun '(input, pool_txs) => single_output_for_batch debug pool_txs input) (zip l txs)) as Hc.
  { intros l. revert txs. induction l as [|i l IH]; intros [|t txs]; try done. rewrite fmap_cons. cbn [zip_with collect].
    by rewrite single_output_prover, IH. }
  cbn [inputs set_provers]. rewrite Hc.
  destruct (collect _ _) as [bs| |]; cbn [mbind outcome_bind]; [|done..].
  destruct (check_parents bs) as [[]| |]; cbn [mbind outcome_bind]; [|done..].
  pose proof (instance_hash_prover bi bs (Interfaces.proof_type (request self))) as Hh.
  fold (set_provers bi).
  destruct (ProtocolInstance_new_batch (set_provers bi) _ _), (ProtocolInstance_new_batch bi _ _); cbn in *; congruence.
Qed.
End provers.

(** ** Inputs made ahead *)
Lemma job_bind_Ok {W A B} (f : A -> Job W B) (m : Job W A) w w' b :
  (m ≫= f) w = Some (w', Ok b) <-> exists w1 a, m w = Some (w1, Ok a) /\ f a w1 = Some (w', Ok b).
Proof.
  unfold mbind, job_bind. destruct (m w) as [[w1 [a|e|]]|]; naive_solver.
Qed.

Lemma pure_Ok {W A} (r : outcome string A) (w w' : W) a : pure r w = Some (w', Ok a) <-> w' = w /\ r = Ok a.
Proof. unfold pure. naive_solver. Qed.

Lemma wrap_Ok {A : Type} {W : Type} (f : string -> string) (r : option (W * outcome string A)) w' a :
  match r with Some (w', r) => Some (w', map_err f r) | None => None end = Some (w', Ok a) <-> r = Some (w', Ok a).
Proof. destruct r as [[? [?| |]]|]; naive_solver. Qed.

Section prefetch.
#[local] Set Default Proof Using "Type".
Context {C S Tx : Type} `{LC : LruCache ChainBlockCacheKey ChainBlockCacheEntry C}.
Context `{KK : Keccak} `{AR : AlloyRlp} `{RP : RlpParser} `{EA : EvmAccounts} `{BL : BlockLib Tx} `{K : KzgLib} `{PL : ProtocolLib Tx}
  `{L : L1Lib Tx}.
Variable reth_block : RpcBlock -> outcome string (EthBlock Tx).
Variable header_error : RpcBlock -> string.
Variable zlib_compress_data : bytes -> outcome string bytes.
Variable zlib_decompress_data : bytes -> option bytes.
Variable rlp_encode_transactions : list Tx -> bytes.
Variable rlp_decode_transactions : bytes -> option (list Tx).
Variable Header_default : Header.
Variable empty_code_hash : bytes.
Variable executor : GuestInput Tx -> list Tx -> bool -> Exec (outcome string (gmap bytes Account)).
Variables (fuel mpt_fuel : nat).
Variable client : string -> RpcClient.
Variable join_error : nat -> string.
Variable PREFETCH_CHUNK_SIZE : option string.
Variable schedule : list nat.
Variables (debug_b256 b256_text address_text : bytes -> string).
Variable blob_proof_type_text : BlobProofType -> string.
Variable write_input : string -> GuestInput Tx + GuestBatchInput Tx -> outcome ProverError ().
Variable features : Features S Tx.
Variable debug_error : RaikoError -> string.
Variable input_to_json : GuestInput Tx -> outcome string string.
Variable input_from_json : string -> outcome string (GuestInput Tx).
Variable bincode_serialize : GuestBatchInput Tx -> outcome string bytes.
Variable bincode_deserialize : bytes -> outcome string (GuestBatchInput Tx).
Variable base64_encode : bytes -> string.
Variable base64_decode : string -> option bytes.
Variable zlib_error : bytes -> string.
Variable debug_text : string -> string.
Hypothesis executor_prover : forall pd i txs o, executor (set_prover pd i) txs o = executor i txs o.

(** The end of the jobs: the expected output, then the proof. *)
Definition prove_input (raiko : Raiko) (input : GuestInput Tx) : Job (C * S) Proof_ :=
  output ← of_result debug_error "failed to get output: "
    (get_output zlib_decompress_data rlp_decode_transactions debug_b256 raiko input);
  of_st debug_error "failed to generate single proof: "
    (prove write_input b256_text address_text blob_proof_type_text features raiko input output).

Definition prove_batch_input (raiko : Raiko) (input : GuestBatchInput Tx) : Job (C * S) Proof_ :=
  output ← of_result debug_error "failed to get guest batch output: "
    (get_batch_output zlib_decompress_data rlp_decode_transactions debug_b256 raiko input);
  of_st debug_error "failed to generate batch proof: "
    (batch_prove write_input b256_text address_text blob_proof_type_text features raiko input output).

(** A request for the input of a block, and a request with that input. *)
Definition input_request (e : SingleProofRequestEntity) (args : gmap string Value) : GuestInputRequestEntity :=
  mkGuestInputRequestEntity (spe_block_number e) (spe_l1_inclusion_block_number e) (spe_network e) (spe_l1_network e)
    (spe_graffiti e) (spe_blob_proof_type e) args.
Definition with_input (json : string) (e : SingleProofRequestEntity) : SingleProofRequestEntity :=
  mkSingleProofRequestEntity (spe_block_number e) (spe_l1_inclusion_block_number e) (spe_network e) (spe_l1_network e)
    (spe_graffiti e) (spe_prover e) (spe_proof_type e) (spe_blob_proof_type e) (<["guest_input" := JString json]> (spe_prover_args e)).

#[local] Abbreviation guest_input_job := (do_generate_guest_input (C := C) (S := S) reth_block header_error zlib_compress_data zlib_decompress_data
  rlp_encode_transactions rlp_decode_transactions Header_default empty_code_hash executor fuel mpt_fuel client debug_error input_to_json).
#[local] Abbreviation single_job := (do_prove_single (C := C) (S := S) reth_block header_error zlib_compress_data zlib_decompress_data
  rlp_encode_transactions rlp_decode_transactions Header_default empty_code_hash executor fuel mpt_fuel client debug_b256 b256_text
  address_text blob_proof_type_text write_input features debug_error input_from_json).

Lemma given_prover (p g : bytes) (i : GuestInput Tx) :
  (if same_prover (prover_data (taiko i)) g p then i else set_prover (mkTaikoProverData p g) i) = set_prover (mkTaikoProverData p g) i.
Proof.
  destruct (same_prover _ _ _) eqn:E; [|done]. unfold same_prover in E. breflect.
  destruct i as [? ? ? ? ? ? ? [? ? ? ? [p0 g0] ? ? ?]]; cbn in *. by subst.
Qed.

#[local] Abbreviation provider_job := (block_provider (C := C) (S := S) (Tx := Tx) client debug_error).
#[local] Abbreviation input_task := (generate_input reth_block header_error zlib_compress_data zlib_decompress_data
  rlp_encode_transactions rlp_decode_transactions Header_default empty_code_hash executor fuel mpt_fuel).

Lemma provider_job_Ok spec n w w' P : provider_job spec n w = Some (w', Ok P) -> w' = w /\ forall v, provider_job spec n v = Some (v, Ok P).
Proof.
  unfold block_provider. rewrite job_bind_Ok. intros (? & t & [-> Hr]%pure_Ok & [= <- <-]). split; [done|].
  intros v. apply job_bind_Ok. exists v, t. split; [by apply pure_Ok|done].
Qed.

Lemma find_spec_Ok kind specs n (w w' : C * S) spec :
  find_spec kind specs n w = Some (w', Ok spec) <-> w' = w /\ get_chain_spec specs n = Some spec.
Proof. unfold find_spec. rewrite pure_Ok. destruct (get_chain_spec specs n); split; intros [-> H]; by simplify_eq/=. Qed.

Lemma guest_input_job_Ok specs g w w1 p :
  guest_input_job specs g w = Some (w1, Ok p) -> exists l1 spec P c1 i,
    get_chain_spec specs (gie_l1_network g) = Some l1 /\ get_chain_spec specs (gie_network g) = Some spec /\
    (forall v, provider_job spec (gie_block_number g) v = Some (v, Ok P)) /\
    run_task (input_task P (mkRaiko l1 spec (guest_input_request g))) w.1 = Some (c1, Ok i) /\
    w1 = (c1, w.2) /\ exists json, input_to_json i = Ok json /\ proof p = Some json.
Proof.
  unfold do_generate_guest_input. rewrite job_bind_Ok. intros (? & l1 & [-> Hl1]%find_spec_Ok & H).
  apply job_bind_Ok in H as (? & spec & [-> Hl2]%find_spec_Ok & H).
  apply job_bind_Ok in H as (? & P & [-> HP]%provider_job_Ok & H).
  apply job_bind_Ok in H as (w3 & i & Hgen & H). apply job_bind_Ok in H as (? & json & [-> Hj]%pure_Ok & [= -> <-]).
  unfold of_task in Hgen.
  destruct (run_task _ _) as [[c1 [i'| |]]|] eqn:Hr; try done. injection Hgen as <- <-.
  exists l1, spec, P, c1, i'. split_and!; try done. exists json. by destruct (input_to_json i'); simplify_eq/=.
Qed.

Lemma single_job_input specs e l1 spec P w w' input :
  get_chain_spec specs (spe_l1_network e) = Some l1 -> get_chain_spec specs (spe_network e) = Some spec ->
  (forall v, provider_job spec (spe_block_number e) v = Some (v, Ok P)) ->
  single_input reth_block header_error zlib_compress_data zlib_decompress_data rlp_encode_transactions rlp_decode_transactions
    Header_default empty_code_hash executor fuel mpt_fuel debug_error input_from_json (mkRaiko l1 spec (single_request e)) P e w
    = Some (w', Ok input) ->
  single_job specs e w = prove_input (mkRaiko l1 spec (single_request e)) input w'.
Proof.
  intros Hl1 Hl2 HP Hi. unfold do_prove_single, find_spec, prove_input. rewrite Hl1, Hl2. cbn [ok_or]. unfold pure, mbind, job_bind.
  rewrite HP, Hi. done.
Qed.

(** Making the input of a block ahead of its proof changes nothing: when the
    input that a job for the input alone returned, made with no prover, is given
    to a proof job, that job proves the very input that it would have made itself,
    with the prover and graffiti of the request. *)
Theorem prefetched_input_same specs e args c s w1 p json spec :
  (forall i json, input_to_json i = Ok json -> input_from_json json = Ok i) ->
  get_chain_spec specs (spe_network e) = Some spec ->
  is_taiko spec = true ->
  spe_prover_args e !! "guest_input" = None ->
  guest_input_job specs (input_request e args) (c, s) = Some (w1, Ok p) ->
  proof p = Some json ->
  exists l1 input,
    prover_data (taiko input) = mkTaikoProverData (spe_prover e) (spe_graffiti e) /\
    single_job specs e (c, s) = prove_input (mkRaiko l1 spec (single_request e)) input w1 /\
    forall w, single_job specs (with_input json e) w =
      prove_input (mkRaiko l1 spec (single_request (with_input json e))) input w.
Proof using executor_prover.
  intros Hjson Hspec Ht Hnone (l1 & spec' & P & c1 & i & Hl1 & Hl2 & HP & Hrun & -> & json' & Hj & Hp)%guest_input_job_Ok Hp'.
  cbn [gie_l1_network gie_network gie_block_number gie_l1_inclusion_block_number gie_graffiti gie_blob_proof_type gie_prover_args
    input_request fst snd] in *. simplify_eq. set (pd := mkTaikoProverData (spe_prover e) (spe_graffiti e)).
  exists l1, (set_prover pd i). split_and!; [done| |].
  - eapply single_job_input; [exact Hl1|exact Hspec|exact HP|]. unfold single_input, of_task. rewrite Hnone. cbn [fst snd].
    pose proof (run_for_prover pd _ _ c c1 i (preflight_prover reth_block header_error zlib_decompress_data rlp_decode_transactions
      empty_code_hash executor fuel mpt_fuel pd executor_prover zlib_compress_data rlp_encode_transactions Header_default P
      (get_preflight_data (mkRaiko l1 spec (guest_input_request (input_request e args)))) Ht) Hrun) as Hc.
    change (set_pf_prover pd _) with (get_preflight_data (mkRaiko l1 spec (single_request e))) in Hc.
    unfold generate_input. etransitivity; [|reflexivity]. by setoid_rewrite Hc.
  - intros w. eapply single_job_input; [exact Hl1|exact Hspec|exact HP|]. unfold single_input, pure. cbn [spe_prover_args with_input].
    rewrite lookup_insert_eq. unfold given_input. cbn. rewrite (Hjson _ _ Hj). cbn. by rewrite given_prover.
Qed.

(** *** Batches *)
#[local] Abbreviation raiko_job := (new_raiko_for_batch_request (C := C) (S := S) (Tx := Tx) debug_error).
#[local] Abbreviation batch_input_job := (generate_input_for_batch (C := C) (S := S) reth_block header_error zlib_decompress_data
  rlp_decode_transactions empty_code_hash executor fuel mpt_fuel client join_error PREFETCH_CHUNK_SIZE schedule debug_error).
#[local] Abbreviation guest_batch_job := (do_generate_batch_guest_input (C := C) (S := S) reth_block header_error zlib_compress_data
  zlib_decompress_data rlp_decode_transactions empty_code_hash executor fuel mpt_fuel client join_error PREFETCH_CHUNK_SIZE schedule
  debug_error bincode_serialize base64_encode debug_text).
#[local] Abbreviation batch_job := (do_prove_batch (C := C) (S := S) reth_block header_error zlib_decompress_data rlp_decode_transactions
  empty_code_hash executor fuel mpt_fuel client join_error PREFETCH_CHUNK_SIZE schedule debug_b256 b256_text address_text
  blob_proof_type_text write_input features debug_error bincode_deserialize base64_decode zlib_error debug_text).

Definition batch_raiko (l1 spec : ChainSpec) (blocks : list Z) (e : BatchProofRequestEntity) : Raiko :=
  mkRaiko l1 spec (batch_request e blocks).

Lemma raiko_job_Ok specs e w w' raiko :
  raiko_job specs e w = Some (w', Ok raiko) -> w' = w /\ exists l1 spec blocks,
    get_chain_spec specs (bge_network (bpe_guest_input_entity e)) = Some spec /\ raiko = batch_raiko l1 spec blocks e /\
    forall e' v, bpe_guest_input_entity e' = bpe_guest_input_entity e -> raiko_job specs e' v = Some (v, Ok (batch_raiko l1 spec blocks e')).
Proof.
  unfold new_raiko_for_batch_request. rewrite job_bind_Ok. intros (? & l1 & [-> Hl1]%pure_Ok & H).
  apply job_bind_Ok in H as (? & spec & [-> Hl2]%pure_Ok & H).
  apply job_bind_Ok in H as (? & blocks & [-> Hb]%pure_Ok & [= <- <-]). split; [done|]. exists l1, spec, blocks.
  split_and!; [by destruct (get_chain_spec specs (bge_network _)); simplify_eq/=|done|].
  intros e' v ->. rewrite Hl1, Hl2. unfold pure, mbind, job_bind, of_result. by rewrite Hb.
Qed.

Lemma wrap_text_Ok {A} text (m : Job (C * S) A) w w' a :
  wrap_text debug_text text m w = Some (w', Ok a) <-> m w = Some (w', Ok a).
Proof. apply wrap_Ok. Qed.

Lemma of_batch_Ok {A} what (m : C -> C * option (RaikoResult A)) (w w' : C * S) a :
  of_batch debug_error what m w = Some (w', Ok a) <-> m w.1 = (w'.1, Some (Ok a)) /\ w'.2 = w.2.
Proof.
  unfold of_batch. destruct w' as [c' s']. destruct (m w.1) as [? [[?| |]|]]; cbn; split; intros H; try (by destruct H); try done;
    [by simplify_eq|destruct H; by simplify_eq/=].
Qed.

Lemma batch_input_prover l1 spec blocks e e' w w1 bi :
  bpe_guest_input_entity e' = bpe_guest_input_entity e ->
  batch_input_job (batch_raiko l1 spec blocks e) w = Some (w1, Ok bi) ->
  batch_input_job (batch_raiko l1 spec blocks e') w =
    Some (w1, Ok (set_provers (mkTaikoProverData (bpe_prover e') (bge_graffiti (bpe_guest_input_entity e'))) bi)).
Proof using executor_prover.
  intros He. unfold generate_input_for_batch. rewrite !job_bind_Ok. cbn [request batch_raiko batch_request l2_block_numbers taiko_chain_spec].
  intros (? & first & H1 & H). exists w, first. split; [by apply pure_Ok in H1 as [-> ->]|]. apply pure_Ok in H1 as [-> _]. revert H.
  rewrite !job_bind_Ok. intros (? & lst & H1 & H). exists w, lst. split; [by apply pure_Ok in H1 as [-> ->]|]. apply pure_Ok in H1 as [-> _].
  revert H. rewrite !job_bind_Ok. intros (? & ts & H1 & H). exists w, ts. split; [by apply pure_Ok in H1 as [-> ->]|].
  apply pure_Ok in H1 as [-> _]. rewrite of_batch_Ok in *. destruct H as [H ->]. split; [|done].
  apply (batch_preflight_prover reth_block header_error zlib_decompress_data rlp_decode_transactions empty_code_hash executor fuel
    mpt_fuel client join_error (mkTaikoProverData (bpe_prover e') (bge_graffiti (bpe_guest_input_entity e'))) executor_prover) in H.
  unfold set_bpf_prover in H. unfold generate_batch_input, get_batch_preflight_data. cbn in *. by rewrite He in *.
Qed.

(** A batch proof request with the input of the batch. *)
Definition with_batch_input (b64 : string) (e : BatchProofRequestEntity) : BatchProofRequestEntity :=
  mkBatchProofRequestEntity (bpe_guest_input_entity e) (bpe_prover e) (bpe_proof_type e)
    (<["batch_guest_input" := JString b64]> (bpe_prover_args e)).

End prefetch.

(** ** Decidable equality of inputs *)
Fixpoint MptNode_dec (a b : MptNode) {struct a} : Decision (a = b)
with MptNodeData_dec (a b : MptNodeData) {struct a} : Decision (a = b).
Proof.
  - refine (match a, b with mkMptNode d c, mkMptNode d' c' => cast_if_and (MptNodeData_dec d d') (decide (c = c')) end); congruence.
  - refine (match a, b with
    | Null, Null => left _
    | Branch l, Branch l' => cast_if (list_eq_dec (dec := option_eq_dec (dec := MptNode_dec)) l l')
    | Leaf p v, Leaf p' v' => cast_if_and (decide (p = p')) (decide (v = v'))
    | Extension p c, Extension p' c' => cast_if_and (decide (p = p')) (MptNode_dec c c')
    | Digest d, Digest d' => cast_if (decide (d = d'))
    | _, _ => right _
    end); congruence.
Defined.
#[global] Instance MptNode_eq_dec : EqDecision MptNode := MptNode_dec.
#[global] Instance EthDeposit_eq_dec : EqDecision EthDeposit.
Proof. solve_decision. Defined.
#[global] Instance BlockMetadata_eq_dec : EqDecision BlockMetadata.
Proof. solve_decision. Defined.
#[global] Instance BlockProposed_eq_dec : EqDecision BlockProposed.
Proof. solve_decision. Defined.
#[global] Instance OntakeBaseFeeConfig_eq_dec : EqDecision OntakeBaseFeeConfig.
Proof. solve_decision. Defined.
#[global] Instance BlockMetadataV2_eq_dec : EqDecision BlockMetadataV2.
Proof. solve_decision. Defined.
#[global] Instance BlockProposedV2_eq_dec : EqDecision BlockProposedV2.
Proof. solve_decision. Defined.
#[global] Instance BaseFeeConfig_eq_dec : EqDecision BaseFeeConfig.
Proof. solve_decision. Defined.
#[global] Instance BlockParams_eq_dec : EqDecision BlockParams.
Proof. solve_decision. Defined.
#[global] Instance BatchInfo_eq_dec : EqDecision BatchInfo.
Proof. solve_decision. Defined.
#[global] Instance BatchMetadata_eq_dec : EqDecision BatchMetadata.
Proof. solve_decision. Defined.
#[global] Instance BatchProposed_eq_dec : EqDecision BatchProposed.
Proof. solve_decision. Defined.
#[global] Instance BlockProposedFork_eq_dec : EqDecision BlockProposedFork.
Proof. solve_decision. Defined.
#[global] Instance TaikoProverData_eq_dec : EqDecision TaikoProverData.
Proof. solve_decision. Defined.
#[global] Instance ChainSpec_eq_dec : EqDecision ChainSpec.
Proof. solve_decision. Defined.
#[global] Instance EthBlock_eq_dec Tx `{EqDecision Tx} : EqDecision (EthBlock Tx).
Proof. solve_decision. Defined.
#[global] Instance TaikoGuestInput_eq_dec Tx `{EqDecision Tx} : EqDecision (TaikoGuestInput Tx).
Proof. solve_decision. Defined.
#[global] Instance GuestInput_eq_dec Tx `{EqDecision Tx} : EqDecision (GuestInput Tx).
Proof. solve_decision. Defined.
#[global] Instance TaikoGuestBatchInput_eq_dec : EqDecision TaikoGuestBatchInput.
Proof. solve_decision. Defined.
#[global] Instance GuestBatchInput_eq_dec Tx `{EqDecision Tx} : EqDecision (GuestBatchInput Tx).
Proof. solve_decision. Defined.

(** ** Examples *)
Module BackendExample.
Import PreflightExample BatchExample.
#[local] Existing Instance model_accounts.
#[local] Existing Instance model_blocks.
#[local] Existing Instance L1Example.example_kzg.
#[local] Existing Instance PreflightExample.plain_hash.
#[local] Existing Instance toy_protocol.

(** One block of the Ontake fork. *)
Definition ontake_meta : BlockMetadataV2 :=
  mkBlockMetadataV2 [] [] [] [] [] 10 0 0 40 0 false [] [] 0 0 0 0 0 0 (mkOntakeBaseFeeConfig 0 0 0 0 0).
#[local] Instance ontake_l1 : L1Lib bytes := {|
  Log := BlockProposedV2;
  l1_provider := l1_provider (L1Lib := L1Example.example_l1);
  parse_url _ := true;
  get_logs _ _ := Ok [mkBlockProposedV2 10 ontake_meta];
  get_block_number _ := Ok 100;
  get_transaction_by_hash _ h := Ok (Some (mkL1Tx h None));
  log_struct _ := true;
  log_transaction_hash _ := Some [9];
  log_block_number _ := Some 50;
  decode_batch_proposed _ := None;
  decode_block_proposed_v2 := Some;
  decode_block_proposed _ := None;
  decode_calldata_txlist _ := Some (10, [20]);
  decode_propose_call _ := Some [20];
  anchor_pacaya _ := Err "wrong fork";
  anchor_ontake _ := Ok (40, [40; 7]);
  anchor_hekla _ := Err "wrong fork";
  hex_decode _ := None;
  get_sidecars _ := Err "no sidecars";
  get_blobscan _ := Err "not found";
  b256_display _ := "";
  b256_debug _ := ""
|}.

Definition ontake_spec : ChainSpec := mkChainSpec "taiko_a7" 167009 2 [(2, Block 0)] Eip1559Constants_default (Some [1]) (Some [2])
  "l2" None ∅ 0 1 true.
Definition specs : SupportedChainSpecs := {[ "eth" := L1Example.l1_spec; "taiko_a7" := ontake_spec; "taiko" := L1Example.l2_spec ]}.
Definition entity : SingleProofRequestEntity := mkSingleProofRequestEntity 10 50 "taiko_a7" "eth" [5] [6] Native KzgVersionedHash ∅.

Definition to_json (known i : GuestInput bytes) : outcome string string := if decide (i = known) then Ok "{}" else Err "unknown".
Definition from_json (known : GuestInput bytes) (s : string) : outcome string (GuestInput bytes) := Ok known.
Definition input_job (json : GuestInput bytes -> outcome string string) :=
  do_generate_guest_input (C := states) (S := ()) reth (fun _ => "") Ok Some encode_txs decode_txs (header_at 0) [] count 100 3 (fun _ => node)
    (fun _ => "") json specs (input_request entity ∅) (empty_cache, ()).
Definition first_input : GuestInput bytes :=
  match run_task (generate_input reth (fun _ => "") Ok Some encode_txs decode_txs (header_at 0) [] count 100 3
    (rpc_provider (C := node) [9; 10]) (mkRaiko L1Example.l1_spec ontake_spec (guest_input_request (input_request entity ∅)))) empty_cache with
  | Some (_, Ok i) => i | _ => model_input 0 end.

Definition no_provers : Features () bytes := mkFeatures None None None.
Definition prove_one := do_prove_single (C := states) (S := ()) reth (fun _ => "") Ok Some encode_txs decode_txs (header_at 0) [] count 100 3
  (fun _ => node) (fun _ => "") (fun _ => "") (fun _ => "") (fun _ => "") (fun _ _ => Ok tt) no_provers (fun _ => "") (from_json first_input) specs.

Lemma first_input_made : exists w p, input_job (to_json first_input) = Some (w, Ok p) /\ proof p = Some "{}".
Proof. do 2 eexists. vm_compute. split; reflexivity. Qed.

Lemma known_json known i json : to_json known i = Ok json -> from_json known json = Ok i.
Proof. unfold to_json, from_json. case_decide; intros; by simplify_eq. Qed.

Lemma prefetched_input_same_witness : exists l1 input,
  prover_data (taiko input) = mkTaikoProverData [6] [5] /\
  forall w, prove_one (with_input "{}" entity) w =
    prove_input Some decode_txs (fun _ => "") (fun _ => "") (fun _ => "") (fun _ => "") (fun _ _ => Ok tt) no_provers (fun _ => "")
      (mkRaiko l1 ontake_spec (single_request (with_input "{}" entity))) input w.
Proof.
  destruct first_input_made as (w1 & p & Hw & Hp).
  destruct (prefetched_input_same reth (fun _ => "") Ok Some encode_txs decode_txs (header_at 0) [] count 100 3 (fun _ => node)
    (fun _ => "") (fun _ => "") (fun _ => "") (fun _ => "") (fun _ _ => Ok tt) no_provers (fun _ => "") (to_json first_input)
    (from_json first_input) (fun _ _ _ _ => eq_refl) specs entity ∅ empty_cache () w1 p "{}" ontake_spec (known_json first_input)
    eq_refl eq_refl eq_refl Hw Hp) as (l1 & input & H1 & _ & H2).
  exists l1, input. split; [exact H1|exact H2].
Defined.
End BackendExample.

(** *** A batch *)
Module BatchJobExample.
Import PreflightExample BatchExample BackendExample.
#[local] Existing Instance model_accounts.
#[local] Existing Instance model_blocks.
#[local] Existing Instance L1Example.example_kzg.
#[local] Existing Instance PreflightExample.plain_hash.
#[local] Existing Instance toy_protocol.
#[local] Existing Instance BatchExample.calldata_l1.

Definition batch_entity : BatchProofRequestEntity :=
  BatchProofRequestEntity_new 3 50 "taiko" "eth" [5] [6] Native KzgVersionedHash ∅.
Definition known_batch : GuestBatchInput bytes := set_provers (mkTaikoProverData Address_default [5]) batch_input.
Definition serialize (bi : GuestBatchInput bytes) : outcome string bytes := if decide (bi = known_batch) then Ok [1] else Err "unknown".
Definition deserialize (b : bytes) : outcome string (GuestBatchInput bytes) := Ok known_batch.
(** Texts of bytes. *)
Fixpoint pos_text (p : positive) : string :=
  match p with xH => "" | xO p => String "0"%char (pos_text p) | xI p => String "1"%char (pos_text p) end.
Fixpoint text_pos (s : string) : positive :=
  match s with "" => xH | String "0"%char s => xO (text_pos s) | String _ s => xI (text_pos s) end.
Lemma text_pos_text p : text_pos (pos_text p) = p.
Proof. induction p as [p IH|p IH|]; cbn; by rewrite ?IH. Qed.
Definition to_base64 (b : bytes) : string := pos_text (countable.encode b).
Definition from_base64 (s : string) : option bytes := countable.decode (text_pos s).
Lemma base64_roundtrip b : from_base64 (to_base64 b) = Some b.
Proof. unfold from_base64, to_base64. rewrite text_pos_text. apply countable.decode_encode. Qed.

Lemma known_bincode bi b : serialize bi = Ok b -> deserialize b = Ok bi.
Proof. unfold serialize, deserialize. case_decide; intros; by simplify_eq. Qed.

Definition prove_batch_of := do_prove_batch (C := states) (S := ()) reth (fun _ => "") Some decode_txs [] count 100 3 (fun _ => node)
  (fun _ => "panicked") (Some "1") [1; 0; 1; 0]%nat (fun _ => "") (fun _ => "") (fun _ => "") (fun _ => "") (fun _ _ => Ok tt) no_provers
  (fun _ => "") deserialize from_base64 (fun _ => "") (fun s => s) specs.
Definition input_made := do_generate_batch_guest_input (C := states) (S := ()) reth (fun _ => "") Ok Some decode_txs [] count 100 3 (fun _ => node)
  (fun _ => "panicked") (Some "1") [1; 0; 1; 0]%nat (fun _ => "") serialize to_base64 (fun s => s) specs
  (bpe_guest_input_entity batch_entity) (empty_cache, ()).
Definition stored : string := to_base64 [1].

Lemma input_made_ok : exists w p, input_made = Some (w, Ok p) /\ proof p = Some stored.
Proof. do 2 eexists. vm_compute. split; reflexivity. Qed.

End BatchJobExample.
