(* ===== verification/Actor.v ===== *)
(** The request actor and its backend loop ([reqactor/src/actor.rs],
    [reqactor/src/backend.rs]): a client call [act] consults the pool, registers
    the request and enqueues it; the backend takes requests under a semaphore,
    runs the prover, records the result in the pool and completes the request in
    the queue. [act] is given as the three critical sections in which the locks
    are held, composed for an uninterrupted call and interleaved with the backend
    in the step relation. *)

From stdpp Require Import base list list_numbers gmap sets fin_maps strings.
From Stdlib Require Import ZArith Lia.
From S2P Require Import Prelude Types Request Lru Pool Queue ChainSpec Ballot.

Section actor.
Context {C R BC : Type} `{LC : LruCache RequestKey Stored C} `{RS : RedisServer R}
  `{BLC : LruCache bytes (option ProofType) BC}.

(** [notify] is the permit of [tokio::sync::Notify]: [notify_one] sets it. *)
Record Actor := mkActor {
  chain_specs : gmap string ChainSpec;
  is_paused : bool;
  pool : Pool C R;
  ballot : Ballot BC;
  queue : Queue;
  notify : bool
}.

Definition set_pool (a : Actor) (p : Pool C R) : Actor :=
  mkActor (chain_specs a) (is_paused a) p (ballot a) (queue a) (notify a).
Definition set_queue (a : Actor) (q : Queue) : Actor :=
  mkActor (chain_specs a) (is_paused a) (pool a) (ballot a) q (notify a).
Definition notify_one (a : Actor) : Actor :=
  mkActor (chain_specs a) (is_paused a) (pool a) (ballot a) (queue a) true.

Definition Actor_new (p : Pool C R) (b : Ballot BC) (specs : gmap string ChainSpec) (q : Queue) : Actor :=
  mkActor specs false p b q false.

Definition actor_get_chain_spec (a : Actor) (network : string) : outcome string ChainSpec :=
  ok_or (get_chain_spec (chain_specs a) network) (String.append "unsupported network: " network).

Definition act_pool_get_status (a : Actor) (k : RequestKey) :
    Actor * outcome string (option StatusWithContext) :=
  let '(p, r) := pool_get_status (pool a) k in (set_pool a p, r).

Definition act_pool_update_status (a : Actor) (k : RequestKey) (s : StatusWithContext) :
    Actor * outcome string () :=
  let '(p, r) := pool_update_status (pool a) k s in
  (set_pool a p, match r with Ok _ => Ok () | Err e => Err e | Panic => Panic end).

Definition act_pool_add_new (a : Actor) (k : RequestKey) (e : RequestEntity) (s : StatusWithContext) :
    Actor * outcome string () :=
  let '(p, r) := pool_add (pool a) k e s in (set_pool a p, r).

Definition pool_list_status (a : Actor) : Actor * outcome string (gmap RequestKey StatusWithContext) :=
  let '(p, r) := pool_list (pool a) in (set_pool a p, r).

Definition pool_remove_request (a : Actor) (k : RequestKey) : Actor * outcome string nat :=
  let '(p, r) := pool_remove (pool a) k in (set_pool a p, r).

Definition pause (a : Actor) : Actor :=
  mkActor (chain_specs a) true (pool a) (ballot a) (queue a) (notify a).
Definition set_ballot (a : Actor) (b : Ballot BC) : Actor :=
  mkActor (chain_specs a) (is_paused a) (pool a) b (queue a) (notify a).
Definition actor_draw (now : Z) (a : Actor) (block_hash : bytes) : Actor * option ProofType :=
  let '(b, r) := draw_with_poisson now (ballot a) block_hash in (set_ballot a b, r).
Definition queue_remove (a : Actor) (k : RequestKey) : Actor := set_queue a (complete (queue a) k).

(** ** The three critical sections of [act] *)

(** Registration in the pool, from the status read before. *)
Definition act_register (a : Actor) (k : RequestKey) (e : RequestEntity) (start_time : Z)
    (pool_status_opt : option StatusWithContext) : Actor * outcome string () :=
  let status := StatusWithContext_new Registered start_time in
  match pool_status_opt with
  | None => act_pool_add_new a k e status
  | Some _ => act_pool_update_status a k status
  end.

(** The section under the queue lock. *)
Definition act_enqueue (a : Actor) (k : RequestKey) (e : RequestEntity) (start_time : Z) :
    Actor * outcome string StatusWithContext :=
  let status := StatusWithContext_new Registered start_time in
  if contains (queue a) k then (a, Ok status)
  else
    let '(q, r) := add_pending (queue a) k e in
    match r with
    | Ok _ => (notify_one (set_queue a q), Ok status)
    | Err error_msg =>
        let failed_status := StatusWithContext_new (Failed error_msg) start_time in
        let '(a', u) := act_pool_update_status (set_queue a q) k failed_status in
        (a', match u with Ok _ => Ok failed_status | Err x => Err x | Panic => Panic end)
    | Panic => (set_queue a q, Panic)
    end.

Definition act (a : Actor) (k : RequestKey) (e : RequestEntity) (start_time : Z) :
    Actor * outcome string StatusWithContext :=
  let '(a, r) := act_pool_get_status a k in
  match r with
  | Ok pool_status_opt =>
      match pool_status_opt with
      | Some (mkStatus (Success _) _ as s) => (a, Ok s)
      | _ =>
          let '(a, r) := act_register a k e start_time pool_status_opt in
          match r with
          | Ok _ => act_enqueue a k e start_time
          | Err x => (a, Err x)
          | Panic => (a, Panic)
          end
      end
  | Err x => (a, Err x)
  | Panic => (a, Panic)
  end.

(** ** The backend *)

(** The status a finished job records. *)
Definition job_status (result : outcome string Proof_) : Status :=
  match result with
  | Ok proof => Success proof
  | Err e => Failed e
  | Panic => Failed "task panicked"
  end.

(** An [act] call between two of its critical sections. *)
Inductive Phase : Type :=
| Looked (k : RequestKey) (e : RequestEntity) (start : Z) (s : option StatusWithContext)
| Registering (k : RequestKey) (e : RequestEntity) (start : Z).

Record System := mkSystem {
  actor : Actor;
  phases : list Phase;                            (** calls in flight *)
  running : list (RequestKey * RequestEntity);    (** spawned jobs holding a permit *)
  finished : list RequestKey;                     (** jobs done, watcher not yet run *)
  done_ch : list RequestKey;                      (** the [done] channel *)
  max_proving_concurrency : nat
}.

Definition with_actor (s : System) (a : Actor) : System :=
  mkSystem a (phases s) (running s) (finished s) (done_ch s) (max_proving_concurrency s).

Definition stale (s : option StatusWithContext) : bool :=
  match s with Some (mkStatus (Success _) _) => false | _ => true end.

Inductive sys_step : System -> System -> Prop :=
(** a client calls [act]: the status is read *)
| step_lookup s k e start a' o :
    act_pool_get_status (actor s) k = (a', Ok o) ->
    sys_step s (mkSystem a' (if stale o then Looked k e start o :: phases s else phases s)
                  (running s) (finished s) (done_ch s) (max_proving_concurrency s))
(** the request is registered *)
| step_register s l1 l2 k e start o a' r :
    phases s = l1 ++ Looked k e start o :: l2 ->
    act_register (actor s) k e start o = (a', r) ->
    sys_step s (mkSystem a' (if is_ok r then l1 ++ Registering k e start :: l2 else l1 ++ l2)
                  (running s) (finished s) (done_ch s) (max_proving_concurrency s))
(** the request is enqueued *)
| step_enqueue s l1 l2 k e start a' r :
    phases s = l1 ++ Registering k e start :: l2 ->
    act_enqueue (actor s) k e start = (a', r) ->
    sys_step s (mkSystem a' (l1 ++ l2) (running s) (finished s) (done_ch s) (max_proving_concurrency s))
(** the backend drains one completed request *)
| step_drain s k rest :
    done_ch s = k :: rest ->
    sys_step s (mkSystem (set_queue (actor s) (complete (queue (actor s)) k)) (phases s)
                  (running s) (finished s) rest (max_proving_concurrency s))
(** the backend acquires a permit and takes the next request *)
| step_take s q x :
    (length (running s) < max_proving_concurrency s)%nat ->
    try_next (queue (actor s)) = (q, Some x) ->
    sys_step s (mkSystem (set_queue (actor s) q) (phases s) (x :: running s) (finished s)
                  (done_ch s) (max_proving_concurrency s))
(** a job ends with some result, records its status and releases its permit *)
| step_finish s l1 l2 k e result now p r :
    running s = l1 ++ (k, e) :: l2 ->
    pool_update_status (pool (actor s)) k (StatusWithContext_new (job_status result) now) = (p, r) ->
    sys_step s (mkSystem (set_pool (actor s) p) (phases s) (l1 ++ l2) (k :: finished s)
                  (done_ch s) (max_proving_concurrency s))
(** the watcher of a job sends its key and notifies the loop *)
| step_send s l1 l2 k :
    finished s = l1 ++ k :: l2 ->
    sys_step s (mkSystem (notify_one (actor s)) (phases s) (running s) (l1 ++ l2)
                  (done_ch s ++ [k]) (max_proving_concurrency s)).

Definition init (a : Actor) (permits : nat) : System := mkSystem a [] [] [] [] permits.

Inductive reachable (s0 : System) : System -> Prop :=
| reach_refl : reachable s0 s0
| reach_step s s' : reachable s0 s -> sys_step s s' -> reachable s0 s'.

(** ** Invariant of the system *)
Definition in_flight_keys (s : System) : list RequestKey :=
  (running s).*1 ++ finished s ++ done_ch s.

Record sys_ok (s : System) : Prop := {
  sys_queue : queue_ok (queue (actor s));
  sys_nodup : NoDup (in_flight_keys s);
  sys_wip : forall k, k ∈ working_in_progress (queue (actor s)) <-> k ∈ in_flight_keys s;
  sys_permits : (length (running s) <= max_proving_concurrency s)%nat
}.
End actor.
Arguments Actor C R BC : clear implicits.
Arguments System C R BC : clear implicits.

Section actor_invariant.
Context {C R BC : Type} `{LC : LruCache RequestKey Stored C} `{RS : RedisServer R}
  `{BLC : LruCache bytes (option ProofType) BC}.
Implicit Types (s : System C R BC) (a : Actor C R BC).

Lemma add_pending_wip q k e : working_in_progress (add_pending q k e).1 = working_in_progress q.
Proof. unfold add_pending. destruct (is_at_capacity q); [done|]. destruct (contains q k); [done|]. by destruct k. Qed.

Lemma act_register_queue a k e start o : queue (act_register a k e start o).1 = queue a.
Proof.
  unfold act_register, act_pool_add_new, act_pool_update_status.
  destruct o; [by destruct (pool_update_status _ _ _)|by destruct (pool_add _ _ _ _)].
Qed.

Lemma act_enqueue_queue a k e start :
  queue (act_enqueue a k e start).1 = queue a \/
  queue (act_enqueue a k e start).1 = (add_pending (queue a) k e).1.
Proof.
  unfold act_enqueue, act_pool_update_status. destruct (contains (queue a) k); [by left|right].
  destruct (add_pending (queue a) k e) as [q [[]|x|]]; simpl; [done| |done].
  by destruct (pool_update_status _ _ _).
Qed.

(** A change of the actor that keeps the queue keeps the invariant. *)
Lemma sys_ok_same_queue s s' :
  sys_ok s -> queue (actor s') = queue (actor s) -> running s' = running s ->
  finished s' = finished s -> done_ch s' = done_ch s ->
  max_proving_concurrency s' = max_proving_concurrency s -> sys_ok s'.
Proof.
  intros [Hq Hn Hw Hp] E1 E2 E3 E4 E5. unfold in_flight_keys in *. split; unfold in_flight_keys;
    rewrite ?E1, ?E2, ?E3, ?E4, ?E5; auto.
Qed.

(** Moving a key between the stages of a job keeps the in-flight keys. *)
Lemma sys_ok_permute s s' :
  sys_ok s -> queue (actor s') = queue (actor s) -> in_flight_keys s' ≡ₚ in_flight_keys s ->
  (length (running s') <= length (running s))%nat ->
  max_proving_concurrency s' = max_proving_concurrency s -> sys_ok s'.
Proof.
  intros [Hq Hn Hw Hp] E1 E2 E3 E4. split; rewrite ?E1, ?E4; auto; [by rewrite E2| |lia].
  intros k. by rewrite E2.
Qed.

Lemma sys_ok_take s q x :
  sys_ok s -> (length (running s) < max_proving_concurrency s)%nat ->
  try_next (queue (actor s)) = (q, Some x) ->
  sys_ok (mkSystem (set_queue (actor s) q) (phases s) (x :: running s) (finished s)
            (done_ch s) (max_proving_concurrency s)).
Proof.
  intros [Hq Hn Hw Hp] Hlt Ht. pose proof (try_next_ok _ Hq) as Hq'. rewrite Ht in Hq'.
  pose proof (try_next_pending (queue (actor s))) as Hpend. rewrite Ht in Hpend.
  destruct Hpend as (Hpd & Hwip & _). split; simpl; auto.
  - unfold in_flight_keys in *. simpl. apply NoDup_cons. split; [|done].
    rewrite <- Hw. apply (ok_disjoint _ Hq). rewrite Hpd. by left.
  - intros k. unfold in_flight_keys in *. simpl. rewrite Hwip, elem_of_union, elem_of_singleton, Hw, elem_of_cons. done.
Qed.

Lemma sys_ok_drain s k rest :
  sys_ok s -> done_ch s = k :: rest ->
  sys_ok (mkSystem (set_queue (actor s) (complete (queue (actor s)) k)) (phases s)
            (running s) (finished s) rest (max_proving_concurrency s)).
Proof.
  intros [Hq Hn Hw Hp] Hd.
  assert (Hperm : in_flight_keys s ≡ₚ k :: (running s).*1 ++ finished s ++ rest)
    by (unfold in_flight_keys; rewrite Hd; solve_Permutation).
  rewrite Hperm in Hn. apply NoDup_cons in Hn as [Hni Hn].
  assert (Hk : k ∈ working_in_progress (queue (actor s))) by (apply Hw; rewrite Hperm; by left).
  split; simpl; auto; [by apply complete_ok|].
  intros k'. unfold in_flight_keys. simpl. rewrite elem_of_difference, elem_of_singleton, Hw, Hperm, elem_of_cons.
  split; [tauto|]. intros Hin. split; [by right|]. by intros ->.
Qed.

Lemma sys_step_ok s s' : sys_ok s -> sys_step s s' -> sys_ok s'.
Proof.
  intros Hok Hs. inversion Hs as
    [? k e start a' o Hl|? l1 l2 k e start o a' r Hph Hr|? l1 l2 k e start a' r Hph He|? k rest Hd
    |? q x Hlt Ht|? l1 l2 k e result now p r Hrun Hu|? l1 l2 k Hf]; subst.
  - eapply sys_ok_same_queue; [exact Hok|..]; try done. unfold act_pool_get_status in Hl.
    destruct (pool_get_status _ _); by simplify_eq/=.
  - eapply sys_ok_same_queue; [exact Hok|..]; try done. simpl.
    pose proof (act_register_queue (actor s) k e start o) as Hq. by rewrite Hr in Hq.
  - pose proof (act_enqueue_queue (actor s) k e start) as Hq. rewrite He in Hq. simpl in Hq.
    destruct Hq as [Hq|Hq]; [by eapply sys_ok_same_queue; [exact Hok|..]|].
    destruct Hok as [Ho Hn Hw Hp]. split; simpl; auto; rewrite Hq.
    + by apply add_pending_ok.
    + intros k'. by rewrite add_pending_wip, Hw.
  - by apply sys_ok_drain.
  - by apply sys_ok_take.
  - eapply sys_ok_permute; [exact Hok|done| | |done].
    + unfold in_flight_keys. simpl. rewrite Hrun, !fmap_app, !fmap_cons. simpl. solve_Permutation.
    + simpl. rewrite Hrun, !length_app. simpl. lia.
  - eapply sys_ok_permute; [exact Hok|done| |done|done].
    unfold in_flight_keys. simpl. rewrite Hf. solve_Permutation.
Qed.

Lemma reachable_ok a permits s :
  queue_ok (queue a) -> working_in_progress (queue a) = ∅ -> reachable (init a permits) s ->
  sys_ok s /\ max_proving_concurrency s = permits.
Proof.
  intros Hq Hw Hr. induction Hr as [|s s' Hr [IH Hm] Hs].
  - split; [|done]. split; simpl; auto; [apply NoDup_nil; done| |lia].
    intros k. unfold in_flight_keys. simpl. rewrite Hw. split; intros Hk; [by apply elem_of_empty in Hk|by apply elem_of_nil in Hk].
  - split; [by eapply sys_step_ok|]. rewrite <- Hm. by destruct Hs.
Qed.

End actor_invariant.

Section actor_memory.
Context {C R BC : Type} `{LC : LruCache RequestKey Stored C} `{LL : !LruLaws RequestKey Stored C}
  `{RS : RedisServer R} `{BLC : LruCache bytes (option ProofType) BC}.
Implicit Types (a : Actor C R BC).

Definition status_at a (k : RequestKey) : option StatusWithContext := option_map snd (request_at (pool a) k).

Lemma act_get_status_mem a k :
  in_memory (pool a) ->
  exists p, same_pool (pool a) p /\ view p = view (pool a) /\
    act_pool_get_status a k = (set_pool a p, Ok (status_at a k)).
Proof.
  intros Hm. destruct (pool_get_status_mem (pool a) k Hm) as (p & S & V & G).
  exists p. split_and!; auto. unfold act_pool_get_status. by rewrite G.
Qed.

(** Registration leaves the request registered with the start time. *)
Lemma act_register_mem a k e start o :
  in_memory (pool a) -> room (pool a) -> (is_Some o -> is_Some (request_at (pool a) k)) ->
  exists p, act_register a k e start o = (set_pool a p, Ok ()) /\ same_pool (pool a) p /\
    exists e', request_at p k = Some (e', StatusWithContext_new Registered start).
Proof.
  intros Hm Hr Ho. unfold act_register. destruct o as [st|].
  - destruct (request_at (pool a) k) as [[e' old]|] eqn:Hk; [|by destruct (Ho ltac:(done))].
    destruct (pool_update_present (pool a) k (StatusWithContext_new Registered start) e' old Hm Hr Hk)
      as (p & S & U & Hp & _). exists p. unfold act_pool_update_status. rewrite U. eauto.
  - destruct (pool_add_mem (pool a) k e (StatusWithContext_new Registered start) Hm) as (p & S & A & M).
    exists p. unfold act_pool_add_new. rewrite A. split_and!; auto. exists e. by eapply request_at_put.
Qed.

(** C16: an uninterrupted [act] on a memory pool always answers: a succeeded
    request returns its stored proof and changes nothing; a request already known
    to the queue is registered again and not queued twice; a new request is
    registered, queued and the backend is notified; and at capacity the request
    is recorded and returned as failed while the queue stays as it was. *)
Theorem act_outcome a k e start :
  in_memory (pool a) -> room (pool a) ->
  let '(a', r) := act a k e start in
  match status_at a k with
  | Some (mkStatus (Success pf) ts) =>
      r = Ok (mkStatus (Success pf) ts) /\ view (pool a') = view (pool a) /\ queue a' = queue a
  | _ =>
      if contains (queue a) k then
        r = Ok (mkStatus Registered start) /\ status_at a' k = Some (mkStatus Registered start) /\
        queue a' = queue a
      else if is_at_capacity (queue a) then
        r = Ok (mkStatus (Failed capacity_error) start) /\
        status_at a' k = Some (mkStatus (Failed capacity_error) start) /\ queue a' = queue a
      else
        r = Ok (mkStatus Registered start) /\ status_at a' k = Some (mkStatus Registered start) /\
        contains (queue a') k = true /\ queue a' = (add_pending (queue a) k e).1 /\ notify a' = true
  end.
Proof.
  intros Hm Hr. unfold act. destruct (act_get_status_mem a k Hm) as (p & S & V & ->).
  pose proof (request_at_view _ _ k V) as Hreq.
  destruct (act_register_mem (set_pool a p) k e start (status_at a k)) as (p2 & Hreg & S2 & e' & Hk2).
  { by eapply same_pool_mem. } { by eapply same_pool_room. }
  { simpl. rewrite Hreq. unfold status_at. destruct (request_at (pool a) k); [done|by intros []]. }
  assert (Hrest : let '(a', r) := act_enqueue (set_pool (set_pool a p) p2) k e start in
    if contains (queue a) k then
      r = Ok (mkStatus Registered start) /\ status_at a' k = Some (mkStatus Registered start) /\ queue a' = queue a
    else if is_at_capacity (queue a) then
      r = Ok (mkStatus (Failed capacity_error) start) /\
      status_at a' k = Some (mkStatus (Failed capacity_error) start) /\ queue a' = queue a
    else
      r = Ok (mkStatus Registered start) /\ status_at a' k = Some (mkStatus Registered start) /\
      contains (queue a') k = true /\ queue a' = (add_pending (queue a) k e).1 /\ notify a' = true).
  { assert (Hst : option_map snd (request_at p2 k) = Some (mkStatus Registered start)) by (by rewrite Hk2).
    unfold act_enqueue. simpl. destruct (contains (queue a) k) eqn:Ec; [done|].
    destruct (is_at_capacity (queue a)) eqn:Ecap.
    - assert (add_pending (queue a) k e = (queue a, Err capacity_error)) as -> by (unfold add_pending; by rewrite Ecap).
      assert (same_pool (pool a) p2) as S3 by (by eapply same_pool_trans).
      destruct (pool_update_present p2 k (StatusWithContext_new (Failed capacity_error) start) e'
        (StatusWithContext_new Registered start)) as (p3 & _ & U3 & Hk3 & _); auto.
      { by eapply same_pool_mem. } { by eapply same_pool_room. }
      unfold act_pool_update_status. simpl. rewrite U3. split_and!; auto. unfold status_at. simpl. by rewrite Hk3.
    - destruct (add_pending (queue a) k e) as [q r] eqn:Ea.
      assert (r = Ok ()) as -> by (unfold add_pending in Ea; rewrite Ecap, Ec in Ea; destruct k; by simplify_eq/=).
      destruct (add_pending_pending _ _ _ _ Ea Ec) as (_ & _ & Hq & _). split_and!; auto.
      unfold contains. simpl. rewrite Hq. apply bool_decide_true, elem_of_union_l, elem_of_singleton. done. }
  destruct (status_at a k) as [[[| |pf| |] ts]|]; try (rewrite Hreg; exact Hrest). done.
Qed.

(** The status check and the registration of [act] are separate critical
    sections, so a proof recorded between them is lost: when a job stores its
    successful proof after a client read an older status, the client's
    registration overwrites the stored proof with [Registered]. *)
Theorem late_registration_drops_proof a k e e' start seen pf ts :
  in_memory (pool a) -> room (pool a) ->
  request_at (pool a) k = Some (e', mkStatus (Success pf) ts) ->
  seen = Some (mkStatus Registered 0) ->
  let '(a', r) := act_register a k e start seen in
  r = Ok () /\ status_at a' k = Some (mkStatus Registered start).
Proof.
  intros Hm Hr Hk ->. unfold status_at.
  destruct (act_register_mem a k e start (Some (mkStatus Registered 0)) Hm Hr) as (p & -> & _ & e2 & Hp).
  { by rewrite Hk. }
  simpl. by rewrite Hp.
Qed.
End actor_memory.

(** ** Witnesses *)
Definition actor_fixture : Actor (ListCache RequestKey Stored) () (ListCache bytes (option ProofType)) :=
  Actor_new memory_fixture ballot_fixture ∅ (Queue_new 4).

(** A call of a single client and the backend taking its request, as a run. *)
Lemma single_client_run {C R BC} `{LC : LruCache RequestKey Stored C} `{RS : RedisServer R}
    (a a1 a2 a3 : Actor C R BC) k e start st q permits :
  (0 < permits)%nat ->
  act_pool_get_status a k = (a1, Ok None) -> act_register a1 k e start None = (a2, Ok ()) ->
  act_enqueue a2 k e start = (a3, Ok st) -> try_next (queue a3) = (q, Some (k, e)) ->
  reachable (init a permits) (mkSystem (set_queue a3 q) [] [(k, e)] [] [] permits).
Proof.
  intros Hp H1 H2 H3 H4.
  apply reach_step with (mkSystem a3 [] [] [] [] permits);
    [|by apply (step_take (mkSystem a3 [] [] [] [] permits))].
  apply reach_step with (mkSystem a2 [Registering k e start] [] [] [] permits);
    [|by apply (step_enqueue (mkSystem a2 [Registering k e start] [] [] [] permits) [] [] k e start a3 (Ok st))].
  apply reach_step with (mkSystem a1 [Looked k e start None] [] [] [] permits);
    [|by apply (step_register (mkSystem a1 [Looked k e start None] [] [] [] permits) [] [] k e start None a2 (Ok ()))].
  apply reach_step with (init a permits); [apply reach_refl|].
  by apply (step_lookup (init a permits) k e start a1 None).
Qed.

Lemma one_running_reachable :
  exists s, reachable (init actor_fixture 2) s /\ running s = [(key_fixture, ent_fixture)].
Proof.
  destruct (act_get_status_mem actor_fixture key_fixture memory_fixture_mem) as (p1 & S1 & V1 & G1).
  assert (status_at actor_fixture key_fixture = None) as E
    by (unfold status_at; simpl; by rewrite memory_fixture_empty).
  rewrite E in G1.
  destruct (act_register_mem (set_pool actor_fixture p1) key_fixture ent_fixture 7 None) as (p2 & G2 & _).
  { by eapply same_pool_mem, memory_fixture_mem. }
  { by eapply same_pool_room, memory_fixture_room. }
  { by intros []. }
  eexists. split; [eapply (single_client_run _ _ _ _ key_fixture ent_fixture 7); [lia|exact G1|exact G2| |]|reflexivity].
  - unfold act_enqueue. simpl. reflexivity.
  - reflexivity.
Qed.


Lemma act_outcome_witness : status_at (act actor_fixture key_fixture ent_fixture 7).1 key_fixture = Some (mkStatus Registered 7).
Proof.
  pose proof (act_outcome actor_fixture key_fixture ent_fixture 7 memory_fixture_mem memory_fixture_room) as H.
  destruct (act actor_fixture key_fixture ent_fixture 7) as [a' r].
  assert (status_at actor_fixture key_fixture = None) as E
    by (unfold status_at; simpl; rewrite memory_fixture_empty; reflexivity).
  rewrite E in H. exact (proj1 (proj2 H)).
Defined.

Definition proved_pool : Pool (ListCache RequestKey Stored) () :=
  (pool_add memory_fixture key_fixture ent_fixture (mkStatus (Success Proof_default) 9)).1.

Lemma proved_pool_facts :
  in_memory proved_pool /\ room proved_pool /\
  request_at proved_pool key_fixture = Some (ent_fixture, mkStatus (Success Proof_default) 9).
Proof.
  destruct (pool_add_mem memory_fixture key_fixture ent_fixture (mkStatus (Success Proof_default) 9) memory_fixture_mem)
    as (p & S & A & M). unfold proved_pool. rewrite A. simpl. split_and!.
  - by eapply same_pool_mem.
  - by eapply same_pool_room, memory_fixture_room.
  - eapply request_at_put; [exact memory_fixture_room|exact M].
Qed.

Lemma late_registration_drops_proof_witness :
  status_at (act_register (set_pool actor_fixture proved_pool) key_fixture ent_fixture 11
    (Some (mkStatus Registered 0))).1 key_fixture = Some (mkStatus Registered 11).
Proof.
  destruct proved_pool_facts as (Hm & Hr & Hk).
  pose proof (late_registration_drops_proof (set_pool actor_fixture proved_pool) key_fixture ent_fixture
    ent_fixture 11 (Some (mkStatus Registered 0)) Proof_default 9 Hm Hr Hk eq_refl) as H.
  destruct (act_register (set_pool actor_fixture proved_pool) key_fixture ent_fixture 11 (Some (mkStatus Registered 0)))
    as [a' r]. exact (proj2 H).
Defined.
