(* ===== verification/SgxGuest.v ===== *)
(** * SgxGuest: signing and aggregating in the enclave

    Models [provers/sgx/guest/src/one_shot.rs], [signature.rs] and the handlers
    of [sgx_server.rs] and [main.rs]: the key on disk, the proof of a block or of
    a batch as a signature of its instance hash, and the aggregation of proofs
    along a chain of keys. The files the enclave reads and writes are the record
    [Enclave]; an operation is a function of it. The elliptic-curve library is the
    class [Secp]. Byte strings that the code prints in hexadecimal stay bytes. *)
From stdpp Require Import base list list_numbers gmap fin_maps strings.
From Stdlib Require Import ZArith Lia.
From S2P Require Import Prelude Effect Mpt MptHash RlpCodec Types ChainSpec Input Blob MemDb Builder Eip4844 ProtocolInstance.
Local Open Scope Z_scope.

(** ** The curve library *)
Class Secp := {
  SecretKey : Type;
  PublicKey : Type;
  RecoveryId : Type;
  RecoverableSignature : Type;
  SecretKey_from_slice : bytes -> option SecretKey;
  secret_bytes : SecretKey -> bytes;
  from_secret_key : SecretKey -> PublicKey;
  serialize_uncompressed : PublicKey -> bytes;
  (** the [Display] of a public key *)
  pubkey_to_string : PublicKey -> string;
  RecoveryId_from_i32 : Z -> option RecoveryId;
  to_i32 : RecoveryId -> Z;
  from_compact : bytes -> RecoveryId -> option RecoverableSignature;
  (** a signature of a digest, serialized compactly *)
  sign_ecdsa_recoverable : bytes -> SecretKey -> RecoveryId * bytes;
  recover_ecdsa : bytes -> RecoverableSignature -> option PublicKey;
  (** [Signature::from_bytes_and_parity] and [as_bytes] of the Ethereum library *)
  signature_as_bytes : bytes -> Z -> option bytes
}.

(** ** The files of the enclave *)

(** The file [priv.key]: absent, write-protected, or present with the contents
    that reading it yields, if it can be decrypted. *)
Inductive KeyFile : Type :=
| KeyMissing
| KeyReadOnly
| KeyFileOf (contents : option bytes).

(** [dev_report] is the last data written to the report device, [None] when it
    cannot be opened; [dev_quote] is the quote for a report; [dev_type] tells
    whether the attestation type can be read. The bootstrap file holds the public
    key, the address and the quote. *)
Record Enclave := mkEnclave {
  priv_key : KeyFile;
  secrets_writable : bool;
  config_writable : bool;
  dev_report : option bytes;
  dev_quote : option bytes -> option bytes;
  dev_type : bool;
  bootstrap_file : option (string * bytes * bytes)
}.

Definition set_priv_key (e : Enclave) (k : KeyFile) : Enclave :=
  mkEnclave k (secrets_writable e) (config_writable e) (dev_report e) (dev_quote e) (dev_type e) (bootstrap_file e).
Definition set_dev_report (e : Enclave) (r : bytes) : Enclave :=
  mkEnclave (priv_key e) (secrets_writable e) (config_writable e) (Some r) (dev_quote e) (dev_type e) (bootstrap_file e).
Definition set_bootstrap_file (e : Enclave) (d : string * bytes * bytes) : Enclave :=
  mkEnclave (priv_key e) (secrets_writable e) (config_writable e) (dev_report e) (dev_quote e) (dev_type e) (Some d).

(** Operations on the enclave that may fail. *)
Definition Op (A : Type) : Type := St Enclave string A.

(** [<[u8; n]>::try_from(&v[a..]).unwrap()]. *)
Definition array_from {E} (n : nat) (v : bytes) (a : nat) : outcome E bytes :=
  if bool_decide (length v = (a + n)%nat) then Ok (drop a v) else Panic.

(** [B256::left_padding_from] of at most 32 bytes. *)
Definition left_padding_from (v : bytes) : bytes := replicate (32 - length v) 0 ++ v.

(** What the enclave prints and returns. *)
Record SgxData := mkSgxData {
  sgx_proof : bytes; sgx_quote : bytes; sgx_public_key : string; sgx_address : bytes; sgx_input : bytes }.

Inductive BootStrapError : Type := NotExist | WithWrongPermissions | DecryptionError.

Section sgx.
Context {Tx : Type} `{KK : Keccak} `{AR : AlloyRlp} `{EA : EvmAccounts} `{BL : BlockLib Tx}.
Context `{K : KzgLib} `{P : ProtocolLib Tx} `{SC : Secp}.

Let keccak256 : bytes -> bytes := ProtocolInstance.keccak.

(** ** Signatures *)
Definition public_key_to_address (public : PublicKey) : bytes :=
  drop 12 (keccak256 (drop 1 (serialize_uncompressed public))).

Definition public_key (secret : SecretKey) : PublicKey := from_secret_key secret.

(** [Message::from_digest_slice]. *)
Definition from_digest_slice (m : bytes) : outcome string bytes :=
  if bool_decide (length m = 32%nat) then Ok m else Err "InvalidMessage"%string.

Definition recover_signer_unchecked (sig msg : bytes) : outcome string bytes :=
  v ← unwrap (sig !! 64%nat);
  id ← ok_or (RecoveryId_from_i32 (v - 27)) "InvalidRecoveryId"%string;
  s ← ok_or (from_compact (take 64 sig) id) "InvalidSignature"%string;
  m ← from_digest_slice (take 32 msg);
  public ← ok_or (recover_ecdsa m s) "InvalidSignature"%string;
  Ok (public_key_to_address public).

Definition sign_message (secret_key : SecretKey) (message : bytes) : outcome string bytes :=
  sec ← ok_or (SecretKey_from_slice (secret_bytes secret_key)) "InvalidSecretKey"%string;
  m ← from_digest_slice message;
  let '(rec_id, data) := sign_ecdsa_recoverable m sec in
  unwrap (signature_as_bytes data (if to_i32 rec_id =? 0 then 0 else 1)).

(** [load_private_key]: the file is read with [unwrap]. *)
Definition load_private_key (contents : option bytes) : outcome string SecretKey :=
  data ← unwrap contents;
  ok_or (SecretKey_from_slice data) "InvalidSecretKey"%string.

(** ** The key of the enclave *)
Definition load_bootstrap (e : Enclave) : outcome BootStrapError SecretKey :=
  match priv_key e with
  | KeyFileOf contents => map_err (fun _ => DecryptionError) (load_private_key contents)
  | KeyReadOnly => Err WithWrongPermissions
  | KeyMissing => Err NotExist
  end.

(** [load_bootstrap(..).or_else(|_| bail!(..)).unwrap()]. *)
Definition load_bootstrap_or_panic (e : Enclave) : outcome string SecretKey := unwrap_ok (load_bootstrap e).

Definition load_bootstrap_privkey (e : Enclave) : outcome string (SecretKey * PublicKey * bytes) :=
  prev_privkey ← load_bootstrap_or_panic e;
  let new_pubkey := public_key prev_privkey in
  Ok (prev_privkey, new_pubkey, public_key_to_address new_pubkey).

Definition save_priv_key (key_pair : SecretKey) : Op () := fun e =>
  if secrets_writable e then (set_priv_key e (KeyFileOf (Some (secret_bytes key_pair))), Ok ())
  else (e, Err "Failed to create private key file"%string).

(** [pubkey.to_vec()] resized to 64 bytes with zeros. *)
Definition extended_pubkey (pubkey : bytes) : bytes := take 64 (pubkey ++ replicate (64 - length pubkey) 0).

Definition save_attestation_user_report_data (pubkey : bytes) : Op () := fun e =>
  match dev_report e with
  | Some _ => (set_dev_report e (extended_pubkey pubkey), Ok ())
  | None => (e, Err "Failed to save user report data"%string)
  end.

Definition get_sgx_quote (e : Enclave) : outcome string bytes :=
  ok_or (dev_quote e (dev_report e)) "no quote"%string.

Definition get_sgx_attestation_type (e : Enclave) : outcome string () :=
  ensure (dev_type e) "Cannot find attestation type"%string.

(** The fields printed are slices of the quote up to byte 432. *)
Definition print_sgx_info (e : Enclave) : outcome string () :=
  _ ← get_sgx_attestation_type e;
  quote ← get_sgx_quote e;
  _ ← assert (E := string) (432 <=? Z.of_nat (length quote));
  Ok ().

Definition save_bootstrap_details (key_pair : SecretKey) (new_instance quote : bytes) : Op () := fun e =>
  if config_writable e
  then (set_bootstrap_file e (("0x" ++ pubkey_to_string (public_key key_pair))%string, new_instance, quote), Ok ())
  else (e, Err "Saving bootstrap data file failed"%string).

(** [bootstrap], given the generated key pair. *)
Definition bootstrap (key_pair : SecretKey) : Op () :=
  _ ← save_priv_key key_pair;
  let new_instance := public_key_to_address (public_key key_pair) in
  _ ← save_attestation_user_report_data new_instance;
  quote ← reads get_sgx_quote;
  save_bootstrap_details key_pair new_instance quote.

(** ** Proving

    The end of every proving function: the attestation, the quote, the data. *)
Definition attest (proof : bytes) (new_pubkey : PublicKey) (new_instance pi_hash : bytes) : Op SgxData :=
  _ ← save_attestation_user_report_data new_instance;
  quote ← reads get_sgx_quote;
  _ ← reads (fun e => ignore (print_sgx_info e));
  mret (mkSgxData proof quote ("0x" ++ pubkey_to_string new_pubkey) new_instance pi_hash).

Variable zlib_decompress_data : bytes -> option bytes.
Variable rlp_decode_transactions : bytes -> option (list Tx).

Definition one_shot (sgx_instance_id : Z) (input : GuestInput Tx) : Op SgxData :=
  prev_privkey ← reads load_bootstrap_or_panic;
  let new_pubkey := public_key prev_privkey in
  let new_instance := public_key_to_address new_pubkey in
  header ← lift (calculate_block_header zlib_decompress_data rlp_decode_transactions input);
  pi ← lift (ProtocolInstance_new input header Sgx);
  let pi_hash := instance_hash (set_sgx_instance pi new_instance) in
  sig ← lift (sign_message prev_privkey pi_hash);
  let proof := be_bytes 4 sgx_instance_id ++ new_instance ++ sig in
  attest proof new_pubkey new_instance pi_hash.

(** The first and the last input are unwrapped for the log line. *)
Definition one_shot_batch (sgx_instance_id : Z) (batch_input : GuestBatchInput Tx) : Op SgxData :=
  '(prev_privkey, new_pubkey, new_instance) ← reads load_bootstrap_privkey;
  final_blocks ← lift (calculate_batch_blocks_final_header zlib_decompress_data rlp_decode_transactions batch_input);
  pi ← lift (ProtocolInstance_new_batch batch_input final_blocks Sgx);
  let pi_hash := instance_hash (set_sgx_instance pi new_instance) in
  _ ← lift (unwrap (head (inputs batch_input)));
  _ ← lift (unwrap (last (inputs batch_input)));
  sig ← lift (sign_message prev_privkey pi_hash);
  let proof := be_bytes 4 sgx_instance_id ++ new_instance ++ sig in
  attest proof new_pubkey new_instance pi_hash.

(** ** Aggregation *)
Fixpoint verify_chain (cur_instance : bytes) (proofs : list RawProof) : outcome string bytes :=
  match proofs with
  | [] => Ok cur_instance
  | proof :: proofs' =>
      sig ← array_from 65 (raw_proof proof) 24;
      signer ← unwrap_ok (recover_signer_unchecked sig (raw_input proof));
      _ ← assert (E := string) (bool_decide (signer = cur_instance));
      next ← slice (raw_proof proof) 4 24;
      verify_chain next proofs'
  end.

Definition aggregation_hash (old_instance new_instance : bytes) (proofs : list RawProof) : bytes :=
  keccak256 (aggregation_output_combine
    ([left_padding_from old_instance; left_padding_from new_instance] ++ (raw_input <$> proofs))).

Definition aggregate (sgx_instance_id : Z) (input : RawAggregationGuestInput) : Op SgxData :=
  prev_privkey ← reads load_bootstrap_or_panic;
  let new_pubkey := public_key prev_privkey in
  let new_instance := public_key_to_address new_pubkey in
  first ← lift (unwrap (raw_proofs input !! 0%nat));
  old_instance ← lift (slice (raw_proof first) 4 24);
  cur_instance ← lift (verify_chain old_instance (raw_proofs input));
  _ ← lift (assert (bool_decide (cur_instance = new_instance)));
  let hash := aggregation_hash old_instance new_instance (raw_proofs input) in
  sig ← lift (sign_message prev_privkey hash);
  let proof := be_bytes 4 sgx_instance_id ++ old_instance ++ new_instance ++ sig in
  attest proof new_pubkey new_instance hash.

(** ** The server and the command line *)
Record SgxResponse := mkSgxResponse { resp_proof : bytes; resp_quote : bytes; resp_input : bytes }.
Record ServerResponse := mkServerResponse { resp_status : string; resp_message : string; resp_body : SgxResponse }.

Definition SgxResponse_default : SgxResponse := mkSgxResponse [] [] B256_default.

Definition respond (r : Enclave * outcome string SgxData) : Enclave * outcome string ServerResponse :=
  match r with
  | (e, Ok d) => (e, Ok (mkServerResponse "success" "" (mkSgxResponse (sgx_proof d) (sgx_quote d) (sgx_input d))))
  | (e, Err m) => (e, Ok (mkServerResponse "error" m SgxResponse_default))
  | (e, Panic) => (e, Panic)
  end.

Definition prove_block (id : Z) (input : GuestInput Tx) (e : Enclave) := respond (one_shot id input e).
Definition prove_batch (id : Z) (batch_input : GuestBatchInput Tx) (e : Enclave) :=
  respond (one_shot_batch id batch_input e).
Definition prove_aggregation (id : Z) (input : RawAggregationGuestInput) (e : Enclave) :=
  respond (aggregate id input e).
Definition bootstrap_server (key_pair : SecretKey) (e : Enclave) : Enclave * outcome string () :=
  let '(e', r) := bootstrap key_pair e in (e', unwrap_ok r).

(** [check_server] is [todo!()]. *)
Definition check_server (_ : GuestBatchInput Tx) (e : Enclave) : Enclave * outcome string () := (e, Panic).

Inductive Command : Type :=
| OneShot (id : Z) (input : GuestInput Tx)
| OneBatchShot (id : Z) (input : GuestBatchInput Tx)
| Aggregate (id : Z) (input : RawAggregationGuestInput)
| Bootstrap (key_pair : SecretKey)
| CheckBootstrap.

(** [main], with its input read; the server runs the handlers above. *)
Definition run_command (c : Command) : Op () :=
  match c with
  | OneShot id input => _ ← one_shot id input; mret ()
  | OneBatchShot id input => _ ← one_shot_batch id input; mret ()
  | Aggregate id input => _ ← aggregate id input; mret ()
  | Bootstrap key_pair => bootstrap key_pair
  | CheckBootstrap =>
      _ ← reads (fun e => map_err (fun _ => "check booststrap failed"%string) (load_bootstrap e)); mret ()
  end.
End sgx.

(** ** Laws of the curve library *)
Section laws.
Context `{P : ProtocolLib Tx} `{SC : Secp}.

(** Keccak has 32 bytes, a secret key is recovered from its bytes, a compact
    signature has 64 bytes and recovers the key that made it, and an Ethereum
    signature is the compact one with its parity in the last byte. *)
Class SgxLaws : Prop := {
  keccak_32 : forall b, length (ProtocolInstance.keccak b) = 32%nat;
  secret_roundtrip : forall sk, SecretKey_from_slice (secret_bytes sk) = Some sk;
  id_roundtrip : forall id, RecoveryId_from_i32 (to_i32 id) = Some id;
  compact_64 : forall m sk, length (sign_ecdsa_recoverable m sk).2 = 64%nat;
  recover_signed : forall m sk, length m = 32%nat ->
    (from_compact (sign_ecdsa_recoverable m sk).2 (sign_ecdsa_recoverable m sk).1 ≫= recover_ecdsa m) =
    Some (from_secret_key sk);
  as_bytes_parity : forall d p, length d = 64%nat -> p = 0 \/ p = 1 ->
    signature_as_bytes d p = Some (d ++ [27 + p])
}.
End laws.
Arguments SgxLaws Tx {P SC}.

(** ** Properties *)

Section properties.
Context {Tx : Type} `{KK : Keccak} `{AR : AlloyRlp} `{EA : EvmAccounts} `{BL : BlockLib Tx}.
Context `{K : KzgLib} `{P : ProtocolLib Tx} `{SC : Secp} `{Laws : !SgxLaws Tx}.

Lemma address_length (pk : PublicKey) : length (public_key_to_address pk) = 20%nat.
Proof. unfold public_key_to_address. by rewrite length_drop, keccak_32. Qed.

Definition low_recovery_id (sk : SecretKey) (m : bytes) : Prop :=
  0 <= to_i32 (sign_ecdsa_recoverable m sk).1 <= 1.

Lemma sign_message_spec sk m : length m = 32%nat ->
  sign_message sk m = Ok ((sign_ecdsa_recoverable m sk).2 ++
    [27 + (if to_i32 (sign_ecdsa_recoverable m sk).1 =? 0 then 0 else 1)]).
Proof.
  intros Hm. unfold sign_message, from_digest_slice. rewrite secret_roundtrip; cbn.
  rewrite bool_decide_eq_true_2 by done; cbn. pose proof (compact_64 m sk) as Hc.
  destruct (sign_ecdsa_recoverable m sk) as [id d]; cbn in *.
  rewrite as_bytes_parity; [done|done|]. case_match; auto.
Qed.

Lemma sign_message_Ok sk m sig : sign_message sk m = Ok sig -> length m = 32%nat /\ length sig = 65%nat.
Proof.
  intros H. assert (Hm : length m = 32%nat).
  { unfold sign_message, from_digest_slice in H. bind_inv. case_bool_decide; [done|discriminate]. }
  rewrite sign_message_spec in H by done. split; [done|]. injection H as <-.
  by rewrite length_app, compact_64.
Qed.

(** A signature of the enclave's key is recovered to the enclave's address
    by the check that aggregation performs, as long as the recovery id of the
    signature is 0 or 1 (the format keeps one bit of it). *)
Lemma recover_signature sk m : length m = 32%nat -> low_recovery_id sk m ->
  exists sig, sign_message sk m = Ok sig /\ length sig = 65%nat /\
    recover_signer_unchecked sig m = Ok (public_key_to_address (public_key sk)).
Proof.
  intros Hm Hlow. pose proof (sign_message_spec sk m Hm) as Hs. eexists; split; [done|].
  split; [by rewrite length_app, compact_64|].
  pose proof (recover_signed m sk Hm) as Hr. pose proof (compact_64 m sk) as Hc.
  unfold recover_signer_unchecked, low_recovery_id, public_key in *.
  destruct (sign_ecdsa_recoverable m sk) as [id d]; cbn in *.
  rewrite lookup_app_r, Hc by lia; cbn. replace (27 + _ - 27) with (to_i32 id) by (case_match; lia).
  rewrite id_roundtrip; cbn. rewrite take_app_length' by done.
  destruct (from_compact d id) as [s|]; [|done]; cbn in *.
  unfold from_digest_slice. rewrite take_ge, bool_decide_eq_true_2 by lia; cbn. by rewrite Hr.
Qed.

(** *** The end of a proving function *)
Lemma attest_Ok proof pk inst h e e' d : attest proof pk inst h e = (e', Ok d) ->
  e' = set_dev_report e (extended_pubkey inst) /\ sgx_proof d = proof /\ sgx_input d = h /\ sgx_address d = inst /\
  dev_quote e (Some (extended_pubkey inst)) = Some (sgx_quote d).
Proof.
  unfold attest. intros H. op_inv.
  match goal with H : save_attestation_user_report_data _ _ = _ |- _ =>
    unfold save_attestation_user_report_data in H; destruct (dev_report e); [|discriminate H] end.
  op_inv. unfold get_sgx_quote in *; cbn in *. by destruct (dev_quote e _); simplify_eq/=.
Qed.

(** The devices of an enclave that can attest an address. *)
Definition attestable (e : Enclave) (inst : bytes) : Prop :=
  is_Some (dev_report e) /\ exists q, dev_quote e (Some (extended_pubkey inst)) = Some q /\
    (dev_type e = true -> 432 <= Z.of_nat (length q)).

Lemma attest_succeeds proof pk inst h e : attestable e inst ->
  exists d, attest proof pk inst h e = (set_dev_report e (extended_pubkey inst), Ok d).
Proof.
  intros [[r Hr] (q & Hq & Hl)]. unfold attest, mbind, st_bind, save_attestation_user_report_data, reads.
  rewrite Hr. unfold get_sgx_quote; cbn. rewrite Hq; cbn. unfold print_sgx_info, get_sgx_attestation_type, ignore; cbn.
  destruct (dev_type e); cbn; [|eauto]. unfold get_sgx_quote; cbn. rewrite Hq; cbn.
  rewrite (proj2 (Z.leb_le _ _)) by auto. cbn. eauto.
Qed.

(** *** Proofs of one enclave *)
Definition instance_of (sk : SecretKey) : bytes := public_key_to_address (public_key sk).

(** A proof in the layout of the verifier, signed by the key. *)
Definition signed_proof (sk : SecretKey) (id : Z) (proof input : bytes) : Prop :=
  exists sig, proof = be_bytes 4 id ++ instance_of sk ++ sig /\ length proof = 89%nat /\
    sign_message sk input = Ok sig.

Lemma signed_proof_layout sk id sig input :
  sign_message sk input = Ok sig -> signed_proof sk id (be_bytes 4 id ++ instance_of sk ++ sig) input.
Proof.
  intros Hs. exists sig. split; [done|split; [|done]]. destruct (sign_message_Ok _ _ _ Hs) as [_ Hl].
  unfold instance_of. by rewrite !length_app, address_length, Hl.
Qed.

Lemma load_bootstrap_or_panic_Ok e sk : load_bootstrap_or_panic e = Ok sk -> load_bootstrap e = Ok sk.
Proof. unfold load_bootstrap_or_panic. by destruct (load_bootstrap e); intros; simplify_eq/=. Qed.

(** *** Aggregation *)

(** The instance a proof names and the signature it carries. *)
Definition named_instance (p : RawProof) : bytes := take 20 (drop 4 (raw_proof p)).
Definition carried_signature (p : RawProof) : bytes := drop 24 (raw_proof p).

(** Every proof is signed by the key before it in the chain that starts at [cur]. *)
Definition chained (cur : bytes) (ps : list RawProof) : Prop :=
  forall i p, ps !! i = Some p -> length (raw_proof p) = 89%nat /\
    exists signer, (cur :: (named_instance <$> ps)) !! i = Some signer /\
      recover_signer_unchecked (carried_signature p) (raw_input p) = Ok signer.

Lemma chained_cons cur p ps :
  chained cur (p :: ps) <->
  (length (raw_proof p) = 89%nat /\ recover_signer_unchecked (carried_signature p) (raw_input p) = Ok cur) /\
  chained (named_instance p) ps.
Proof.
  split.
  - intros H. split; [|intros i q Hq; exact (H (S i) q Hq)].
    destruct (H 0%nat p eq_refl) as (Hl & s & [= <-] & Hr). done.
  - intros [[Hl Hr] H] [|i] q Hq; cbn in Hq; [injection Hq as <-; cbn; eauto|exact (H i q Hq)].
Qed.

Lemma named_slice p : (24 <= length (raw_proof p))%nat -> slice (E := string) (raw_proof p) 4 24 = Ok (named_instance p).
Proof. intros. unfold slice. by rewrite (proj2 (Nat.leb_le 24 _)). Qed.

Lemma verify_chain_cons cur p ps :
  verify_chain cur (p :: ps) =
  if bool_decide (length (raw_proof p) = 89%nat)
  then match recover_signer_unchecked (carried_signature p) (raw_input p) with
       | Ok s => if bool_decide (s = cur) then verify_chain (named_instance p) ps else Panic
       | _ => Panic
       end
  else Panic.
Proof.
  cbn [verify_chain]. unfold array_from. change (24 + 65)%nat with 89%nat.
  case_bool_decide as Hl; [|done]. rewrite named_slice by lia.
  unfold carried_signature. cbn [mbind outcome_bind].
  destruct (recover_signer_unchecked _ _); cbn [mbind outcome_bind unwrap_ok]; [|done..].
  by case_bool_decide.
Qed.

Lemma verify_chain_spec cur ps c :
  verify_chain cur ps = Ok c <-> chained cur ps /\ last (cur :: (named_instance <$> ps)) = Some c.
Proof.
  revert cur; induction ps as [|p ps IH]; intros cur.
  - cbn. split; [intros [= <-]; split; [by intros i q|done]|intros [_ [= <-]]; done].
  - rewrite chained_cons, verify_chain_cons.
    change (last (cur :: (named_instance <$> p :: ps))) with (last (named_instance p :: (named_instance <$> ps))).
    case_bool_decide as Hl; [|split; [done|by intros [[[? _] _] _]]].
    destruct (recover_signer_unchecked _ _) as [s| |]; [|split; [done|by intros [[[_ ?] _] _]]..].
    case_bool_decide as Hs; [rewrite IH; subst s; tauto|split; [done|intros [[[_ [= ?]] _] _]; done]].
Qed.

(** C21: Aggregation signs only a chain of keys: the first proof is signed by the
    instance it names, every later proof by the instance named in the one before
    it, and the last names this enclave. The aggregate is the id, the first and
    the last instance and this enclave's signature of the hash of both instances
    with the inputs of all proofs, 109 bytes. *)
Theorem aggregate_chain_sound id input e e' d :
  aggregate (Tx := Tx) id input e = (e', Ok d) ->
  exists sk first sig, load_bootstrap e = Ok sk /\ raw_proofs input !! 0%nat = Some first /\
    chained (named_instance first) (raw_proofs input) /\
    named_instance <$> last (raw_proofs input) = Some (instance_of sk) /\
    sgx_input d = aggregation_hash (named_instance first) (instance_of sk) (raw_proofs input) /\
    sgx_proof d = be_bytes 4 id ++ named_instance first ++ instance_of sk ++ sig /\
    length (sgx_proof d) = 109%nat /\ sign_message sk (sgx_input d) = Ok sig.
Proof.
  unfold aggregate. intros H. op_inv. apply attest_Ok in H as (-> & Hp & Hi & _). rewrite Hp, Hi.
  match goal with H : unwrap _ = _ |- _ => rename H into Hf end.
  match goal with H : slice _ _ _ = _ |- _ => rename H into Ho end.
  match goal with H : verify_chain _ _ = _ |- _ => rename H into Hc end.
  match goal with H : assert _ = _ |- _ => apply assert_Ok in H; breflect end. subst.
  destruct (raw_proofs input) as [|f ps] eqn:Eps; [done|]. cbn in Hf. injection Hf as <-.
  assert (length (raw_proof f) = 89%nat) as Hl.
  { rewrite verify_chain_cons in Hc. case_bool_decide; [done|discriminate]. }
  rewrite named_slice in Ho by lia. injection Ho as <-. apply verify_chain_spec in Hc as [Hc Hlast].
  match goal with H : sign_message _ _ = _ |- _ => rename H into Hs end.
  eexists _, f, _. split_and!; try by eauto using load_bootstrap_or_panic_Ok.
  - cbn [fmap list_fmap] in Hlast. rewrite last_cons_cons in Hlast.
    change (named_instance f :: (named_instance <$> ps)) with (named_instance <$> (f :: ps)) in Hlast.
    by rewrite fmap_last in Hlast.
  - destruct (sign_message_Ok _ _ _ Hs) as [_ Hsl]. rewrite !length_app, address_length, Hsl.
    unfold named_instance. by rewrite length_take, length_drop, Hl.
Qed.

(** *** Blocks and batches *)
Variables (zlib : bytes -> option bytes) (rlp : bytes -> option (list Tx)).

Lemma one_shot_run id input e e' d :
  one_shot zlib rlp id input e = (e', Ok d) ->
  exists sk h pi, load_bootstrap e = Ok sk /\ calculate_block_header zlib rlp input = Ok h /\
    ProtocolInstance_new input h Sgx = Ok pi /\
    sgx_input d = instance_hash (set_sgx_instance pi (instance_of sk)) /\
    signed_proof sk id (sgx_proof d) (sgx_input d) /\ e' = set_dev_report e (extended_pubkey (instance_of sk)).
Proof.
  unfold one_shot. intros H. op_inv. apply attest_Ok in H as (-> & Hp & Hi & _).
  rewrite Hp, Hi. eexists _, _, _.
  split_and!; try by eauto using load_bootstrap_or_panic_Ok. by apply signed_proof_layout.
Qed.

Lemma one_shot_batch_run id bi e e' d :
  one_shot_batch zlib rlp id bi e = (e', Ok d) ->
  exists sk fb pi, load_bootstrap e = Ok sk /\ calculate_batch_blocks_final_header zlib rlp bi = Ok fb /\
    ProtocolInstance_new_batch bi fb Sgx = Ok pi /\
    sgx_input d = instance_hash (set_sgx_instance pi (instance_of sk)) /\
    signed_proof sk id (sgx_proof d) (sgx_input d) /\ e' = set_dev_report e (extended_pubkey (instance_of sk)).
Proof.
  unfold one_shot_batch, load_bootstrap_privkey. intros H. op_inv. bind_inv. op_inv.
  apply attest_Ok in H as (-> & Hp & Hi & _).
  rewrite Hp, Hi. eexists _, _, _.
  split_and!; try by eauto using load_bootstrap_or_panic_Ok. by apply signed_proof_layout.
Qed.

(** C22: A proof returned by the enclave, for a block or for a batch, is the four
    bytes of the instance id, the address of the enclave's key and the key's
    signature of the instance hash, in which that address is bound; the block was
    executed, or the blocks executed and linked, and the instance built from the
    same input; the report data now name the address and the key is unchanged. *)
Theorem one_shot_signs id (input : GuestInput Tx + GuestBatchInput Tx) e e' d :
  match input with
  | inl i => one_shot zlib rlp id i e
  | inr bi => one_shot_batch zlib rlp id bi e
  end = (e', Ok d) ->
  exists sk pi, load_bootstrap e = Ok sk /\
    match input with
    | inl i => exists h, calculate_block_header zlib rlp i = Ok h /\ ProtocolInstance_new i h Sgx = Ok pi
    | inr bi => exists fb, calculate_batch_blocks_final_header zlib rlp bi = Ok fb /\
        ProtocolInstance_new_batch bi fb Sgx = Ok pi
    end /\
    sgx_input d = instance_hash (set_sgx_instance pi (instance_of sk)) /\
    signed_proof sk id (sgx_proof d) (sgx_input d) /\
    dev_report e' = Some (extended_pubkey (instance_of sk)) /\ priv_key e' = priv_key e.
Proof.
  destruct input as [i|bi]; intros H.
  - destruct (one_shot_run _ _ _ _ _ H) as (sk & h & pi & ? & ? & ? & ? & ? & ->). exists sk, pi. split_and!; eauto.
  - destruct (one_shot_batch_run _ _ _ _ _ H) as (sk & h & pi & ? & ? & ? & ? & ? & ->). exists sk, pi. split_and!; eauto.
Qed.

(** A proof that an enclave with this key returned for a block or a batch. *)
Definition proved_by (sk : SecretKey) (p : RawProof) : Prop :=
  exists id e e' d, load_bootstrap e = Ok sk /\ p = mkRawProof (sgx_proof d) (sgx_input d) /\
    ((exists input, one_shot zlib rlp id input e = (e', Ok d)) \/
     (exists bi, one_shot_batch zlib rlp id bi e = (e', Ok d))).

Lemma signed_proof_fields sk id p :
  signed_proof sk id (raw_proof p) (raw_input p) -> low_recovery_id sk (raw_input p) ->
  length (raw_proof p) = 89%nat /\ named_instance p = instance_of sk /\
  recover_signer_unchecked (carried_signature p) (raw_input p) = Ok (instance_of sk).
Proof.
  intros (sig & E & Hl & Hs) Hlow. destruct (sign_message_Ok _ _ _ Hs) as [Hm _].
  pose proof (address_length (public_key sk)) as Ha. fold (instance_of sk) in Ha.
  unfold named_instance, carried_signature. split; [done|]. rewrite E.
  assert (length (be_bytes 4 id) = 4%nat) as H4 by done.
  rewrite !(drop_app_length' _ _ 4) by done. split; [by rewrite take_app_length'|].
  rewrite app_assoc, drop_app_length' by (rewrite length_app; lia).
  destruct (recover_signature sk _ Hm Hlow) as (sig' & Hs' & _ & Hr).
  rewrite Hs in Hs'. injection Hs' as <-. exact Hr.
Qed.

Lemma proved_by_fields sk p : proved_by sk p -> low_recovery_id sk (raw_input p) ->
  length (raw_proof p) = 89%nat /\ named_instance p = instance_of sk /\
  recover_signer_unchecked (carried_signature p) (raw_input p) = Ok (instance_of sk).
Proof.
  intros (id & e & e' & d & Hk & -> & [[i H]|[i H]]) Hlow; apply (signed_proof_fields _ id); [|done| |done].
  - destruct (one_shot_run _ _ _ _ _ H) as (sk' & ? & ? & Hk' & _ & _ & _ & Hs & _). rewrite Hk in Hk'. by simplify_eq.
  - destruct (one_shot_batch_run _ _ _ _ _ H) as (sk' & ? & ? & Hk' & _ & _ & _ & Hs & _). rewrite Hk in Hk'. by simplify_eq.
Qed.

Lemma last_same {A} (x : A) l : Forall (eq x) l -> last (x :: l) = Some x.
Proof. induction 1 as [|y l <- Hl IH]; [done|]. by rewrite last_cons_cons. Qed.

Lemma same_chain sk ps :
  Forall (fun p => length (raw_proof p) = 89%nat /\ named_instance p = instance_of sk /\
    recover_signer_unchecked (carried_signature p) (raw_input p) = Ok (instance_of sk)) ps ->
  verify_chain (instance_of sk) ps = Ok (instance_of sk).
Proof.
  induction 1 as [|p ps (Hl & Hn & Hr) Hps IH]; [done|].
  by rewrite verify_chain_cons, bool_decide_eq_true_2, Hr, bool_decide_eq_true_2, Hn.
Qed.

(** C20: An enclave aggregates its own proofs: every non-empty list of proofs that
    enclaves with its key returned for blocks and batches, in any order, passes
    the chain check and is signed, provided its devices can attest and the
    recovery ids fit the signature format. *)
Theorem own_proofs_aggregate sk id ps e :
  load_bootstrap e = Ok sk -> attestable e (instance_of sk) -> ps <> [] ->
  Forall (proved_by sk) ps -> Forall (fun p => low_recovery_id sk (raw_input p)) ps ->
  exists e' d, aggregate (Tx := Tx) id (mkRawAggregationGuestInput ps) e = (e', Ok d) /\
    sgx_input d = aggregation_hash (instance_of sk) (instance_of sk) ps.
Proof.
  intros Hk Ha Hne Hps Hlow. assert (Hf : Forall (fun p => length (raw_proof p) = 89%nat /\
    named_instance p = instance_of sk /\
    recover_signer_unchecked (carried_signature p) (raw_input p) = Ok (instance_of sk)) ps).
  { apply Forall_forall. intros p Hp. rewrite Forall_forall in Hps, Hlow. apply proved_by_fields; auto. }
  destruct ps as [|p ps]; [done|]. pose proof (same_chain _ _ Hf) as Hc.
  apply Forall_cons in Hf as [(Hl & Hn & _) _].
  set (hash := aggregation_hash (instance_of sk) (instance_of sk) (p :: ps)).
  assert (Hh : length hash = 32%nat) by apply keccak_32.
  pose proof (sign_message_spec sk hash Hh) as Hs.
  destruct (attest_succeeds (be_bytes 4 id ++ instance_of sk ++ instance_of sk ++
    ((sign_ecdsa_recoverable hash sk).2 ++ [27 + (if to_i32 (sign_ecdsa_recoverable hash sk).1 =? 0 then 0 else 1)]))
    (public_key sk) (instance_of sk) hash e Ha) as [d Hd].
  exists (set_dev_report e (extended_pubkey (instance_of sk))), d.
  split; [|by apply attest_Ok in Hd as (_ & _ & -> & _)].
  unfold aggregate, load_bootstrap_or_panic, mbind, st_bind, reads, lift. rewrite Hk. cbn [unwrap_ok raw_proofs lookup list_lookup unwrap].
  rewrite named_slice, Hn by lia. rewrite Hc. fold (instance_of sk). rewrite bool_decide_eq_true_2 by done.
  cbn [assert]. fold hash. by rewrite Hs.
Qed.

(** A key file that cannot be read is not reported as an error: reading it is
    unwrapped, so neither the check of the bootstrap nor a proof returns. *)
Theorem unreadable_key_panics e :
  priv_key e = KeyFileOf None -> load_bootstrap e = Panic /\ run_command (Tx := Tx) zlib rlp CheckBootstrap e = (e, Panic).
Proof.
  intros Hk. unfold run_command, mbind, st_bind, reads, load_bootstrap. by rewrite Hk.
Qed.
End properties.

(** ** Witnesses

    A toy curve with two keys, over the concrete hash of the other witnesses. *)
Definition toy_secp : Secp := {|
  SecretKey := bool; PublicKey := bool; RecoveryId := bool; RecoverableSignature := bytes;
  SecretKey_from_slice := fun b => match last b with Some 1 => Some true | Some 2 => Some false | _ => None end;
  secret_bytes := fun k => be_bytes 32 (if k then 1 else 2);
  from_secret_key := fun k => k;
  serialize_uncompressed := fun k => 4 :: be_bytes 64 (if k then 1 else 2);
  pubkey_to_string := fun k => if k then "02"%string else "03"%string;
  RecoveryId_from_i32 := fun i => if i =? 0 then Some false else if i =? 1 then Some true else None;
  to_i32 := fun id => if id then 1 else 0;
  from_compact := fun b _ => Some b;
  sign_ecdsa_recoverable := fun _ k => (k, (if k then 1 else 2) :: replicate 63 0);
  recover_ecdsa := fun _ s => match s with 1 :: _ => Some true | 2 :: _ => Some false | _ => None end;
  signature_as_bytes := fun d p => Some (d ++ [27 + p])
|}.

Definition sgx_protocol : ProtocolLib bytes := {|
  ProtocolInstance.keccak := fun b => be_bytes 32 (mix b);
  hash_slow := fun h => [number h];
  abi_encode_meta := fun m => ser (meta_fields m);
  abi_encode_meta2 := fun m => ser (meta2_fields m);
  abi_encode_batch_meta := fun m => ser (batch_meta_fields m);
  abi_encode_batch_info := fun i => ser (batch_info_fields i);
  abi_encode_txs := fun p => replicate 32 0 ++ p.1 ++ concat p.2;
  abi_encode_instance := fun t => replicate 32 0 ++ ser (tuple_fields t);
  decode_anchor_pacaya := fun tx => Some [tx];
  ANCHOR_GAS_LIMIT := 250000;
  default_specs := ∅
|}.

#[local] Existing Instance toy_secp.
#[local] Existing Instance sgx_protocol.
#[local] Existing Instance toy_kzg.
#[local] Existing Instance model_accounts.
#[local] Existing Instance model_blocks.

#[local] Instance toy_sgx_laws : SgxLaws bytes.
Proof.
  split; try done; [by intros []|by intros []|by intros m []].
Qed.

Definition sgx_meta : BlockMetadataV2 :=
  mkBlockMetadataV2 [1] [] (be_bytes 32 (mix [])) (bytes_to_bytes32 []) [] 10 100 0 1 0 false [] [] 0 0 0 0 0 0
    (mkOntakeBaseFeeConfig 0 0 0 0 0).
Definition sgx_header : Header :=
  mkHeader [9] [] [] EMPTY_ROOT [] [] None [] 0 10 250100 0 0 [] 0 None [].
Definition sgx_block_input : GuestInput bytes :=
  mkGuestInput (mkBlock sgx_header [] []) toy_chain (model_header 9) Mpt.default ∅ [] [model_header 8]
    (mkTaikoGuestInput (model_header 1) [] (Some [42]) (Ontake (mkBlockProposedV2 10 sgx_meta))
       (mkTaikoProverData [] []) None None KzgVersionedHash).
Definition sgx_enclave : Enclave :=
  mkEnclave (KeyFileOf (Some (be_bytes 32 1))) true true (Some []) (fun r => Some (or_else r [] ++ replicate 432 0)) true None.
Definition sgx_zlib : bytes -> option bytes := Some.
Definition sgx_rlp (b : bytes) : option (list bytes) := Some ((fun x => [x]) <$> b).

Definition sgx_result : Enclave * outcome string SgxData := one_shot sgx_zlib sgx_rlp 7 sgx_block_input sgx_enclave.
Definition sgx_data : SgxData :=
  match sgx_result.2 with Ok d => d | _ => mkSgxData [] [] "" [] [] end.

Lemma sgx_run : one_shot sgx_zlib sgx_rlp 7 sgx_block_input sgx_enclave = (sgx_result.1, Ok sgx_data).
Proof. vm_compute. reflexivity. Qed.

Lemma one_shot_signs_witness : exists sk pi, load_bootstrap sgx_enclave = Ok sk /\
  sgx_input sgx_data = instance_hash (set_sgx_instance pi (instance_of sk)).
Proof.
  destruct (one_shot_signs sgx_zlib sgx_rlp 7 (inl sgx_block_input) sgx_enclave _ _ sgx_run)
    as (sk & pi & Hk & _ & Hi & _).
  exists sk, pi. split; [exact Hk|exact Hi].
Defined.

Definition sgx_raw : RawProof := mkRawProof (sgx_proof sgx_data) (sgx_input sgx_data).

Definition sgx_key : SecretKey := true.

Lemma sgx_attestable : attestable sgx_enclave (instance_of sgx_key).
Proof.
  split; [eexists; reflexivity|]. eexists. split; [reflexivity|]. intros _. vm_compute. discriminate.
Qed.

Lemma sgx_proved : Forall (proved_by sgx_zlib sgx_rlp sgx_key) [sgx_raw; sgx_raw].
Proof.
  assert (proved_by sgx_zlib sgx_rlp sgx_key sgx_raw) by
    (exists 7, sgx_enclave, sgx_result.1, sgx_data; split_and!; [reflexivity|reflexivity|left; eexists; exact sgx_run]).
  repeat constructor; auto.
Qed.

Lemma own_proofs_aggregate_witness : exists e' d,
  aggregate (Tx := bytes) 7 (mkRawAggregationGuestInput [sgx_raw; sgx_raw]) sgx_enclave = (e', Ok d).
Proof.
  destruct (own_proofs_aggregate sgx_zlib sgx_rlp sgx_key 7 [sgx_raw; sgx_raw] sgx_enclave)
    as (e' & d & H & _); [reflexivity|exact sgx_attestable|discriminate|exact sgx_proved| |].
  - repeat constructor; unfold low_recovery_id; simpl; lia.
  - exists e', d. exact H.
Defined.

Definition sgx_agg : Enclave * outcome string SgxData :=
  aggregate (Tx := bytes) 7 (mkRawAggregationGuestInput [sgx_raw; sgx_raw]) sgx_enclave.
Definition sgx_agg_data : SgxData :=
  match sgx_agg.2 with Ok d => d | _ => mkSgxData [] [] "" [] [] end.

Lemma sgx_agg_run : sgx_agg = (sgx_agg.1, Ok sgx_agg_data).
Proof. vm_compute. reflexivity. Qed.

Lemma aggregate_chain_sound_witness : length (sgx_proof sgx_agg_data) = 109%nat.
Proof.
  destruct (aggregate_chain_sound 7 (mkRawAggregationGuestInput [sgx_raw; sgx_raw]) sgx_enclave _ _ sgx_agg_run)
    as (sk & f & sig & _ & _ & _ & _ & _ & _ & Hl & _).
  exact Hl.
Defined.

(** A proof of the other key does not aggregate here, nor does an empty list. *)
Example foreign_proof_rejected :
  (aggregate (Tx := bytes) 7 (mkRawAggregationGuestInput [sgx_raw])
     (set_priv_key sgx_enclave (KeyFileOf (Some (be_bytes 32 2))))).2 = Panic /\
  (aggregate (Tx := bytes) 7 (mkRawAggregationGuestInput []) sgx_enclave).2 = Panic.
Proof. vm_compute. split; reflexivity. Qed.
