(* ===== verification/SgxProver.v ===== *)
(** * SgxProver: the host side of SGX proving

    Models [provers/sgx/prover]: the choice between a local and a remote prover
    ([lib.rs]), the local one, which runs the guest as a process
    ([local_prover.rs]), and the remote one, which asks a server
    ([remote_prover.rs]). Processes, files and HTTP are the operations of a
    [Machine]; the functions of other crates are the fields of [SgxLib]. The
    guest of [SgxGuest] is a process of such a machine in [SgxProcess]. *)
From stdpp Require Import base list list_numbers gmap fin_maps strings.
From Stdlib Require Import ZArith Lia Ascii.
From S2P Require Import Prelude Text Effect Types Interfaces ChainSpec RlpCodec Input Blob Raiko.
Local Open Scope string_scope.
Local Open Scope Z_scope.

(** ** The machine *)
Record IoError := mkIoError { io_not_found : bool; io_text : string }.
Record Output := mkOutput { out_success : bool; out_status : string; out_stdout : bytes; out_stderr : bytes }.
Record Cmd := mkCmd { program : string; cmd_args : list string; cmd_dir : option string }.
Definition arg (c : Cmd) (l : list string) : Cmd := mkCmd (program c) (cmd_args c ++ l) (cmd_dir c).

(** A process that could not be started, one that could not be awaited, and one
    that has ended. *)
Inductive ProcessResult : Type :=
| NotSpawned (e : IoError)
| NotAwaited (e : IoError)
| Exited (o : Output).

Record HttpResponse := mkHttpResponse { http_success : bool; http_status : string; http_text : outcome string string }.

Class Machine (W : Type) := {
  (** Running a process, with what is written to its standard input. *)
  run_process : Cmd -> bytes -> W -> W * ProcessResult;
  path_exists : string -> W -> bool;
  remove_file : string -> St W IoError ();
  create_dir_all : string -> St W IoError ();
  copy_file : string -> string -> St W IoError ();
  tempfile : St W IoError ();
  (** A POST with a body, if any; the error is the text of a request that was not
      answered. *)
  post : string -> option string -> St W string HttpResponse
}.

(** [Command::output] and [Expression::run]. *)
Definition output_of `{Machine W} (c : Cmd) (stdin : bytes) : St W IoError Output := fun w =>
  let '(w', r) := run_process c stdin w in
  (w', match r with Exited o => Ok o | NotSpawned e | NotAwaited e => Err e end).

(** ** Parameters and results *)
Record SgxParam := mkSgxParam { instance_ids : gmap Z Z; sgx_setup : bool; sgx_bootstrap : bool; sgx_prove : bool }.
Record SgxResponse := mkSgxResponse { sr_proof : string; sr_quote : string; sr_input : bytes }.
Definition SgxResponse_default : SgxResponse := mkSgxResponse "" "" B256_default.
Definition response_into (value : SgxResponse) : Proof_ :=
  mkProof (Some (sr_proof value)) (Some (sr_input value)) (Some (sr_quote value)) None None.
Record RemoteSgxResponse := mkRemoteSgxResponse { rs_status : string; rs_message : string; rs_sgx_response : SgxResponse }.

Inductive SgxProverType : Type := LocalType | RemoteType.
Definition SgxProverType_from_str {E} (s : string) : outcome E SgxProverType :=
  if bool_decide (to_lowercase s = "local") then Ok LocalType
  else if bool_decide (to_lowercase s = "remote") then Ok RemoteType
  else Panic.

(** The environment of the process, and the functions of other crates: the names
    of forks in JSON, the parsers and printers of serde, UTF-8 and hexadecimal. *)
Class SgxLib := {
  env : string -> option string;
  (** the path of the executable, as its components *)
  current_exe : option (list string);
  docker_build : bool;
  spec_id_from_str : string -> option Z;
  spec_id_text : Z -> string;
  json_from_str : string -> option Value;
  sgx_response_from_str : string -> outcome string SgxResponse;
  remote_response_from_str : string -> outcome string RemoteSgxResponse;
  from_utf8 : bytes -> outcome string string;
  from_utf8_lossy : bytes -> string;
  text_bytes : string -> bytes;
  parse_b256 : string -> option bytes;
  hex_decode : string -> option bytes;
  raw_json : RawAggregationGuestInput -> outcome string string;
  (** what a serializer has written to a pipe when it ends, or fails *)
  raw_json_written : RawAggregationGuestInput -> bytes;
  raw_bincode_written : RawAggregationGuestInput -> bytes;
  (** the text of the error of a task that panicked *)
  join_error : string
}.

(** The serializers of the inputs. *)
Class SgxCodec (Tx : Type) := {
  input_json : GuestInput Tx -> outcome string string;
  input_bincode : GuestInput Tx -> outcome string bytes;
  batch_json : GuestBatchInput Tx -> outcome string string;
  batch_bincode : GuestBatchInput Tx -> outcome string bytes
}.

Section prover.
Context {W Tx : Type} `{MC : Machine W} `{SL : SgxLib} `{SX : SgxCodec Tx}.
Abbreviation M := (St W ProverError).

Definition io_err {A} (f : IoError -> string) (m : St W IoError A) : M A := map_st_err (fun e => GuestError (f e)) m.
Definition guest_err {A} (m : outcome string A) : M A := lift (map_err GuestError m).

(** [spawn_blocking(..).await]: a panic of the task is an error. *)
Definition spawn_blocking {A} (m : M A) : M A := fun w =>
  let '(w', r) := m w in (w', match r with Panic => Err (GuestError join_error) | _ => r end).

(** A result that is kept as a value. *)
Definition attempt {A} (m : M A) : M (outcome ProverError A) := fun w =>
  let '(w', r) := m w in (w', match r with Panic => Panic | _ => Ok r end).

(** [HashMap<SpecId, u64>]. *)
Fixpoint instance_ids_from (l : list (string * Value)) : option (gmap Z Z) :=
  match l with
  | [] => Some ∅
  | (k, v) :: rest =>
      m ← instance_ids_from rest; s ← spec_id_from_str k; id ← as_u64 v; Some (<[s := id]> m)
  end.
Definition dec_instance_ids (v : Value) : option (gmap Z Z) :=
  match v with JObject l => instance_ids_from (reverse l) | _ => None end.

(** Both the lookup and the decoding are unwrapped. *)
Definition sgx_param (proof_type : ProofType) (config : Value) : outcome ProverError SgxParam :=
  v ← unwrap (Interfaces.get (proof_type_to_string proof_type) config);
  unwrap (match v with
          | JObject _ =>
              ids ← Interfaces.get "instance_ids" v ≫= dec_instance_ids;
              s ← Interfaces.get "setup" v ≫= as_bool;
              b ← Interfaces.get "bootstrap" v ≫= as_bool;
              p ← Interfaces.get "prove" v ≫= as_bool;
              Some (mkSgxParam ids s b p)
          | JArray [a; b; c; d] =>
              ids ← dec_instance_ids a; s ← as_bool b; b ← as_bool c; p ← as_bool d; Some (mkSgxParam ids s b p)
          | _ => None
          end).

Definition handle_gramine_error (context : string) (err : IoError) : string :=
  if io_not_found err then "gramine could not be found, please install gramine first. (" +:+ io_text err +:+ ")"
  else context +:+ ": " +:+ io_text err.

Definition handle_output (output : Output) (name : string) : outcome string () :=
  if out_success output then Ok ()
  else Err (name +:+ " encountered an error (" +:+ out_status output +:+ "): " +:+ from_utf8_lossy (out_stderr output)).

(** [str::lines]: the last line may be without its end. *)
Definition newline : ascii := "010"%char.
Definition lines (s : string) : list string :=
  let l := split newline s in
  match last l with Some "" => take (length l - 1) l | _ => l end.

Fixpoint first_json (l : list string) : option Value :=
  match l with
  | [] => None
  | line :: rest => match json_from_str (trim line) with Some v => Some v | None => first_json rest end
  end.

Definition parse_sgx_result (output : bytes) : outcome string SgxResponse :=
  output ← from_utf8 output;
  let json_value := first_json (lines output) in
  let extract_field field := default "" (v ← json_value; f ← Interfaces.get field v; as_str f) in
  Ok (mkSgxResponse (extract_field "proof") (extract_field "quote") (default B256_default (parse_b256 (extract_field "input")))).

Definition get_instance_id_from_params (input : GuestInput Tx) (p : SgxParam) : outcome ProverError Z :=
  spec_id ← map_err GuestError (active_fork (chain_spec input) (number (block_header (block input))) (timestamp (block_header (block input))));
  ok_or (instance_ids p !! spec_id) (GuestError ("No instance id found for spec id: " +:+ spec_id_text spec_id)).

(** ** The local prover *)
Definition PRIV_KEY_FILENAME : string := "priv.key".
Definition PRIV_KEY_FILENAME_GAIKO : string := "priv.gaiko.key".
Definition get_priv_key_filename (proof_type : ProofType) : outcome ProverError string :=
  match proof_type with Sgx => Ok PRIV_KEY_FILENAME | SgxGeth => Ok PRIV_KEY_FILENAME_GAIKO | _ => Panic end.
Definition ELF_NAME : string := "sgx-guest".
Definition GAIKO_ELF_NAME : string := "gaiko".
Definition CONFIG : list string := (if docker_build then [] else [".."]) ++ [".."; "provers"; "sgx"; "config"].

Definition direct_mode : bool := bool_decide (env "SGX_DIRECT" = Some "1").

(** Paths are the lists of their components. *)
Definition path_text (l : list string) : string := "/" +:+ String.concat "/" l.
Definition parent (l : list string) : option (list string) :=
  match reverse l with [] => None | _ :: l' => Some (reverse l') end.
Definition cur_dir : outcome ProverError (list string) :=
  exe ← unwrap current_exe;
  dir ← unwrap (parent exe);
  if bool_decide (last dir = Some "deps") then unwrap (parent dir) else Ok dir.

(** The command of [run] and [batch_run], and the one of [aggregate]. *)
Definition gramine_cmd (proof_type : ProofType) (dir : list string) : Cmd :=
  if direct_mode then mkCmd "gramine-direct" [ELF_NAME] (Some (path_text dir))
  else if bool_decide (proof_type = SgxGeth) then mkCmd "sudo" [path_text (dir ++ [GAIKO_ELF_NAME])] None
  else mkCmd "sudo" ["gramine-sgx"; ELF_NAME] (Some (path_text dir)).
Definition gramine_cmd_aggregate (proof_type : ProofType) (dir : list string) : Cmd :=
  if bool_decide (proof_type = SgxGeth) then mkCmd "sudo" [path_text (dir ++ [GAIKO_ELF_NAME])] None
  else if direct_mode then mkCmd "gramine-direct" [ELF_NAME] (Some (path_text dir))
  else mkCmd "sudo" ["gramine-sgx"; ELF_NAME] (Some (path_text dir)).

(** A file operation whose error is unwrapped. *)
Definition must {E A} (m : St W E A) : M A := fun w =>
  let '(w', r) := m w in (w', match r with Ok a => Ok a | _ => Panic end).

Fixpoint must_all {A} (f : A -> St W IoError ()) (l : list A) : M () :=
  match l with [] => mret tt | x :: rest => _ ← must (f x); must_all f rest end.

Definition setup (dir : list string) : M () :=
  _ ← must_all (fun d => create_dir_all (path_text (dir ++ [d]))) ["secrets"; "config"];
  _ ← (if direct_mode then
         must_all (fun f => copy_file (path_text (dir ++ CONFIG ++ ["dummy_data"; f])) (path_text (dir ++ [f]))) ["attestation_type"; "quote"; "user_report_data"]
       else mret tt);
  output ← io_err (handle_gramine_error "Could not generate manfifest")
    (output_of (mkCmd "gramine-manifest" ["-Dlog_level=error"; "-Darch_libdir=/lib/x86_64-linux-gnu/";
       "-Ddirect_mode=" +:+ (if direct_mode then "1" else "0"); path_text (dir ++ CONFIG ++ ["sgx-guest.local.manifest.template"]); "sgx-guest.manifest"]
       (Some (path_text dir))) []);
  _ ← guest_err (handle_output output "SGX generate manifest");
  if direct_mode then mret tt
  else
    output ← io_err (handle_gramine_error "Could not generate SGX private key")
      (output_of (mkCmd "gramine-sgx-gen-private-key" ["-f"] (Some (path_text dir))) []);
    _ ← guest_err (handle_output output "SGX private key");
    output ← io_err (handle_gramine_error "Could not sign manfifest")
      (output_of (mkCmd "gramine-sgx-sign" ["--manifest"; "sgx-guest.manifest"; "--output"; "sgx-guest.manifest.sgx"] (Some (path_text dir))) []);
    guest_err (handle_output output "SGX manifest sign").

Definition check_bootstrap (secret_dir : list string) (cmd : Cmd) (proof_type : ProofType) : M () :=
  spawn_blocking (
    name ← lift (get_priv_key_filename proof_type);
    there ← gets (path_exists (path_text (secret_dir ++ [name])));
    if there : bool then
      output ← io_err (handle_gramine_error "Could not run SGX guest bootstrap") (output_of (arg cmd ["check"]) []);
      guest_err (handle_output output "SGX check bootstrap")
    else lift (Err (GuestError "Private key does not exist"))).

(** A key that cannot be deleted is only reported. *)
Definition delete_key (path : string) : M () :=
  there ← gets (path_exists path);
  if there : bool then _ ← attempt (io_err io_text (remove_file path)); mret () else mret ().

(** [bootstrap2] and [bootstrap] differ in the library that runs the command;
    only the second captures what is written to the error output. *)
Definition local_bootstrap (stderr_capture : bool) (secret_dir : list string) (cmd : Cmd) (proof_type : ProofType) : M SgxResponse :=
  spawn_blocking (
    name ← lift (get_priv_key_filename proof_type);
    _ ← delete_key (path_text (secret_dir ++ [name]));
    output ← io_err (handle_gramine_error "Could not run SGX guest bootstrap") (output_of (arg cmd ["bootstrap"]) []);
    let output := if stderr_capture then output else mkOutput (out_success output) (out_status output) (out_stdout output) [] in
    _ ← guest_err (handle_output output "SGX bootstrap");
    guest_err (parse_sgx_result (out_stdout output))).

(** What is written to the guest: gaiko reads JSON from a temporary file, the
    Rust guest reads bincode. *)
Definition serialize_err {A} (m : outcome string A) : M A :=
  lift (map_err (fun e => GuestError ("Failed to serialize input: " +:+ e)) m).
Definition guest_stdin {A} (to_json : A -> outcome string string) (to_bincode : A -> outcome string bytes) (proof_type : ProofType) (input : A) : M bytes :=
  if bool_decide (proof_type = SgxGeth) then
    _ ← map_st_err (fun e => FileIo (io_text e)) tempfile;
    t ← serialize_err (to_json input); mret (text_bytes t)
  else serialize_err (to_bincode input).

Definition finish_proof (result : Output) : M SgxResponse :=
  _ ← guest_err (handle_output result "SGX prove"); guest_err (parse_sgx_result (out_stdout result)).

Definition with_id (cmd : Cmd) (command : string) (instance_id : Z) : Cmd :=
  arg cmd [command; "--sgx-instance-id"; print_u64 instance_id].

(** The common shape of [prove] and [batch_prove]. *)
Definition local_shot (command : string) (stdin : M bytes) (cmd : Cmd) (instance_id : Z) : M SgxResponse :=
  spawn_blocking (
    bytes ← stdin;
    output ← io_err (handle_gramine_error "Could not run SGX guest prover") (output_of (with_id cmd command instance_id) bytes);
    finish_proof output).

Definition local_prove (cmd : Cmd) (input : GuestInput Tx) (instance_id : Z) (proof_type : ProofType) : M SgxResponse :=
  local_shot "one-shot" (guest_stdin input_json input_bincode proof_type input) cmd instance_id.
Definition local_batch_prove (cmd : Cmd) (input : GuestBatchInput Tx) (instance_id : Z) (proof_type : ProofType) : M SgxResponse :=
  local_shot "one-batch-shot" (guest_stdin batch_json batch_bincode proof_type input) cmd instance_id.

(** The proofs to aggregate, as bytes: the prefix [0x] is cut off, and whatever
    is missing or is not hexadecimal is unwrapped. *)
Definition raw_of (p : Proof_) : outcome ProverError RawProof :=
  input ← unwrap (proof_input p);
  text ← unwrap (proof p);
  digits ← unwrap (match text with String _ (String _ rest) => Some rest | _ => None end);
  b ← unwrap (hex_decode digits);
  Ok (mkRawProof b input).
Definition raw_aggregation_input (input : AggregationGuestInput) : outcome ProverError RawAggregationGuestInput :=
  l ← collect raw_of (agg_proofs input); Ok (mkRawAggregationGuestInput l).

Definition u32_from_be_bytes (b : bytes) : Z := foldl (fun acc x => acc * 256 + x) 0 b.
(** The instance id of the first proof, in its first four bytes. *)
Definition first_instance_id (raw_input : RawAggregationGuestInput) : outcome ProverError Z :=
  first ← unwrap (raw_proofs raw_input !! 0%nat);
  b ← slice (raw_proof first) 0 4;
  Ok (u32_from_be_bytes b).

(** The input is written by another task, whose error is only logged. *)
Definition local_aggregate (cmd : Cmd) (input : AggregationGuestInput) (proof_type : ProofType) : M SgxResponse :=
  raw_input ← lift (raw_aggregation_input input);
  instance_id ← lift (first_instance_id raw_input);
  spawn_blocking (
    let written := if bool_decide (proof_type = SgxGeth) then raw_json_written raw_input else raw_bincode_written raw_input in
    r ← (fun w => let '(w', r) := run_process (with_id cmd "aggregate" instance_id) written w in (w', Ok r));
    match r with
    | NotSpawned e => lift (Err (GuestError ("Could not spawn gramine cmd: " +:+ io_text e)))
    | NotAwaited e => lift (Err (GuestError (handle_gramine_error "Could not run SGX guest prover" e)))
    | Exited output => finish_proof output
    end).

(** The end of every operation: the answer to the bootstrap, or the empty one, is
    overwritten by the proof when one is wanted, its error too. *)
Definition bootstrap_then_prove (sgx_param : SgxParam) (boot prove : M SgxResponse) : M Proof_ :=
  sgx_proof ← (if sgx_bootstrap sgx_param then attempt boot else mret (Ok SgxResponse_default));
  sgx_proof ← (if sgx_prove sgx_param then prove else lift sgx_proof);
  mret (response_into sgx_proof).

Definition local_run (proof_type : ProofType) (input : GuestInput Tx) (config : Value) : M Proof_ :=
  p ← lift (sgx_param proof_type config);
  dir ← lift cur_dir;
  let cmd := gramine_cmd proof_type dir in
  _ ← (if sgx_setup p then setup dir else mret ());
  bootstrap_then_prove p (local_bootstrap false (dir ++ ["secrets"]) cmd proof_type)
    (instance_id ← lift (get_instance_id_from_params input p); local_prove cmd input instance_id proof_type).

Definition local_batch_run (proof_type : ProofType) (input : GuestBatchInput Tx) (config : Value) : M Proof_ :=
  p ← lift (sgx_param proof_type config);
  dir ← lift cur_dir;
  let cmd := gramine_cmd proof_type dir in
  _ ← (if sgx_setup p && negb (bool_decide (proof_type = SgxGeth)) then setup dir else mret ());
  bootstrap_then_prove p (local_bootstrap false (dir ++ ["secrets"]) cmd proof_type)
    (first ← lift (unwrap (inputs input !! 0%nat));
     instance_id ← lift (get_instance_id_from_params first p); local_batch_prove cmd input instance_id proof_type).

Definition local_aggregate_run (proof_type : ProofType) (input : AggregationGuestInput) (config : Value) : M Proof_ :=
  p ← lift (sgx_param proof_type config);
  dir ← lift cur_dir;
  let cmd := gramine_cmd_aggregate proof_type dir in
  _ ← (if sgx_setup p then setup dir else mret ());
  bootstrap_then_prove p (local_bootstrap true (dir ++ ["secrets"]) cmd proof_type) (local_aggregate cmd input proof_type).

Definition LocalSgxProver (proof_type : ProofType) : Prover W Tx := mkProver
  (fun input _ config => local_run proof_type input config)
  (fun input _ config => local_batch_run proof_type input config)
  (fun input _ config => local_aggregate_run proof_type input config)
  (fun _ => mret ()).

(** ** The remote prover *)
Definition RAIKO_REMOTE_URL : string := "http://localhost:9090".
Definition GAIKO_REMOTE_URL : string := "http://localhost:8090".
Definition remote_prover_url (proof_type : ProofType) : outcome ProverError string :=
  match proof_type with
  | SgxGeth => Ok (default GAIKO_REMOTE_URL (env "GAIKO_REMOTE_URL"))
  | Sgx => Ok (default RAIKO_REMOTE_URL (env "RAIKO_REMOTE_URL"))
  | _ => Panic
  end.

(** The text of a successful answer. *)
Definition post_text (url : string) (body : option string) : M string :=
  response ← map_st_err (fun e => GuestError ("Failed to send request: " +:+ e)) (post url body);
  if http_success response
  then lift (map_err (fun e => GuestError ("Failed to read response: " +:+ e)) (http_text response))
  else lift (Err (GuestError ("Failed to read error response: " +:+ http_status response))).
Definition parse_err {A} (m : outcome string A) : M A :=
  lift (map_err (fun e => GuestError ("Failed to parse response: " +:+ e)) m).

Definition remote_bootstrap (url : string) : M SgxResponse :=
  t ← post_text (url +:+ "/bootstrap") None; parse_err (sgx_response_from_str t).

(** The common shape of [prove], [batch_prove] and the end of [aggregate]. *)
Definition remote_shot (url : string) (json_input : outcome string string) : M SgxResponse :=
  json_input ← serialize_err json_input;
  t ← post_text url (Some json_input);
  sgx_proof ← parse_err (remote_response_from_str t);
  if bool_decide (rs_status sgx_proof = "success") then mret (rs_sgx_response sgx_proof)
  else lift (Err (GuestError ("Failed to read error response: " +:+ rs_message sgx_proof))).

(** The instance id is not used. *)
Definition remote_prove (url : string) (input : GuestInput Tx) (instance_id : Z) : M SgxResponse :=
  remote_shot (url +:+ "/prove/block") (input_json input).
Definition remote_batch_prove (url : string) (input : GuestBatchInput Tx) (instance_id : Z) : M SgxResponse :=
  remote_shot (url +:+ "/prove/batch") (batch_json input).
Definition remote_aggregate (url : string) (input : AggregationGuestInput) : M SgxResponse :=
  raw_input ← lift (raw_aggregation_input input);
  _ ← lift (first_instance_id raw_input);
  remote_shot (url +:+ "/prove/aggregate") (raw_json raw_input).

Definition remote_param (proof_type : ProofType) (config : Value) : outcome ProverError SgxParam :=
  p ← sgx_param proof_type config; _ ← assert (negb (sgx_setup p)); Ok p.

Definition remote_run (proof_type : ProofType) (url : string) (input : GuestInput Tx) (config : Value) : M Proof_ :=
  p ← lift (remote_param proof_type config);
  bootstrap_then_prove p (remote_bootstrap url)
    (instance_id ← lift (get_instance_id_from_params input p); remote_prove url input instance_id).

Definition remote_batch_run (proof_type : ProofType) (url : string) (input : GuestBatchInput Tx) (config : Value) : M Proof_ :=
  p ← lift (remote_param proof_type config);
  bootstrap_then_prove p (remote_bootstrap url)
    (first ← lift (unwrap (inputs input !! 0%nat));
     instance_id ← lift (get_instance_id_from_params first p); remote_batch_prove url input instance_id).

(** Proofs are aggregated whether or not the parameters ask for proving. *)
Definition remote_aggregate_run (proof_type : ProofType) (url : string) (input : AggregationGuestInput) (config : Value) : M Proof_ :=
  p ← lift (remote_param proof_type config);
  _ ← lift (assert (negb (sgx_bootstrap p)));
  sgx_proof ← remote_aggregate url input;
  mret (response_into sgx_proof).

Definition RemoteSgxProver (proof_type : ProofType) (url : string) : Prover W Tx := mkProver
  (fun input _ config => remote_run proof_type url input config)
  (fun input _ config => remote_batch_run proof_type url input config)
  (fun input _ config => remote_aggregate_run proof_type url input config)
  (fun _ => mret ()).

(** ** The choice *)
Definition SgxProver_new (proof_type : ProofType) : outcome ProverError (Prover W Tx) :=
  service_type ← SgxProverType_from_str (default "local" (env "SGX_MODE"));
  match service_type with
  | LocalType => Ok (LocalSgxProver proof_type)
  | RemoteType => url ← remote_prover_url proof_type; Ok (RemoteSgxProver proof_type url)
  end.
End prover.
