(* ===== verification/SgxProcess.v ===== *)
(** * SgxProcess: the SGX guest run by the host

    Models the command line of the guest ([provers/sgx/guest/src/main.rs] and
    [app_args.rs]) and what it prints, and shows that the provers of
    [SgxProver] return what the enclave of [SgxGuest] computed. *)
From stdpp Require Import base list list_numbers gmap fin_maps strings countable.
From Stdlib Require Import ZArith Lia Ascii.
From S2P Require Import Prelude Text Effect Types Interfaces ChainSpec Mpt MptHash RlpCodec Input Blob MemDb Builder Eip4844 ProtocolInstance Raiko Backend SgxGuest SgxProver.
Local Open Scope string_scope.
Local Open Scope list_scope.
Local Open Scope Z_scope.

(** ** The guest as a process *)

(** What the guest uses of other crates: the decoders of its input, the printers
    of its output, the key it generates, the lines it logs before its result and
    those it prints after it, and the error output of a run that failed. *)
Class GuestLib (Tx : Type) `{SC : Secp} := {
  input_of_bincode : bytes -> option (GuestInput Tx);
  batch_of_bincode : bytes -> option (GuestBatchInput Tx);
  raw_of_bincode : bytes -> option RawAggregationGuestInput;
  json_text : Value -> string;
  hex_encode : bytes -> string;
  b256_text : bytes -> string;
  address_text : bytes -> string;
  generate_key : Enclave -> SecretKey;
  log_lines : list string -> list string;
  info_lines : Enclave -> list string;
  exit_text : Z -> string;
  panic_text : Enclave -> bytes;
  usage_text : bytes
}.

Section process.
Context {W Tx : Type} `{KK : Keccak} `{AR : AlloyRlp} `{EA : EvmAccounts} `{BL : BlockLib Tx}.
Context `{K : KzgLib} `{P : ProtocolLib Tx} `{SC : Secp} `{SL : SgxLib} `{SX : SgxCodec Tx} `{MC : Machine W}.
Context `{GL : !GuestLib Tx}.
Variable zlib : bytes -> option bytes.
Variable rlp : bytes -> option (list Tx).

Definition data_json (d : SgxData) : Value :=
  JObject [("proof", JString ("0x" +:+ hex_encode (sgx_proof d))); ("quote", JString (hex_encode (sgx_quote d)));
           ("public_key", JString (sgx_public_key d)); ("instance_address", JString (address_text (sgx_address d)));
           ("input", JString (b256_text (sgx_input d)))].
Definition bootstrap_json (d : string * bytes * bytes) : Value :=
  JObject [("public_key", JString d.1.1); ("new_instance", JString (address_text d.1.2)); ("quote", JString (hex_encode d.2))].

(** [println!] for each line. *)
Fixpoint print_lines (l : list string) : string :=
  match l with [] => "" | x :: l' => x +:+ String newline (print_lines l') end.

(** The end of [main]: an error is exit status 1, a panic 101, wrong arguments
    are refused with 2. *)
Definition exits {A} (args : list string) (json : A -> option Value) (r : Enclave * outcome string A) : Enclave * Output :=
  let '(e, o) := r in
  (e, match o with
      | Ok a => mkOutput true (exit_text 0)
          (text_bytes (print_lines (log_lines args ++ from_option (fun v => [json_text v]) [] (json a) ++ info_lines e))) []
      | Err _ => mkOutput false (exit_text 1) (text_bytes (print_lines (log_lines args))) (panic_text e)
      | Panic => mkOutput false (exit_text 101) (text_bytes (print_lines (log_lines args))) (panic_text e)
      end).
Definition refused (e : Enclave) : Enclave * Output := (e, mkOutput false (exit_text 2) [] usage_text).

(** Standard input is decoded with [expect]. *)
Definition with_input {A} (d : option A) (f : A -> Op SgxData) : Op SgxData := input ← lift (unwrap d); f input.

Definition guest_main (args : list string) (stdin : bytes) (e : Enclave) : Enclave * Output :=
  match args with
  | [c; flag; n] =>
      match parse_u32 n with
      | Some id =>
          if negb (bool_decide (flag = "--sgx-instance-id")) then refused e
          else if bool_decide (c = "one-shot")
          then exits args (fun d => Some (data_json d)) (with_input (input_of_bincode stdin) (SgxGuest.one_shot zlib rlp id) e)
          else if bool_decide (c = "one-batch-shot")
          then exits args (fun d => Some (data_json d)) (with_input (batch_of_bincode stdin) (SgxGuest.one_shot_batch zlib rlp id) e)
          else if bool_decide (c = "aggregate")
          then exits args (fun d => Some (data_json d)) (with_input (raw_of_bincode stdin) (SgxGuest.aggregate (Tx := Tx) id) e)
          else refused e
      | None => refused e
      end
  | [c] =>
      if bool_decide (c = "bootstrap")
      then exits args id ((_ ← SgxGuest.bootstrap (Tx := Tx) (generate_key e); gets (fun e' => bootstrap_json <$> bootstrap_file e')) e)
      else if bool_decide (c = "check") then exits args (fun _ => None) (run_command zlib rlp CheckBootstrap e)
      else refused e
  | _ => refused e
  end.

(** A machine on which the command of the local prover runs the guest in an
    enclave, which is a part of its state. *)
Definition guest_command (c : Cmd) : Prop :=
  exists dir, c = gramine_cmd Sgx dir \/ c = gramine_cmd_aggregate Sgx dir.
Class GuestHost := {
  enclave : W -> Enclave;
  set_enclave : Enclave -> W -> W;
  runs_guest : forall c args stdin w, guest_command c ->
    run_process (arg c args) stdin w =
    (set_enclave (guest_main args stdin (enclave w)).1 w, Exited (guest_main args stdin (enclave w)).2)
}.

(** The documented behaviour of the crates: what is printed can be read back, an
    object is printed on one line, a digest has 32 bytes, and no line of the log
    is JSON. *)
Definition one_line (s : string) : Prop := newline ∉ String.list_ascii_of_string s.
Class GuestLibLaws : Prop := {
  utf8_roundtrip : forall s, from_utf8 (text_bytes s) = Ok s;
  input_roundtrip : forall i b, input_bincode i = Ok b -> input_of_bincode b = Some i;
  batch_roundtrip : forall i b, batch_bincode i = Ok b -> batch_of_bincode b = Some i;
  raw_roundtrip : forall r, raw_of_bincode (raw_bincode_written r) = Some r;
  json_roundtrip : forall l : list (string * string),
    json_from_str (trim (json_text (JObject (prod_map id JString <$> l)))) = Some (JObject (prod_map id JString <$> l));
  json_one_line : forall v, one_line (json_text v);
  b256_roundtrip : forall b, length b = 32%nat -> forallb is_byte b = true -> parse_b256 (b256_text b) = Some b;
  hex_roundtrip : forall b, forallb is_byte b = true -> hex_decode (hex_encode b) = Some b;
  keccak_digest : forall b, length (ProtocolInstance.keccak b) = 32%nat /\ forallb is_byte (ProtocolInstance.keccak b) = true;
  log_one_line : forall args, Forall one_line (log_lines args);
  info_one_line : forall e, Forall one_line (info_lines e);
  log_not_json : forall args, Forall (fun s => json_from_str (trim s) = None) (log_lines args)
}.

(** ** Printing and reading back *)
Lemma split_at_line cur s t : one_line s -> split_at newline cur (s +:+ String newline t) = (cur +:+ s) :: split_at newline "" t.
Proof.
  revert cur; induction s as [|c s IH]; intros cur Hs.
  - cbn. by rewrite append_nil_r.
  - unfold one_line in Hs. cbn in Hs. apply not_elem_of_cons in Hs as [Hc Hs]. rewrite append_cons. cbn [split_at].
    rewrite bool_decide_eq_false_2 by congruence. rewrite IH by done. by rewrite append_assoc.
Qed.

Lemma split_lines l : Forall one_line l -> split newline (print_lines l) = l ++ [""].
Proof.
  unfold split. induction 1 as [|x l Hx Hl IH]; [done|]. cbn [print_lines]. rewrite split_at_line by done. by rewrite IH.
Qed.

Lemma lines_print l : Forall one_line l -> lines (print_lines l) = l.
Proof.
  intros Hl. unfold lines. rewrite split_lines by done. rewrite last_snoc.
  rewrite length_app. cbn [length]. rewrite Nat.add_sub. by rewrite take_app_length.
Qed.

Lemma first_json_app l v text rest : Forall (fun s => json_from_str (trim s) = None) l ->
  json_from_str (trim text) = Some v -> first_json (l ++ text :: rest) = Some v.
Proof. induction 1 as [|x l Hx Hl IH]; intros Hv; cbn [app first_json]; [by rewrite Hv|]. rewrite Hx. auto. Qed.

Context `{LW : !GuestLibLaws}.

(** The response of the host to data of the guest. *)
Definition guest_response (d : SgxData) : SgxProver.SgxResponse :=
  SgxProver.mkSgxResponse ("0x" +:+ hex_encode (sgx_proof d)) (hex_encode (sgx_quote d)) (sgx_input d).
Definition guest_proof (d : SgxData) : Proof_ := response_into (guest_response d).

Lemma parse_printed args d e : length (sgx_input d) = 32%nat -> forallb is_byte (sgx_input d) = true ->
  parse_sgx_result (text_bytes (print_lines (log_lines args ++ [json_text (data_json d)] ++ info_lines e))) = Ok (guest_response d).
Proof.
  intros Hl Hb. unfold parse_sgx_result. rewrite utf8_roundtrip. cbn [mbind outcome_bind]. rewrite lines_print.
  - cbn [app]. rewrite (first_json_app _ (data_json d)); [|apply log_not_json|].
    + transitivity (Ok (E := string) (SgxProver.mkSgxResponse ("0x" +:+ hex_encode (sgx_proof d)) (hex_encode (sgx_quote d))
        (option.default B256_default (parse_b256 (b256_text (sgx_input d)))))); [reflexivity|]. by rewrite b256_roundtrip.
    + apply (json_roundtrip [("proof", "0x" +:+ hex_encode (sgx_proof d)); ("quote", hex_encode (sgx_quote d));
        ("public_key", sgx_public_key d); ("instance_address", address_text (sgx_address d)); ("input", b256_text (sgx_input d))]).
  - apply Forall_app; split; [apply log_one_line|]. constructor; [apply json_one_line|apply info_one_line].
Qed.

(** ** The local prover and the enclave *)
Context `{GH : !GuestHost}.

(** What the host makes of the run of the enclave: its data, or an error with the
    exit status; a panic of the enclave is an error of the host. *)
Definition failed (code : Z) (stderr : bytes) : ProverError :=
  GuestError ("SGX prove encountered an error (" +:+ exit_text code +:+ "): " +:+ from_utf8_lossy stderr).
Definition host_result (r : Enclave * outcome string SgxData) : outcome ProverError SgxProver.SgxResponse :=
  match r.2 with
  | Ok d => Ok (guest_response d)
  | Err _ => Err (failed 1 (panic_text r.1))
  | Panic => Err (failed 101 (panic_text r.1))
  end.

(** The input hash is a digest. *)
Definition digest_data (r : outcome string SgxData) : Prop :=
  match r with Ok d => length (sgx_input d) = 32%nat /\ forallb is_byte (sgx_input d) = true | _ => True end.

Lemma finish_exits args (r : Enclave * outcome string SgxData) (w : W) : digest_data r.2 ->
  finish_proof (exits args (fun d => Some (data_json d)) r).2 w = (w, host_result r).
Proof.
  destruct r as [e [d|x|]]; intros Hd; [|reflexivity|reflexivity].
  destruct Hd. unfold finish_proof, guest_err. cbn [exits snd]. unfold handle_output. cbn [out_success out_stdout].
  cbn [from_option]. rewrite parse_printed by done. reflexivity.
Qed.

(** A proof of a block or of a batch, in the enclave and on the host. *)
Definition guest_prove (id : Z) (input : GuestInput Tx + GuestBatchInput Tx) : Op SgxData :=
  match input with inl i => SgxGuest.one_shot zlib rlp id i | inr bi => SgxGuest.one_shot_batch zlib rlp id bi end.
Definition first_block (input : GuestInput Tx + GuestBatchInput Tx) : option (GuestInput Tx) :=
  match input with inl i => Some i | inr bi => inputs bi !! 0%nat end.
Definition input_bytes (input : GuestInput Tx + GuestBatchInput Tx) : outcome string bytes :=
  match input with inl i => input_bincode i | inr bi => batch_bincode bi end.
Definition host_prove (p : Prover W Tx) (input : GuestInput Tx + GuestBatchInput Tx) (o : GuestOutput) (bo : GuestBatchOutput Tx)
    (config : Value) : St W ProverError Proof_ :=
  match input with inl i => prover_run p i o config | inr bi => prover_batch_run p bi bo config end.
Definition host_proof (r : Enclave * outcome string SgxData) : outcome ProverError Proof_ :=
  x ← host_result r; Ok (response_into x).

(** Parameters that ask for a proof only. *)
Definition proves_only (config : Value) (p : SgxParam) : Prop :=
  sgx_param Sgx config = Ok p /\ sgx_setup p = false /\ sgx_bootstrap p = false /\ sgx_prove p = true.

Lemma guest_prove_digest id input e : digest_data (guest_prove id input e).2.
Proof.
  destruct (guest_prove id input e) as [e' [d|x|]] eqn:E; cbn; try done.
  destruct input as [i|bi]; cbn in E.
  - unfold one_shot in E. op_inv. apply attest_Ok in E as (_ & _ & -> & _). apply keccak_digest.
  - unfold one_shot_batch in E. op_inv. repeat case_match. op_inv. apply attest_Ok in E as (_ & _ & -> & _). apply keccak_digest.
Qed.

Lemma guest_main_prove id input b e : 0 <= id < 2 ^ 32 -> input_bytes input = Ok b ->
  guest_main [match input with inl _ => "one-shot" | inr _ => "one-batch-shot" end; "--sgx-instance-id"; print_u64 id] b e =
  exits [match input with inl _ => "one-shot" | inr _ => "one-batch-shot" end; "--sgx-instance-id"; print_u64 id]
    (fun d => Some (data_json d)) (guest_prove id input e).
Proof.
  intros Hid Hb. unfold guest_main. rewrite parse_print_u32 by done.
  destruct input as [i|bi]; cbn in Hb |- *.
  - by rewrite (input_roundtrip _ _ Hb).
  - by rewrite (batch_roundtrip _ _ Hb).
Qed.

Lemma then_prove (p : SgxParam) boot (prove : St W ProverError SgxProver.SgxResponse) w w' r :
  sgx_bootstrap p = false -> sgx_prove p = true -> prove w = (w', r) ->
  bootstrap_then_prove p boot prove w = (w', x ← r; Ok (response_into x)).
Proof.
  intros Hb Hp Hr. unfold bootstrap_then_prove. rewrite Hb, Hp. unfold mbind, st_bind, mret, st_ret. rewrite Hr. by destruct r.
Qed.

Lemma stdin_block i b w : input_bincode i = Ok b -> guest_stdin input_json input_bincode Sgx i w = (w, Ok b).
Proof. intros Hb. unfold guest_stdin, serialize_err, lift. cbn. by rewrite Hb. Qed.
Lemma stdin_batch bi b w : batch_bincode bi = Ok b -> guest_stdin batch_json batch_bincode Sgx bi w = (w, Ok b).
Proof. intros Hb. unfold guest_stdin, serialize_err, lift. cbn. by rewrite Hb. Qed.

(** The operations of the local prover come down to one run of the guest. *)
Definition shot (input : GuestInput Tx + GuestBatchInput Tx) (dir : list string) (id : Z) : St W ProverError SgxProver.SgxResponse :=
  match input with
  | inl i => local_prove (gramine_cmd Sgx dir) i id Sgx
  | inr bi => local_batch_prove (gramine_cmd Sgx dir) bi id Sgx
  end.
Lemma host_prove_shot input o bo config p dir first id w w' r :
  proves_only config p -> cur_dir = Ok dir -> first_block input = Some first ->
  get_instance_id_from_params first p = Ok id -> shot input dir id w = (w', r) ->
  host_prove (LocalSgxProver Sgx) input o bo config w = (w', x ← r; Ok (response_into x)).
Proof.
  intros (Hp & Hs & Hbo & Hpr) Hdir Hf Hi Hw.
  destruct input as [i|bi]; cbn in Hf, Hw; simplify_eq; cbn [host_prove LocalSgxProver prover_run prover_batch_run];
    unfold local_run, local_batch_run, mbind, st_bind, lift; rewrite Hp, Hdir, Hs; cbn [andb mret st_ret];
    (apply then_prove; [done|done|]); rewrite ?Hf; cbn [unwrap]; by rewrite Hi.
Qed.

Lemma shot_is_local input dir id : shot input dir id =
  local_shot (match input with inl _ => "one-shot" | inr _ => "one-batch-shot" end)
    (match input with inl i => guest_stdin input_json input_bincode Sgx i | inr bi => guest_stdin batch_json batch_bincode Sgx bi end)
    (gramine_cmd Sgx dir) id.
Proof. by destruct input. Qed.
Lemma stdin_written input b w : input_bytes input = Ok b ->
  (match input with inl i => guest_stdin input_json input_bincode Sgx i | inr bi => guest_stdin batch_json batch_bincode Sgx bi end) w = (w, Ok b).
Proof. destruct input; [apply stdin_block|apply stdin_batch]. Qed.

Lemma shot_exits command stdin b c id w o :
  guest_command c -> stdin w = (w, Ok b) ->
  guest_main [command; "--sgx-instance-id"; print_u64 id] b (enclave w) = o ->
  local_shot command stdin c id w =
    (let '(w', r) := finish_proof o.2 (set_enclave o.1 w) in (w', match r with Panic => Err (GuestError join_error) | _ => r end)).
Proof.
  intros Hc Hs <-. unfold local_shot, spawn_blocking. unfold mbind, st_bind. rewrite Hs.
  unfold io_err, map_st_err, output_of, with_id. by rewrite runs_guest by done.
Qed.

(** ** Aggregation *)
Definition raw_data (d : SgxData) : RawProof := mkRawProof (sgx_proof d) (sgx_input d).

Lemma raw_of_proof d : forallb is_byte (sgx_proof d) = true -> raw_of (guest_proof d) = Ok (raw_data d).
Proof.
  intros Hb. transitivity (b ← unwrap (hex_decode (hex_encode (sgx_proof d))); Ok (E := ProverError) (mkRawProof b (sgx_input d)));
    [reflexivity|]. by rewrite hex_roundtrip.
Qed.

Lemma collect_raw ds : Forall (fun d => forallb is_byte (sgx_proof d) = true) ds ->
  collect raw_of (guest_proof <$> ds) = Ok (raw_data <$> ds).
Proof. induction 1 as [|d ds Hd Hds IH]; [done|]. cbn [fmap list_fmap collect]. rewrite raw_of_proof by done. cbn [mbind outcome_bind]. by rewrite IH. Qed.

Lemma first_id_bytes ds d0 id rest : head ds = Some d0 -> sgx_proof d0 = be_bytes 4 id ++ rest -> 0 <= id < 2 ^ 32 ->
  first_instance_id (mkRawAggregationGuestInput (raw_data <$> ds)) = Ok id.
Proof.
  destruct ds as [|? ds]; intros; simplify_eq/=. unfold first_instance_id. cbn.
  rewrite H0. cbn. unfold slice. cbn. f_equal. unfold u32_from_be_bytes. rewrite take_0. cbn [foldl]. Z.div_mod_to_equations. lia.
Qed.

Lemma guest_main_aggregate id r e : 0 <= id < 2 ^ 32 ->
  guest_main ["aggregate"; "--sgx-instance-id"; print_u64 id] (raw_bincode_written r) e =
  exits ["aggregate"; "--sgx-instance-id"; print_u64 id] (fun d => Some (data_json d)) (SgxGuest.aggregate (Tx := Tx) id r e).
Proof. intros Hid. unfold guest_main. rewrite parse_print_u32 by done. cbn. by rewrite raw_roundtrip. Qed.

Lemma aggregate_digest id r e : digest_data (SgxGuest.aggregate (Tx := Tx) id r e).2.
Proof.
  destruct (SgxGuest.aggregate _ _ _) as [e' [d|x|]] eqn:E; cbn; try done.
  unfold SgxGuest.aggregate in E. op_inv. apply attest_Ok in E as (_ & _ & -> & _). apply keccak_digest.
Qed.

(** C24: Asked to aggregate proofs that the enclave returned, the local prover
    gives the enclave exactly those proofs and their inputs, in their order, under
    the instance id that the first one carries, and returns what the enclave
    computed. *)
Theorem local_aggregate_runs_guest ds d0 rest id o config p dir w :
  proves_only config p -> cur_dir = Ok dir ->
  Forall (fun d => forallb is_byte (sgx_proof d) = true) ds -> head ds = Some d0 -> sgx_proof d0 = be_bytes 4 id ++ rest ->
  0 <= id < 2 ^ 32 ->
  let r := SgxGuest.aggregate (Tx := Tx) id (mkRawAggregationGuestInput (raw_data <$> ds)) (enclave w) in
  prover_aggregate (LocalSgxProver (Tx := Tx) Sgx) (mkAggregationGuestInput (guest_proof <$> ds)) o config w =
    (set_enclave r.1 w, host_proof r).
Proof.
  intros (Hp & Hs & Hbo & Hpr) Hdir Hb Hd0 Hl Hid r.
  assert (guest_command (gramine_cmd_aggregate Sgx dir)) as Hc by (exists dir; auto).
  cbn [LocalSgxProver prover_aggregate]. unfold local_aggregate_run, mbind, st_bind, lift. rewrite Hp, Hdir, Hs.
  cbn [mret st_ret]. erewrite then_prove; [reflexivity|done|done|].
  unfold local_aggregate, mbind, st_bind, lift, raw_aggregation_input. cbn [agg_proofs]. rewrite collect_raw by done.
  cbn [outcome_bind mbind]. rewrite (first_id_bytes _ _ _ _ Hd0 Hl Hid). unfold spawn_blocking, with_id. cbn [bool_decide].
  rewrite runs_guest by done. cbn [decide]. change (bool_decide (Sgx = SgxGeth)) with false. cbv iota.
  rewrite guest_main_aggregate by done. rewrite finish_exits by apply aggregate_digest. fold r.
  destruct r as [e [d|x|]]; reflexivity.
Qed.

(** ** Failures *)

(** C40: The host keeps instance ids of 64 bits and the guest reads 32: with a
    configured id of 2^32 or more no proof is made, the guest refuses its
    arguments and the enclave is untouched. *)
Theorem wide_instance_id_refused input o bo config p dir first id b w :
  proves_only config p -> cur_dir = Ok dir -> first_block input = Some first ->
  get_instance_id_from_params first p = Ok id -> 2 ^ 32 <= id < 2 ^ 64 -> input_bytes input = Ok b ->
  host_prove (LocalSgxProver Sgx) input o bo config w = (set_enclave (enclave w) w, Err (failed 2 usage_text)).
Proof.
  intros Hpo Hdir Hf Hi Hid Hb. 
  eapply (host_prove_shot _ _ _ _ _ _ _ _ _ _ (Err (failed 2 usage_text))); [done..|]. rewrite shot_is_local.
  assert (forall c, guest_main [c; "--sgx-instance-id"; print_u64 id] b (enclave w) = refused (enclave w)) as Hr
    by (intros; unfold guest_main; by rewrite parse_u32_wide).
  erewrite shot_exits; [|by exists dir; auto|by apply stdin_written|apply Hr]. reflexivity.
Qed.
(** A guest that ends successfully without a line of JSON is taken at its word:
    the proof is empty and its input zero. *)
Theorem silent_guest_proves_nothing (i : GuestInput Tx) o config p dir id b w w' out :
  proves_only config p -> cur_dir = Ok dir -> get_instance_id_from_params i p = Ok id -> input_bincode i = Ok b ->
  run_process (with_id (gramine_cmd Sgx dir) "one-shot" id) b w = (w', Exited out) -> out_success out = true ->
  (exists text, from_utf8 (out_stdout out) = Ok text /\ first_json (lines text) = None) -> parse_b256 "" = None ->
  prover_run (LocalSgxProver Sgx) i o config w = (w', Ok (mkProof (Some "") (Some B256_default) (Some "") None None)).
Proof.
  intros (Hp & Hs & Hbo & Hpr) Hdir Hi Hb Hrun Hok (text & Ht & Hj) H0.
  cbn [LocalSgxProver prover_run]. unfold local_run, mbind, st_bind, lift. rewrite Hp, Hdir, Hs. cbn [mret st_ret].
  rewrite (then_prove p _ _ w w' (Ok SgxProver.SgxResponse_default)); [done..|]. rewrite Hi.
  unfold local_prove, local_shot, spawn_blocking, mbind, st_bind. rewrite (stdin_block _ _ _ Hb).
  unfold io_err, map_st_err, output_of. rewrite Hrun. cbn [map_err]. unfold finish_proof, guest_err, handle_output. rewrite Hok.
  unfold mbind, st_bind, lift. cbn [map_err]. unfold parse_sgx_result. rewrite Ht. cbn. rewrite Hj. cbn. by rewrite H0.
Qed.

(** An unknown mode is not the default one, it stops the process. *)
Theorem unknown_mode_panics (pt : ProofType) m : env "SGX_MODE" = Some m ->
  to_lowercase m <> "local" -> to_lowercase m <> "remote" -> SgxProver_new (W := W) (Tx := Tx) pt = Panic.
Proof.
  intros Hm Hl Hr. unfold SgxProver_new. rewrite Hm. cbn. unfold SgxProverType_from_str.
  by rewrite !bool_decide_eq_false_2.
Qed.

(** In direct mode blocks for Geth are run by the guest of the other proof type,
    with JSON on its input; aggregations are not. *)
Theorem direct_geth_commands dir : direct_mode = true ->
  gramine_cmd SgxGeth dir = gramine_cmd Sgx dir /\ program (gramine_cmd_aggregate SgxGeth dir) = "sudo" /\
  program (gramine_cmd SgxGeth dir) = "gramine-direct".
Proof. intros H. unfold gramine_cmd, gramine_cmd_aggregate. by rewrite H. Qed.
End process.

(** ** Witnesses

    A machine that is an enclave, with printers that spell the binary encoding of
    what they print. *)
Module SgxProcessExample.
Fixpoint pos_text (p : positive) : string :=
  match p with xH => "" | xO p => String "0" (pos_text p) | xI p => String "1" (pos_text p) end.
Fixpoint text_pos (s : string) : option positive :=
  match s with
  | "" => Some xH
  | String "0" s => xO <$> text_pos s
  | String "1" s => xI <$> text_pos s
  | _ => None
  end.
Lemma pos_text_read p : text_pos (pos_text p) = Some p.
Proof. induction p as [p IH|p IH|]; cbn; by rewrite ?IH. Qed.

Definition spell {A} `{Countable A} (a : A) : string := pos_text (countable.encode a).
Definition unspell {A} `{Countable A} (s : string) : option A := text_pos s ≫= countable.decode.
Lemma unspell_spell {A} `{Countable A} (a : A) : unspell (spell a) = Some a.
Proof. unfold unspell, spell. rewrite pos_text_read. apply countable.decode_encode. Qed.

(** A text without spaces is not changed by trimming and is on one line. *)
Fixpoint solid (s : string) : bool := match s with "" => true | String c s => negb (is_space c) && solid s end.
Lemma solid_trim_start s : solid s = true -> trim_start s = s.
Proof. destruct s as [|c s]; [done|]. cbn. by destruct (is_space c). Qed.
Lemma solid_rev s acc : solid (string_rev s acc) = solid s && solid acc.
Proof. revert acc; induction s as [|c s IH]; intros acc; [done|]. cbn. rewrite IH. cbn. by destruct (is_space c), (solid s), (solid acc). Qed.
Lemma rev_rev s a b : string_rev (string_rev s a) b = string_rev a (s +:+ b).
Proof. revert a; induction s as [|c s IH]; intros a; [done|]. cbn [string_rev]. rewrite IH. done. Qed.
Lemma solid_trim s : solid s = true -> trim s = s.
Proof.
  intros Hs. unfold trim. rewrite (solid_trim_start s), solid_trim_start by (rewrite ?solid_rev; by rewrite ?Hs).
  rewrite rev_rev. apply append_nil_r.
Qed.
Lemma solid_one_line s : solid s = true -> one_line s.
Proof.
  unfold one_line. induction s as [|c s IH]; cbn; [set_solver|]. intros Hs. breflect.
  apply not_elem_of_cons. split; [|auto]. intros <-. done.
Qed.
Lemma solid_pos p : solid (pos_text p) = true.
Proof. by induction p. Qed.

Fixpoint toy_bytes (s : string) : bytes := match s with "" => [] | String c s => Z.of_nat (nat_of_ascii c) :: toy_bytes s end.
Fixpoint toy_text (b : bytes) : string := match b with [] => "" | c :: b => String (ascii_of_nat (Z.to_nat c)) (toy_text b) end.
Lemma toy_text_bytes s : toy_text (toy_bytes s) = s.
Proof. induction s as [|c s IH]; [done|]. cbn. by rewrite Nat2Z.id, ascii_nat_embedding, IH. Qed.

(** JSON objects whose values are strings. *)
Fixpoint strings_of (l : list (string * Value)) : list (string * string) :=
  match l with [] => [] | (k, JString s) :: l => (k, s) :: strings_of l | _ :: l => strings_of l end.
Lemma strings_of_fmap l : strings_of (prod_map id JString <$> l) = l.
Proof. induction l as [|[k s] l IH]; [done|]. cbn in *. by rewrite IH. Qed.
Definition toy_json (v : Value) : string := match v with JObject l => spell (strings_of l) | _ => "" end.
Definition toy_parse (s : string) : option Value :=
  (fun l : list (string * string) => JObject (prod_map id JString <$> l)) <$> unspell s.

#[local] Existing Instance toy_secp.
#[local] Existing Instance sgx_protocol.
#[local] Existing Instance toy_kzg.
#[local] Existing Instance model_accounts.
#[local] Existing Instance model_blocks.

Definition raw_pairs (r : RawAggregationGuestInput) : list (bytes * bytes) := (fun p => (raw_proof p, raw_input p)) <$> raw_proofs r.
Definition raw_of_pairs (l : list (bytes * bytes)) : RawAggregationGuestInput := mkRawAggregationGuestInput ((fun p => mkRawProof p.1 p.2) <$> l).
Lemma raw_pairs_of r : raw_of_pairs (raw_pairs r) = r.
Proof.
  destruct r as [l]. unfold raw_of_pairs, raw_pairs. cbn. rewrite <- list_fmap_compose. f_equal. rewrite <- (list_fmap_id l) at 2.
  apply list_fmap_ext. by intros ? [] ?.
Qed.

#[local] Instance toy_sgx_lib : SgxLib := {|
  env _ := None; current_exe := Some ["opt"; "raiko"; "raiko-host"]; docker_build := true;
  spec_id_from_str s := if bool_decide (s = "ONTAKE") then Some 1 else None; spec_id_text _ := "ONTAKE";
  json_from_str := toy_parse;
  sgx_response_from_str _ := Err ""; remote_response_from_str _ := Err "";
  from_utf8 b := Ok (toy_text b); from_utf8_lossy := toy_text; SgxProver.text_bytes := toy_bytes;
  parse_b256 := unspell; SgxProver.hex_decode := unspell;
  raw_json _ := Err ""; raw_json_written _ := [];
  raw_bincode_written r := [Zpos (countable.encode (raw_pairs r))];
  join_error := "panic"
|}.
#[local] Instance toy_codec : SgxCodec bytes := {|
  input_json _ := Err ""; batch_json _ := Err ""; batch_bincode _ := Err "";
  input_bincode i := if decide (i = sgx_block_input) then Ok [1] else Err ""
|}.
#[local] Instance toy_guest_lib : GuestLib bytes := {|
  input_of_bincode b := if decide (b = [1]) then Some sgx_block_input else None;
  batch_of_bincode _ := None;
  raw_of_bincode b := match b with [Zpos p] => raw_of_pairs <$> countable.decode p | _ => None end;
  json_text := toy_json; hex_encode := spell; b256_text := spell; address_text := spell; generate_key _ := true;
  log_lines _ := ["Starting"]; info_lines _ := ["Detected"]; exit_text := print_u64; panic_text _ := []; usage_text := []
|}.

Lemma be_bytes_digest n z : length (be_bytes n z) = n /\ forallb is_byte (be_bytes n z) = true.
Proof.
  revert z; induction n as [|n IH]; intros z; [done|]. cbn [be_bytes]. destruct (IH (z / 256)) as [Hl Hb].
  rewrite length_app, forallb_app, Hl, Hb. cbn. pose proof (Z.mod_pos_bound z 256 ltac:(lia)).
  split; [lia|]. unfold is_byte. by rewrite (proj2 (Z.leb_le _ _)), (proj2 (Z.ltb_lt _ _)) by lia.
Qed.

#[local] Instance toy_laws : GuestLibLaws (Tx := bytes).
Proof.
  split.
  - intros s. cbn. by rewrite toy_text_bytes.
  - intros i b. cbn. case_decide; intros; by simplify_eq.
  - done.
  - intros r. cbn. rewrite countable.decode_encode. cbn. by rewrite raw_pairs_of.
  - intros l. change (toy_parse (trim (spell (strings_of (prod_map id JString <$> l)))) = Some (JObject (prod_map id JString <$> l))).
    rewrite solid_trim by apply solid_pos. unfold toy_parse. by rewrite strings_of_fmap, unspell_spell.
  - intros v. apply solid_one_line. destruct v; [reflexivity..|apply solid_pos].
  - intros b _ _. apply unspell_spell.
  - intros b _. apply unspell_spell.
  - intros b. apply be_bytes_digest.
  - intros args. repeat constructor. by apply solid_one_line.
  - intros e. repeat constructor. by apply solid_one_line.
  - intros args. repeat constructor.
Qed.

Definition guest_args (c : Cmd) : list string := drop 2 (cmd_args c).
#[local] Instance toy_machine : Machine Enclave := {|
  run_process c stdin e := let r := guest_main sgx_zlib sgx_rlp (guest_args c) stdin e in (r.1, Exited r.2);
  path_exists _ _ := false; remove_file _ := mret (); create_dir_all _ := mret (); copy_file _ _ := mret ();
  tempfile := mret (); post _ _ := lift (Err "")
|}.
#[local] Instance toy_host : GuestHost (W := Enclave) sgx_zlib sgx_rlp.
Proof.
  refine {| enclave := fun e => e; set_enclave := fun e _ => e |}. intros c args stdin w (dir & [->| ->]); reflexivity.
Defined.

Definition config_with (id : Z) : Value :=
  JObject [("sgx", JObject [("instance_ids", JObject [("ONTAKE", JNumber id)]); ("setup", JBool false);
                            ("bootstrap", JBool false); ("prove", JBool true)])].
Definition param_with (id : Z) : SgxParam := mkSgxParam {[ 1 := id ]} false false true.

Lemma small_param : proves_only (config_with 7) (param_with 7).
Proof. split_and!; reflexivity. Qed.
Lemma wide_param : proves_only (config_with (2 ^ 40)) (param_with (2 ^ 40)).
Proof. split_and!; reflexivity. Qed.
Lemma known_input : input_bytes (inl sgx_block_input) = Ok [1].
Proof. cbn. by rewrite decide_True. Qed.


Lemma wide_instance_id_refused_witness :
  prover_run (LocalSgxProver Sgx) sgx_block_input (mkGuestOutput sgx_header []) (config_with (2 ^ 40)) sgx_enclave =
    (sgx_enclave, Err (failed 2 [])).
Proof.
  pose proof (wide_instance_id_refused sgx_zlib sgx_rlp (inl sgx_block_input) (mkGuestOutput sgx_header []) (mkGuestBatchOutput [] [])
    (config_with (2 ^ 40)) (param_with (2 ^ 40)) ["opt"; "raiko"] sgx_block_input (2 ^ 40) [1] sgx_enclave wide_param eq_refl eq_refl eq_refl
    ltac:(lia) known_input) as H.
  cbn [host_prove enclave set_enclave toy_host usage_text toy_guest_lib] in H. exact H.
Defined.

Lemma data_bytes : Forall (fun d => forallb is_byte (sgx_proof d) = true) [sgx_data; sgx_data].
Proof. assert (forallb is_byte (sgx_proof sgx_data) = true) as H by (vm_compute; reflexivity). exact (Forall_cons_2 _ _ _ H (Forall_cons_2 _ _ _ H (Forall_nil_2 _))). Qed.
Lemma data_id : sgx_proof sgx_data = be_bytes 4 7 ++ drop 4 (sgx_proof sgx_data).
Proof. vm_compute. reflexivity. Qed.

(** The two proofs of the previous run are aggregated. *)
Lemma local_aggregate_runs_guest_witness :
  prover_aggregate (LocalSgxProver (Tx := bytes) Sgx) (mkAggregationGuestInput (guest_proof <$> [sgx_data; sgx_data]))
    (mkAggregationGuestOutput []) (config_with 7) sgx_enclave = (sgx_agg.1, host_proof sgx_agg) /\ sgx_agg.2 = Ok sgx_agg_data.
Proof.
  split; [|by rewrite sgx_agg_run].
  pose proof (local_aggregate_runs_guest sgx_zlib sgx_rlp [sgx_data; sgx_data] sgx_data _ 7 (mkAggregationGuestOutput []) (config_with 7)
    (param_with 7) ["opt"; "raiko"] sgx_enclave small_param eq_refl data_bytes eq_refl data_id ltac:(lia)) as H.
  cbn [enclave set_enclave toy_host] in H. unfold sgx_agg, sgx_raw. exact H.
Defined.
End SgxProcessExample.
