(* ===== verification/SgxQuote.v ===== *)
(** * SgxQuote: reading an attestation quote

    Models the parser of version 3 quotes in
    [provers/sgx/prover/src/sgx_register_utils.rs]. The quote that the guest
    prints in hexadecimal is cut into the fields of the structure which the
    verifier contract takes; a malformed quote is a panic. *)
From stdpp Require Import base list list_numbers strings.
From Stdlib Require Import ZArith Lia Ascii.
From S2P Require Import Prelude Blob.
Local Open Scope Z_scope.

(** ** The structure *)
Record QuoteHeader := mkQuoteHeader {
  version : bytes; attestationKeyType : bytes; teeType : bytes; qeSvn : bytes; pceSvn : bytes; qeVendorId : bytes; userData : bytes }.

Record EnclaveReport := mkEnclaveReport {
  cpuSvn : bytes; miscSelect : bytes; reserved1 : bytes; attributes : bytes; mrEnclave : bytes; reserved2 : bytes; mrSigner : bytes;
  reserved3 : bytes; isvProdId : Z; isvSvn : Z; reserved4 : bytes; reportData : bytes }.

Record QEAuthData := mkQEAuthData { parsedDataSize : Z; qe_data : bytes }.
Record CertificationData := mkCertificationData { certType : Z; certDataSize : Z; decodedCertDataArray : list bytes }.
Record ECDSAQuoteV3AuthData := mkECDSAQuoteV3AuthData {
  ecdsa256BitSignature : bytes; ecdsaAttestationKey : bytes; pckSignedQeReport : EnclaveReport; qeReportSignature : bytes;
  qeAuthData : QEAuthData; certification : CertificationData }.
Record ParsedV3QuoteStruct := mkParsedV3QuoteStruct {
  quote_header : QuoteHeader; localEnclaveReport : EnclaveReport; v3AuthData : ECDSAQuoteV3AuthData }.

(** ** Integers *)

(** One turn of the loop of [little_endian_decode]: the hexadecimal digits of the
    [i]-th byte. *)
Definition decode_step (i byte : Z) : Z :=
  let upper_digit := byte / 16 in
  let lower_digit := byte mod 16 in
  lower_digit * 16 ^ (2 * i) + upper_digit * 16 ^ (2 * i + 1).
Fixpoint decode_loop (i decoded : Z) (encoded : bytes) : Z :=
  match encoded with
  | [] => decoded
  | byte :: encoded' => decode_loop (i + 1) (wrap64 (decoded + wrap64 (decode_step i byte))) encoded'
  end.
Definition little_endian_decode {E} (encoded : bytes) : outcome E Z :=
  _ ← assert (length encoded <=? 8)%nat; Ok (decode_loop 0 0 encoded).

Definition as_u16 (z : Z) : Z := z mod 2 ^ 16.
Definition as_u32 (z : Z) : Z := z mod 2 ^ 32.

Section quote.
Context {E : Type}.
(** The PEM blocks of a text, and hexadecimal decoding. *)
Variable parse_many : bytes -> option (list bytes).
Variable hex_decode : string -> option bytes.

Definition parse_quote_header (quote_bytes : bytes) : outcome E QuoteHeader :=
  _ ← assert (48 <? length quote_bytes)%nat;
  version ← slice quote_bytes 0 2;
  attestation_key_type ← slice quote_bytes 2 4;
  tee_type ← slice quote_bytes 4 8;
  qe_svn ← slice quote_bytes 8 10;
  pce_svn ← slice quote_bytes 10 12;
  qe_vendor_id ← slice quote_bytes 12 28;
  user_data ← slice quote_bytes 28 48;
  Ok (mkQuoteHeader version attestation_key_type tee_type qe_svn pce_svn qe_vendor_id user_data).

Definition parse_quote_enclave_report (b : bytes) : outcome E EnclaveReport :=
  cpu_svn ← slice b 0 16;
  misc_select ← slice b 16 20;
  reserved1 ← slice b 20 48;
  attributes ← slice b 48 64;
  mr_enclave ← slice b 64 96;
  reserved2 ← slice b 96 128;
  mr_signer ← slice b 128 160;
  reserved3 ← slice b 160 256;
  isv_prod_id ← slice b 256 258;
  isv_svn ← slice b 258 260;
  reserved4 ← slice b 260 320;
  report_data ← slice b 320 384;
  isv_prod_id ← little_endian_decode isv_prod_id;
  isv_svn ← little_endian_decode isv_svn;
  Ok (mkEnclaveReport cpu_svn misc_select reserved1 attributes mr_enclave reserved2 mr_signer reserved3
        (as_u16 isv_prod_id) (as_u16 isv_svn) reserved4 report_data).

Definition parse_certification_chain_bytes (pem_bytes : bytes) : outcome E (list bytes) :=
  pems ← unwrap (parse_many pem_bytes);
  _ ← assert (length pems =? 3)%nat;
  Ok pems.

Definition parse_quote_auth_data (q : bytes) : outcome E ECDSAQuoteV3AuthData :=
  size ← slice q 576 578;
  parsed_data_size ← little_endian_decode size;
  data ← slice q 578 (578 + Z.to_nat parsed_data_size);
  let offset := (578 + Z.to_nat parsed_data_size)%nat in
  ty ← slice q offset (offset + 2);
  cert_type ← little_endian_decode ty;
  let offset := (offset + 2)%nat in
  size ← slice q offset (offset + 4);
  cert_data_size ← little_endian_decode size;
  let offset := (offset + 4)%nat in
  cert_data ← slice q offset (offset + Z.to_nat cert_data_size);
  decoded_cert_data_array ← parse_certification_chain_bytes cert_data;
  ecdsa_sig ← slice q 0 64;
  ecdsa_attestation_key ← slice q 64 128;
  raw_qe_report ← slice q 128 512;
  pck_signed_qe_report ← parse_quote_enclave_report raw_qe_report;
  qe_report_signature ← slice q 512 576;
  Ok (mkECDSAQuoteV3AuthData ecdsa_sig ecdsa_attestation_key pck_signed_qe_report qe_report_signature
        (mkQEAuthData (as_u16 parsed_data_size) data)
        (mkCertificationData (as_u16 cert_type) (as_u32 cert_data_size) decoded_cert_data_array)).

Definition parse_quote (quote_str : string) : outcome E ParsedV3QuoteStruct :=
  quote_bytes ← unwrap (hex_decode quote_str);
  header ← parse_quote_header quote_bytes;
  report ← slice quote_bytes 48 432;
  local_enclave_report ← parse_quote_enclave_report report;
  size ← slice quote_bytes 432 436;
  local_auth_data_size ← little_endian_decode size;
  _ ← assert (length quote_bytes - 436 =? Z.to_nat local_auth_data_size)%nat;
  auth ← slice quote_bytes 436 (length quote_bytes);
  v3_auth_data ← parse_quote_auth_data auth;
  Ok (mkParsedV3QuoteStruct header local_enclave_report v3_auth_data).
End quote.

(** ** The format

    A quote is the concatenation of its fields, integers in little-endian order;
    the length of the authentication data is given before them, and those of the
    variable parts before each. *)
Fixpoint le_bytes (n : nat) (z : Z) : bytes :=
  match n with O => [] | S n' => z mod 256 :: le_bytes n' (z / 256) end.
Fixpoint le_value (b : bytes) : Z := match b with [] => 0 | x :: b' => x + 256 * le_value b' end.

Definition print_header (h : QuoteHeader) : list bytes :=
  [version h; attestationKeyType h; teeType h; qeSvn h; pceSvn h; qeVendorId h; userData h].
Definition print_report (r : EnclaveReport) : list bytes :=
  [cpuSvn r; miscSelect r; reserved1 r; attributes r; mrEnclave r; reserved2 r; mrSigner r; reserved3 r;
   le_bytes 2 (isvProdId r); le_bytes 2 (isvSvn r); reserved4 r; reportData r].
Definition print_auth (a : ECDSAQuoteV3AuthData) (pem rest : bytes) : list bytes :=
  [ecdsa256BitSignature a; ecdsaAttestationKey a; concat (print_report (pckSignedQeReport a)); qeReportSignature a;
   le_bytes 2 (parsedDataSize (qeAuthData a)); qe_data (qeAuthData a);
   le_bytes 2 (certType (certification a)); le_bytes 4 (certDataSize (certification a)); pem; rest].
Definition print_quote (q : ParsedV3QuoteStruct) (pem rest : bytes) : list bytes :=
  let auth := concat (print_auth (v3AuthData q) pem rest) in
  [concat (print_header (quote_header q)); concat (print_report (localEnclaveReport q)); le_bytes 4 (Z.of_nat (length auth)); auth].

Definition sized (n : nat) (b : bytes) : Prop := length b = n.
Definition header_ok (h : QuoteHeader) : Prop := Forall2 sized [2; 2; 4; 2; 2; 16; 20]%nat (print_header h).
Definition report_ok (r : EnclaveReport) : Prop :=
  Forall2 sized [16; 4; 28; 16; 32; 32; 32; 96; 2; 2; 60; 64]%nat (print_report r) /\
  0 <= isvProdId r < 2 ^ 16 /\ 0 <= isvSvn r < 2 ^ 16.
Definition auth_ok (a : ECDSAQuoteV3AuthData) (pem rest : bytes) : Prop :=
  let n := length (qe_data (qeAuthData a)) in let m := length pem in
  Forall2 sized [64; 64; 384; 64; 2; n; 2; 4; m; length rest]%nat (print_auth a pem rest) /\
  report_ok (pckSignedQeReport a) /\
  parsedDataSize (qeAuthData a) = Z.of_nat n /\ Z.of_nat n < 2 ^ 16 /\
  0 <= certType (certification a) < 2 ^ 16 /\
  certDataSize (certification a) = Z.of_nat m /\ Z.of_nat m < 2 ^ 32 /\
  length (decodedCertDataArray (certification a)) = 3%nat.
Definition quote_ok (q : ParsedV3QuoteStruct) (pem rest : bytes) : Prop :=
  header_ok (quote_header q) /\ report_ok (localEnclaveReport q) /\ auth_ok (v3AuthData q) pem rest /\
  Z.of_nat (length (concat (print_auth (v3AuthData q) pem rest))) < 2 ^ 32.

(** ** Integers in little-endian order *)
Abbreviation all_bytes b := (forallb is_byte b = true).

Lemma le_value_range b : all_bytes b -> 0 <= le_value b < 256 ^ Z.of_nat (length b).
Proof.
  induction b as [|x b IH]; intros Hb; [cbn; lia|]. cbn in Hb. breflect. unfold is_byte in *. breflect.
  cbn [le_value length]. rewrite Nat2Z.inj_succ, Z.pow_succ_r by lia. specialize (IH ltac:(done)). lia.
Qed.

Lemma le_bytes_value b : all_bytes b -> le_bytes (length b) (le_value b) = b.
Proof.
  induction b as [|x b IH]; intros Hb; [done|]. cbn in Hb. breflect. unfold is_byte in *. breflect.
  cbn [le_value length le_bytes]. rewrite (Z.mul_comm 256), Z_mod_plus_full, Z_div_plus_full, Z.mod_small, Z.div_small by lia.
  by rewrite Z.add_0_l, IH.
Qed.

Lemma le_value_bytes n z : 0 <= z < 256 ^ Z.of_nat n -> le_value (le_bytes n z) = z.
Proof.
  revert z; induction n as [|n IH]; intros z Hz; [cbn in *; lia|]. cbn [le_bytes le_value].
  rewrite Nat2Z.inj_succ, Z.pow_succ_r in Hz by lia.
  rewrite IH; [Z.div_mod_to_equations; lia|]. split; [apply Z.div_pos; lia|apply Z.div_lt_upper_bound; lia].
Qed.
Lemma le_bytes_length n z : length (le_bytes n z) = n.
Proof. revert z; induction n as [|n IH]; intros z; cbn; [done|]. by rewrite IH. Qed.
Lemma le_bytes_all n z : all_bytes (le_bytes n z).
Proof.
  revert z; induction n as [|n IH]; intros z; cbn; [done|]. rewrite IH, andb_true_r. unfold is_byte.
  pose proof (Z.mod_pos_bound z 256 ltac:(lia)). breflect. lia.
Qed.

(** The loop adds the bytes in their places and never leaves 64 bits. *)
Lemma decode_step_value i x : 0 <= i -> decode_step i x = x * 256 ^ i.
Proof.
  intros Hi. unfold decode_step. rewrite Z.pow_add_r, !Z.pow_mul_r by lia. change (16 ^ 2) with 256. rewrite Z.pow_1_r.
  pose proof (Z.div_mod x 16 ltac:(lia)). nia.
Qed.
Lemma decode_loop_value b : forall i acc, 0 <= i -> all_bytes b -> i + Z.of_nat (length b) <= 8 -> 0 <= acc < 256 ^ i ->
  decode_loop i acc b = acc + 256 ^ i * le_value b.
Proof.
  induction b as [|x b IH]; intros i acc Hi Hb Hl Ha; [cbn; lia|]. cbn [length] in Hl. cbn in Hb. breflect.
  unfold is_byte in *. breflect. cbn [decode_loop le_value]. rewrite decode_step_value by done.
  assert (256 ^ (i + 1) = 256 ^ i * 256) as Hs by (rewrite Z.pow_add_r; lia).
  assert (256 ^ (i + 1) <= 256 ^ 8) by (apply Z.pow_le_mono_r; lia). assert (256 ^ 8 = 2 ^ 64) by reflexivity.
  assert (0 < 256 ^ i) by (apply Z.pow_pos_nonneg; lia).
  unfold wrap64, wrap. rewrite (Z.mod_small (x * _)), Z.mod_small by nia. rewrite IH by (done || lia || nia). nia.
Qed.
Lemma little_endian_decode_value {E} b : all_bytes b -> (length b <= 8)%nat -> little_endian_decode (E := E) b = Ok (le_value b).
Proof.
  intros Hb Hl. unfold little_endian_decode. rewrite (proj2 (Nat.leb_le _ _)) by lia. cbn.
  rewrite decode_loop_value by (done || lia). f_equal. lia.
Qed.

(** ** Cutting a list into consecutive pieces *)
Fixpoint cut {E} (l : bytes) (off : nat) (ns : list nat) : outcome E (list bytes) :=
  match ns with [] => Ok [] | n :: ns' => x ← slice l off (off + n); xs ← cut l (off + n) ns'; Ok (x :: xs) end.

Lemma slice_Ok {E A} (l : list A) a b x : slice (E := E) l a b = Ok x <->
  (a <= b <= length l)%nat /\ take b l = take a l ++ x /\ length x = (b - a)%nat.
Proof.
  unfold slice. destruct (a <=? b)%nat eqn:Ea, (b <=? length l)%nat eqn:Eb; cbn; breflect;
    try (split; [done|intros (? & _); lia]).
  assert (take b l = take a l ++ take (b - a) (drop a l)) as Ht.
  { rewrite take_drop_commute. replace (a + (b - a))%nat with b by lia.
    rewrite <- (take_drop a (take b l)) at 1. by rewrite take_take, Nat.min_l by lia. }
  split.
  - intros [= <-]. split_and!; [lia..|done|]. rewrite length_take, length_drop. lia.
  - intros (_ & Hx & _). rewrite Ht in Hx. f_equal. by apply app_inv_head in Hx.
Qed.

Lemma cut_Ok {E} l ns : forall off xs, (off <= length l)%nat -> cut (E := E) l off ns = Ok xs <->
  (off + sum_list ns <= length l)%nat /\ take (off + sum_list ns) l = take off l ++ concat xs /\ Forall2 sized ns xs.
Proof.
  induction ns as [|n ns IH]; intros off xs Ho; cbn [cut].
  - cbn. rewrite Nat.add_0_r. split.
    + intros [= <-]. cbn. by rewrite app_nil_r.
    + intros (_ & _ & H). by inversion H.
  - change (sum_list (n :: ns)) with (n + sum_list ns)%nat. rewrite Nat.add_assoc. split.
    + intros H. bind_inv. match goal with H : slice _ _ _ = _ |- _ => apply slice_Ok in H as (Hl & Ht & Hs) end.
      match goal with H : cut _ _ _ = _ |- _ => apply IH in H as (Hl' & Ht' & Hs'); [|lia] end.
      rewrite Ht', Ht. cbn [concat]. rewrite <- app_assoc. split_and!; [lia|done|]. constructor; [|done]. unfold sized. lia.
    + intros (Hl & Ht & Hs). inversion Hs as [|? x ? xs' Hx Hxs]; subst. unfold sized in Hx. cbn [concat] in Ht.
      assert (take (off + n) l = take off l ++ x) as Hn.
      { apply (f_equal (take (off + n))) in Ht. rewrite take_take, Nat.min_l in Ht by lia. rewrite Ht, app_assoc.
        apply take_app_length'. rewrite length_app, length_take. lia. }
      rewrite (proj2 (slice_Ok l off (off + n) x)) by (split_and!; [lia..|done|lia]). cbn [mbind outcome_bind].
      rewrite (proj2 (IH (off + n)%nat xs' ltac:(lia))); [done|]. split_and!; [done| |done]. by rewrite Ht, Hn, <- app_assoc.
Qed.

(** Each parser cuts its bytes. *)
Lemma bind_cut {E B} (l : bytes) off n ns (k : list bytes -> outcome E B) :
  (xs ← cut l off (n :: ns); k xs) = (x ← slice l off (off + n); xs ← cut l (off + n) ns; k (x :: xs)).
Proof. cbn [cut]. destruct (slice l off (off + n)); cbn; [|done..]. by destruct (cut _ _ _). Qed.
Lemma bind_ext {E A B} (m : outcome E A) (f g : A -> outcome E B) : (forall a, f a = g a) -> (a ← m; f a) = (a ← m; g a).
Proof. intros H. destruct m; [apply H|done..]. Qed.
Lemma bind_iff {E A B} (m : outcome E A) (f : A -> outcome E B) b : (a ← m; f a) = Ok b <-> exists a, m = Ok a /\ f a = Ok b.
Proof. destruct m; cbn; split; try done; [eauto|by intros (? & [= ->] & ?)|by intros (? & ? & ?)..]. Qed.
Ltac slices := repeat (rewrite bind_cut; apply bind_ext; intro); reflexivity.

Section parts.
Context {E : Type}.
Lemma header_cut b : parse_quote_header (E := E) b =
  (_ ← assert (48 <? length b)%nat; xs ← cut b 0 [2; 2; 4; 2; 2; 16; 20]%nat;
   match xs with [v; a; t; q; p; i; u] => Ok (mkQuoteHeader v a t q p i u) | _ => Panic end).
Proof. unfold parse_quote_header. destruct (48 <? _)%nat; [|done]. cbn [assert mbind outcome_bind]. slices. Qed.

Lemma header_Ok b h : parse_quote_header (E := E) b = Ok h <->
  (48 < length b)%nat /\ take 48 b = concat (print_header h) /\ header_ok h.
Proof.
  rewrite header_cut. destruct (48 <? length b)%nat eqn:Hl; cbn [assert mbind outcome_bind]; breflect; [|split; [done|intros (? & _); lia]].
  split.
  - destruct (cut _ _ _) as [x|?|] eqn:Hc; cbn [mbind outcome_bind]; try done. apply cut_Ok in Hc as (_ & Ht & Hs); [|lia].
    do 7 (destruct x as [|? x]; [done|]). destruct x; [|done]. intros; simplify_eq. done.
  - intros (_ & Ht & Hs). rewrite (proj2 (cut_Ok b [2; 2; 4; 2; 2; 16; 20]%nat 0 (print_header h) ltac:(lia))).
    + by destruct h.
    + split_and!; [cbn; lia|done|done].
Qed.

Definition report_of (xs : list bytes) : outcome E EnclaveReport :=
  match xs with
  | [a; b; c; d; e; f; g; h; i; j; k; l] =>
      i ← little_endian_decode i; j ← little_endian_decode j;
      Ok (mkEnclaveReport a b c d e f g h (as_u16 i) (as_u16 j) k l)
  | _ => Panic
  end.
Lemma report_cut b : parse_quote_enclave_report (E := E) b =
  (xs ← cut b 0 [16; 4; 28; 16; 32; 32; 32; 96; 2; 2; 60; 64]%nat; report_of xs).
Proof. unfold parse_quote_enclave_report. slices. Qed.

(** An integer field of [n] bytes. *)
Lemma le_field n (x : bytes) z : (n <= 8)%nat -> all_bytes x -> sized n x ->
  little_endian_decode (E := E) x = Ok z <-> x = le_bytes n z /\ 0 <= z < 256 ^ Z.of_nat n.
Proof.
  intros Hn Hb Hs. unfold sized in Hs. subst n. rewrite little_endian_decode_value by done. split.
  - intros [= <-]. rewrite le_bytes_value by done. split; [done|]. by apply le_value_range.
  - intros [Hx Hz]. by rewrite Hx, le_value_bytes.
Qed.

Lemma all_bytes_concat xs : all_bytes (concat xs) <-> Forall (fun x => all_bytes x) xs.
Proof.
  induction xs as [|x xs IH]; [by split; [constructor|]|]. cbn [concat]. rewrite forallb_app, andb_true_iff, Forall_cons. by rewrite IH.
Qed.
Lemma all_bytes_take n b : all_bytes b -> all_bytes (take n b).
Proof. intros Hb. rewrite <- (take_drop n b), forallb_app in Hb. by breflect. Qed.
Lemma all_bytes_drop n b : all_bytes b -> all_bytes (drop n b).
Proof. intros Hb. rewrite <- (take_drop n b), forallb_app in Hb. by breflect. Qed.

Lemma report_Ok b r : all_bytes b -> parse_quote_enclave_report (E := E) b = Ok r <->
  (384 <= length b)%nat /\ take 384 b = concat (print_report r) /\ report_ok r.
Proof.
  intros Hb. rewrite report_cut. split.
  - destruct (cut _ _ _) as [x|?|] eqn:Hc; cbn [mbind outcome_bind]; try done. apply cut_Ok in Hc as (Hl & Ht & Hs); [|lia].
    do 12 (destruct x as [|? x]; [done|]). destruct x; [|done]. cbn [report_of]. intros H.
    assert (all_bytes (take 384 b)) as Hb' by by apply all_bytes_take. change (0 + sum_list _)%nat with 384%nat in Ht.
    rewrite Ht in Hb'. cbn [take app] in Hb'. apply all_bytes_concat in Hb'.
    destruct (little_endian_decode l7) as [i|?|] eqn:Hi; cbn [mbind outcome_bind] in H; try done.
    destruct (little_endian_decode l8) as [j|?|] eqn:Hj; cbn [mbind outcome_bind] in H; try done.
    repeat match goal with H : Forall _ (_ :: _) |- _ => apply Forall_cons in H as [? H] end.
    pose proof Hs as Hs'. rewrite !Forall2_cons in Hs'. destruct Hs' as (_ & _ & _ & _ & _ & _ & _ & _ & ? & ? & _).
    apply (le_field 2) in Hi as [Hi ?]; [|lia|done..]. apply (le_field 2) in Hj as [Hj ?]; [|lia|done..].
    change (256 ^ Z.of_nat 2) with (2 ^ 16) in *. unfold as_u16 in H. rewrite !Z.mod_small in H by done. simplify_eq.
    split; [cbn in Hl; lia|]. split; [exact Ht|]. split; [exact Hs|done].
  - intros (Hl & Ht & Hs & Hi & Hj). rewrite (proj2 (cut_Ok b _ 0 (print_report r) ltac:(lia))) by (split_and!; [cbn; lia|done|done]).
    cbn [mbind outcome_bind print_report report_of].
    rewrite (proj2 (le_field 2 _ _ ltac:(lia) (le_bytes_all _ _) (le_bytes_length _ _)) (conj eq_refl Hi)).
    rewrite (proj2 (le_field 2 _ _ ltac:(lia) (le_bytes_all _ _) (le_bytes_length _ _)) (conj eq_refl Hj)).
    cbn [mbind outcome_bind]. unfold as_u16. rewrite !Z.mod_small by done. by destruct r.
Qed.

Lemma cut_cons (l : bytes) off n ns x xs :
  cut (E := E) l off (n :: ns) = Ok (x :: xs) <-> slice (E := E) l off (off + n) = Ok x /\ cut (E := E) l (off + n) ns = Ok xs.
Proof.
  cbn [cut]. destruct (slice l off (off + n)); cbn; [|by split; [|intros []]..].
  destruct (cut _ _ _); cbn; split; try done; [by intros [= -> ->]|by intros [[= ->] [= ->]]|by intros []..].
Qed.

Lemma sized_concat ns xs : Forall2 sized ns xs -> length (concat xs) = sum_list ns.
Proof.
  induction 1 as [|n x ns xs Hx Hs IH]; [done|]. cbn [concat]. change (sum_list (n :: ns)) with (n + sum_list ns)%nat.
  unfold sized in Hx. rewrite length_app. lia.
Qed.
Lemma cut_all ns xs : Forall2 sized ns xs -> cut (E := E) (concat xs) 0 ns = Ok xs.
Proof.
  intros Hs. pose proof (sized_concat _ _ Hs). apply cut_Ok; [lia|]. rewrite Nat.add_0_l.
  split_and!; [lia| |done]. by rewrite take_ge by lia.
Qed.

(** The pieces of the authentication data, without what follows the certificates. *)
Definition auth_sizes (n m : nat) : list nat := [64; 64; 384; 64; 2; n; 2; 4; m]%nat.

Variable parse_many : bytes -> option (list bytes).

(** What the parser reads, in the order of the bytes. *)
Record AuthPieces := mkAuthPieces {
  ap_sig : bytes; ap_key : bytes; ap_report : bytes; ap_qe_sig : bytes; ap_size : bytes; ap_data : bytes; ap_type : bytes;
  ap_pem_size : bytes; ap_pem : bytes; ap_n : Z; ap_t : Z; ap_m : Z; ap_certs : list bytes; ap_qe : EnclaveReport }.
Definition pieces (x : AuthPieces) : list bytes :=
  [ap_sig x; ap_key x; ap_report x; ap_qe_sig x; ap_size x; ap_data x; ap_type x; ap_pem_size x; ap_pem x].
Definition pieces_read (b : bytes) (x : AuthPieces) : Prop :=
  cut (E := E) b 0 (auth_sizes (Z.to_nat (ap_n x)) (Z.to_nat (ap_m x))) = Ok (pieces x) /\
  little_endian_decode (E := E) (ap_size x) = Ok (ap_n x) /\ little_endian_decode (E := E) (ap_type x) = Ok (ap_t x) /\
  little_endian_decode (E := E) (ap_pem_size x) = Ok (ap_m x) /\
  parse_certification_chain_bytes (E := E) parse_many (ap_pem x) = Ok (ap_certs x) /\
  parse_quote_enclave_report (E := E) (ap_report x) = Ok (ap_qe x).
Definition auth_of (x : AuthPieces) : ECDSAQuoteV3AuthData :=
  mkECDSAQuoteV3AuthData (ap_sig x) (ap_key x) (ap_qe x) (ap_qe_sig x) (mkQEAuthData (as_u16 (ap_n x)) (ap_data x))
    (mkCertificationData (as_u16 (ap_t x)) (as_u32 (ap_m x)) (ap_certs x)).

Lemma auth_pieces b a : parse_quote_auth_data (E := E) parse_many b = Ok a <-> exists x, pieces_read b x /\ a = auth_of x.
Proof.
  unfold parse_quote_auth_data. split.
  - intros H.
    apply bind_iff in H as (sz & H4 & H). apply bind_iff in H as (n & Hn & H). apply bind_iff in H as (data & H5 & H).
    apply bind_iff in H as (ty & H6 & H). apply bind_iff in H as (t & Ht & H). apply bind_iff in H as (psz & H7 & H).
    apply bind_iff in H as (m & Hm & H). apply bind_iff in H as (pem & H8 & H). apply bind_iff in H as (certs & Hp & H).
    apply bind_iff in H as (sig & H0 & H). apply bind_iff in H as (key & H1 & H). apply bind_iff in H as (rep & H2 & H).
    apply bind_iff in H as (r & Hr & H). apply bind_iff in H as (qs & H3 & [= <-]).
    exists (mkAuthPieces sig key rep qs sz data ty psz pem n t m certs r). split; [|done].
    split_and!; cbn -[cut Nat.add]; try done. unfold auth_sizes, pieces. rewrite !cut_cons. split_and!; done.
  - intros (x & (Hc & Hn & Ht & Hm & Hp & Hr) & ->). unfold auth_sizes, pieces in Hc. rewrite !cut_cons in Hc.
    destruct Hc as (H0 & H1 & H2 & H3 & H4 & H5 & H6 & H7 & H8 & _).
    do 14 (apply bind_iff; eexists; split; [eassumption|]). done.
Qed.

Lemma exact_report rep r : all_bytes rep -> length rep = 384%nat ->
  parse_quote_enclave_report (E := E) rep = Ok r <-> rep = concat (print_report r) /\ report_ok r.
Proof. intros Hb Hl. rewrite report_Ok by done. rewrite take_ge by lia. intuition lia. Qed.

Lemma certs_Ok pem certs : parse_certification_chain_bytes (E := E) parse_many pem = Ok certs <->
  parse_many pem = Some certs /\ length certs = 3%nat.
Proof.
  unfold parse_certification_chain_bytes. destruct (parse_many pem) as [l|]; cbn; [|by split; [|intros []]].
  destruct (length l =? 3)%nat eqn:Hl; cbn; breflect; split; try done; [by intros [= <-]|by intros [[= <-] _]|].
  intros [[= <-] ?]. done.
Qed.

Lemma pieces_printed b x : all_bytes b -> pieces_read b x -> exists rest,
  b = concat (print_auth (auth_of x) (ap_pem x) rest) /\ auth_ok (auth_of x) (ap_pem x) rest.
Proof.
  intros Hb (Hc & Hn & Ht & Hm & Hp & Hr). apply cut_Ok in Hc as (Hl & Hc & Hs); [|lia].
  rewrite Nat.add_0_l in Hc, Hl. change (take 0 b) with (@nil Z) in Hc. cbn [app] in Hc.
  pose proof (all_bytes_take _ _ Hb : all_bytes (take (sum_list (auth_sizes (Z.to_nat (ap_n x)) (Z.to_nat (ap_m x)))) b)) as Hb'.
  rewrite Hc in Hb'. apply all_bytes_concat in Hb'. unfold pieces in Hb'. rewrite !Forall_cons in Hb'.
  destruct Hb' as (_ & _ & Hb2 & _ & Hb4 & _ & Hb6 & Hb7 & _).
  pose proof Hs as Hs'. unfold auth_sizes, pieces in Hs'. rewrite !Forall2_cons in Hs'.
  destruct Hs' as (Hs0 & Hs1 & Hs2 & Hs3 & Hs4 & Hs5 & Hs6 & Hs7 & Hs8 & _).
  apply (le_field 2) in Hn as [Hn Hn']; [|lia|done..]. apply (le_field 2) in Ht as [Ht Ht']; [|lia|done..].
  apply (le_field 4) in Hm as [Hm Hm']; [|lia|done..]. apply certs_Ok in Hp as [_ Hp]. apply exact_report in Hr as [Hr Hro]; [|done..].
  change (256 ^ Z.of_nat 2) with (2 ^ 16) in *. change (256 ^ Z.of_nat 4) with (2 ^ 32) in *.
  exists (drop (sum_list (auth_sizes (Z.to_nat (ap_n x)) (Z.to_nat (ap_m x)))) b).
  assert (as_u16 (ap_n x) = ap_n x /\ as_u16 (ap_t x) = ap_t x /\ as_u32 (ap_m x) = ap_m x) as (En & Et & Em)
    by (unfold as_u16, as_u32; rewrite !Z.mod_small by done; done).
  unfold sized in *. split.
  - rewrite <- (take_drop (sum_list (auth_sizes (Z.to_nat (ap_n x)) (Z.to_nat (ap_m x)))) b) at 1. rewrite Hc.
    unfold print_auth, auth_of, pieces. cbn [concat ecdsa256BitSignature ecdsaAttestationKey pckSignedQeReport qeReportSignature
      qeAuthData certification parsedDataSize qe_data certType certDataSize].
    rewrite En, Et, Em, <- Hn, <- Ht, <- Hm, <- Hr. by rewrite <- !app_assoc, ?app_nil_r.
  - unfold auth_ok, print_auth, auth_of. cbn [ecdsa256BitSignature ecdsaAttestationKey pckSignedQeReport qeReportSignature
      qeAuthData certification parsedDataSize qe_data certType certDataSize decodedCertDataArray print_auth].
    rewrite En, Et, Em, <- Hn, <- Ht, <- Hm, <- Hr. split; [by repeat constructor|]. split_and!; try done; lia.
Qed.

Lemma le_field_printed n z : (n <= 8)%nat -> 0 <= z < 256 ^ Z.of_nat n -> little_endian_decode (E := E) (le_bytes n z) = Ok z.
Proof. intros. apply (le_field n); auto using le_bytes_all. apply le_bytes_length. Qed.

Lemma printed_pieces a pem rest : all_bytes (concat (print_auth a pem rest)) -> auth_ok a pem rest ->
  parse_many pem = Some (decodedCertDataArray (certification a)) ->
  exists x, pieces_read (concat (print_auth a pem rest)) x /\ a = auth_of x.
Proof.
  intros Hb (Hs & Hro & Hn & Hn' & Ht & Hm & Hm' & Hl) Hp.
  set (n := parsedDataSize (qeAuthData a)) in *. set (m := certDataSize (certification a)) in *. set (t := certType (certification a)) in *.
  exists (mkAuthPieces (ecdsa256BitSignature a) (ecdsaAttestationKey a) (concat (print_report (pckSignedQeReport a))) (qeReportSignature a)
    (le_bytes 2 n) (qe_data (qeAuthData a)) (le_bytes 2 t) (le_bytes 4 m) pem n t m (decodedCertDataArray (certification a)) (pckSignedQeReport a)).
  split.
  - split_and!; cbn -[le_bytes cut concat]; try (apply le_field_printed; cbn; lia).
    + pose proof (cut_all _ _ Hs) as Hc. rewrite Hn, Hm, !Nat2Z.id. unfold auth_sizes, pieces. cbn [ap_sig ap_key ap_report ap_qe_sig ap_size ap_data ap_type ap_pem_size ap_pem].
      unfold print_auth in Hc at 2. rewrite !cut_cons in Hc |- *. fold n t m in Hc. rewrite Hn, Hm in Hc.
      destruct Hc as (? & ? & ? & ? & ? & ? & ? & ? & ? & _). split_and!; done.
    + by apply certs_Ok.
    + apply all_bytes_concat in Hb. unfold print_auth in Hb. rewrite !Forall_cons in Hb. destruct Hb as (_ & _ & Hb & _).
      unfold print_auth in Hs. rewrite !Forall2_cons in Hs. destruct Hs as (_ & _ & Hs & _). by apply exact_report.
  - unfold auth_of. cbn -[le_bytes]. unfold as_u16, as_u32. rewrite !Z.mod_small by lia. by destruct a as [? ? ? ? [] []].
Qed.

Lemma auth_Ok b a : all_bytes b -> parse_quote_auth_data (E := E) parse_many b = Ok a <->
  exists pem rest, b = concat (print_auth a pem rest) /\ auth_ok a pem rest /\
    parse_many pem = Some (decodedCertDataArray (certification a)).
Proof.
  intros Hb. rewrite auth_pieces. split.
  - intros (x & Hx & ->). destruct (pieces_printed b x Hb Hx) as (rest & ? & ?). exists (ap_pem x), rest. split_and!; [done..|].
    destruct Hx as (_ & _ & _ & _ & Hp & _). by apply certs_Ok in Hp as [Hp _].
  - intros (pem & rest & -> & Ho & Hp). by apply (printed_pieces _ pem rest).
Qed.

Variable hex_decode : string -> option bytes.
Hypothesis hex_bytes : forall s b, hex_decode s = Some b -> all_bytes b.

(** The four parts of a quote. *)
Lemma quote_cut s q : parse_quote (E := E) parse_many hex_decode s = Ok q <-> exists b h r z a,
  hex_decode s = Some b /\ cut (E := E) b 0 [48; 384; 4; Z.to_nat z]%nat = Ok [h; r; le_bytes 4 z; a] /\ length b = (436 + Z.to_nat z)%nat /\
  0 <= z < 2 ^ 32 /\ parse_quote_header (E := E) b = Ok (quote_header q) /\
  parse_quote_enclave_report (E := E) r = Ok (localEnclaveReport q) /\ parse_quote_auth_data (E := E) parse_many a = Ok (v3AuthData q).
Proof.
  unfold parse_quote. destruct (hex_decode s) as [b|] eqn:Hx; cbn [unwrap mbind outcome_bind]; [|split; [done|by intros (? & ? & ? & ? & ? & ? & _)]].
  pose proof (hex_bytes _ _ Hx) as Hb. split.
  - intros H. apply bind_iff in H as (h & Hh & H). apply bind_iff in H as (r & H1 & H). apply bind_iff in H as (rep & Hr & H).
    apply bind_iff in H as (sz & H2 & H). apply bind_iff in H as (z & Hz & H). apply bind_iff in H as ([] & Ha & H).
    apply bind_iff in H as (a & H3 & H). apply bind_iff in H as (au & Hau & [= <-]).
    apply slice_Ok in H2 as Hs2. destruct Hs2 as (Hl2 & Ht2 & Hs2).
    apply (le_field 4) in Hz as [-> Hz]; [|lia| |exact Hs2].
    2: { pose proof (all_bytes_take 436 b Hb) as Hb2. rewrite Ht2, forallb_app in Hb2. by breflect. }
    destruct (_ =? _)%nat eqn:El in Ha; cbn [assert] in Ha; [|done]. breflect.
    change (256 ^ Z.of_nat 4) with (2 ^ 32) in Hz.
    exists b, (take 48 b), r, z, a. split; [done|]. split; [|split_and!; try done; lia].
    rewrite !cut_cons. split_and!; [|exact H1|exact H2| |done].
    + apply slice_Ok. rewrite length_take. split_and!; try lia. done.
    + replace (0 + 48 + 384 + 4 + Z.to_nat z)%nat with (length b) by lia. exact H3.
  - intros (b' & h & r & z & a & [= <-] & Hc & Hl & Hz & Hh & Hr & Ha). rewrite !cut_cons in Hc. destruct Hc as (_ & H1 & H2 & H3 & _).
    change (0 + 48 + 384 + 4)%nat with 436%nat in *. change (0 + 48 + 384)%nat with 432%nat in *. change (0 + 48)%nat with 48%nat in *.
    rewrite Hh. cbn [mbind outcome_bind]. rewrite H1. cbn [mbind outcome_bind]. rewrite Hr.
    cbn [mbind outcome_bind]. rewrite H2. cbn [mbind outcome_bind].
    rewrite le_field_printed by (cbn; lia). cbn [mbind outcome_bind]. rewrite (proj2 (Nat.eqb_eq _ _)) by lia. cbn [assert mbind outcome_bind].
    rewrite Hl. rewrite H3. cbn [mbind outcome_bind]. rewrite Ha. by destruct q.
Qed.

(** C30: A quote is parsed exactly when it is, in hexadecimal, the concatenation
    of fields of the sizes of the format: the structure registered on chain holds
    every byte of the quote, the certificates decoded from PEM and the bytes after
    them excepted, and every well-formed quote is accepted and gives back its
    structure. *)
Theorem quote_parsed_iff s q : parse_quote (E := E) parse_many hex_decode s = Ok q <-> exists b pem rest,
  hex_decode s = Some b /\ b = concat (print_quote q pem rest) /\ quote_ok q pem rest /\
  parse_many pem = Some (decodedCertDataArray (certification (v3AuthData q))).
Proof.
  rewrite quote_cut. split.
  - intros (b & h & r & z & a & Hx & Hc & Hl & Hz & Hh & Hr & Ha). pose proof (hex_bytes _ _ Hx) as Hb.
    apply cut_Ok in Hc as (_ & Hc & Hs); [|lia]. rewrite take_ge in Hc by (cbn [sum_list_with id]; lia). rewrite take_0 in Hc. cbn [app] in Hc.
    rewrite !Forall2_cons in Hs. destruct Hs as (Hs0 & Hs1 & _ & Hs3 & _). unfold sized in *.
    rewrite Hc in Hb. apply all_bytes_concat in Hb. rewrite !Forall_cons in Hb. destruct Hb as (Hb0 & Hb1 & _ & Hb3 & _).
    apply exact_report in Hr as [-> Hr]; [|done..]. apply auth_Ok in Ha as (pem & rest & -> & Ha & Hp); [|done].
    apply header_Ok in Hh as (_ & Hh & Ho). rewrite Hc in Hh. cbn [concat] in Hh. rewrite take_app_length' in Hh by lia. subst h.
    exists b, pem, rest. split; [done|]. split; [|split; [|done]].
    + rewrite Hc. unfold print_quote. cbv zeta. by rewrite Hs3, Z2Nat.id by lia.
    + split; [done|]. split; [done|]. split; [done|]. rewrite Hs3. lia.
  - intros (b & pem & rest & Hx & Hc & (Ho & Hr & Ha & Hz) & Hp). pose proof (hex_bytes _ _ Hx) as Hb.
    set (auth := concat (print_auth (v3AuthData q) pem rest)) in *.
    exists b, (concat (print_header (quote_header q))), (concat (print_report (localEnclaveReport q))), (Z.of_nat (length auth)), auth.
    pose proof (sized_concat _ _ Ho) as Hl0. pose proof (sized_concat _ _ (proj1 Hr)) as Hl1.
    assert (Forall2 sized [48; 384; 4; length auth]%nat (print_quote q pem rest)) as Hs
      by (constructor; [exact Hl0|]; constructor; [exact Hl1|]; constructor; [apply le_bytes_length|by repeat constructor]).
    assert (all_bytes (concat (print_quote q pem rest))) as Hb' by by rewrite <- Hc. apply all_bytes_concat in Hb'.
    unfold print_quote in Hb'. rewrite !Forall_cons in Hb'. destruct Hb' as (_ & Hb1 & _ & Hb3 & _).
    pose proof (sized_concat _ _ Hs) as Hl. cbn [sum_list_with id] in Hl. rewrite <- Hc in Hl. rewrite Nat2Z.id.
    split; [done|]. split; [rewrite Hc; exact (cut_all _ _ Hs)|]. split; [lia|]. split; [lia|]. split_and!.
    + apply header_Ok. split_and!; [lia| |done]. rewrite Hc. unfold print_quote. cbn [concat].
      by rewrite take_app_length' by (rewrite Hl0; reflexivity).
    + by apply exact_report.
    + apply auth_Ok; [done|]. by exists pem, rest.
Qed.
End parts.

(** ** Witness

    Text whose characters are the bytes, and certificates of one byte. *)
Module SgxQuoteExample.
Fixpoint codes (s : string) : bytes := match s with EmptyString => [] | String c s => Z.of_nat (nat_of_ascii c) :: codes s end.
Fixpoint text (b : bytes) : string := match b with [] => EmptyString | c :: b => String (ascii_of_nat (Z.to_nat c)) (text b) end.
Lemma codes_bytes s b : Some (codes s) = Some b -> all_bytes b.
Proof.
  intros [= <-]. induction s as [|c s IH]; [done|]. cbn [codes forallb]. rewrite IH, andb_true_r. unfold is_byte.
  pose proof (nat_ascii_bounded c). breflect. lia.
Qed.

Definition report (id : Z) : EnclaveReport :=
  mkEnclaveReport (replicate 16 1) (replicate 4 2) (replicate 28 3) (replicate 16 4) (replicate 32 5) (replicate 32 6) (replicate 32 7)
    (replicate 96 8) id 513 (replicate 60 9) (replicate 64 10).
Definition sample : ParsedV3QuoteStruct := mkParsedV3QuoteStruct
  (mkQuoteHeader [3; 0] [2; 0] (replicate 4 0) [10; 0] [15; 0] (replicate 16 147) (replicate 20 1)) (report 258)
  (mkECDSAQuoteV3AuthData (replicate 64 11) (replicate 64 12) (report 1) (replicate 64 13) (mkQEAuthData 2 [32; 0])
     (mkCertificationData 5 3 [[65]; [66]; [67]])).
Definition split_pem (b : bytes) : option (list bytes) := Some ((fun x => [x]) <$> b).

Lemma quote_parsed_iff_witness :
  parse_quote (E := string) split_pem (fun s => Some (codes s)) (text (concat (print_quote sample [65; 66; 67] [0]))) = Ok sample.
Proof.
  apply (quote_parsed_iff split_pem (fun s => Some (codes s)) codes_bytes).
  eexists _, [65; 66; 67], [0]. split; [reflexivity|]. split; [vm_compute; reflexivity|].
  split; [|reflexivity]. repeat (split || constructor); vm_compute; congruence.
Defined.
End SgxQuoteExample.
