(* ===== verification/SgxSetup.v ===== *)
(** * SgxSetup: registering the enclave

    Models [provers/sgx/setup/src/setup_bootstrap.rs] and the registration of
    [provers/sgx/prover/src/sgx_register_utils.rs]: the enclave is bootstrapped
    when it has to be, its quote is registered with the verifier of each fork, and
    the instance ids are written to the configuration that the provers of
    [SgxProver] read. *)
From stdpp Require Import base list list_numbers gmap fin_maps strings sorting.
From Stdlib Require Import ZArith Lia Ascii.
From S2P Require Import Prelude Text Effect Types Interfaces ChainSpec Input Blob Raiko SgxGuest SgxProver SgxProcess SgxQuote.
Local Open Scope string_scope.
Local Open Scope list_scope.
Local Open Scope Z_scope.

(** ** The machine of the setup *)

(** The call of [registerInstance]. *)
Record RegisterTx := mkRegisterTx {
  tx_to : bytes; tx_attestation : ParsedV3QuoteStruct; tx_from : bytes; tx_chain_id : Z; tx_nonce : Z; tx_value : Z; tx_gas_price : Z; tx_gas : Z }.
(** The status of a receipt, and the topics of its logs. *)
Record TxReceipt := mkTxReceipt { rc_status : bool; rc_logs : option (list (list bytes)) }.

Class SetupMachine (W : Type) := {
  read_to_string : string -> St W IoError string;
  write_file : string -> string -> St W IoError ();
  lock_file : string -> St W IoError ();
  unlock_file : string -> W -> W;
  (** the node at an address *)
  get_balance : string -> bytes -> St W string Z;
  get_transaction_count : string -> bytes -> St W string Z;
  get_gas_price : string -> St W string Z;
  call_register : string -> RegisterTx -> St W string Z;
  (** sending, and waiting for the receipt *)
  send_register : string -> RegisterTx -> St W string TxReceipt
}.

(** Parsers and printers of other crates. *)
Class SetupLib := {
  wallet_address : string -> option bytes;
  parse_rpc_url : string -> bool;
  pem_parse_many : bytes -> option (list bytes);
  fork_ids_from_str : string -> outcome string (gmap Z Z);
  fork_ids_pretty : gmap Z Z -> outcome string string;
  (** the name of a fork in JSON *)
  spec_id_name : Z -> string;
  value_from_reader : string -> outcome string Value;
  value_pretty : Value -> outcome string string;
  default_specs_list : list ChainSpec;
  specs_from_value : Value -> outcome string (list ChainSpec)
}.

(** ** Maps of the setup *)

(** [bytes] in lexicographic order, the order of the keys of a [BTreeMap]. *)
Fixpoint bytes_lt (a b : bytes) : bool :=
  match a, b with
  | [], _ :: _ => true
  | x :: a', y :: b' => (x <? y) || ((x =? y) && bytes_lt a' b')
  | _, [] => false
  end.

(** [entry(addr).or_default().push(spec_id)]. *)
Fixpoint entry_push (addr : bytes) (spec_id : Z) (l : list (bytes * list Z)) : list (bytes * list Z) :=
  match l with
  | [] => [(addr, [spec_id])]
  | (a, ids) :: l' =>
      if bool_decide (a = addr) then (a, ids ++ [spec_id]) :: l'
      else if bytes_lt addr a then (addr, [spec_id]) :: l else (a, ids) :: entry_push addr spec_id l'
  end.

Definition key_le {A} (x y : Z * A) : Prop := x.1 <= y.1.
#[global] Instance key_le_dec {A} : RelDecision (@key_le A) := fun x y => Z_le_dec x.1 y.1.
(** The entries of a [BTreeMap<SpecId, _>]. *)
Definition btree_list {A} (m : gmap Z A) : list (Z * A) := merge_sort key_le (map_to_list m).

Definition verifier_of (proof_type : ProofType) (verifiers : gmap ProofType (option bytes)) : option bytes :=
  match verifiers !! proof_type with Some (Some addr) => Some addr | _ => None end.
Definition get_hard_fork_verifiers (taiko_chain_spec : ChainSpec) (proof_type : ProofType) : list (bytes * list Z) :=
  foldl (fun fork_verifiers '(spec_id, verifiers) =>
           match verifier_of proof_type verifiers with
           | Some addr => entry_push addr spec_id fork_verifiers
           | None => fork_verifiers
           end) [] (btree_list (verifier_address_forks taiko_chain_spec)).

(** [file_config[k1][k2] = v]: an entry that is missing is made, a value that is
    not an object is a panic. *)
Definition set_entry {E} (k : string) (f : Value -> outcome E Value) (v : Value) : outcome E Value :=
  match v with
  | JObject l => x ← f (default JNull (assoc k l)); Ok (JObject (upsert k x l))
  | JNull => x ← f JNull; Ok (JObject [(k, x)])
  | _ => Panic
  end.

Section setup.
Context {W : Type} `{MC : Machine W} `{SM : SetupMachine W} `{SL : SgxLib} `{UL : SetupLib}.
Abbreviation M := (St W string).

(** A match on the result of an operation. *)
Definition on_result {E F A B} (f : outcome E A -> outcome F B) (m : St W E A) : St W F B := fun w =>
  let '(w', r) := m w in (w', f r).

(** ** The file of registered ids *)
Definition read_ids (r : outcome IoError string) : outcome string (option (gmap Z Z)) :=
  match r with
  | Ok t => m ← fork_ids_from_str t; Ok (Some m)
  | Err e => if io_not_found e then Ok None else Err (io_text e)
  | Panic => Panic
  end.
Definition absent_ok (r : outcome IoError ()) : outcome string () :=
  match r with Err e => if io_not_found e then Ok () else Err (io_text e) | Ok _ => Ok () | Panic => Panic end.
Definition get_registered_file {E} (proof_type : ProofType) : outcome E string :=
  match proof_type with Sgx => Ok "registered.json" | SgxGeth => Ok "registered.gaiko.json" | _ => Panic end.

Definition get_instance_id (dir : list string) (proof_type : ProofType) : M (option (gmap Z Z)) :=
  file ← lift (get_registered_file proof_type);
  on_result read_ids (read_to_string (path_text (dir ++ [file]))).

Definition set_instance_id (dir : list string) (proof_type : ProofType) (fork_ids : gmap Z Z) : M () :=
  file ← lift (get_registered_file proof_type);
  json_str ← lift (fork_ids_pretty fork_ids);
  map_st_err io_text (write_file (path_text (dir ++ [file])) json_str).

Definition remove_instance_id (dir : list string) (proof_type : ProofType) : M () :=
  file ← lift (get_registered_file proof_type);
  on_result absent_ok (remove_file (path_text (dir ++ [file]))).

(** ** The registration *)
Definition gas_limit : Z := 4000000.
Definition u64_from_be_bytes (b : bytes) : Z := foldl (fun acc x => acc * 256 + x) 0 b.

(** The first log of the receipt, and the last eight bytes of its second topic. *)
Definition registered_id (tx_receipt : TxReceipt) : outcome string Z :=
  _ ← assert (rc_status tx_receipt);
  logs ← unwrap (rc_logs tx_receipt);
  topics ← unwrap (head logs);
  topic ← unwrap (topics !! 1%nat);
  Ok (u64_from_be_bytes (drop 24 topic)).

Definition register_sgx_instance (quote_str l1_rpc_url : string) (chain_id : Z) (sgx_verifier_addr : bytes) : M Z :=
  sender_priv_key ← lift (unwrap (env "SENDER_PRIV_KEY"));
  wallet ← lift (unwrap (wallet_address sender_priv_key));
  _ ← lift (ensure (parse_rpc_url l1_rpc_url) "Invalid RPC URL");
  balance ← get_balance l1_rpc_url wallet;
  nonce ← get_transaction_count l1_rpc_url wallet;
  gas_price ← get_gas_price l1_rpc_url;
  _ ← lift (assert (wrap 128 (gas_price * gas_limit) <? balance));
  parsed_quote ← lift (parse_quote pem_parse_many hex_decode quote_str);
  let call := mkRegisterTx sgx_verifier_addr parsed_quote wallet chain_id nonce 0 gas_price gas_limit in
  _ ← call_register l1_rpc_url call;
  tx_receipt ← send_register l1_rpc_url call;
  lift (registered_id tx_receipt).

(** ** The setup *)
Definition setup_cmd (proof_type : ProofType) (dir : list string) : Cmd :=
  if bool_decide (proof_type = SgxGeth) then mkCmd "sudo" [path_text (dir ++ [GAIKO_ELF_NAME])] None
  else mkCmd "sudo" ["gramine-sgx"; ELF_NAME] (Some (path_text dir)).

Fixpoint register_all (quote : string) (l1_chain_spec : ChainSpec) (pairs : list (bytes * list Z)) (fork_register_id : gmap Z Z) : M (gmap Z Z) :=
  match pairs with
  | [] => mret fork_register_id
  | (verifier_addr, spec_ids) :: pairs' =>
      register_id ← register_sgx_instance quote (rpc l1_chain_spec) (chain_id l1_chain_spec) verifier_addr;
      register_all quote l1_chain_spec pairs' (foldl (fun m s => <[s := register_id]> m) fork_register_id spec_ids)
  end.

Definition all_registered (pairs : list (bytes * list Z)) (m : gmap Z Z) : bool :=
  forallb (fun s => bool_decide (is_Some (m !! s))) (concat pairs.*2).

Definition ids_value (m : gmap Z Z) : Value := JObject ((fun kv => (spec_id_name kv.1, JNumber kv.2)) <$> btree_list m).

Definition prover_text {A} (m : St W ProverError A) : M A := map_st_err ProverError_to_string m.

Definition merge_from_file (path : string) : M SupportedChainSpecs :=
  t ← map_st_err io_text (read_to_string path);
  config ← lift (value_from_reader t);
  l ← lift (specs_from_value config);
  mret (merge_specs default_specs_list l).

Record BootstrapArgs := mkBootstrapArgs { config_path : string; chain_spec_path : string; l1_network : string; network : string; block_num : Z }.

(** Both messages name the L1 network. *)
Definition unsupported (layer : string) (args : BootstrapArgs) (proof_type : ProofType) : string :=
  "Unsupported " +:+ layer +:+ " network: " +:+ l1_network args +:+ ", proof_type: " +:+ proof_type_to_string proof_type.

Definition need_init (pairs : list (bytes * list Z)) (checked : outcome ProverError ()) (registered_fork_ids : option (gmap Z Z)) : bool :=
  match checked, registered_fork_ids with Ok _, Some m => negb (all_registered pairs m) | _, _ => true end.

(** A new key, and its registration with every verifier; the file of registered
    ids is there only when all of it succeeded. *)
Definition init_bootstrap (secret_dir config_dir dir : list string) (l1_chain_spec : ChainSpec) (pairs : list (bytes * list Z))
    (proof_type : ProofType) : M (gmap Z Z) :=
  _ ← remove_instance_id config_dir proof_type;
  bootstrap_proof ← prover_text (local_bootstrap true secret_dir (setup_cmd proof_type dir) proof_type);
  fork_register_id ← register_all (sr_quote bootstrap_proof) l1_chain_spec pairs ∅;
  _ ← set_instance_id config_dir proof_type fork_register_id;
  mret fork_register_id.

Definition setup_bootstrap_inner (secret_dir config_dir : list string) (args : BootstrapArgs) (proof_type : ProofType) (file_config : Value) : M Value :=
  chain_specs ← merge_from_file (chain_spec_path args);
  l1_chain_spec ← lift (ok_or (get_chain_spec chain_specs (l1_network args)) (unsupported "l1" args proof_type));
  taiko_chain_spec ← lift (ok_or (get_chain_spec chain_specs (network args)) (unsupported "l2" args proof_type));
  exe ← lift (unwrap current_exe);
  dir ← lift (unwrap (parent exe));
  let fork_verifier_pairs := get_hard_fork_verifiers taiko_chain_spec proof_type in
  registered_fork_ids ← get_instance_id config_dir proof_type;
  checked ← prover_text (attempt (check_bootstrap secret_dir (setup_cmd proof_type dir) proof_type));
  registered_fork_ids ← (if need_init fork_verifier_pairs checked registered_fork_ids
    then init_bootstrap secret_dir config_dir dir l1_chain_spec fork_verifier_pairs proof_type
    else lift (unwrap registered_fork_ids));
  file_config ← lift (set_entry (proof_type_to_string proof_type)
    (set_entry "instance_ids" (fun _ => Ok (ids_value registered_fork_ids))) file_config);
  json ← lift (value_pretty file_config);
  let new_config_path := path_text (config_dir ++ ["config.sgx.json"]) in
  _ ← map_st_err (fun _ => "Saving bootstrap data file " +:+ new_config_path +:+ " failed") (write_file new_config_path json);
  mret file_config.

(** The lock is released however the setup ends. *)
Definition guarded {A} (path : string) (m : M A) : M A := fun w => let '(w', r) := m w in (unlock_file path w', r).

Definition setup_bootstrap (secret_dir config_dir : list string) (args : BootstrapArgs) : M Value :=
  let lock := path_text (config_dir ++ ["bootstrap.lock"]) in
  _ ← map_st_err io_text (lock_file lock);
  guarded lock (
    t ← map_st_err io_text (read_to_string (config_path args));
    file_config ← lift (value_from_reader t);
    file_config ← setup_bootstrap_inner secret_dir config_dir args Sgx file_config;
    setup_bootstrap_inner secret_dir config_dir args SgxGeth file_config).

(** ** The verifiers of the forks *)
Definition listed (l : list (bytes * list Z)) (addr : bytes) (s : Z) : Prop := exists ids, (addr, ids) ∈ l /\ s ∈ ids.

Lemma listed_cons a ids l addr s : listed ((a, ids) :: l) addr s <-> (addr = a /\ s ∈ ids) \/ listed l addr s.
Proof.
  unfold listed. split.
  - intros (i & Hi & Hs). apply elem_of_cons in Hi as [[= -> ->]|Hi]; [by left|right; eauto].
  - intros [[-> Hs]|(i & Hi & Hs)]; eexists; (split; [|exact Hs]); set_solver.
Qed.
Lemma listed_nil addr s : ~ listed [] addr s.
Proof. intros (? & H & _). by apply elem_of_nil in H. Qed.

Lemma listed_push a s l addr s' : listed (entry_push a s l) addr s' <-> (addr = a /\ s' = s) \/ listed l addr s'.
Proof.
  induction l as [|[b ids] l IH]; cbn [entry_push].
  - rewrite listed_cons, list_elem_of_singleton. pose proof (listed_nil addr s'). tauto.
  - case_bool_decide as Hb; [subst b|case_match]; rewrite !listed_cons, ?IH, ?elem_of_app, ?list_elem_of_singleton; tauto.
Qed.

Lemma btree_list_elem {A} (m : gmap Z A) k v : (k, v) ∈ btree_list m <-> m !! k = Some v.
Proof. unfold btree_list. rewrite merge_sort_Permutation. apply elem_of_map_to_list. Qed.

(** The pairs list each fork under its own verifier, and no other fork. *)
Lemma verifiers_listed spec pt addr s : listed (get_hard_fork_verifiers spec pt) addr s <->
  exists vs, verifier_address_forks spec !! s = Some vs /\ verifier_of pt vs = Some addr.
Proof.
  unfold get_hard_fork_verifiers. setoid_rewrite <- btree_list_elem.
  generalize (btree_list (verifier_address_forks spec)) as l. intros l.
  assert (forall acc, listed (foldl (fun fv '(s, vs) => match verifier_of pt vs with Some a => entry_push a s fv | None => fv end) acc l) addr s <->
    listed acc addr s \/ exists vs, (s, vs) ∈ l /\ verifier_of pt vs = Some addr) as H.
  { induction l as [|[s1 vs1] l IH]; intros acc; cbn [foldl].
    - setoid_rewrite elem_of_nil. naive_solver.
    - rewrite IH. setoid_rewrite elem_of_cons. destruct (verifier_of pt vs1) as [a|] eqn:Hv; [rewrite listed_push|]; naive_solver. }
  rewrite H. pose proof (listed_nil addr s). tauto.
Qed.

(** ** The ids *)

(** The id that a verifier issued, in some state. *)
Definition issued (quote : string) (l1 : ChainSpec) (addr : bytes) (id : Z) : Prop :=
  exists w1 w2, register_sgx_instance quote (rpc l1) (chain_id l1) addr w1 = (w2, Ok id).

Lemma insert_all (ids : list Z) (id : Z) (m : gmap Z Z) s :
  foldl (fun m s => <[s := id]> m) m ids !! s = if bool_decide (s ∈ ids) then Some id else m !! s.
Proof.
  revert m; induction ids as [|x ids IH]; intros m; cbn [foldl]; [done|]. rewrite IH, lookup_insert.
  repeat case_bool_decide; repeat case_decide; set_solver.
Qed.

Lemma register_all_spec quote l1 pairs : forall acc w w' m, register_all quote l1 pairs acc w = (w', Ok m) ->
  (forall s, is_Some (acc !! s) \/ (exists addr, listed pairs addr s) -> is_Some (m !! s)) /\
  (forall s id, m !! s = Some id -> acc !! s = Some id \/ exists addr, listed pairs addr s /\ issued quote l1 addr id).
Proof.
  induction pairs as [|[a ids] pairs IH]; intros acc w w' m H; cbn [register_all] in H.
  - op_inv. split; [intros s [?|(? & ?%listed_nil)]; done|by left].
  - op_inv. match goal with H : register_all _ _ _ _ _ = _ |- _ => apply IH in H as [Hc Ho] end. split.
    + intros s Hs. apply Hc. rewrite insert_all. setoid_rewrite listed_cons in Hs. case_bool_decide; naive_solver.
    + intros s id Hs. setoid_rewrite listed_cons. destruct (Ho _ _ Hs) as [Hi|(addr & ? & ?)]; [|naive_solver].
      rewrite insert_all in Hi. case_bool_decide; [|by left]. simplify_eq. right. exists a. split; [by left|]. eexists _, _. eassumption.
Qed.

Lemma all_registered_spec pairs m : all_registered pairs m = true <-> forall addr s, listed pairs addr s -> is_Some (m !! s).
Proof.
  unfold all_registered. rewrite forallb_forall. setoid_rewrite bool_decide_eq_true. split.
  - intros H addr s (ids & Hi & Hs). apply H. apply in_concat. exists ids. rewrite <- !list_elem_of_In. split; [|done].
    apply list_elem_of_fmap. by exists (addr, ids).
  - intros H s Hs. apply in_concat in Hs as (ids & Hi & Hs). rewrite <- !list_elem_of_In in *. apply list_elem_of_fmap in Hi as ([addr i] & -> & Hi).
    apply (H addr). by exists i.
Qed.

Definition fork_has_verifier (spec : ChainSpec) (pt : ProofType) (s : Z) (addr : bytes) : Prop :=
  exists vs, verifier_address_forks spec !! s = Some vs /\ verifier_of pt vs = Some addr.

(** Reading the ids back from the configuration. *)
Lemma ids_from_entries (l : list (Z * Z)) :
  (forall s, spec_id_from_str (spec_id_name s) = Some s) -> Forall (fun kv => u64b kv.2 = true) l ->
  instance_ids_from ((fun kv => (spec_id_name kv.1, JNumber kv.2)) <$> l) = Some (list_to_map l).
Proof.
  intros Hn. induction 1 as [|[s id] l Hu Hl IH]; [done|]. cbn [fmap list_fmap instance_ids_from fst snd]. rewrite IH.
  cbn [mbind option_bind]. rewrite Hn. cbn [mbind option_bind as_u64]. cbn in Hu. by rewrite Hu.
Qed.

Lemma ids_value_read (m : gmap Z Z) :
  (forall s, spec_id_from_str (spec_id_name s) = Some s) -> (forall s id, m !! s = Some id -> u64b id = true) ->
  dec_instance_ids (ids_value m) = Some m.
Proof.
  intros Hn Hu. unfold ids_value, dec_instance_ids. rewrite <- fmap_reverse, ids_from_entries; [|done|].
  - f_equal. rewrite <- (list_to_map_to_list m) at 2.
    assert (reverse (btree_list m) ≡ₚ map_to_list m) as Hp by (unfold btree_list; by rewrite reverse_Permutation, merge_sort_Permutation).
    apply list_to_map_proper; [|done]. rewrite Hp. apply NoDup_fst_map_to_list.
  - apply Forall_forall. intros [s id] Hi. rewrite elem_of_reverse in Hi. apply btree_list_elem in Hi. eauto.
Qed.

(** ** Properties *)

(** The documented behaviour of the crates and of the node: names of forks can be
    read back, ids in the file have 64 bits, and topics have 32 bytes. *)
Class SetupLaws : Prop := {
  spec_name_roundtrip : forall s, spec_id_from_str (spec_id_name s) = Some s;
  file_ids_u64 : forall t m s id, fork_ids_from_str t = Ok m -> m !! s = Some id -> u64b id = true;
  topics_32 : forall url tx w w' r logs topics topic, send_register url tx w = (w', Ok r) -> rc_logs r = Some logs ->
    topics ∈ logs -> topic ∈ topics -> length topic = 32%nat /\ forallb is_byte topic = true
}.
Context `{LW : !SetupLaws}.

Lemma be_value_range b : forallb is_byte b = true -> 0 <= u64_from_be_bytes b < 256 ^ Z.of_nat (length b).
Proof.
  unfold u64_from_be_bytes. induction b as [|x b IH] using rev_ind; intros Hb; [cbn; lia|].
  rewrite forallb_app in Hb. cbn in Hb. breflect. unfold is_byte in *. breflect. rewrite foldl_app, length_app. cbn [foldl length].
  rewrite Nat.add_1_r, Nat2Z.inj_succ, Z.pow_succ_r by lia. specialize (IH ltac:(done)). lia.
Qed.

Lemma registered_id_Ok r id : registered_id r = Ok id -> rc_status r = true /\
  exists topics topic rest, rc_logs r = Some (topics :: rest) /\ topics !! 1%nat = Some topic /\ id = u64_from_be_bytes (drop 24 topic).
Proof.
  unfold registered_id. destruct (rc_status r); cbn [assert mbind outcome_bind]; [|done]. intros H. split; [done|].
  destruct (rc_logs r) as [[|topics rest]|]; cbn [unwrap mbind outcome_bind head] in H; try done.
  destruct (topics !! 1%nat) as [topic|] eqn:Ht; cbn [unwrap mbind outcome_bind] in H; [|done]. injection H as <-. by exists topics, topic, rest.
Qed.

(** A registration that succeeds has sent its quote, parsed, to the verifier, from
    the wallet, and returns the low 64 bits of the id in the first event. *)
Lemma register_Ok quote url chain addr w w' id : register_sgx_instance quote url chain addr w = (w', Ok id) ->
  exists tx w1 receipt, tx_to tx = addr /\ tx_chain_id tx = chain /\
    parse_quote (E := string) pem_parse_many hex_decode quote = Ok (tx_attestation tx) /\
    send_register url tx w1 = (w', Ok receipt) /\ rc_status receipt = true /\
    exists topics topic rest, rc_logs receipt = Some (topics :: rest) /\ topics !! 1%nat = Some topic /\ id = u64_from_be_bytes (drop 24 topic).
Proof.
  unfold register_sgx_instance. intros H. op_inv.
  match goal with H : send_register _ ?t ?w1 = (_, Ok ?r) |- _ => exists t, w1, r end.
  match goal with H : registered_id _ = _ |- _ => apply registered_id_Ok in H end. done.
Qed.

Lemma issued_u64 quote l1 addr id : issued quote l1 addr id -> u64b id = true.
Proof.
  intros (w1 & w2 & H). apply register_Ok in H as (tx & w3 & r & _ & _ & _ & Hs & _ & topics & topic & rest & Hl & Ht & ->).
  destruct (topics_32 _ _ _ _ _ _ topics topic Hs Hl) as [Hn Hb]; [set_solver|by eapply list_elem_of_lookup_2|].
  pose proof (be_value_range (drop 24 topic)) as Hr. rewrite length_drop, Hn in Hr.
  rewrite <- (take_drop 24 topic), forallb_app in Hb. breflect. specialize (Hr ltac:(done)). change (256 ^ Z.of_nat (32 - 24)) with (2 ^ 64) in Hr. by apply bool_decide_eq_true.
Qed.

(** Where the ids come from: the file, or the verifiers of their forks. *)
Definition ids_known (config_dir : list string) (l1 l2 : ChainSpec) (pt : ProofType) (ids : gmap Z Z) : Prop :=
  (exists w1 w2, get_instance_id config_dir pt w1 = (w2, Ok (Some ids))) \/
  (exists quote, forall s id, ids !! s = Some id -> exists addr, fork_has_verifier l2 pt s addr /\ issued quote l1 addr id).

Lemma ids_known_u64 dir l1 l2 pt ids s id : ids_known dir l1 l2 pt ids -> ids !! s = Some id -> u64b id = true.
Proof.
  intros [(w1 & w2 & H)|(quote & H)] Hs.
  - unfold get_instance_id, on_result in H. op_inv. destruct (read_to_string _ _) as [w3 r]. injection H as _ H.
    unfold read_ids in H. destruct r; [|by case_match|done]. bind_inv. simplify_eq. by eapply file_ids_u64.
  - destruct (H _ _ Hs) as (addr & _ & Hi). by eapply issued_u64.
Qed.

Lemma init_Ok sd cd dir l1 l2 pt w w' ids :
  init_bootstrap sd cd dir l1 (get_hard_fork_verifiers l2 pt) pt w = (w', Ok ids) ->
  ids_known cd l1 l2 pt ids /\ forall s addr, fork_has_verifier l2 pt s addr -> is_Some (ids !! s).
Proof.
  unfold init_bootstrap. intros H. op_inv.
  match goal with H : register_all ?q _ _ _ _ = _ |- _ => apply register_all_spec in H as [Hc Ho]; split; [right; exists q|] end.
  - intros s id Hs. destruct (Ho _ _ Hs) as [Hi|(addr & Hl & Hi)]; [by rewrite lookup_empty in Hi|]. exists addr. split; [|done].
    by apply verifiers_listed.
  - intros s addr Hv. apply Hc. right. exists addr. by apply verifiers_listed.
Qed.

(** The ids that a configuration holds for a proof type. *)
Definition config_ids (pt : ProofType) (cfg : Value) : option (gmap Z Z) :=
  match Interfaces.get (proof_type_to_string pt) cfg with Some (JObject l) => assoc "instance_ids" l ≫= dec_instance_ids | _ => None end.

Lemma set_entry_get {E} k f (v v' : Value) : set_entry (E := E) k f v = Ok v' ->
  exists x, f (default JNull (Interfaces.get k v)) = Ok x /\ Interfaces.get k v' = Some x /\ (exists l, v' = JObject l) /\
    forall j, j <> k -> Interfaces.get j v' = Interfaces.get j v.
Proof.
  unfold set_entry. destruct v; try done; intros H; bind_inv; simplify_eq; cbn [Interfaces.get].
  - eexists. split; [done|]. cbn. rewrite bool_decide_eq_true_2 by done. split_and!; [done|eauto|]. intros j Hj. by rewrite bool_decide_eq_false_2.
  - eexists. split; [done|]. rewrite assoc_upsert, bool_decide_eq_true_2 by done. split_and!; [done|eauto|].
    intros j Hj. by rewrite assoc_upsert, bool_decide_eq_false_2.
Qed.

Lemma ok_or_found {E A} (o : option A) (e : E) a : ok_or o e = Ok a -> o = Some a.
Proof. destruct o; cbn; by intros [= ->]. Qed.

Lemma chosen_ids sd cd dir l1 l2 pt w0 w1 reg checked w w' ids :
  get_instance_id cd pt w0 = (w1, Ok reg) ->
  (if need_init (get_hard_fork_verifiers l2 pt) checked reg
   then init_bootstrap sd cd dir l1 (get_hard_fork_verifiers l2 pt) pt else lift (unwrap reg)) w = (w', Ok ids) ->
  ids_known cd l1 l2 pt ids /\ forall s addr, fork_has_verifier l2 pt s addr -> is_Some (ids !! s).
Proof.
  intros Hg H. destruct (need_init _ _ _) eqn:Hn; [by eapply init_Ok|].
  unfold need_init in Hn. destruct checked, reg as [m|]; try done. apply negb_false_iff in Hn.
  cbn in H. injection H as _ <-. split; [left; eauto|]. intros s addr Hv. eapply all_registered_spec; [done|]. by apply verifiers_listed.
Qed.

(** The configuration as it is left in its file. *)
Definition saved (cd : list string) (cfg : Value) (w' : W) : Prop :=
  exists json w, value_pretty cfg = Ok json /\ write_file (path_text (cd ++ ["config.sgx.json"])) json w = (w', Ok ()).

Lemma inner_Ok sd cd args pt cfg w w' cfg' : setup_bootstrap_inner sd cd args pt cfg w = (w', Ok cfg') ->
  (forall k, k <> proof_type_to_string pt -> Interfaces.get k cfg' = Interfaces.get k cfg) /\ saved cd cfg' w' /\
  exists w1 w2 specs l1 l2 ids, merge_from_file (chain_spec_path args) w1 = (w2, Ok specs) /\
    get_chain_spec specs (l1_network args) = Some l1 /\ get_chain_spec specs (network args) = Some l2 /\
    config_ids pt cfg' = Some ids /\ ids_known cd l1 l2 pt ids /\
    forall s addr, fork_has_verifier l2 pt s addr -> is_Some (ids !! s).
Proof.
  unfold setup_bootstrap_inner. intros H. op_inv.
  match goal with H : set_entry _ _ _ = _ |- _ => apply set_entry_get in H as (x & Hx & Hg & _ & Hk) end.
  apply set_entry_get in Hx as (y & [= <-] & Hy & [l ->] & _). cbn [Interfaces.get] in Hy.
  match goal with Hg : get_instance_id _ _ _ = _, H : (if need_init _ _ _ then _ else _) _ = _ |- _ =>
    destruct (chosen_ids _ _ _ _ _ _ _ _ _ _ _ _ _ Hg H) as [Hi Hc] end.
  split; [done|]. split.
  - match goal with H : value_pretty _ = Ok ?j, H' : map_st_err _ _ ?w = _ |- _ => exists j, w; split; [exact H|];
      unfold map_st_err in H'; destruct (write_file _ j w) as [? [[]|?|]] end; by simplify_eq/=.
  - match goal with H : merge_from_file _ ?w = (?w', Ok ?specs) |- _ => exists w, w', specs end.
    repeat match goal with H : ok_or _ _ = Ok _ |- _ => apply ok_or_found in H end. do 3 eexists. split_and!; try done.
    unfold config_ids. rewrite Hg, Hy. cbn. apply ids_value_read; [apply spec_name_roundtrip|]. intros. by eapply ids_known_u64.
Qed.

(** The parameters of a prover hold the ids of the configuration. *)
Lemma param_ids pt cfg p ids : config_ids pt cfg = Some ids -> sgx_param pt cfg = Ok p -> instance_ids p = ids.
Proof.
  unfold sgx_param, config_ids. destruct (Interfaces.get _ cfg) as [[]|]; try done. cbn [unwrap mbind outcome_bind Interfaces.get].
  intros Hi. unfold mbind, option_bind in Hi |- *. rewrite Hi. intros Hp. unfold unwrap in Hp. repeat case_match; by simplify_eq.
Qed.

(** C31: After a successful setup the saved configuration serves the provers: for
    each of the two proof types, a block of the configured network whose fork has
    a verifier finds its instance id, and every id comes from the file of ids
    registered before or was issued on chain by the verifier of its own fork, for
    the quote of one enclave. *)
Theorem setup_serves_forks sd cd args w w' cfg pt : setup_bootstrap sd cd args w = (w', Ok cfg) -> pt = Sgx \/ pt = SgxGeth ->
  (exists w1, saved cd cfg w1) /\
  exists w1 w2 specs l1 l2 ids, merge_from_file (chain_spec_path args) w1 = (w2, Ok specs) /\
    get_chain_spec specs (l1_network args) = Some l1 /\ get_chain_spec specs (network args) = Some l2 /\ ids_known cd l1 l2 pt ids /\
    forall Tx (input : GuestInput Tx) p s addr, chain_spec input = l2 -> sgx_param pt cfg = Ok p ->
      active_fork l2 (number (block_header (block input))) (timestamp (block_header (block input))) = Ok s -> fork_has_verifier l2 pt s addr ->
      exists id, ids !! s = Some id /\ get_instance_id_from_params input p = Ok id /\ 0 <= id < 2 ^ 64.
Proof.
  unfold setup_bootstrap. intros H Hpt. op_inv. unfold guarded in H.
  match goal with H : (let '(_, _) := ?m ?w in _) = _ |- _ => destruct (m w) as [w2 r] eqn:Hm end. injection H as _ ->. op_inv.
  rename cfg into cfg2. match goal with H : setup_bootstrap_inner _ _ _ Sgx _ _ = (_, Ok ?c) |- _ => rename c into cfg1; apply inner_Ok in H as (_ & _ & H1) end.
  match goal with H : setup_bootstrap_inner _ _ _ SgxGeth _ _ = _ |- _ => apply inner_Ok in H as (Hk & Hs & H2) end.
  split; [by eexists|].
  assert (exists w1 w2 specs l1 l2 ids, merge_from_file (chain_spec_path args) w1 = (w2, Ok specs) /\
    get_chain_spec specs (l1_network args) = Some l1 /\ get_chain_spec specs (network args) = Some l2 /\
    config_ids pt cfg2 = Some ids /\ ids_known cd l1 l2 pt ids /\
    forall s addr, fork_has_verifier l2 pt s addr -> is_Some (ids !! s)) as (a & b & specs & l1 & l2 & ids & Hm1 & Hn1 & Hn & Hi & Hki & Hc).
  { destruct Hpt as [->| ->].
    - destruct H1 as (a & b & specs & l1 & l2 & ids & ? & ? & ? & Hi & ? & ?). exists a, b, specs, l1, l2, ids. split_and!; try done.
      unfold config_ids in *. by rewrite Hk.
    - destruct H2 as (a & b & specs & l1 & l2 & ids & ? & ? & ? & Hi & ? & ?). by exists a, b, specs, l1, l2, ids. }
  exists a, b, specs, l1, l2, ids. split_and!; try done. intros Tx input p s addr Hch Hp Hf Hv. destruct (Hc s addr Hv) as [id Hid].
  exists id. split; [done|]. split; [|exact (proj1 (bool_decide_eq_true _) (ids_known_u64 _ _ _ _ _ _ _ Hki Hid))].
  apply (param_ids _ _ _ _ Hi) in Hp. subst ids. unfold get_instance_id_from_params. rewrite Hch, Hf. cbn. by rewrite Hid.
Qed.

(** An unknown L2 network is reported under the name of the L1 network. *)
Theorem unknown_l2_names_l1 sd cd args pt cfg w w1 specs l1 :
  merge_from_file (chain_spec_path args) w = (w1, Ok specs) -> get_chain_spec specs (l1_network args) = Some l1 ->
  get_chain_spec specs (network args) = None ->
  setup_bootstrap_inner sd cd args pt cfg w =
    (w1, Err ("Unsupported l2 network: " +:+ l1_network args +:+ ", proof_type: " +:+ proof_type_to_string pt)).
Proof.
  intros Hm H1 H2. unfold setup_bootstrap_inner. unfold mbind, st_bind. rewrite Hm. unfold lift. rewrite H1. cbn [ok_or]. by rewrite H2.
Qed.
End setup.

(** ** Witness

    A machine with no state on which nothing is bootstrapped, and a node that
    registers every quote under the same id. *)
Module SgxSetupExample.
Definition quote_text : string := SgxQuoteExample.text (concat (print_quote SgxQuoteExample.sample [65; 66; 67] [0])).
#[local] Instance setup_lib : SgxLib := {|
  env k := if bool_decide (k = "SENDER_PRIV_KEY") then Some "key" else None; current_exe := Some ["bin"; "setup"]; docker_build := true;
  spec_id_from_str := SgxProcessExample.unspell; spec_id_text _ := "";
  json_from_str _ := Some (JObject [("quote", JString quote_text)]);
  sgx_response_from_str _ := Err ""; remote_response_from_str _ := Err "";
  from_utf8 b := Ok (SgxQuoteExample.text b); from_utf8_lossy := SgxQuoteExample.text; SgxProver.text_bytes := SgxQuoteExample.codes;
  parse_b256 _ := None; SgxProver.hex_decode s := Some (SgxQuoteExample.codes s);
  raw_json _ := Err ""; raw_json_written _ := []; raw_bincode_written _ := []; join_error := "panic"
|}.
#[local] Instance setup_machine : Machine () := {|
  run_process _ _ w := (w, Exited (mkOutput true "0" [65] []));
  path_exists _ _ := false; remove_file _ := mret (); create_dir_all _ := mret (); copy_file _ _ := mret ();
  tempfile := mret (); post _ _ := lift (Err "")
|}.
Definition id_topic : bytes := replicate 31 0 ++ [5].
#[local] Instance setup_node : SetupMachine () := {|
  read_to_string f := if bool_decide (f = "/config/registered.json") || bool_decide (f = "/config/registered.gaiko.json")
                      then lift (Err (mkIoError true "not found")) else mret "";
  write_file _ _ := mret (); lock_file _ := mret (); unlock_file _ w := w;
  get_balance _ _ := mret (10 ^ 18); get_transaction_count _ _ := mret 0; get_gas_price _ := mret 1;
  call_register _ _ := mret 5; send_register _ _ := mret (mkTxReceipt true (Some [[id_topic; id_topic]]))
|}.
Definition flags : list (string * Value) := [("setup", JBool false); ("bootstrap", JBool false); ("prove", JBool true)].
Definition l1_spec : ChainSpec := new_single "holesky" 17000 1 Eip1559Constants_default false.
Definition l2_spec : ChainSpec := mkChainSpec "taiko_a7" 167009 2 [(2, Block 0)] Eip1559Constants_default None None "l2" None
  {[ 2 := {[ Sgx := Some [7]; SgxGeth := Some [8] ]} ]} 0 1 true.
#[local] Instance setup_crates : SetupLib := {|
  wallet_address _ := Some [1]; parse_rpc_url _ := true; pem_parse_many := SgxQuoteExample.split_pem;
  fork_ids_from_str _ := Err ""; fork_ids_pretty _ := Ok "{}"; spec_id_name := SgxProcessExample.spell;
  value_from_reader _ := Ok (JObject [("sgx", JObject flags); ("sgxgeth", JObject flags)]); value_pretty _ := Ok "{}";
  default_specs_list := []; specs_from_value _ := Ok [l1_spec; l2_spec]
|}.

#[local] Instance setup_laws : SetupLaws (W := ()).
Proof.
  split; [intros s; apply SgxProcessExample.unspell_spell|done|].
  intros url tx w w' r logs topics topic [= _ <-] [= <-] Ht Hp. apply list_elem_of_singleton in Ht as ->.
  assert (topic = id_topic) as -> by set_solver. done.
Qed.

Definition args : BootstrapArgs := mkBootstrapArgs "/etc/config" "/etc/specs" "holesky" "taiko_a7" 0.
Definition block_input : GuestInput bytes :=
  mkGuestInput (block sgx_block_input) l2_spec (parent_header sgx_block_input) (parent_state_trie sgx_block_input) ∅ [] [] (taiko sgx_block_input).

Definition new_config : Value := match (setup_bootstrap ["secrets"] ["config"] args ()).2 with Ok cfg => cfg | _ => JNull end.
Lemma setup_run : setup_bootstrap ["secrets"] ["config"] args () = ((), Ok new_config).
Proof. vm_compute. reflexivity. Qed.
Lemma new_param : match sgx_param Sgx new_config with Ok _ => true | _ => false end = true.
Proof. vm_compute. reflexivity. Qed.

Lemma setup_serves_forks_witness : exists cfg p id, setup_bootstrap ["secrets"] ["config"] args () = ((), Ok cfg) /\
  sgx_param Sgx cfg = Ok p /\ get_instance_id_from_params block_input p = Ok id.
Proof.
  pose proof new_param as Hb. destruct (sgx_param Sgx new_config) as [p|?|] eqn:Hp; [clear Hb|discriminate Hb..].
  destruct (setup_serves_forks ["secrets"] ["config"] args () () new_config Sgx setup_run (or_introl eq_refl))
    as (_ & [] & [] & specs & l1 & l2 & ids & Hm & _ & Hn & _ & H).
  injection Hm as <-. assert (l2_spec = l2) as <- by (apply (inj Some); rewrite <- Hn; reflexivity).
  destruct (H bytes block_input p 2 [7] eq_refl Hp eq_refl) as (id & _ & Hid & _); [exists {[ Sgx := Some [7]; SgxGeth := Some [8] ]}; split; reflexivity|].
  exists new_config, p, id. split; [exact setup_run|]. split; [exact Hp|exact Hid].
Defined.
End SgxSetupExample.
