(* ===== verification/Risc0.v ===== *)
(** * Risc0: the driver of the RISC Zero prover

    Models [provers/risc0/driver/src] ([lib.rs], [bonsai.rs], [snarks.rs]) and the
    programs of [provers/risc0/guest/src] ([batch.rs], [aggregation.rs]). The
    proving service, the local prover, the verifier contract and the cache of
    receipts on disk are the operations of a machine; a receipt is a value of the
    zkVM library. Waiting for the service is a loop: [None] is a call that has not
    returned within the given number of polls. *)
From stdpp Require Import base list list_numbers gmap fin_maps strings.
From Stdlib Require Import ZArith Lia Ascii.
From S2P Require Import Prelude Text Effect Types Interfaces Request Lru Pool ChainSpec Mpt MptHash RlpCodec Input Blob MemDb Builder Eip4844 ProtocolInstance Raiko SgxProcess.
Local Open Scope string_scope.
Local Open Scope list_scope.
Local Open Scope Z_scope.

(** ** Calls that may wait *)
Definition Flow (W E A : Type) : Type := W -> option (W * outcome E A).
#[global] Instance flow_ret {W E} : MRet (Flow W E) := fun A a w => Some (w, Ok a).
#[global] Instance flow_bind {W E} : MBind (Flow W E) := fun A B f m w =>
  match m w with
  | Some (w', Ok a) => f a w'
  | Some (w', Err e) => Some (w', Err e)
  | Some (w', Panic) => Some (w', Panic)
  | None => None
  end.
Definition now {W E A} (m : St W E A) : Flow W E A := fun w => Some (m w).
Definition done_with {W E A} (r : outcome E A) : Flow W E A := fun w => Some (w, r).
Definition map_flow_err {W E F A} (f : E -> F) (m : Flow W E A) : Flow W F A := fun w =>
  match m w with Some (w', r) => Some (w', map_err f r) | None => None end.

(** ** The zkVM library *)
Inductive BonsaiExecutionError : Type :=
| SdkFailure (e : string)
| BonsaiOther (e : string)
| Fatal (e : string).

Record ZkAggregationGuestInput := mkZkAggregationGuestInput { zk_image_id : list Z; zk_block_inputs : list bytes }.

Class Risc0Lib (Tx : Type) := {
  Receipt : Type;
  journal : Receipt -> bytes;
  receipt_verify : Receipt -> bytes -> bool;
  (** the seal of a Groth16 receipt; the post state of its claim, if it has one *)
  groth16_seal : Receipt -> outcome string bytes;
  claim_post : Receipt -> outcome string (outcome string bytes);
  compute_image_id : bytes -> outcome string bytes;
  (** [serde::to_vec] of a digest and of an input, and the inverse on a journal *)
  output_to_vec : bytes -> option (list Z);
  input_to_vec : GuestBatchInput Tx -> option (list Z);
  journal_decode : bytes -> outcome string bytes;
  receipt_to_bincode : Receipt -> outcome string bytes;
  receipt_from_bincode : bytes -> outcome string Receipt;
  cache_to_bincode : string * Receipt -> option bytes;
  cache_from_bincode : bytes -> outcome string (string * Receipt);
  receipt_to_json : Receipt -> option string;
  receipt_from_json : string -> option Receipt;
  cast_slice : list Z -> bytes;
  r0_keccak : bytes -> bytes;
  sha_digest : bytes -> bytes;
  r0_hex : bytes -> string;
  r0_hex_upper : bytes -> string;
  r0_hex_decode : string -> option bytes;
  abi_encode_proof : bytes * bytes -> bytes;
  abi_encode_aggregation : bytes * bytes * bytes -> bytes;
  verifier_parameters_digest : bytes;
  h160_from_str : string -> option bytes;
  rpc_client : string -> outcome string ();
  (** the [Debug] of errors and of a session *)
  bonsai_debug : BonsaiExecutionError -> string;
  prover_debug : ProverError -> string;
  session_debug : string -> string;
  r0_env : string -> option string;
  is_dev_mode : bool;
  RISC0_BATCH_ELF : bytes;
  RISC0_AGGREGATION_ELF : bytes
}.

Record SessionStatus := mkSessionStatus { ss_status : string; ss_receipt_url : option string; ss_error_msg : option string }.
Record SnarkStatus := mkSnarkStatus { sn_status : string; sn_output : option string; sn_error_msg : option string }.

(** ** The machine *)
Class Bonsai (W : Type) `{RL : Risc0Lib Tx} := {
  bonsai_client : St W string ();
  session_status : string -> St W string SessionStatus;
  session_logs : string -> W -> W * string;
  session_stop : string -> St W string ();
  bonsai_download : string -> St W string bytes;
  upload_img : string -> bytes -> St W string ();
  upload_input : bytes -> St W string string;
  create_session : string -> string -> list string -> bool -> St W string string;
  client_upload_receipt : bytes -> St W string string;
  create_snark : string -> St W string string;
  snark_status : string -> St W string SnarkStatus;
  (** the cache on disk *)
  cache_dir_all : W -> W;
  cache_read : string -> W -> option bytes;
  cache_write : string -> bytes -> St W string ();
  segment_dir : St W string ();
  (** proving on this machine: the executor and the prover, and Groth16 *)
  local_session : Z -> list Z -> bytes -> list Receipt -> St W string Receipt;
  groth16_prove : list Receipt -> ZkAggregationGuestInput -> bytes -> St W string Receipt;
  (** the call of the verifier contract *)
  verify_call : string -> bytes -> bytes -> bytes -> bytes -> St W string ()
}.

(** The store of request ids that a prover is given. *)
Class IdStore (W : Type) := {
  ids_read : ProofKey -> St W ProverError string;
  ids_store : ProofKey -> string -> St W ProverError ();
  ids_remove : ProofKey -> St W ProverError ()
}.

(** ** Parameters, results, errors *)
Record Risc0Param := mkRisc0Param { r0_bonsai : bool; r0_snark : bool; r0_profile : bool; execution_po2 : Z }.
Record Risc0Response := mkRisc0Response { r0_proof : string; r0_receipt : string; r0_uuid : string; r0_input : bytes }.
Definition risc0_into (value : Risc0Response) : Proof_ :=
  mkProof (Some (r0_proof value)) (Some (r0_input value)) (Some (r0_receipt value)) (Some (r0_uuid value)) None.

Definition MAX_REQUEST_RETRY : nat := 8.

Definition risc0_param (config : Value) : outcome ProverError Risc0Param :=
  v ← unwrap (Interfaces.get "risc0" config);
  unwrap (match v with
          | JObject _ =>
              b ← Interfaces.get "bonsai" v ≫= as_bool; s ← Interfaces.get "snark" v ≫= as_bool;
              p ← Interfaces.get "profile" v ≫= as_bool; e ← Interfaces.get "execution_po2" v ≫= as_u64;
              if e <? 2 ^ 32 then Some (mkRisc0Param b s p e) else None
          | JArray [b; s; p; e] =>
              b ← as_bool b; s ← as_bool s; p ← as_bool p; e ← as_u64 e;
              if e <? 2 ^ 32 then Some (mkRisc0Param b s p e) else None
          | _ => None
          end).

Section driver.
Context {W Tx : Type} `{RL : Risc0Lib Tx} `{BW : !Bonsai W} `{ID : !IdStore W}.
Abbreviation BM := (Flow W BonsaiExecutionError).
Abbreviation M := (Flow W ProverError).

Definition sdk {A} (m : St W string A) : BM A := now (map_st_err SdkFailure m).

(** ** Waiting for a receipt *)

(** The loop over the attempts of one poll; [n] attempts are left. *)
Fixpoint query_status (n : nat) (uuid : string) : BM (option SessionStatus) :=
  match n with
  | O => mret None
  | S n' =>
      _ ← sdk bonsai_client;
      (fun w => match session_status uuid w with
                | (w', Ok response) => Some (w', Ok (Some response))
                | (w', Err err) => match n' with O => Some (w', Err (SdkFailure err)) | S _ => query_status n' uuid w' end
                | (w', Panic) => Some (w', Panic)
                end) : BM (option SessionStatus)
  end.

(** The session succeeded: the receipt is downloaded and verified. An output that
    is not the expected one is only logged. *)
Definition take_receipt (image_id expected_output : bytes) (uuid : string) (res : SessionStatus) : BM (string * Receipt) :=
  receipt_url ← done_with (unwrap (ss_receipt_url res));
  _ ← sdk bonsai_client;
  receipt_buf ← sdk (bonsai_download receipt_url);
  receipt ← done_with (map_err (fun e => BonsaiOther ("Failed to deserialize receipt: " +:+ e)) (receipt_from_bincode receipt_buf));
  _ ← done_with (assert (receipt_verify receipt image_id));
  _ ← done_with (map_err BonsaiOther (journal_decode (journal receipt)));
  mret (uuid, receipt).

Fixpoint verify_bonsai_receipt (polls : nat) (image_id expected_output : bytes) (uuid : string) (max_retries : nat) : BM (string * Receipt) :=
  match polls with
  | O => fun _ => None
  | S polls' =>
      res ← query_status max_retries uuid;
      res ← done_with (ok_or res (BonsaiOther "status result not found!"));
      if bool_decide (ss_status res = "RUNNING") then verify_bonsai_receipt polls' image_id expected_output uuid max_retries
      else if bool_decide (ss_status res = "SUCCEEDED") then take_receipt image_id expected_output uuid res
      else
        _ ← sdk bonsai_client;
        (fun w => let '(w', log) := session_logs uuid w in
          Some (w', Err (Fatal ("Workflow " +:+ session_debug uuid +:+ " exited: " +:+ ss_status res +:+ " - | err: " +:+ option.default "" (ss_error_msg res)
            +:+ " | log: " +:+ log)))) : BM (string * Receipt)
  end.

(** ** The cache *)
Definition zkp_cache_path (receipt_label : string) : string := "/tmp/risc0-cache/" +:+ receipt_label +:+ ".zkp".

Definition load_receipt (label : string) : St W string (option (string * Receipt)) := fun w =>
  if is_dev_mode then (w, Ok None)
  else
    let w := cache_dir_all w in
    match cache_read (zkp_cache_path label) w with
    | Some b => (w, c ← cache_from_bincode b; Ok (Some c))
    | None => (w, Ok None)
    end.

Definition save_receipt (label : string) (data : string * Receipt) : M () := fun w =>
  if is_dev_mode then Some (w, Ok ())
  else
    let w := cache_dir_all w in
    Some (match cache_to_bincode data with
          | Some b => let '(w', r) := cache_write (zkp_cache_path label) b w in (w', unwrap_ok r)
          | None => (w, Panic)
          end).

(** ** Proving *)
Definition upload_receipt (receipt : Receipt) : St W string string :=
  _ ← bonsai_client; b ← lift (receipt_to_bincode receipt); client_upload_receipt b.

Definition cancel_proof (uuid : string) : St W string () := _ ← bonsai_client; session_stop uuid.

Definition prove_bonsai (polls : nat) (encoded_input : list Z) (elf expected_output : bytes) (assumption_uuids : list string)
    (proof_key : ProofKey) (id_store : bool) : BM (string * Receipt) :=
  image_id ← done_with (map_err (fun e => BonsaiOther ("Failed to compute image id: " +:+ e)) (compute_image_id elf));
  let encoded_image_id := r0_hex image_id in
  _ ← sdk bonsai_client;
  _ ← sdk (upload_img encoded_image_id elf);
  input_id ← sdk (upload_input (cast_slice encoded_input));
  session ← sdk (create_session encoded_image_id input_id assumption_uuids false);
  _ ← (if id_store then now (map_st_err (fun e => BonsaiOther ("Failed to store session id: " +:+ prover_debug e)) (ids_store proof_key session))
       else mret ());
  verify_bonsai_receipt polls image_id expected_output session MAX_REQUEST_RETRY.

Definition prove_locally (segment_limit_po2 : Z) (encoded_input : list Z) (elf : bytes) (assumptions : list Receipt) : St W ProverError Receipt :=
  _ ← map_st_err FileIo segment_dir;
  map_st_err GuestError (local_session segment_limit_po2 encoded_input elf assumptions).

(** [retry_with_backoff]: [n] attempts may still fail; every error is retried. *)
Fixpoint retry_with_backoff {A} (n : nat) (operation : BM A) : M A := fun w =>
  match operation w with
  | Some (w', Ok r) => Some (w', Ok r)
  | Some (w', Err e) =>
      match n with
      | O => Some (w', Err (GuestError ("Bonsai SDK call fail: " +:+ bonsai_debug e)))
      | S n' => retry_with_backoff n' operation w'
      end
  | Some (w', Panic) => Some (w', Panic)
  | None => None
  end.

Definition receipt_label (image_id : bytes) (encoded_output : list Z) : string :=
  r0_hex image_id +:+ "-" +:+ r0_hex (r0_keccak (cast_slice encoded_output)).

(** The receipt of the cache, of the service, or of this machine; the flag tells
    whether it was cached. *)
Definition get_receipt (polls : nat) (param : Risc0Param) (label : string) (encoded_input : list Z) (elf expected_output : bytes)
    (assumptions : list Receipt * list string) (proof_key : ProofKey) (id_store : bool) : M (string * Receipt * bool) := fun w =>
  match load_receipt label w with
  | (w', Ok (Some cached)) => Some (w', Ok (cached, true))
  | (w', Panic) => Some (w', Panic)
  | (w', _) =>
      (if r0_bonsai param then
         c ← retry_with_backoff MAX_REQUEST_RETRY (prove_bonsai polls encoded_input elf expected_output (snd assumptions) proof_key id_store);
         mret (c, false)
       else
         now (fun w => let '(w', r) := prove_locally (execution_po2 param) encoded_input elf (fst assumptions) w in
           (w', match r with
                | Ok receipt => Ok ("", receipt, false)
                | Err _ => Err (GuestError "Failed to prove locally")
                | Panic => Panic
                end))) w'
  end.

Definition maybe_prove (polls : nat) (param : Risc0Param) (encoded_input : list Z) (elf expected_output : bytes)
    (assumptions : list Receipt * list string) (proof_key : ProofKey) (id_store : bool) : M (string * Receipt) :=
  encoded_output ← done_with (unwrap (output_to_vec expected_output));
  computed_image_id ← done_with (unwrap_ok (compute_image_id elf));
  let label := receipt_label computed_image_id encoded_output in
  found ← get_receipt polls param label encoded_input elf expected_output assumptions proof_key id_store;
  let '(receipt_uuid, receipt, cached) := found : string * Receipt * bool in
  output_guest ← done_with (unwrap_ok (journal_decode (journal receipt)));
  _ ← done_with (ensure (bool_decide (expected_output = output_guest)) (GuestError "Output mismatch!"));
  receipt_uuid ← (if r0_bonsai param && bool_decide (receipt_uuid = "")
                  then now ((fun w => let '(w', r) := upload_receipt receipt w in (w', unwrap_ok r)) : St W ProverError string) else mret receipt_uuid);
  _ ← (if cached then mret () else save_receipt label (receipt_uuid, receipt));
  mret (receipt_uuid, receipt).

(** ** From STARK to SNARK *)
Definition anyhow_text {A} (m : St W string A) : Flow W string A := now m.

(** The loop that waits for the conversion; [retries] failures are still waited
    out. *)
Fixpoint wait_snark (polls : nat) (snark_uuid : string) (retries : nat) : Flow W string Receipt :=
  match polls with
  | O => fun _ => None
  | S polls' =>
      res ← anyhow_text (snark_status snark_uuid);
      if bool_decide (sn_status res = "RUNNING") then wait_snark polls' snark_uuid retries
      else if bool_decide (sn_status res = "SUCCEEDED") then
        download_url ← done_with (unwrap (sn_output res));
        receipt_buf ← anyhow_text (bonsai_download download_url);
        done_with (receipt_from_bincode receipt_buf)
      else match retries with O => done_with Panic | S r => wait_snark polls' snark_uuid r end
  end.

Definition post_digest (r : Receipt) : outcome string bytes := o ← claim_post r; unwrap_ok o.

(** A receipt whose state or journal differs is only logged, and saved. *)
Definition stark2snark (polls : nat) (image_id : bytes) (stark_uuid : string) (stark_receipt : Receipt) (max_retries : nat) :
    Flow W string (string * Receipt) := fun w =>
  let label := r0_hex_upper image_id +:+ "-" +:+ r0_hex (r0_keccak (sha_digest (journal stark_receipt))) in
  match load_receipt label w with
  | (w', Ok (Some cached)) => Some (w', Ok cached)
  | (w', Panic) => Some (w', Panic)
  | (w', _) =>
      (stark_uuid ← (if bool_decide (stark_uuid = "") then anyhow_text (upload_receipt stark_receipt) else mret stark_uuid);
       _ ← anyhow_text bonsai_client;
       snark_uuid ← anyhow_text (create_snark stark_uuid);
       snark_receipt ← wait_snark polls snark_uuid max_retries;
       _ ← done_with (post_digest stark_receipt);
       _ ← done_with (post_digest snark_receipt);
       _ ← map_flow_err ProverError_to_string (save_receipt label (snark_uuid, snark_receipt));
       mret (snark_uuid, snark_receipt)) w'
  end.

(** [encode]: the selector of the verifier and the seal. *)
Definition encode_seal (seal : bytes) : bytes := take 4 verifier_parameters_digest ++ seal.

(** The answer of the contract is only logged. *)
Definition verify_groth16_snark_impl (image_id seal journal_digest post_state_digest : bytes) : Flow W string bytes :=
  verifier_rpc_url ← done_with (unwrap (r0_env "GROTH16_VERIFIER_RPC_URL"));
  addr ← done_with (unwrap (r0_env "GROTH16_VERIFIER_ADDRESS"));
  groth16_verifier_addr ← done_with (unwrap (h160_from_str addr));
  _ ← done_with (rpc_client verifier_rpc_url);
  let enc_seal := encode_seal seal in
  _ ← now ((fun w => let '(w', r) := verify_call verifier_rpc_url groth16_verifier_addr enc_seal image_id journal_digest w in (w', ignore r)) : St W string ());
  mret enc_seal.

Definition verify_groth16_from_snark_receipt (image_id : bytes) (snark_receipt : Receipt) : Flow W string bytes :=
  seal ← done_with (unwrap_ok (groth16_seal snark_receipt));
  post_state_digest ← done_with (post_digest snark_receipt);
  encoded_proof ← verify_groth16_snark_impl image_id seal (sha_digest (journal snark_receipt)) post_state_digest;
  mret (drop 32 (abi_encode_proof (encoded_proof, image_id))).

Definition verify_aggregation_groth16_proof (block_proof_image_id aggregation_image_id : bytes) (receipt : Receipt) : Flow W string bytes :=
  seal ← done_with (map_err (fun e => "receipt.inner.groth16() failed: " +:+ e) (groth16_seal receipt));
  post ← done_with (claim_post receipt);
  post_state_digest ← done_with (map_err (fun e => "receipt.claim()?.as_value() failed: " +:+ e) post);
  encoded_proof ← verify_groth16_snark_impl aggregation_image_id seal (sha_digest (journal receipt)) post_state_digest;
  mret (drop 32 (abi_encode_aggregation (encoded_proof, block_proof_image_id, aggregation_image_id))).

Definition bonsai_stark_to_snark (polls : nat) (stark_uuid : string) (stark_receipt : Receipt) (input elf : bytes) : M Risc0Response :=
  image_id ← done_with (map_err (fun e => GuestError ("Failed to compute image id: " +:+ e)) (compute_image_id elf));
  snark ← map_flow_err (fun e => GuestError ("Failed to convert STARK to SNARK: " +:+ e))
    (stark2snark polls image_id stark_uuid stark_receipt MAX_REQUEST_RETRY);
  enc_proof ← map_flow_err (fun e => GuestError ("Failed to verify SNARK: " +:+ e)) (verify_groth16_from_snark_receipt image_id (snd (snark : string * Receipt)));
  json ← done_with (unwrap (receipt_to_json stark_receipt));
  mret (mkRisc0Response ("0x" +:+ r0_hex enc_proof) json stark_uuid input).

(** ** The prover *)

(** [unimplemented!]. *)
Definition risc0_run (input : GuestInput Tx) (output : GuestOutput) (config : Value) (id_store : bool) : M Proof_ := done_with Panic.

Definition batch_run (polls : nat) (id_store : bool) (input : GuestBatchInput Tx) (output : GuestBatchOutput Tx) (config : Value) : M Proof_ :=
  param ← done_with (risc0_param config);
  let proof_key : ProofKey := (chain_id (batch_chain_spec (batch_taiko input)), batch_id (batch_taiko input), out_batch_hash output, proof_type_u8 Risc0) in
  encoded_input ← done_with (unwrap (input_to_vec input));
  found ← maybe_prove polls param encoded_input RISC0_BATCH_ELF (out_batch_hash output) ([], []) proof_key id_store;
  let '(uuid, receipt) := found : string * Receipt in
  if r0_snark param && r0_bonsai param then
    r0_response ← map_flow_err (fun e => GuestError (ProverError_to_string e))
      (bonsai_stark_to_snark polls uuid receipt (out_batch_hash output) RISC0_BATCH_ELF);
    mret (risc0_into r0_response)
  else
    json ← done_with (unwrap (receipt_to_json receipt));
    mret (risc0_into (mkRisc0Response ("0x" +:+ r0_hex (journal receipt)) json uuid (out_batch_hash output))).

(** [as_words] of a digest. *)
Fixpoint as_words (b : bytes) : list Z :=
  match b with
  | w :: x :: y :: z :: b' => (w + 256 * x + 65536 * y + 16777216 * z) :: as_words b'
  | _ => []
  end.

Definition block_receipt (p : Proof_) : outcome ProverError Receipt := q ← unwrap (quote p); unwrap (receipt_from_json q).

(** The image id in the first proof, after the word with the offset of its seal. *)
Definition input_image_id (proofs : list Proof_) : outcome ProverError bytes :=
  first ← unwrap (proofs !! 0%nat);
  text ← unwrap (proof first);
  digits ← unwrap (match text with String _ (String _ rest) => Some rest | _ => None end);
  b ← unwrap (r0_hex_decode digits);
  slice b 32 64.

Definition aggregation_guest_input (input : AggregationGuestInput) : outcome ProverError (list Receipt * bytes * ZkAggregationGuestInput) :=
  assumptions ← collect block_receipt (agg_proofs input);
  block_inputs ← collect (fun p => unwrap (proof_input p)) (agg_proofs input);
  image_id ← input_image_id (agg_proofs input);
  Ok (assumptions, image_id, mkZkAggregationGuestInput (as_words image_id) block_inputs).

Definition risc0_aggregate (input : AggregationGuestInput) (config : Value) : M Proof_ :=
  param ← done_with (risc0_param config);
  _ ← done_with (assert (r0_snark param && r0_bonsai param));
  i ← done_with (aggregation_guest_input input);
  let '(assumptions, image_id, zk_input) := i : list Receipt * bytes * ZkAggregationGuestInput in
  receipt ← now (map_st_err (fun e => GuestError ("RISC0 aggregation proof generation failed: " +:+ e))
    (groth16_prove assumptions zk_input RISC0_AGGREGATION_ELF));
  aggregation_image_id ← done_with (unwrap_ok (compute_image_id RISC0_AGGREGATION_ELF));
  proof_data ← map_flow_err (fun e => GuestError ("Failed to verify SNARK: " +:+ e))
    (verify_aggregation_groth16_proof image_id aggregation_image_id receipt);
  json ← done_with (unwrap (receipt_to_json receipt));
  mret (risc0_into (mkRisc0Response ("0x" +:+ r0_hex proof_data) json "" (sha_digest (journal receipt)))).

(** The text of the error decides whether there is nothing to cancel. *)
Definition contains_text (needle s : string) : bool := match String.index 0 needle s with Some _ => true | None => false end.
Definition risc0_cancel (key : ProofKey) : St W ProverError () := fun w =>
  match ids_read key w with
  | (w', Ok uuid) =>
      (_ ← map_st_err GuestError (cancel_proof uuid); ids_remove key) w'
  | (w', Err e) =>
      if contains_text "No data for query" (ProverError_to_string e) then (w', Ok ())
      else (w', Err (GuestError (ProverError_to_string e)))
  | (w', Panic) => (w', Panic)
  end.
End driver.

(** ** The guest programs *)
Section guest.
Context {Tx : Type} `{KK : Keccak} `{AR : AlloyRlp} `{EA : EvmAccounts} `{BL : BlockLib Tx} `{K : KzgLib} `{P : ProtocolLib Tx}.
Variables (zlib : bytes -> option bytes) (rlp : bytes -> option (list Tx)).

Definition risc0_block_main (input : GuestInput Tx) : outcome string bytes :=
  header ← calculate_block_header zlib rlp input;
  pi ← unwrap_ok (ProtocolInstance_new input header Risc0);
  Ok (instance_hash pi).

Definition risc0_batch_main (batch_input : GuestBatchInput Tx) : outcome string bytes :=
  final_blocks ← calculate_batch_blocks_final_header zlib rlp batch_input;
  pi ← unwrap_ok (ProtocolInstance_new_batch batch_input final_blocks Risc0);
  Ok (instance_hash pi).

(** [verified] tells whether a receipt with this image and journal was given. *)
Variable output_to_words : bytes -> option (list Z).
Fixpoint verify_inputs (verified : list Z -> list Z -> bool) (image_id : list Z) (block_inputs : list bytes) : outcome string () :=
  match block_inputs with
  | [] => Ok ()
  | b :: rest => v ← unwrap (output_to_words b); _ ← assert (verified image_id v); verify_inputs verified image_id rest
  end.
Definition risc0_aggregation_main (verified : list Z -> list Z -> bool) (input : ZkAggregationGuestInput) : outcome string bytes :=
  _ ← verify_inputs verified (zk_image_id input) (zk_block_inputs input);
  Ok (aggregation_output (words_to_bytes_le (zk_image_id input)) (zk_block_inputs input)).
End guest.

(** ** Properties *)
Lemma flow_bind_Ok {W E A B} (f : A -> Flow W E B) (m : Flow W E A) w w' b :
  mbind f m w = Some (w', Ok b) -> exists w1 a, m w = Some (w1, Ok a) /\ f a w1 = Some (w', Ok b).
Proof. unfold mbind, flow_bind. destruct (m w) as [[w1 [a|x|]]|]; intros; simplify_eq; eauto. Qed.
Lemma map_flow_err_Ok {W E F A} (f : E -> F) (m : Flow W E A) w w' a : map_flow_err f m w = Some (w', Ok a) -> m w = Some (w', Ok a).
Proof. unfold map_flow_err. destruct (m w) as [[w1 [x|x|]]|]; intros; by simplify_eq/=. Qed.
Lemma done_with_Ok {W E A} (r : outcome E A) (w w' : W) a : done_with r w = Some (w', Ok a) -> w' = w /\ r = Ok a.
Proof. unfold done_with. by intros [= -> ->]. Qed.
Lemma map_err_Ok {E F A} (f : E -> F) (r : outcome E A) a : map_err f r = Ok a -> r = Ok a.
Proof. destruct r; cbn; by intros [= ->]. Qed.
Lemma unwrap_Some {E A} (o : option A) a : unwrap (E := E) o = Ok a -> o = Some a.
Proof. destruct o; cbn; by intros [= ->]. Qed.
Lemma unwrap_ok_inner {E F A} (r : outcome E A) a : unwrap_ok (F := F) r = Ok a -> r = Ok a.
Proof. destruct r; cbn; by intros [= ->]. Qed.

(** Invert a call that returned, step by step. *)
Ltac flow_inv :=
  repeat match goal with
  | H : mbind _ _ _ = Some (_, Ok _) |- _ => apply flow_bind_Ok in H as (? & ? & ? & H); cbn beta iota zeta in H
  | H : done_with _ _ = Some (_, Ok _) |- _ => apply done_with_Ok in H as [? H]; subst
  | H : map_flow_err _ _ _ = Some (_, Ok _) |- _ => apply map_flow_err_Ok in H
  | H : map_err _ _ = Ok _ |- _ => apply map_err_Ok in H
  | H : unwrap _ = Ok _ |- _ => apply unwrap_Some in H
  | H : unwrap_ok _ = Ok _ |- _ => apply unwrap_ok_inner in H
  | H : mret _ _ = Some _ |- _ => unfold mret, flow_ret in H
  | H : Some _ = Some _ |- _ => injection H as H
  | H : (_, _) = (_, _) |- _ => injection H as ? ?; subst
  | H : Ok _ = Ok _ |- _ => injection H as H; subst
  end; subst.

Section receipts.
Context {W Tx : Type} `{RL : Risc0Lib Tx} `{BW : !Bonsai W} `{ID : !IdStore W}.

(** The documented behaviour of the libraries: a digest in hexadecimal has no
    dash and can be read back, and so can a receipt in the cache and in JSON. *)
Fixpoint no_dash (s : string) : Prop := match s with "" => True | String c s => c <> "-"%char /\ no_dash s end.
Definition all_bytes (b : bytes) : Prop := Forall (fun x => is_byte x = true) b.
Class Risc0Laws : Prop := {
  hex_no_dash : forall b, no_dash (r0_hex b);
  hex_read : forall b, all_bytes b -> r0_hex_decode (r0_hex b) = Some b;
  cache_read_back : forall d b, cache_to_bincode d = Some b -> cache_from_bincode b = Ok d;
  json_read_back : forall r t, receipt_to_json r = Some t -> receipt_from_json t = Some r;
  image_id_bytes : forall elf image, compute_image_id elf = Ok image -> length image = 32%nat /\ all_bytes image;
  abi_bytes : forall p, all_bytes (abi_encode_proof p);
  (** the second word of the encoding of a seal and an image id is the id *)
  abi_image : forall seal image, length image = 32%nat -> all_bytes image -> slice (E := ProverError) (drop 32 (abi_encode_proof (seal, image))) 32 64 = Ok image
}.

(** An operation that leaves the cache alone. *)
Definition keeps {E A} (m : Flow W E A) : Prop := forall w w' r, m w = Some (w', r) -> forall p, cache_read p w' = cache_read p w.
Class CacheLaws : Prop := {
  keep_client : keeps (now bonsai_client);
  keep_status : forall u, keeps (now (session_status u));
  keep_logs : forall u w p, cache_read p (session_logs u w).1 = cache_read p w;
  keep_download : forall u, keeps (now (bonsai_download u));
  keep_img : forall i b, keeps (now (upload_img i b));
  keep_input : forall b, keeps (now (upload_input b));
  keep_session : forall a b c d, keeps (now (create_session a b c d));
  keep_upload : forall b, keeps (now (client_upload_receipt b));
  keep_dir : forall w p, cache_read p (cache_dir_all w) = cache_read p w;
  keep_segments : keeps (now segment_dir);
  keep_local : forall a b c d, keeps (now (local_session a b c d));
  keep_ids : forall k i, keeps (now (ids_store k i));
  write_reads : forall p b w w' x, cache_write p b w = (w', Ok x) -> cache_read p w' = Some b /\ forall q, q <> p -> cache_read q w' = cache_read q w
}.
Context `{RLaws : !Risc0Laws} `{CLaws : !CacheLaws}.

Lemma keeps_done {E A} (r : outcome E A) : keeps (done_with r).
Proof. by intros w w' r' [= <- <-]. Qed.
Lemma keeps_ret {E A} (a : A) : keeps (mret a : Flow W E A).
Proof. by intros w w' r' [= <- <-]. Qed.
Lemma keeps_bind {E A B} (m : Flow W E A) (f : A -> Flow W E B) : keeps m -> (forall a, keeps (f a)) -> keeps (mbind f m).
Proof.
  intros Hm Hf w w' r H p. unfold mbind, flow_bind in H. destruct (m w) as [[w1 [a|x|]]|] eqn:Em; simplify_eq; [|by eapply Hm..].
  rewrite (Hf a _ _ _ H). by eapply Hm.
Qed.
Lemma keeps_map {E F A} (f : E -> F) (m : St W E A) : keeps (now m) -> keeps (now (map_st_err f m)).
Proof.
  intros Hm w w' r H p. unfold now, map_st_err in H. destruct (m w) as [w1 r1] eqn:Em. simplify_eq. apply (Hm w w' r1). unfold now. by rewrite Em.
Qed.
Lemma keeps_flow_map {E F A} (f : E -> F) (m : Flow W E A) : keeps m -> keeps (map_flow_err f m).
Proof. intros Hm w w' r H p. unfold map_flow_err in H. destruct (m w) as [[w1 r1]|] eqn:Em; simplify_eq. by eapply Hm. Qed.

Lemma keeps_query n u : keeps (query_status n u).
Proof.
  induction n as [|n IH]; cbn [query_status]; [apply keeps_ret|]. apply keeps_bind; [apply keeps_map, keep_client|]. intros _ w w' r H p.
  pose proof (keep_status u w) as Hk. unfold now in Hk. destruct (session_status u w) as [w1 [s|e|]]; simplify_eq; [by eapply Hk| |by eapply Hk].
  destruct n; simplify_eq; [by eapply Hk|]. rewrite (IH _ _ _ H). by eapply Hk.
Qed.

Lemma keeps_st_bind {E A B} (m : St W E A) (f : A -> St W E B) : keeps (now m) -> (forall a, keeps (now (f a))) -> keeps (now (mbind f m)).
Proof.
  intros Hm Hf w w' r [= H] p. unfold mbind, st_bind in H. specialize (Hm w). unfold now in Hm.
  destruct (m w) as [w1 [a|x|]]; simplify_eq; [|by eapply Hm..]. rewrite (Hf a w1 w' r ltac:(unfold now; by rewrite H)). by eapply Hm.
Qed.
Lemma keeps_lift {E A} (r : outcome E A) : keeps (now (lift r)).
Proof. by intros w w' r' [= <- <-]. Qed.
Lemma keeps_logs {A} u (f : string -> outcome BonsaiExecutionError A) : keeps (fun w => let '(w', log) := session_logs u w in Some (w', f log)).
Proof. intros w w' r H p. pose proof (keep_logs u w p) as Hk. destruct (session_logs u w) as [w1 l]. by simplify_eq. Qed.

Create HintDb cache.
#[local] Hint Resolve keeps_done keeps_ret keeps_map keeps_flow_map keeps_query keeps_lift keeps_logs keep_client keep_download keep_img keep_input
  keep_session keep_upload keep_segments keep_local keep_ids : cache.
#[local] Hint Extern 2 (keeps (mbind _ _)) => apply keeps_bind; [|intros ?] : cache.
#[local] Hint Extern 2 (keeps (now (mbind _ _))) => apply keeps_st_bind; [|intros ?] : cache.
#[local] Hint Extern 3 (keeps (if ?b then _ else _)) => destruct b : cache.

Lemma keeps_take image out u res : keeps (take_receipt image out u res).
Proof. unfold take_receipt, sdk. auto 20 with cache. Qed.
#[local] Hint Resolve keeps_take : cache.
Lemma keeps_verify polls image out u n : keeps (verify_bonsai_receipt polls image out u n).
Proof. induction polls as [|k IH]; cbn [verify_bonsai_receipt]; [by intros ? ? ?|]. unfold sdk. auto 20 with cache. Qed.
#[local] Hint Resolve keeps_verify : cache.
Lemma keeps_prove_bonsai polls i elf out us k st : keeps (prove_bonsai polls i elf out us k st).
Proof. unfold prove_bonsai, sdk. cbv zeta. auto 30 with cache. Qed.
Lemma keeps_retry {A} n (op : Flow W BonsaiExecutionError A) : keeps op -> keeps (retry_with_backoff n op).
Proof.
  intros Ho. induction n as [|n IH]; intros w w' r H p; cbn [retry_with_backoff] in H;
    destruct (op w) as [[w1 [a|x|]]|] eqn:E; simplify_eq; try by eapply Ho.
  rewrite (IH _ _ _ H). by eapply Ho.
Qed.
Lemma keeps_locally po2 i elf ass : keeps (now (prove_locally po2 i elf ass)).
Proof. unfold prove_locally. auto 20 with cache. Qed.
Lemma keeps_upload r : keeps (now (upload_receipt r)).
Proof. unfold upload_receipt. auto 20 with cache. Qed.

(** ** Genuine receipts *)

(** [genuine image r]: the receipt proves an execution of the program. Receipts
    that verify are genuine, and those that are proved on this machine. *)
Variable genuine : bytes -> Receipt -> Prop.
Hypothesis verified_genuine : forall r image, receipt_verify r image = true -> genuine image r.
Hypothesis local_genuine : forall po2 i elf ass w w' r image,
  local_session po2 i elf ass w = (w', Ok r) -> compute_image_id elf = Ok image -> genuine image r.

Lemma verify_Ok polls image out u n w w' u' r : verify_bonsai_receipt polls image out u n w = Some (w', Ok (u', r)) -> genuine image r.
Proof.
  revert w; induction polls as [|k IH]; intros w H; cbn [verify_bonsai_receipt] in H; [done|]. flow_inv. case_bool_decide; [by eapply IH|].
  case_bool_decide; [|flow_inv; destruct (session_logs _ _); simplify_eq]. unfold take_receipt in H. flow_inv.
  match goal with H : assert _ = _ |- _ => apply assert_Ok in H end. by apply verified_genuine.
Qed.

Lemma prove_bonsai_Ok polls i elf out us k st w w' u r image : prove_bonsai polls i elf out us k st w = Some (w', Ok (u, r)) ->
  compute_image_id elf = Ok image -> genuine image r.
Proof.
  unfold prove_bonsai. intros H Hi. rewrite Hi in H. flow_inv. by eapply verify_Ok.
Qed.

Lemma retry_Ok {A} n (op : Flow W BonsaiExecutionError A) w w' a : retry_with_backoff n op w = Some (w', Ok a) -> exists w1, op w1 = Some (w', Ok a).
Proof.
  revert w; induction n as [|n IH]; intros w H; cbn [retry_with_backoff] in H; destruct (op w) as [[w1 [x|x|]]|] eqn:E; simplify_eq; eauto.
Qed.

(** The cache holds genuine receipts under the labels of their programs. *)
Definition good_cache (w : W) : Prop := forall image enc b u r, all_bytes image ->
  cache_read (zkp_cache_path (receipt_label image enc)) w = Some b -> cache_from_bincode b = Ok (u, r) -> genuine image r.

Lemma good_cache_keeps w w' : (forall p, cache_read p w' = cache_read p w) -> good_cache w -> good_cache w'.
Proof. intros Hk Hg image enc b u r Hi Hr. rewrite Hk in Hr. by eapply Hg. Qed.

Lemma dash_split s t s' t' : no_dash s -> no_dash s' -> s +:+ "-" +:+ t = s' +:+ "-" +:+ t' -> s = s'.
Proof.
  revert s'; induction s as [|c s IH]; intros [|c' s'] Hs Hs' H; cbn in *; try done; rewrite ?append_cons in H; injection H as Hc H; subst; naive_solver.
Qed.
Lemma label_image image enc image' enc' : all_bytes image -> all_bytes image' -> receipt_label image enc = receipt_label image' enc' -> image = image'.
Proof.
  intros Hi Hi' H. apply dash_split in H; [|apply hex_no_dash..]. apply (f_equal r0_hex_decode) in H. rewrite !hex_read in H by done. by simplify_eq.
Qed.
Lemma append_length s t : String.length (s +:+ t) = (String.length s + String.length t)%nat.
Proof. induction s as [|c s IH]; [done|]. rewrite append_cons. cbn. by rewrite IH. Qed.
Lemma append_cancel_r s s' t : s +:+ t = s' +:+ t -> s = s'.
Proof.
  revert s'; induction s as [|c s IH]; intros [|c' s'] H; [done| | |].
  - apply (f_equal String.length) in H. rewrite !append_length in H. cbn in H. lia.
  - apply (f_equal String.length) in H. rewrite !append_length in H. cbn in H. lia.
  - rewrite !append_cons in H. injection H as -> H. f_equal. by apply IH.
Qed.
Lemma path_inj l l' : zkp_cache_path l = zkp_cache_path l' -> l = l'.
Proof. intros H. apply (append_cancel_r _ _ ".zkp"). unfold zkp_cache_path in H. by apply (inj (String.append "/tmp/risc0-cache/")) in H. Qed.

Lemma load_Ok label w w' c : good_cache w -> load_receipt label w = (w', Ok c) -> good_cache w' /\
  forall u r image enc, all_bytes image -> c = Some (u, r) -> label = receipt_label image enc -> genuine image r.
Proof.
  unfold load_receipt. intros Hg. destruct is_dev_mode; [intros [= <- <-]; done|]. cbv zeta.
  assert (good_cache (cache_dir_all w)) as Hd by (eapply good_cache_keeps; [apply keep_dir|done]).
  destruct (cache_read _ _) as [b|] eqn:Hr; [|intros [= <- <-]; done]. intros [= <- H]. split; [done|]. intros u r image enc Hi -> ->.
  destruct (cache_from_bincode b) as [c|?|] eqn:Hc; cbn in H; simplify_eq. by eapply Hd.
Qed.
Lemma load_keeps label w w' r : load_receipt label w = (w', r) -> forall p, cache_read p w' = cache_read p w.
Proof.
  unfold load_receipt. destruct is_dev_mode; [by intros [= <- _]|]. cbv zeta. destruct (cache_read _ _); intros [= <- _]; apply keep_dir.
Qed.

Lemma save_Ok image enc u r w w' x : all_bytes image -> good_cache w -> genuine image r -> save_receipt (receipt_label image enc) (u, r) w = Some (w', Ok x) -> good_cache w'.
Proof.
  unfold save_receipt. intros Hi Hg Hr. destruct is_dev_mode; [by intros [= <- _]|]. cbv zeta.
  assert (good_cache (cache_dir_all w)) as Hd by (eapply good_cache_keeps; [apply keep_dir|done]).
  destruct (cache_to_bincode (u, r)) as [b|] eqn:Hb; [|done]. destruct (cache_write _ b _) as [w1 o] eqn:Hw. intros [= <- Ho].
  apply unwrap_ok_inner in Ho. subst o. apply write_reads in Hw as [Hw Ho]. intros image' enc' b' u' r' Hi' Hr' Hc.
  destruct (decide (receipt_label image' enc' = receipt_label image enc)) as [He|Hn].
  - rewrite He, Hw in Hr'. apply label_image in He as ->; [|done..]. simplify_eq. apply cache_read_back in Hb. rewrite Hb in Hc. by simplify_eq.
  - rewrite Ho in Hr' by (intros ?%path_inj; done). by eapply Hd.
Qed.

(** The receipt of the service or of this machine, when the cache has none. *)
Lemma fresh_receipt_Ok polls (param : Risc0Param) i elf out (ass : list Receipt * list string) k st w w' u r image b : compute_image_id elf = Ok image ->
  (if r0_bonsai param then
     c ← retry_with_backoff MAX_REQUEST_RETRY (prove_bonsai polls i elf out (snd ass) k st); mret (c, false)
   else
     now (fun w => let '(w', r) := prove_locally (execution_po2 param) i elf (fst ass) w in
       (w', match r with Ok receipt => Ok ("", receipt, false) | Err _ => Err (GuestError "Failed to prove locally") | Panic => Panic end))) w
    = Some (w', Ok (u, r, b)) ->
  (forall p, cache_read p w' = cache_read p w) /\ genuine image r.
Proof.
  intros Hi H. destruct (r0_bonsai param).
  - flow_inv. match goal with H : retry_with_backoff _ _ _ = _ |- _ => pose proof (keeps_retry _ _ (keeps_prove_bonsai _ _ _ _ _ _ _) _ _ _ H); apply retry_Ok in H as [? H] end.
    split; [done|]. by eapply prove_bonsai_Ok.
  - unfold now in H. pose proof (keeps_locally (execution_po2 param) i elf (fst ass) w) as Hk. unfold now in Hk.
    destruct (prove_locally _ _ _ _ w) as [w1 [r1|e|]] eqn:E; simplify_eq. split; [by eapply Hk|].
    unfold prove_locally in E. apply st_bind_Ok in E as (w2 & [] & _ & E). unfold map_st_err in E.
    destruct (local_session _ _ _ _ w2) as [w3 [r3|e|]] eqn:E2; simplify_eq/=. by eapply local_genuine.
Qed.

Lemma get_receipt_Ok polls param enc i elf out ass k st w w' u r cached image : good_cache w -> compute_image_id elf = Ok image ->
  get_receipt polls param (receipt_label image enc) i elf out ass k st w = Some (w', Ok (u, r, cached)) -> good_cache w' /\ genuine image r.
Proof.
  intros Hg Hi H. unfold get_receipt in H. destruct (load_receipt _ w) as [w1 l] eqn:Hl.
  destruct l as [[c|]|e|]; simplify_eq; [destruct (load_Ok _ _ _ _ Hg Hl) as [? Hc]; split; [done|]; eapply Hc; [by eapply image_id_bytes|done..]| |];
    (apply (fresh_receipt_Ok _ _ _ _ _ _ _ _ _ _ _ _ _ _ Hi) in H as [Hk Hr]; split; [|done]; eapply good_cache_keeps; [|exact Hg]; intros p; rewrite Hk; by eapply load_keeps).
Qed.

Lemma keeps_unwrap_ok {E F A} (m : St W E A) : keeps (now m) -> keeps (E := F) (now (fun w => let '(w', r) := m w in (w', unwrap_ok r))).
Proof.
  intros Hm w w' r H p. unfold now in H. specialize (Hm w). unfold now in Hm. destruct (m w) as [w1 r1]. simplify_eq. by eapply Hm.
Qed.
#[local] Hint Resolve keeps_unwrap_ok keeps_upload : cache.

(** A receipt that is returned is a genuine receipt of the program that was asked
    for, and its journal decodes to the expected output; the cache keeps holding
    genuine receipts under the labels of their programs. *)
Lemma maybe_prove_Ok polls param i elf out ass k st w w' u r : good_cache w ->
  maybe_prove polls param i elf out ass k st w = Some (w', Ok (u, r)) ->
  exists image, compute_image_id elf = Ok image /\ genuine image r /\ journal_decode (journal r) = Ok out /\ good_cache w'.
Proof.
  unfold maybe_prove. intros Hg H. flow_inv.
  match goal with H : get_receipt _ _ (receipt_label ?im ?e) _ _ _ _ _ _ _ = Some (_, Ok ?f) |- _ =>
    destruct f as [[u0 r0] cached]; rename H into Hf; rename im into image; exists image end.
  eapply get_receipt_Ok in Hf as [Hg' Hr]; [|done..]. flow_inv.
  match goal with H : ensure _ _ = _ |- _ => apply ensure_Ok, bool_decide_eq_true in H; subst end.
  match goal with H : (if r0_bonsai _ && _ then _ else _) _ = Some (?w1, _) |- _ =>
    assert (good_cache w1) as Hg1 by (eapply good_cache_keeps; [|exact Hg']; revert H; apply (fun K => K : keeps _); auto 10 with cache) end.
  repeat split; try done. destruct cached; flow_inv; [done|]. eapply save_Ok; [by eapply image_id_bytes|done..].
Qed.
(** ** A batch proof, and the aggregation of batch proofs *)
Definition snark_mode (config : Value) : Prop := exists param, risc0_param config = Ok param /\ r0_snark param && r0_bonsai param = true.

(** What the proof of a batch with hash [h] holds. *)
Definition batch_proof_of (h : bytes) (p : Proof_) : Prop := exists image r seal json uuid,
  compute_image_id RISC0_BATCH_ELF = Ok image /\ genuine image r /\ journal_decode (journal r) = Ok h /\ receipt_to_json r = Some json /\
  p = mkProof (Some ("0x" +:+ r0_hex (drop 32 (abi_encode_proof (seal, image))))) (Some h) (Some json) (Some uuid) None.

(** Once converted, the proof holds the text of the STARK receipt and the image id. *)
Lemma stark_to_snark_Ok polls uuid r h elf w w' resp : bonsai_stark_to_snark polls uuid r h elf w = Some (w', Ok resp) ->
  exists image seal json, compute_image_id elf = Ok image /\ receipt_to_json r = Some json /\
    resp = mkRisc0Response ("0x" +:+ r0_hex (drop 32 (abi_encode_proof (seal, image)))) json uuid h.
Proof. unfold bonsai_stark_to_snark, verify_groth16_from_snark_receipt. intros H. flow_inv. eauto 10. Qed.


Lemma low_byte v k q b r : 0 <= k -> is_byte b = true -> 0 <= r < 2 ^ k -> v = (b + 256 * q) * 2 ^ k + r -> Z.land (Z.shiftr v k) 255 = b.
Proof.
  intros Hk Hb Hr ->. change 255 with (Z.ones 8). rewrite Z.land_ones, Z.shiftr_div_pow2 by lia. rewrite Z.div_add_l, (Z.div_small r), Z.add_0_r by lia.
  rewrite (Z.mul_comm 256), Z.mod_add by lia. apply Z.mod_small. unfold is_byte in Hb. lia.
Qed.
Lemma le_bytes_word w x y z : all_bytes [w; x; y; z] -> to_le_bytes (w + 256 * x + 65536 * y + 16777216 * z) = [w; x; y; z].
Proof.
  unfold all_bytes. rewrite !Forall_cons. intros (Hw & Hx & Hy & Hz & _). unfold to_le_bytes. rewrite <- (Z.shiftr_0_r (w + _ + _ + _)) at 1. unfold is_byte in *.
  repeat f_equal; [apply low_byte with (x + 256 * y + 65536 * z) 0|apply low_byte with (y + 256 * z) w|apply low_byte with z (w + 256 * x)
    |apply low_byte with 0 (w + 256 * x + 65536 * y)]; unfold is_byte; lia.
Qed.
Lemma words_of_bytes n b : length b = (4 * n)%nat -> all_bytes b -> words_to_bytes_le (as_words b) = b.
Proof.
  revert b; induction n as [|n IH]; intros b Hl Hb; [by destruct b|]. do 4 (destruct b as [|? b]; [cbn in Hl; lia|]).
  cbn [as_words]. unfold words_to_bytes_le. rewrite fmap_cons. cbn [concat]. change (?a :: ?b :: ?c :: ?d :: ?l) with ([a; b; c; d] ++ l) in Hb.
  apply Forall_app in Hb as [Hw Hb]. rewrite le_bytes_word by done. cbn. do 4 f_equal. apply IH; [cbn in Hl; lia|done].
Qed.

(** The receipts and the hashes that the proofs of batches carry. *)
Definition batch_receipt (image : bytes) (h : bytes) (r : Receipt) : Prop := genuine image r /\ journal_decode (journal r) = Ok h.
Lemma collect_batch_receipts image hs ps : compute_image_id RISC0_BATCH_ELF = Ok image -> Forall2 batch_proof_of hs ps ->
  exists rs, collect block_receipt ps = Ok rs /\ Forall2 (batch_receipt image) hs rs.
Proof.
  intros Hi. induction 1 as [|h p hs ps (im & r & seal & json & u & Hi' & Hg & Hj & Hs & ->) _ (rs & Hc & Hrs)]; [by exists []|].
  rewrite Hi in Hi'. injection Hi' as <-. exists (r :: rs). split; [|by repeat constructor]. cbn [collect]. unfold block_receipt at 1. cbn.
  by rewrite (json_read_back _ _ Hs), Hc.
Qed.
Lemma collect_batch_inputs hs ps : Forall2 batch_proof_of hs ps -> collect (E := ProverError) (fun p => unwrap (proof_input p)) ps = Ok hs.
Proof.
  induction 1 as [|h p hs ps (im & r & seal & json & u & _ & _ & _ & _ & ->) _ IH]; [done|]. cbn [collect unwrap proof_input]. by rewrite IH.
Qed.

(** The zkVM runs the aggregation program on the input it is given: what it verifies
    is a receipt among the assumptions, and what it commits is the journal. *)
Hypothesis aggregation_executed : forall ass zk w w' r, groth16_prove ass zk RISC0_AGGREGATION_ELF w = (w', Ok r) ->
  exists verified, risc0_aggregation_main output_to_vec verified zk = Ok (journal r).

Lemma aggregation_input_Ok image hs ps : compute_image_id RISC0_BATCH_ELF = Ok image -> ps <> [] -> Forall2 batch_proof_of hs ps ->
  exists rs, aggregation_guest_input (mkAggregationGuestInput ps) = Ok (rs, image, mkZkAggregationGuestInput (as_words image) hs) /\
    Forall2 (batch_receipt image) hs rs.
Proof.
  intros Hi Hne Hb. destruct (collect_batch_receipts _ _ _ Hi Hb) as (rs & Hc & Hrs). exists rs. split; [|done].
  unfold aggregation_guest_input. cbn [agg_proofs]. rewrite Hc. cbn. rewrite (collect_batch_inputs _ _ Hb). cbn.
  destruct Hb as [|h p hs ps (im & r & seal & json & u & Hi' & _ & _ & _ & ->) _]; [done|]. rewrite Hi in Hi'. injection Hi' as <-.
  unfold input_image_id. cbn. change ("0x" +:+ ?s) with (String "0" (String "x" s)). cbn.
  rewrite hex_read by apply Forall_drop, abi_bytes. cbn. by rewrite abi_image by (by eapply image_id_bytes).
Qed.

Lemma verify_impl_Ok image seal jd post w w' e : verify_groth16_snark_impl image seal jd post w = Some (w', Ok e) -> e = encode_seal seal.
Proof. unfold verify_groth16_snark_impl. intros H. by flow_inv. Qed.

Lemma aggregation_main_Ok verified image hs j : length image = 32%nat -> all_bytes image ->
  risc0_aggregation_main output_to_vec verified (mkZkAggregationGuestInput (as_words image) hs) = Ok j -> j = aggregation_output image hs.
Proof.
  intros Hl Hb. unfold risc0_aggregation_main. cbn [zk_image_id zk_block_inputs]. destruct (verify_inputs _ _ _ _) as [[]|e|]; unfold mbind, outcome_bind; [|done..].
  rewrite (words_of_bytes 8) by done. by intros [= <-].
Qed.

(** C26: The proofs of batches that the prover made in SNARK mode aggregate: the
    program is run on genuine receipts of the batches under the image id of the batch
    program, the input of the aggregated proof is the digest of that id and of the
    hashes of the batches in the order of the proofs, and its text holds the seal of
    the receipt with the ids of both programs. *)
Theorem aggregation_commits_batches hs ps config w w' p : ps <> [] -> Forall2 batch_proof_of hs ps ->
  risc0_aggregate (mkAggregationGuestInput ps) config w = Some (w', Ok p) ->
  exists image agg_image rs r w1 seal,
    compute_image_id RISC0_BATCH_ELF = Ok image /\ compute_image_id RISC0_AGGREGATION_ELF = Ok agg_image /\
    Forall2 (batch_receipt image) hs rs /\
    groth16_prove rs (mkZkAggregationGuestInput (as_words image) hs) RISC0_AGGREGATION_ELF w = (w1, Ok r) /\ groth16_seal r = Ok seal /\
    proof_input p = Some (sha_digest (aggregation_output image hs)) /\
    proof p = Some ("0x" +:+ r0_hex (drop 32 (abi_encode_aggregation (encode_seal seal, image, agg_image)))).
Proof.
  intros Hne Hb H. assert (exists image, compute_image_id RISC0_BATCH_ELF = Ok image) as [image Hi].
  { destruct Hb as [|h q hs' ps' (im & _ & _ & _ & _ & Hi & _) _]; [done|eauto]. }
  destruct (aggregation_input_Ok _ _ _ Hi Hne Hb) as (rs & He & Hrs). unfold risc0_aggregate, verify_aggregation_groth16_proof in H.
  rewrite He in H. flow_inv. match goal with H : verify_groth16_snark_impl _ _ _ _ _ = _ |- _ => apply verify_impl_Ok in H as -> end.
  match goal with H : now _ _ = Some (_, Ok ?x) |- _ => rename H into Hg; rename x into r end. unfold now, map_st_err in Hg.
  destruct (groth16_prove _ _ _ _) as [w1 [r1|e|]] eqn:Hp; simplify_eq/=. destruct (aggregation_executed _ _ _ _ _ Hp) as [verified Hv].
  apply aggregation_main_Ok in Hv; [|by eapply image_id_bytes..]. repeat eexists; eauto. cbn. by rewrite Hv.
Qed.
End receipts.

Section diagnostics.
Context {W Tx : Type} `{RL : Risc0Lib Tx} `{BW : !Bonsai W} `{ID : !IdStore W}.

(** A proof that the contract refuses is returned like one that it accepts. *)
Lemma refused_snark_returned image seal jd post url addr a w w' e :
  r0_env "GROTH16_VERIFIER_RPC_URL" = Some url -> r0_env "GROTH16_VERIFIER_ADDRESS" = Some addr -> h160_from_str addr = Some a ->
  rpc_client url = Ok () -> verify_call url a (encode_seal seal) image jd w = (w', Err e) ->
  verify_groth16_snark_impl image seal jd post w = Some (w', Ok (encode_seal seal)).
Proof.
  intros Hu Ha Hh Hc Hv. unfold verify_groth16_snark_impl, mbind, flow_bind, done_with, now. rewrite Hu, Ha. cbn. rewrite Hh. cbn. rewrite Hc. by rewrite Hv.
Qed.

(** The stores of the repository report a missing id as not found, so cancelling a
    request that has none is an error. *)
Lemma cancel_unknown_fails key w w' : ids_read key w = (w', Err (StoreError "not found")) ->
  risc0_cancel key w = (w', Err (GuestError "Store error `not found`")).
Proof. intros H. unfold risc0_cancel. by rewrite H. Qed.

(** A workflow that ended for good is started again until the attempts are used up. *)
Lemma fatal_is_retried {A} n (op : Flow W BonsaiExecutionError A) w w1 e : op w = Some (w1, Err (Fatal e)) ->
  retry_with_backoff (S n) op w = retry_with_backoff n op w1.
Proof. intros H. cbn [retry_with_backoff]. by rewrite H. Qed.
End diagnostics.

(** ** Witnesses

    A service that answers at once; a receipt is an image id and a journal, and it
    verifies for its own id. *)
Module Risc0Example.
Import SgxProcessExample.
Definition toy_image (elf : bytes) : bytes := replicate 32 (match elf with [1] => 7 | _ => 9 end).
Definition toy_hash : bytes := replicate 32 5.
Definition low (b : bytes) : bytes := (fun x => x mod 256) <$> b.
Definition toy_abi (p : bytes * bytes) : bytes := replicate 64 0 ++ low p.2 ++ low p.1.
Definition Disk : Type := string -> option bytes.

#[local] Instance toy_risc0 : Risc0Lib bytes := {|
  Receipt := bytes * bytes;
  journal r := r.2;
  receipt_verify r image := bool_decide (r.1 = image);
  groth16_seal _ := Ok [1; 2];
  claim_post _ := Ok (Ok [0]);
  compute_image_id elf := Ok (toy_image elf);
  output_to_vec := Some;
  input_to_vec _ := Some [];
  journal_decode := Ok;
  receipt_to_bincode r := Ok (r.1 ++ r.2);
  receipt_from_bincode b := Ok (take 32 b, drop 32 b);
  cache_to_bincode d := if bool_decide (d.1 = "session" /\ length (d.2).1 = 32%nat) then Some ((d.2).1 ++ (d.2).2) else None;
  cache_from_bincode b := Ok ("session", (take 32 b, drop 32 b));
  receipt_to_json r := Some (spell r);
  receipt_from_json := unspell;
  cast_slice b := b;
  r0_keccak b := b;
  sha_digest b := b;
  r0_hex := spell;
  r0_hex_upper := spell;
  r0_hex_decode := unspell;
  abi_encode_proof := toy_abi;
  abi_encode_aggregation p := replicate 64 0 ++ low p.1.2 ++ low p.2 ++ low p.1.1;
  verifier_parameters_digest := [80; 81; 82; 83; 84];
  h160_from_str _ := Some [];
  rpc_client _ := Ok ();
  bonsai_debug _ := "";
  prover_debug _ := "";
  session_debug u := u;
  r0_env _ := Some "value";
  is_dev_mode := false;
  RISC0_BATCH_ELF := [1];
  RISC0_AGGREGATION_ELF := [2]
|}.

Definition known (ass : list (bytes * bytes)) (image v : list Z) : bool :=
  existsb (fun a => bool_decide (as_words a.1 = image) && bool_decide (a.2 = v)) ass.
#[local] Instance toy_bonsai : Bonsai Disk := {|
  bonsai_client := mret ();
  session_status _ := mret (mkSessionStatus "SUCCEEDED" (Some "receipt") None);
  session_logs _ w := (w, "");
  session_stop _ := mret ();
  bonsai_download _ := mret (toy_image [1] ++ toy_hash);
  upload_img _ _ := mret ();
  upload_input _ := mret "input";
  create_session _ _ _ _ := mret "session";
  client_upload_receipt _ := mret "session";
  create_snark _ := mret "session";
  snark_status _ := mret (mkSnarkStatus "SUCCEEDED" (Some "snark") None);
  cache_dir_all w := w;
  cache_read p w := w p;
  cache_write p b w := (fun q => if decide (q = p) then Some b else w q, Ok ());
  segment_dir := mret ();
  local_session _ _ elf _ w := (w, Ok (toy_image elf, toy_hash));
  groth16_prove ass zk elf w := (w, j ← risc0_aggregation_main Some (known ass) zk; Ok (toy_image elf, j));
  verify_call _ _ _ _ _ := mret ()
|}.
#[local] Instance toy_ids : IdStore Disk := {|
  ids_read _ := lift (Err (StoreError "not found")); ids_store _ _ := mret (); ids_remove _ := mret ()
|}.

Lemma pos_no_dash p : no_dash (pos_text p).
Proof. by induction p as [p IH|p IH|]; cbn. Qed.
Lemma low_id b : all_bytes b -> low b = b.
Proof.
  unfold low. induction 1 as [|x b Hx _ IH]; [done|]. cbn. rewrite IH. f_equal. apply Z.mod_small. unfold is_byte in Hx. lia.
Qed.
Lemma low_bytes b : all_bytes (low b).
Proof. apply Forall_fmap, Forall_true. intros x. cbn. unfold is_byte. pose proof (Z.mod_pos_bound x 256 ltac:(lia)). lia. Qed.

#[local] Instance toy_risc0_laws : Risc0Laws (Tx := bytes).
Proof.
  split.
  - intros b. apply pos_no_dash.
  - intros b _. apply unspell_spell.
  - intros [u [i j]] b. cbn. case_bool_decide as H; [|done]. destruct H as [-> Hl]. intros [= <-]. cbn in Hl.
    by rewrite <- Hl, take_app_length, drop_app_length.
  - intros r t [= <-]. apply unspell_spell.
  - intros elf image [= <-]. split; [apply length_replicate|]. apply Forall_replicate. unfold toy_image. by repeat case_match.
  - intros p. unfold abi_encode_proof, toy_risc0, toy_abi. apply Forall_app. split; [by apply Forall_replicate|]. apply Forall_app. split; apply low_bytes.
  - intros seal image Hl Hb. unfold abi_encode_proof, toy_risc0, toy_abi, fst, snd. rewrite (low_id image) by done.
    change (drop 32 (replicate 64 0 ++ image ++ low seal)) with (replicate 32 0 ++ image ++ low seal).
    by apply slice_middle; rewrite length_replicate; lia.
Qed.

#[local] Instance toy_cache_laws : CacheLaws (W := Disk).
Proof.
  split; try (by intros; intros w w' r [= <- <-]); [done|done|].
  intros p b w w' x [= <- <-]. cbn. split; [by rewrite decide_True|]. intros q Hq. by rewrite decide_False.
Qed.
Definition same_image (image : bytes) (r : Receipt) : Prop := fst (r : bytes * bytes) = image.
Lemma toy_verified r image : receipt_verify r image = true -> same_image image r.
Proof. apply bool_decide_eq_true. Qed.
Lemma toy_local po2 i elf ass (w w' : Disk) r image : local_session po2 i elf ass w = (w', Ok r) -> compute_image_id elf = Ok image -> same_image image r.
Proof. by intros [= <- <-] [= <-]. Qed.
Lemma toy_executed ass zk (w w' : Disk) r : groth16_prove ass zk RISC0_AGGREGATION_ELF w = (w', Ok r) ->
  exists verified, risc0_aggregation_main output_to_vec verified zk = Ok (journal r).
Proof.
  intros [= <- H]. exists (known ass). change output_to_vec with (@Some bytes). destruct (risc0_aggregation_main _ _ _); cbn in H; by simplify_eq.
Qed.

Definition toy_config : Value := JObject [("risc0", JObject [("bonsai", JBool true); ("snark", JBool true); ("profile", JBool false); ("execution_po2", JNumber 20)])].
Definition empty_disk : Disk := fun _ => None.
Lemma toy_snark_mode : snark_mode toy_config.
Proof. by eexists. Qed.
Lemma toy_good : good_cache (Tx := bytes) same_image empty_disk.
Proof. by intros ? ? ? ? ? ?. Qed.


Definition toy_proof : Proof_ :=
  mkProof (Some ("0x" +:+ r0_hex (drop 32 (abi_encode_proof ([1; 2], toy_image [1]))))) (Some toy_hash) (receipt_to_json (toy_image [1], toy_hash)) (Some "session") None.
Lemma toy_proof_ok : Forall2 (batch_proof_of same_image) [toy_hash; toy_hash] [toy_proof; toy_proof].
Proof.
  assert (batch_proof_of same_image toy_hash toy_proof); [|by repeat constructor].
  exists (toy_image [1]), (toy_image [1], toy_hash), [1; 2], (spell (toy_image [1], toy_hash)), "session". repeat split.
Qed.
Definition toy_aggregate : option (Disk * outcome ProverError Proof_) :=
  risc0_aggregate (mkAggregationGuestInput [toy_proof; toy_proof]) toy_config empty_disk.
Lemma toy_aggregate_ok : match toy_aggregate with Some (_, Ok _) => true | _ => false end = true.
Proof. vm_compute. reflexivity. Qed.

Lemma aggregation_commits_batches_witness : exists w p, toy_aggregate = Some (w, Ok p) /\
  proof_input p = Some (aggregation_output (toy_image [1]) [toy_hash; toy_hash]).
Proof.
  pose proof toy_aggregate_ok as Hok. destruct toy_aggregate as [[w [p|e|]]|] eqn:E; [|discriminate Hok..].
  exists w, p. split; [reflexivity|].
  destruct (aggregation_commits_batches same_image toy_executed [toy_hash; toy_hash] [toy_proof; toy_proof] toy_config empty_disk w p
    ltac:(discriminate) toy_proof_ok E) as (image & agg & rs & r & w1 & seal & Hi & _ & _ & _ & _ & Hp & _).
  injection Hi as <-. exact Hp.
Defined.
End Risc0Example.
