(* ===== verification/Sp1.v ===== *)
(** * Sp1: the driver of the SP1 prover

    Models [provers/sp1/driver/src] ([lib.rs], [proof_verify/remote_contract_verify.rs])
    and the programs of [provers/sp1/guest/src] ([block.rs], [batch.rs],
    [aggregation.rs]). The clients that are kept for every mode are the state; the
    SDK, the proving network and the verifier contract are the operations of a
    machine. *)
From stdpp Require Import base list list_numbers gmap fin_maps strings.
From Stdlib Require Import ZArith Lia Ascii.
From S2P Require Import Prelude Text Effect Types Interfaces Request ChainSpec Mpt MptHash RlpCodec Input Blob MemDb Builder Eip4844 ProtocolInstance Raiko SgxGuest SgxProcess Risc0.
Local Open Scope string_scope.
Local Open Scope list_scope.
Local Open Scope Z_scope.

(** ** Parameters *)
Inductive RecursionMode := RecCore | RecCompressed | RecPlonk.
Inductive SP1ProofMode := ModeCore | ModeCompressed | ModePlonk.
Definition recursion_into (value : RecursionMode) : SP1ProofMode :=
  match value with RecCore => ModeCore | RecCompressed => ModeCompressed | RecPlonk => ModePlonk end.
Definition RecursionMode_default : RecursionMode := RecPlonk.
Inductive ProverMode := MockMode | LocalMode | NetworkMode.
#[global] Instance ProverMode_eq_dec : EqDecision ProverMode.
Proof. solve_decision. Defined.
#[global] Instance ProverMode_countable : Countable ProverMode.
Proof.
  refine (inj_countable' (fun m => match m with MockMode => 0%nat | LocalMode => 1%nat | NetworkMode => 2%nat end)
    (fun n => match n with 0%nat => MockMode | 1%nat => LocalMode | _ => NetworkMode end) _). by intros [].
Defined.

Record Sp1Param := mkSp1Param { recursion : RecursionMode; sp1_prover : option ProverMode; sp1_verify : bool }.

(** A unit variant in JSON: its name, or an object with its name and null. *)
Definition unit_variant (v : Value) : option string :=
  match v with JString s => Some s | JObject [(k, JNull)] => Some k | _ => None end.
Definition dec_recursion (v : Value) : option RecursionMode :=
  name ← unit_variant v;
  if bool_decide (name = "core") then Some RecCore else if bool_decide (name = "compressed") then Some RecCompressed
  else if bool_decide (name = "plonk") then Some RecPlonk else None.
Definition dec_prover_mode (v : Value) : option ProverMode :=
  name ← unit_variant v;
  if bool_decide (name = "mock") then Some MockMode else if bool_decide (name = "local") then Some LocalMode
  else if bool_decide (name = "network") then Some NetworkMode else None.

(** A field with a default may be missing, but not null; an optional one may be both. *)
Definition field_or {A} (d : A) (dec : Value -> option A) (o : option Value) : option A := match o with None => Some d | Some v => dec v end.
Definition sp1_param (config : Value) : outcome ProverError Sp1Param :=
  v ← unwrap (Interfaces.get "sp1" config);
  unwrap (match v with
          | JObject _ =>
              r ← field_or RecursionMode_default dec_recursion (Interfaces.get "recursion" v);
              p ← field_or None (opt_dec dec_prover_mode) (Interfaces.get "prover" v);
              b ← field_or true as_bool (Interfaces.get "verify" v);
              Some (mkSp1Param r p b)
          | JArray [r; p; b] => r ← dec_recursion r; p ← opt_dec dec_prover_mode p; b ← as_bool b; Some (mkSp1Param r p b)
          | JArray [r; p] => r ← dec_recursion r; p ← opt_dec dec_prover_mode p; Some (mkSp1Param r p true)
          | _ => None
          end).
Definition set_recursion (p : Sp1Param) (r : RecursionMode) : Sp1Param := mkSp1Param r (sp1_prover p) (sp1_verify p).

(** ** The SDK *)
Class Sp1Lib (Tx : Type) := {
  SP1Proof : Type;
  InnerProof : Type;
  ProvingKey : Type;
  VerifyingKey : Type;
  StarkKey : Type;
  Client : Type;
  Network : Type;
  network_as_client : Network -> Client;
  (** the payload of a compressed proof; a default proof *)
  compressed_of : SP1Proof -> option InnerProof;
  groth16_default : SP1Proof;
  (** the bytes of a proof for the chain, only of some kinds of proof *)
  sp1_proof_bytes : SP1Proof * bytes -> outcome ProverError bytes;
  public_values_raw : bytes -> string;
  public_values_read : bytes -> outcome ProverError bytes;
  sp1_b256_text : bytes -> string;
  vk_stark : VerifyingKey -> StarkKey;
  vk_bytes32 : VerifyingKey -> string;
  vk_hash_u32 : VerifyingKey -> list Z;
  stark_hash_bytes : StarkKey -> bytes;
  sp1_proof_to_json : SP1Proof -> option string;
  sp1_proof_from_json : string -> outcome string SP1Proof;
  vk_to_json : VerifyingKey -> option string;
  vk_from_json : string -> outcome string VerifyingKey;
  batch_to_stdin : GuestBatchInput Tx -> option bytes;
  batch_of_stdin : bytes -> option (GuestBatchInput Tx);
  block_of_stdin : bytes -> option (GuestInput Tx);
  zk_to_stdin : ZkAggregationGuestInput -> option bytes;
  zk_of_stdin : bytes -> option ZkAggregationGuestInput;
  sp1_env : string -> option string;
  sp1_address : string -> option bytes;
  sp1_url : string -> option string;
  sp1_b256 : string -> option bytes;
  sp1_hex : bytes -> string;
  sp1_hex_decode : string -> option bytes;
  sp1_sha256 : bytes -> bytes;
  (** the [Debug] of an error *)
  error_debug : string -> string;
  BATCH_ELF : bytes;
  AGGREGATION_ELF : bytes
}.

Record SP1Stdin `{SL : Sp1Lib Tx} := mkSP1Stdin { stdin_buffer : list bytes; stdin_proofs : list (InnerProof * StarkKey) }.
Arguments mkSP1Stdin {Tx SL} _ _.
Arguments stdin_buffer {Tx SL} _.
Arguments stdin_proofs {Tx SL} _.

Record Sp1ProverClient `{SL : Sp1Lib Tx} := mkSp1ProverClient { client : Client; network_client : Network; pk : ProvingKey; vk : VerifyingKey }.
Arguments mkSp1ProverClient {Tx SL} _ _ _ _.
Arguments client {Tx SL} _.
Arguments network_client {Tx SL} _.
Arguments pk {Tx SL} _.
Arguments vk {Tx SL} _.

Class Sp1Machine (W : Type) `{SL : Sp1Lib Tx} := {
  build_mock : St W ProverError Client;
  build_cpu : St W ProverError Client;
  build_network : St W ProverError Network;
  client_from_env : St W ProverError Client;
  client_setup : Client -> bytes -> St W ProverError (ProvingKey * VerifyingKey);
  client_prove : Client -> ProvingKey -> SP1Stdin -> SP1ProofMode -> St W string (SP1Proof * bytes);
  client_execute : Client -> bytes -> SP1Stdin -> St W string ();
  (** the request with its limit of cycles, without simulation, on reserved capacity *)
  network_request : Network -> ProvingKey -> SP1Stdin -> SP1ProofMode -> Z -> St W string string;
  network_wait : Network -> string -> Z -> St W string (SP1Proof * bytes);
  verify_proof_call : string -> bytes -> bytes -> bytes -> bytes -> St W string ()
}.

Record RaikoProofFixture := mkRaikoProofFixture { fix_vkey : string; fix_public_values : string; fix_proof : bytes }.
Record Sp1Response `{SL : Sp1Lib Tx} := mkSp1Response { s_proof : option string; s_sp1_proof : option (SP1Proof * bytes); s_vkey : option VerifyingKey }.
Arguments mkSp1Response {Tx SL} _ _ _.
Arguments s_proof {Tx SL} _.
Arguments s_sp1_proof {Tx SL} _.
Arguments s_vkey {Tx SL} _.

(** The clients, by mode, for batches and for aggregations. *)
Record Sp1State (W : Type) `{SL : Sp1Lib Tx} := mkSp1State {
  AGGREGATION_CLIENT : gmap ProverMode Sp1ProverClient;
  BATCH_PROOF_CLIENT : gmap ProverMode Sp1ProverClient;
  sp1_world : W
}.
Arguments mkSp1State {W Tx SL} _ _ _.
Arguments AGGREGATION_CLIENT {W Tx SL} _.
Arguments BATCH_PROOF_CLIENT {W Tx SL} _.
Arguments sp1_world {W Tx SL} _.

Section driver.
Context {W Tx : Type} `{SL : Sp1Lib Tx} `{SM : !Sp1Machine W} `{ID : !IdStore W}.
Abbreviation M := (St (Sp1State W) ProverError).

Definition on_world {E A} (m : St W E A) : St (Sp1State W) E A := fun s =>
  let '(w', r) := m (sp1_world s) in (mkSp1State (AGGREGATION_CLIENT s) (BATCH_PROOF_CLIENT s) w', r).
Definition option_all {A B} (f : A -> outcome ProverError B) (o : option A) : outcome ProverError (option B) :=
  match o with None => Ok None | Some a => b ← f a; Ok (Some b) end.

(** [B256::from_slice]. *)
Definition b256_from_slice (b : bytes) : outcome ProverError bytes := if (length b =? 32)%nat then Ok b else Panic.
Definition sp1_into (value : Sp1Response) : outcome ProverError Proof_ :=
  quote ← option_all (fun p => unwrap (sp1_proof_to_json (fst p))) (s_sp1_proof value);
  input ← option_all (fun p => b256_from_slice (snd p)) (s_sp1_proof value);
  uuid ← option_all (fun v => unwrap (vk_to_json v)) (s_vkey value);
  Ok (mkProof (s_proof value) input quote uuid None).

Definition get_env_mock : ProverMode :=
  let name := to_lowercase (option.default "local" (sp1_env "SP1_PROVER")) in
  if bool_decide (name = "mock") then MockMode
  else if bool_decide (name = "local") then LocalMode
  else if bool_decide (name = "network") then NetworkMode
  else LocalMode.

(** *** Clients *)
Definition build_client (mode : ProverMode) : St W ProverError Client :=
  match mode with
  | MockMode => build_mock
  | LocalMode => build_cpu
  | NetworkMode => n ← build_network; mret (network_as_client n)
  end.

(** The closure of [or_insert_with]. *)
Definition new_prover_client (base : St W ProverError Client) (elf : bytes) : St W ProverError Sp1ProverClient :=
  n ← build_network; c ← base; keys ← client_setup c elf; mret (mkSp1ProverClient c n (fst keys) (snd keys)).

Definition batch_client (mode : ProverMode) : M Sp1ProverClient := fun s =>
  match BATCH_PROOF_CLIENT s !! mode with
  | Some c => (s, Ok c)
  | None =>
      (c ← on_world (new_prover_client (build_client mode) BATCH_ELF);
       _ ← modify (fun s => mkSp1State (AGGREGATION_CLIENT s) (<[mode := c]> (BATCH_PROOF_CLIENT s)) (sp1_world s)); mret c) s
  end.

Definition aggregation_client (param : Sp1Param) : M Sp1ProverClient := fun s =>
  let mode := option.default get_env_mock (sp1_prover param) in
  match AGGREGATION_CLIENT s !! mode with
  | Some c => (s, Ok c)
  | None =>
      (c ← on_world (new_prover_client (match sp1_prover param with Some m => build_client m | None => client_from_env end) AGGREGATION_ELF);
       _ ← modify (fun s => mkSp1State (<[mode := c]> (AGGREGATION_CLIENT s)) (BATCH_PROOF_CLIENT s) (sp1_world s)); mret c) s
  end.

(** *** The verifier contract: its answer is only logged *)
Definition verify_sol_by_contract_call (fixture : RaikoProofFixture) : M () :=
  sp1_verifier_rpc_url ← lift (unwrap (sp1_env "SP1_VERIFIER_RPC_URL"));
  addr ← lift (unwrap (sp1_env "SP1_VERIFIER_ADDRESS"));
  sp1_verifier_addr ← lift (unwrap (sp1_address addr));
  url ← lift (unwrap (sp1_url sp1_verifier_rpc_url));
  program_key ← lift (unwrap (sp1_b256 (fix_vkey fixture)));
  public_value ← lift (unwrap (sp1_hex_decode (fix_public_values fixture)));
  (fun s => let '(s', r) := on_world (verify_proof_call url sp1_verifier_addr program_key public_value (fix_proof fixture)) s in (s', unwrap_ok (ignore r))) : M ().

Definition request_proof (n : Network) (k : ProvingKey) (stdin : SP1Stdin) (mode : SP1ProofMode) (text : string) : M string :=
  on_world (map_st_err (fun e => GuestError (text +:+ e)) (network_request n k stdin mode 1000000000000)).
Definition wait_proof (n : Network) (proof_id : string) : M (SP1Proof * bytes) :=
  on_world (map_st_err (fun e => GuestError ("Sp1: network proof failed " +:+ error_debug e)) (network_wait n proof_id 3600)).

(** *** Proving a batch *)
Definition batch_prove_result (param : Sp1Param) (mode : ProverMode) (c : Sp1ProverClient) (stdin : SP1Stdin) (proof_key : ProofKey) (id_store : bool) :
    M (SP1Proof * bytes) :=
  match mode with
  | MockMode | LocalMode =>
      if bool_decide (option.default "" (sp1_env "PROFILING") = "1") then
        _ ← on_world (map_st_err (fun e => GuestError ("Sp1: local proving failed: " +:+ e)) (client_execute (client c) BATCH_ELF stdin));
        mret (groth16_default, [])
      else
        on_world (map_st_err (fun e => GuestError ("Sp1: local proving failed: " +:+ e)) (client_prove (client c) (pk c) stdin (recursion_into (recursion param))))
  | NetworkMode =>
      proof_id ← request_proof (network_client c) (pk c) stdin (recursion_into (recursion param)) "Sp1: requesting proof failed: ";
      _ ← (if id_store then on_world (ids_store proof_key proof_id) else mret ());
      wait_proof (network_client c) proof_id
  end.

Definition is_nil (b : bytes) : bool := match b with [] => true | _ => false end.

Definition sp1_batch_run (id_store : bool) (input : GuestBatchInput Tx) (output : GuestBatchOutput Tx) (config : Value) : M Proof_ :=
  param ← lift (sp1_param config);
  let param := set_recursion param RecCompressed in
  let mode := option.default get_env_mock (sp1_prover param) in
  written ← lift (unwrap (batch_to_stdin input));
  let stdin := mkSP1Stdin [written] [] in
  c ← batch_client mode;
  let proof_key : ProofKey := (chain_id (batch_chain_spec (batch_taiko input)), batch_id (batch_taiko input), out_batch_hash output, proof_type_u8 Sp1) in
  prove_result ← batch_prove_result param mode c stdin proof_key id_store;
  proof_bytes ← lift (match recursion param with RecCompressed => Ok [] | _ => sp1_proof_bytes prove_result end);
  _ ← (if sp1_verify param && negb (is_nil proof_bytes) then
         pi_hash ← lift (public_values_read (snd prove_result));
         verify_sol_by_contract_call (mkRaikoProofFixture (vk_bytes32 (vk c)) (sp1_b256_text pi_hash) proof_bytes)
       else mret ());
  let proof_string := if is_nil proof_bytes then None else Some (vk_bytes32 (vk c) +:+ sp1_hex proof_bytes) in
  lift (sp1_into (mkSp1Response proof_string (Some prove_result) (Some (vk c)))).

(** *** Aggregating proofs *)

(** A proof that is not compressed is only logged. *)
Definition block_proof (stark_vk : StarkKey) (p : Proof_) : outcome ProverError (list (InnerProof * StarkKey)) :=
  text ← unwrap (quote p);
  sp1_proof ← map_err (fun e => GuestError ("Failed to parse SP1 proof: " +:+ e)) (sp1_proof_from_json text);
  Ok (match compressed_of sp1_proof with Some b => [(b, stark_vk)] | None => [] end).

Definition sp1_aggregation_stdin (input : AggregationGuestInput) : outcome ProverError (SP1Stdin * StarkKey) :=
  block_inputs ← collect (fun p => unwrap (proof_input p)) (agg_proofs input);
  first ← unwrap (agg_proofs input !! 0%nat);
  text ← unwrap (uuid first);
  block_proof_vk ← map_err (fun e => GuestError ("Failed to parse SP1 vk: " +:+ e)) (vk_from_json text);
  let stark_vk := vk_stark block_proof_vk in
  written ← unwrap (zk_to_stdin (mkZkAggregationGuestInput (vk_hash_u32 block_proof_vk) block_inputs));
  proofs ← collect (block_proof stark_vk) (agg_proofs input);
  Ok (mkSP1Stdin [written] (concat proofs), stark_vk).

Definition aggregation_prove_result (param : Sp1Param) (mode : ProverMode) (c : Sp1ProverClient) (stdin : SP1Stdin) : M (SP1Proof * bytes) :=
  match mode with
  | MockMode | LocalMode =>
      (fun s => let '(s', r) := on_world (client_prove (client c) (pk c) stdin ModePlonk) s in (s', unwrap_ok r)) : M (SP1Proof * bytes)
  | NetworkMode =>
      proof_id ← request_proof (network_client c) (pk c) stdin (recursion_into (recursion param)) "Sp1: network proving failed: ";
      wait_proof (network_client c) proof_id
  end.

Definition sp1_aggregate (input : AggregationGuestInput) (config : Value) : M Proof_ :=
  param ← lift (sp1_param config);
  let param := set_recursion param RecPlonk in
  let mode := option.default get_env_mock (sp1_prover param) in
  prepared ← lift (sp1_aggregation_stdin input);
  let '(stdin, stark_vk) := prepared : SP1Stdin * StarkKey in
  c ← aggregation_client param;
  prove_result ← aggregation_prove_result param mode c stdin;
  proof_bytes ← lift (sp1_proof_bytes prove_result);
  _ ← (if sp1_verify param && negb (is_nil proof_bytes) then
         verify_sol_by_contract_call (mkRaikoProofFixture (vk_bytes32 (vk c)) (public_values_raw (snd prove_result)) proof_bytes)
       else mret ());
  let proof := if is_nil proof_bytes then None
               else Some (vk_bytes32 (vk c) +:+ sp1_hex (stark_hash_bytes stark_vk) +:+ sp1_hex proof_bytes) in
  lift (sp1_into (mkSp1Response proof None None)).

Definition sp1_cancel (key : ProofKey) : M () := _ ← on_world (ids_remove key); mret ().

(** [unimplemented!]. *)
Definition sp1_run (input : GuestInput Tx) (output : GuestOutput) (config : Value) (id_store : bool) : M Proof_ := lift Panic.
End driver.

(** ** The guest programs *)
Section guest.
Context {Tx : Type} `{SL : Sp1Lib Tx} `{KK : Keccak} `{AR : AlloyRlp} `{EA : EvmAccounts} `{BL : BlockLib Tx} `{K : KzgLib} `{P : ProtocolLib Tx}.
Variables (zlib : bytes -> option bytes) (rlp : bytes -> option (list Tx)).

(** [sp1_zkvm::io::read_vec]: the next buffer of the input. *)
Definition read_vec (buffer : list bytes) : outcome string bytes := unwrap (buffer !! 0%nat).

Definition sp1_block_main (buffer : list bytes) : outcome string bytes :=
  b ← read_vec buffer;
  input ← unwrap (block_of_stdin b);
  header ← calculate_block_header zlib rlp input;
  pi ← unwrap_ok (ProtocolInstance_new input header Sp1);
  Ok (instance_hash pi).

Definition sp1_batch_main (buffer : list bytes) : outcome string bytes :=
  b ← read_vec buffer;
  batch_input ← unwrap (batch_of_stdin b);
  final_blocks ← calculate_batch_blocks_final_header zlib rlp batch_input;
  pi ← unwrap_ok (ProtocolInstance_new_batch batch_input final_blocks Sp1);
  Ok (instance_hash pi).

(** [verified] tells whether a proof with this key and digest was given. *)
Fixpoint verify_sp1_proofs (verified : list Z -> bytes -> bool) (image_id : list Z) (block_inputs : list bytes) : outcome string () :=
  match block_inputs with
  | [] => Ok ()
  | b :: rest => _ ← assert (verified image_id (sp1_sha256 b)); verify_sp1_proofs verified image_id rest
  end.
Definition sp1_aggregation_main (verified : list Z -> bytes -> bool) (buffer : list bytes) : outcome string bytes :=
  b ← read_vec buffer;
  input ← unwrap (zk_of_stdin b);
  _ ← verify_sp1_proofs verified (zk_image_id input) (zk_block_inputs input);
  Ok (aggregation_output (words_to_bytes_be (zk_image_id input)) (zk_block_inputs input)).
End guest.

(** ** Properties *)

(** One call of the prover. *)
Inductive Sp1Call (Tx : Type) :=
| CallBatch (id_store : bool) (input : GuestBatchInput Tx) (output : GuestBatchOutput Tx) (config : Value)
| CallAggregate (input : AggregationGuestInput) (config : Value)
| CallCancel (key : ProofKey)
| CallRun (input : GuestInput Tx) (output : GuestOutput) (config : Value) (id_store : bool).
Arguments CallBatch {Tx} _ _ _ _.
Arguments CallAggregate {Tx} _ _.
Arguments CallCancel {Tx} _.
Arguments CallRun {Tx} _ _ _ _.

Section laws.
Context {W Tx : Type} `{SL : Sp1Lib Tx} `{SM : !Sp1Machine W} `{ID : !IdStore W}.
Context `{KK : Keccak} `{AR : AlloyRlp} `{EA : EvmAccounts} `{BL : BlockLib Tx} `{K : KzgLib} `{P : ProtocolLib Tx}.
Variables (zlib : bytes -> option bytes) (rlp : bytes -> option (list Tx)).

(** The state after a call, and after calls, whatever they return. *)
Definition sp1_call (c : Sp1Call Tx) (s : Sp1State W) : Sp1State W :=
  match c with
  | CallBatch st i o v => fst (sp1_batch_run st i o v s)
  | CallAggregate i v => fst (sp1_aggregate i v s)
  | CallCancel k => fst (sp1_cancel k s)
  | CallRun i o v st => fst (sp1_run i o v st s)
  end.
Definition sp1_calls (cs : list (Sp1Call Tx)) (s : Sp1State W) : Sp1State W := foldl (fun s c => sp1_call c s) s cs.

(** [keys elf k v]: the keys of a program; [requested id k stdin mode]: what the
    network was asked for under an id. *)
Variable keys : bytes -> ProvingKey -> VerifyingKey -> Prop.
Variable requested : string -> ProvingKey -> SP1Stdin -> SP1ProofMode -> Prop.

(** A proof holds the public values that the program commits on the input, and is
    of the kind that was asked for. *)
Definition proved (elf : bytes) (stdin : SP1Stdin) (mode : SP1ProofMode) (r : SP1Proof * bytes) : Prop :=
  (elf = BATCH_ELF -> sp1_batch_main zlib rlp (stdin_buffer stdin) = Ok (snd r)) /\
  (elf = AGGREGATION_ELF -> exists verified, sp1_aggregation_main verified (stdin_buffer stdin) = Ok (snd r)) /\
  (mode = ModeCompressed -> exists inner, compressed_of (fst r) = Some inner).

Class Sp1Laws : Prop := {
  setup_keys : forall c elf w w' k v, client_setup c elf w = (w', Ok (k, v)) -> keys elf k v;
  keys_unique : forall elf k v k' v', keys elf k v -> keys elf k' v' -> v = v';
  prove_executes : forall elf c k v stdin m w w' r, keys elf k v -> client_prove c k stdin m w = (w', Ok r) -> proved elf stdin m r;
  request_kept : forall n k stdin m z w w' id, network_request n k stdin m z w = (w', Ok id) -> requested id k stdin m;
  wait_executes : forall elf n id k v stdin m z w w' r, requested id k stdin m -> keys elf k v -> network_wait n id z w = (w', Ok r) -> proved elf stdin m r;
  batch_read_back : forall i b, batch_to_stdin i = Some b -> batch_of_stdin b = Some i;
  zk_read_back : forall i b, zk_to_stdin i = Some b -> zk_of_stdin b = Some i;
  proof_read_back : forall p t, sp1_proof_to_json p = Some t -> sp1_proof_from_json t = Ok p;
  vk_read_back : forall v t, vk_to_json v = Some t -> vk_from_json t = Ok v
}.
Context `{LW : Sp1Laws}.

(** *** The clients that are kept *)
Definition clients_ok (s : Sp1State W) : Prop :=
  (forall m c, AGGREGATION_CLIENT s !! m = Some c -> keys AGGREGATION_ELF (pk c) (vk c)) /\
  (forall m c, BATCH_PROOF_CLIENT s !! m = Some c -> keys BATCH_ELF (pk c) (vk c)).
Definition keeps_ok {E A} (m : St (Sp1State W) E A) : Prop := forall s, clients_ok s -> clients_ok (fst (m s)).

Lemma keeps_ok_bind {E A B} (m : St (Sp1State W) E A) (f : A -> St (Sp1State W) E B) :
  keeps_ok m -> (forall a, keeps_ok (f a)) -> keeps_ok (mbind f m).
Proof. intros Hm Hf s Hs. unfold mbind, st_bind. specialize (Hm s Hs). destruct (m s) as [s1 [a|e|]]; [by apply Hf|done..]. Qed.
Lemma keeps_ok_lift {E A} (r : outcome E A) : keeps_ok (lift r).
Proof. by intros s. Qed.
Lemma keeps_ok_ret {E A} (a : A) : keeps_ok (mret a : St (Sp1State W) E A).
Proof. by intros s. Qed.
Lemma keeps_ok_world {E A} (m : St W E A) : keeps_ok (on_world m).
Proof. intros s Hs. unfold on_world. by destruct (m (sp1_world s)). Qed.
Lemma keeps_ok_map {E F A B} (f : outcome E A -> outcome F B) (m : St (Sp1State W) E A) :
  keeps_ok m -> keeps_ok (fun s => let '(s', r) := m s in (s', f r)).
Proof. intros Hm s Hs. specialize (Hm s Hs). by destruct (m s). Qed.

Create HintDb clients.
#[local] Hint Resolve keeps_ok_lift keeps_ok_ret keeps_ok_world keeps_ok_map : clients.
#[local] Hint Extern 2 (keeps_ok (mbind _ _)) => apply keeps_ok_bind; [|intros ?] : clients.
#[local] Hint Extern 3 (keeps_ok (if ?b then _ else _)) => destruct b : clients.
#[local] Hint Extern 3 (keeps_ok (match ?b with MockMode => _ | LocalMode => _ | NetworkMode => _ end)) => destruct b : clients.
#[local] Hint Extern 3 (keeps_ok (let '(_, _) := ?p in _)) => destruct p : clients.

(** A new client has the keys of the program it is set up for. *)
Lemma new_client_keys base elf w w' c : new_prover_client base elf w = (w', Ok c) -> keys elf (pk c) (vk c).
Proof. unfold new_prover_client. intros H. op_inv. match goal with H : client_setup _ _ _ = (_, Ok ?k) |- _ => destruct k; by eapply setup_keys in H end. Qed.
Lemma world_Ok {E A} (m : St W E A) s s' a : on_world m s = (s', Ok a) -> m (sp1_world s) = (sp1_world s', Ok a).
Proof. unfold on_world. destruct (m (sp1_world s)). by intros [= <- ->]. Qed.

Lemma batch_client_ok mode s s' r : clients_ok s -> batch_client mode s = (s', r) ->
  clients_ok s' /\ forall c, r = Ok c -> keys BATCH_ELF (pk c) (vk c).
Proof.
  unfold batch_client. intros Hs. destruct (BATCH_PROOF_CLIENT s !! mode) as [c|] eqn:Hm; [intros [= <- <-]; split; [done|]; intros ? [= <-]; by eapply Hs|].
  unfold mbind, st_bind. pose proof (keeps_ok_world (new_prover_client (build_client mode) BATCH_ELF) s Hs) as Hs1.
  destruct (on_world _ s) as [s1 [c|e|]] eqn:E; [|by intros [= <- <-]..]. intros [= <- <-]. apply world_Ok, new_client_keys in E.
  split; [|by intros ? [= <-]]. split; [by apply Hs1|]. cbn. intros m c'. rewrite lookup_insert_Some. intros [[_ <-]|[_ Hc]]; [done|by eapply Hs1].
Qed.
Lemma aggregation_client_ok param s s' r : clients_ok s -> aggregation_client param s = (s', r) ->
  clients_ok s' /\ forall c, r = Ok c -> keys AGGREGATION_ELF (pk c) (vk c).
Proof.
  unfold aggregation_client. intros Hs. cbv zeta.
  destruct (AGGREGATION_CLIENT s !! _) as [c|] eqn:Hm; [intros [= <- <-]; split; [done|]; intros ? [= <-]; by eapply Hs|].
  unfold mbind, st_bind. pose proof (fun b => keeps_ok_world (new_prover_client b AGGREGATION_ELF) s Hs) as Hs1.
  destruct (on_world _ s) as [s1 [c|e|]] eqn:E; (match type of E with on_world (new_prover_client ?b _) _ = _ => specialize (Hs1 b); rewrite E in Hs1 end);
    [|by intros [= <- <-]..]. intros [= <- <-]. apply world_Ok, new_client_keys in E.
  split; [|by intros ? [= <-]]. split; [|by apply Hs1]. cbn. intros m c'. rewrite lookup_insert_Some. intros [[_ <-]|[_ Hc]]; [done|by eapply Hs1].
Qed.
Lemma keeps_batch_client mode : keeps_ok (batch_client mode).
Proof. intros s Hs. destruct (batch_client mode s) as [s' r] eqn:E. by eapply batch_client_ok. Qed.
Lemma keeps_aggregation_client param : keeps_ok (aggregation_client param).
Proof. intros s Hs. destruct (aggregation_client param s) as [s' r] eqn:E. by eapply aggregation_client_ok. Qed.
Lemma keeps_contract_call f : keeps_ok (verify_sol_by_contract_call f).
Proof. unfold verify_sol_by_contract_call. auto 20 with clients. Qed.
#[local] Hint Resolve keeps_batch_client keeps_aggregation_client keeps_contract_call : clients.

Lemma sp1_call_ok c s : clients_ok s -> clients_ok (sp1_call c s).
Proof.
  destruct c; cbn [sp1_call]; apply (fun H => H : keeps_ok _);
    unfold sp1_batch_run, sp1_aggregate, sp1_cancel, sp1_run, batch_prove_result, aggregation_prove_result, request_proof, wait_proof; cbv zeta;
    auto 40 with clients.
Qed.

(** C29: After any calls of the prover, whatever they return, the client that is
    kept for a mode has the keys of the program it is used for: the keys of the
    batch program and of the aggregation program are never exchanged. *)
Theorem sp1_clients_invariant cs w : clients_ok (sp1_calls cs (mkSp1State ∅ ∅ w)).
Proof.
  assert (forall s, clients_ok s -> clients_ok (sp1_calls cs s)) as H; [|by apply H; split; intros m c; cbn; rewrite lookup_empty].
  induction cs as [|c cs IH]; intros s Hs; [done|]. cbn. by apply IH, sp1_call_ok.
Qed.
(** *** A batch proof *)

(** What the proof of a batch with hash [h] holds. *)
Definition sp1_batch_proof_of (h : bytes) (p : Proof_) : Prop := exists k v sp inner json vkj,
  keys BATCH_ELF k v /\ compressed_of sp = Some inner /\ sp1_proof_to_json sp = Some json /\ vk_to_json v = Some vkj /\
  p = mkProof None (Some h) (Some json) (Some vkj) None.

Lemma map_st_err_Ok {S E F A} (f : E -> F) (m : St S E A) s s' a : map_st_err f m s = (s', Ok a) -> m s = (s', Ok a).
Proof. unfold map_st_err. destruct (m s) as [s1 [x|x|]]; cbn; by intros [= <- <-]. Qed.

Lemma request_wait_Ok {elf} n k v stdin mode text s s1 s2 s3 id r : keys elf k v ->
  request_proof n k stdin mode text s = (s1, Ok id) -> wait_proof n id s2 = (s3, Ok r) -> proved elf stdin mode r.
Proof.
  intros Hk Hr Hw. apply world_Ok, map_st_err_Ok, request_kept in Hr. apply world_Ok, map_st_err_Ok in Hw. by eapply wait_executes.
Qed.

(** What is proved: the program ran on the input, or only its execution was profiled. *)
Lemma batch_result_Ok param mode c stdin key st s s' r : keys BATCH_ELF (pk c) (vk c) ->
  batch_prove_result param mode c stdin key st s = (s', Ok r) ->
  proved BATCH_ELF stdin (recursion_into (recursion param)) r \/ snd r = [].
Proof.
  intros Hk H. unfold batch_prove_result in H. destruct mode; try (case_bool_decide; [op_inv; by right|]);
    try (left; apply world_Ok, map_st_err_Ok in H; by eapply prove_executes).
  left. op_inv. by eapply request_wait_Ok.
Qed.

Lemma sp1_into_Ok proof r v p : sp1_into (mkSp1Response proof (Some r) (Some v)) = Ok p -> exists json vkj,
  sp1_proof_to_json (fst r) = Some json /\ vk_to_json v = Some vkj /\ length (snd r) = 32%nat /\
  p = mkProof proof (Some (snd r)) (Some json) (Some vkj) None.
Proof.
  unfold sp1_into, b256_from_slice. cbn. destruct (sp1_proof_to_json (fst r)) as [json|]; cbn; [|done]. destruct (_ =? _)%nat eqn:E; cbn; [|done].
  destruct (vk_to_json v) as [vkj|]; cbn; [|done]. intros [= <-]. apply Nat.eqb_eq in E. by eexists _, _.
Qed.

Lemma sp1_batch_run_Ok st input output config s s' p : clients_ok s -> sp1_batch_run st input output config s = (s', Ok p) ->
  exists b h, batch_to_stdin input = Some b /\ sp1_batch_main zlib rlp [b] = Ok h /\ sp1_batch_proof_of h p.
Proof.
  intros Hs H. unfold sp1_batch_run in H. cbv zeta in H. op_inv.
  match goal with H : batch_client _ _ = (_, Ok ?c0) |- _ => rename c0 into c; apply (batch_client_ok _ _ _ _ Hs) in H as [_ Hk]; specialize (Hk c eq_refl) end.
  match goal with H : sp1_into _ = Ok _ |- _ => apply sp1_into_Ok in H as (json & vkj & Hj & Hv & Hl & ->) end.
  match goal with H : batch_prove_result _ _ _ _ _ _ _ = _ |- _ => apply (batch_result_Ok _ _ _ _ _ _ _ _ _ Hk) in H as [(Hm & _ & Hc)|Hn] end;
    [|by rewrite Hn in Hl].
  destruct (Hc eq_refl) as [inner Hi]. match goal with H : unwrap (batch_to_stdin _) = Ok ?b |- _ => apply unwrap_Some in H; exists b end.
  eexists. split; [done|]. split; [by apply Hm|]. by exists (pk c), (vk c), (fst x6), inner, json, vkj.
Qed.


(** *** Aggregation *)
Lemma collect_sp1_inputs hs ps : Forall2 sp1_batch_proof_of hs ps -> collect (E := ProverError) (fun p => unwrap (proof_input p)) ps = Ok hs.
Proof.
  induction 1 as [|h p hs ps (k & v & sp & inner & json & vkj & _ & _ & _ & _ & ->) _ IH]; [done|]. cbn [collect unwrap proof_input]. by rewrite IH.
Qed.
Lemma collect_sp1_proofs sk hs ps : Forall2 sp1_batch_proof_of hs ps ->
  exists inners, collect (block_proof sk) ps = Ok ((fun b => [(b, sk)]) <$> inners) /\ length inners = length hs.
Proof.
  induction 1 as [|h p hs ps (k & v & sp & inner & json & vkj & _ & Hc & Hj & _ & ->) _ (inners & IH & Hl)]; [by exists []|].
  exists (inner :: inners). cbn [length fmap list_fmap collect]. rewrite Hl. split; [|done]. rewrite IH.
  unfold block_proof. cbn. rewrite (proof_read_back _ _ Hj). cbn. by rewrite Hc.
Qed.
Lemma concat_singles {A B} (f : A -> B) l : concat ((fun a => [f a]) <$> l) = f <$> l.
Proof. induction l as [|a l IH]; [done|]. cbn in *. by rewrite IH. Qed.

(** No proof of a batch is left out of the input of the aggregation. *)
Lemma sp1_stdin_Ok hs ps stdin sk : Forall2 sp1_batch_proof_of hs ps -> sp1_aggregation_stdin (mkAggregationGuestInput ps) = Ok (stdin, sk) ->
  exists k v b inners, keys BATCH_ELF k v /\ sk = vk_stark v /\ zk_to_stdin (mkZkAggregationGuestInput (vk_hash_u32 v) hs) = Some b /\
    stdin = mkSP1Stdin [b] ((fun i => (i, sk)) <$> inners) /\ length inners = length hs.
Proof.
  intros Hb. unfold sp1_aggregation_stdin. cbn [agg_proofs]. rewrite (collect_sp1_inputs _ _ Hb). cbn.
  destruct ps as [|p ps]; [done|]. destruct (Forall2_cons_inv_r _ _ _ _ Hb) as (h & hs' & (k & v & sp & inner & json & vkj & Hk & _ & _ & Hv & Hp) & _ & _).
  rewrite Hp at 1. cbn. rewrite (vk_read_back _ _ Hv). cbn. destruct (zk_to_stdin _) as [b|] eqn:Ez; cbn [unwrap mbind outcome_bind]; [|done].
  destruct (collect_sp1_proofs (vk_stark v) _ _ Hb) as (inners & Hc & Hl). cbn [collect] in Hc. rewrite Hc. cbn [mbind outcome_bind]. rewrite concat_singles. intros [= <- <-].
  by exists k, v, b, inners.
Qed.

Lemma aggregation_result_Ok param mode c stdin s s' r : keys AGGREGATION_ELF (pk c) (vk c) ->
  aggregation_prove_result param mode c stdin s = (s', Ok r) -> exists m, proved AGGREGATION_ELF stdin m r.
Proof.
  intros Hk H. unfold aggregation_prove_result in H. destruct mode; [| |op_inv; eexists; by eapply request_wait_Ok];
    (destruct (on_world _ s) as [s1 r1] eqn:E; injection H as <- H; apply unwrap_ok_inner in H; subst r1; apply world_Ok in E; eexists; by eapply prove_executes).
Qed.

Lemma sp1_aggregation_main_Ok verified i b j : zk_to_stdin i = Some b -> sp1_aggregation_main verified [b] = Ok j ->
  j = aggregation_output (words_to_bytes_be (zk_image_id i)) (zk_block_inputs i).
Proof.
  intros Hb. unfold sp1_aggregation_main. cbn [read_vec]. unfold read_vec. cbn. rewrite (zk_read_back _ _ Hb). cbn.
  destruct (verify_sp1_proofs _ _ _); cbn; by intros [= <-].
Qed.

(** C28: Proofs of batches that the prover made are aggregated under the verifying
    key of the batch program: all of them are given to the aggregation program, the
    public values that are proved are the hash of that key and the hashes of the
    batches in the order of the proofs, and the text of the proof holds the key of
    the aggregation program, the hash of the batch key and the bytes of the proof;
    the proof has no input of its own. *)
Theorem sp1_aggregation_commits_batches hs ps config s s' p : clients_ok s -> Forall2 sp1_batch_proof_of hs ps ->
  sp1_aggregate (mkAggregationGuestInput ps) config s = (s', Ok p) ->
  exists k v ak av stdin r b, keys BATCH_ELF k v /\ keys AGGREGATION_ELF ak av /\
    sp1_aggregation_stdin (mkAggregationGuestInput ps) = Ok (stdin, vk_stark v) /\ length (stdin_proofs stdin) = length hs /\
    snd r = aggregation_output (words_to_bytes_be (vk_hash_u32 v)) hs /\ sp1_proof_bytes r = Ok b /\
    p = mkProof (if is_nil b then None else Some (vk_bytes32 av +:+ sp1_hex (stark_hash_bytes (vk_stark v)) +:+ sp1_hex b)) None None None None.
Proof.
  intros Hs Hb H. unfold sp1_aggregate in H. cbv zeta in H. op_inv.
  match goal with H : sp1_aggregation_stdin _ = Ok ?x |- _ => destruct x as [stdin sk]; rename H into Hst end. op_inv.
  match goal with H : aggregation_client _ _ = (_, Ok ?c0) |- _ => rename c0 into c; apply (aggregation_client_ok _ _ _ _ Hs) in H as [_ Hk]; specialize (Hk c eq_refl) end.
  match goal with H : aggregation_prove_result _ _ _ _ _ = (_, Ok ?r0) |- _ => rename r0 into r; apply (aggregation_result_Ok _ _ _ _ _ _ _ Hk) in H as (m & _ & Hv & _) end.
  destruct (Hv eq_refl) as [verified Hm]. pose proof Hst as Hst'. apply (sp1_stdin_Ok _ _ _ _ Hb) in Hst' as (k & v & b & inners & Hkv & -> & Hz & -> & Hl).
  apply (sp1_aggregation_main_Ok _ _ _ _ Hz) in Hm. match goal with H : sp1_proof_bytes _ = Ok ?x |- _ => rename x into bs end.
  exists k, v, (pk c), (vk c), (mkSP1Stdin [b] ((fun i => (i, vk_stark v)) <$> inners)), r, bs. cbn [stdin_proofs]. rewrite length_fmap.
  by repeat (split; [done|]).
Qed.
End laws.

Section diagnostics.
Context {W Tx : Type} `{SL : Sp1Lib Tx} `{SM : !Sp1Machine W} `{ID : !IdStore W}.

Lemma profiled_result param mode c stdin key st s s' r : mode <> NetworkMode -> sp1_env "PROFILING" = Some "1" ->
  batch_prove_result param mode c stdin key st s = (s', Ok r) -> snd r = [].
Proof. intros Hn He H. unfold batch_prove_result in H. rewrite He in H. rewrite bool_decide_eq_true_2 in H by done. destruct mode; [| |done]; by op_inv. Qed.

(** A profiled run has no public values, and their conversion stops the process:
    profiling never returns. *)
Lemma profiling_never_returns st input output config s s' p param :
  sp1_param config = Ok param -> option.default get_env_mock (sp1_prover param) <> NetworkMode -> sp1_env "PROFILING" = Some "1" ->
  sp1_batch_run st input output config s <> (s', Ok p).
Proof.
  intros Hp Hn He H. unfold sp1_batch_run in H. rewrite Hp in H. op_inv.
  match goal with H : batch_prove_result _ _ _ _ _ _ _ = _ |- _ => apply profiled_result in H; [|done..]; rename H into Hr end.
  match goal with H : sp1_into _ = Ok _ |- _ => apply sp1_into_Ok in H as (? & ? & _ & _ & Hl & _) end. by rewrite Hr in Hl.
Qed.
End diagnostics.

(** ** Witnesses

    An SDK whose keys are the programs and whose clients run them. *)
Module Sp1Example.
Import SgxProcessExample.
#[local] Existing Instance sgx_protocol.
#[local] Existing Instance toy_kzg.
#[local] Existing Instance model_accounts.
#[local] Existing Instance model_blocks.

Definition sp1_txs_hash : bytes := match calculate_pacaya_txs_hash (keccak [20; 21; 22]) [] : outcome string bytes with Ok h => h | _ => [] end.
Definition sp1_info : BatchInfo :=
  mkBatchInfo sp1_txs_hash [mkBlockParams 1 0 [[42]]; mkBlockParams 2 0 [[42]]] [] [] [] 0 0 0 0 0 11 0 1 [1] (mkBaseFeeConfig 0 0 0 0 0).
Definition sp1_proposed : BatchProposed :=
  mkBatchProposed sp1_info (mkBatchMetadata (keccak (ser (batch_info_fields sp1_info))) [] 3 0) [].
Definition sp1_batch : GuestBatchInput bytes :=
  mkGuestBatchInput [example_input 10 (Pacaya sp1_proposed); example_input 11 (Pacaya sp1_proposed)]
    (mkTaikoGuestBatchInput 3 (model_header 1) (Pacaya sp1_proposed) toy_chain (mkTaikoProverData [] []) [20; 21; 22] [] None None ProofOfEquivalence).
Definition sp1_output : GuestBatchOutput bytes :=
  match get_batch_output example_zlib example_rlp no_text (example_raiko Sp1) sp1_batch with Ok o => o | _ => mkGuestBatchOutput [] [] end.
Lemma sp1_output_ok : get_batch_output example_zlib example_rlp no_text (example_raiko Sp1) sp1_batch = Ok sp1_output.
Proof. vm_compute. reflexivity. Qed.

Definition zk_pair (z : ZkAggregationGuestInput) : list Z * list bytes := (zk_image_id z, zk_block_inputs z).
#[local] Instance toy_sp1 : Sp1Lib bytes := {|
  SP1Proof := SP1ProofMode; InnerProof := (); ProvingKey := bytes; VerifyingKey := bytes; StarkKey := bytes; Client := (); Network := ();
  network_as_client n := n;
  compressed_of p := match p with ModeCompressed => Some () | _ => None end;
  groth16_default := ModeCore;
  sp1_proof_bytes r := match fst r with ModePlonk => Ok [1; 2; 3] | _ => Panic end;
  public_values_raw := spell; public_values_read := Ok; sp1_b256_text := spell;
  vk_stark v := v; vk_bytes32 := spell; vk_hash_u32 v := v; stark_hash_bytes k := k;
  sp1_proof_to_json p := match p with ModeCompressed => Some "compressed" | _ => None end;
  sp1_proof_from_json t := if bool_decide (t = "compressed") then Ok ModeCompressed else Err "unknown";
  vk_to_json v := Some (spell v);
  vk_from_json t := match unspell t with Some v => Ok v | None => Err "unknown" end;
  batch_to_stdin i := if decide (i = sp1_batch) then Some [1] else None;
  batch_of_stdin b := if decide (b = [1]) then Some sp1_batch else None;
  block_of_stdin _ := None;
  zk_to_stdin z := Some [Zpos (countable.encode (zk_pair z))];
  zk_of_stdin b := match b with [Zpos p] => (fun z : list Z * list bytes => mkZkAggregationGuestInput z.1 z.2) <$> countable.decode p | _ => None end;
  sp1_env name := if bool_decide (name = "PROFILING") then None else Some "value";
  sp1_address _ := Some []; sp1_url := Some; sp1_b256 := unspell; sp1_hex := spell; sp1_hex_decode := unspell; sp1_sha256 b := b;
  error_debug e := e; BATCH_ELF := [1]; AGGREGATION_ELF := [2]
|}.

Definition run_program (k : bytes) (buffer : list bytes) : outcome string bytes :=
  if decide (k = [1]) then sp1_batch_main example_zlib example_rlp buffer else sp1_aggregation_main (fun _ _ => true) buffer.
#[local] Instance toy_sp1_machine : Sp1Machine () := {|
  build_mock w := (w, Ok ()); build_cpu w := (w, Ok ()); build_network w := (w, Ok ()); client_from_env w := (w, Ok ());
  client_setup _ elf w := (w, Ok (elf, elf));
  client_prove _ k stdin m w := (w, v ← run_program k (stdin_buffer stdin); Ok (m, v));
  client_execute _ _ _ := mret (); network_request _ _ _ _ _ := lift (Err "offline"); network_wait _ _ _ := lift (Err "offline");
  verify_proof_call _ _ _ _ _ := mret ()
|}.
#[local] Instance toy_sp1_ids : IdStore () := {|
  ids_read _ := lift (Err (StoreError "not found")); ids_store _ _ := mret (); ids_remove _ := mret ()
|}.
Definition toy_keys (elf : bytes) (k : ProvingKey) (v : VerifyingKey) : Prop := k = elf /\ v = elf.
Definition never (id : string) (k : ProvingKey) (stdin : SP1Stdin) (m : SP1ProofMode) : Prop := False.

#[local] Instance toy_sp1_laws : Sp1Laws (W := ()) example_zlib example_rlp toy_keys never.
Proof.
  split; try done.
  - by intros c elf w w' k v [= <- <- <-].
  - by intros elf k v k' v' [-> ->] [-> ->].
  - intros elf c k v stdin m w w' r [-> ->] [= _ H]. unfold run_program in H. split_and!.
    + intros ->. rewrite decide_True in H by done. destruct (sp1_batch_main _ _ _); by simplify_eq/=.
    + intros ->. rewrite decide_False in H by done. exists (fun _ _ => true).
      destruct (sp1_aggregation_main _ _); by simplify_eq/=.
    + intros ->. destruct (if decide _ then _ else _); simplify_eq/=. by exists ().
  - intros i b. cbn. case_decide; [|done]. subst. intros [= <-]. by rewrite decide_True.
  - intros i b [= <-]. cbn. rewrite countable.decode_encode. by destruct i.
  - intros [] t; try done. by intros [= <-].
  - intros v t [= <-]. cbn. by rewrite unspell_spell.
Qed.

Definition sp1_config : Value := JObject [("sp1", JObject [("prover", JString "local"); ("verify", JBool true)])].
Definition sp1_start : Sp1State () := mkSp1State ∅ ∅ ().
Lemma sp1_start_ok : clients_ok toy_keys sp1_start.
Proof. split; intros m c; cbn; by rewrite lookup_empty. Qed.
Definition sp1_result := sp1_batch_run true sp1_batch sp1_output sp1_config sp1_start.
Lemma sp1_result_ok : is_ok (snd sp1_result) = true.
Proof. vm_compute. reflexivity. Qed.

Lemma sp1_clients_invariant_witness :
  clients_ok toy_keys (sp1_calls [CallBatch true sp1_batch sp1_output sp1_config; CallCancel (1, 2, [], 3)] sp1_start).
Proof. exact (sp1_clients_invariant example_zlib example_rlp toy_keys never _ ()). Defined.


Definition sp1_proof_made (h : bytes) : Proof_ := mkProof None (Some h) (Some "compressed") (vk_to_json BATCH_ELF) None.
Lemma sp1_proofs_ok : Forall2 (sp1_batch_proof_of toy_keys) [[5]; [6]] [sp1_proof_made [5]; sp1_proof_made [6]].
Proof.
  assert (forall h, sp1_batch_proof_of toy_keys h (sp1_proof_made h)); [|by repeat constructor].
  intros h. exists BATCH_ELF, BATCH_ELF, ModeCompressed, (), "compressed", (spell BATCH_ELF). repeat split.
Qed.
Definition sp1_aggregated := sp1_aggregate (mkAggregationGuestInput [sp1_proof_made [5]; sp1_proof_made [6]]) sp1_config sp1_start.
Lemma sp1_aggregated_ok : is_ok (snd sp1_aggregated) = true.
Proof. vm_compute. reflexivity. Qed.
Lemma sp1_aggregation_commits_batches_witness : exists s p t, sp1_aggregated = (s, Ok p) /\ p = mkProof t None None None None.
Proof.
  pose proof sp1_aggregated_ok as Hok. destruct sp1_aggregated as [s [p|e|]] eqn:E; [|discriminate Hok..]. exists s, p.
  destruct (sp1_aggregation_commits_batches example_zlib example_rlp toy_keys never [[5]; [6]] [sp1_proof_made [5]; sp1_proof_made [6]] sp1_config sp1_start s p
    sp1_start_ok sp1_proofs_ok E) as (k & v & ak & av & stdin & r & b & _ & _ & _ & _ & _ & _ & Hp).
  eexists. split; [reflexivity|exact Hp].
Defined.
End Sp1Example.
