(* ===== verification/Auth.v ===== *)
(** * Auth: API keys and rate limits of the server

    Models [host/src/server/auth.rs]: the key store, the rate limit of a key
    and the middleware that admits or rejects a request. A [DashMap] behind a
    lock is a finite map; a method that holds a lock is one atomic step, so the
    middleware, which takes several locks one after the other, is also given as
    a step function on concurrent requests. A [DateTime] is a number of
    nanoseconds; every reading of the clock is an argument. *)
From stdpp Require Import base list list_numbers gmap fin_maps strings.
From Stdlib Require Import ZArith Lia Ascii.
From S2P Require Import Prelude Text.
Local Open Scope Z_scope.

(** ** Keys *)
Record ApiKey := mkApiKey {
  ak_key : string; ak_name : string; ak_permissions : list string;
  ak_rate_limit : option Z; ak_created_at : Z; ak_last_used : option Z; ak_is_active : bool }.

(** [ApiKey::new], given the variable [RAIKO_RATE_LIMIT] and the clock. *)
Definition ApiKey_new (env_rate_limit : option string) (now : Z) (key name : string) : ApiKey :=
  let rate_limit := default 600 (parse_u32 (default "600"%string env_rate_limit)) in
  mkApiKey key name ["read"%string; "write"%string] (Some rate_limit) now None true.

Definition with_permissions (k : ApiKey) (permissions : list string) : ApiKey :=
  mkApiKey (ak_key k) (ak_name k) permissions (ak_rate_limit k) (ak_created_at k) (ak_last_used k) (ak_is_active k).
Definition with_rate_limit (k : ApiKey) (rate_limit : Z) : ApiKey :=
  mkApiKey (ak_key k) (ak_name k) (ak_permissions k) (Some rate_limit) (ak_created_at k) (ak_last_used k) (ak_is_active k).
Definition set_last_used (now : Z) (k : ApiKey) : ApiKey :=
  mkApiKey (ak_key k) (ak_name k) (ak_permissions k) (ak_rate_limit k) (ak_created_at k) (Some now) (ak_is_active k).

(** ** The store *)
Record ApiKeyStore := mkStore {
  st_enabled : bool;
  st_keys : gmap string ApiKey;
  st_rate_limits : gmap string (list Z) }.

Definition disabled_store : ApiKeyStore := mkStore false ∅ ∅.

(** [ApiKeyStore::new]: [parsed] is what the JSON parser makes of the text, the
    pairs of a name and a key in the order the map yields them; [now i] is the
    clock when the [i]-th key is made. *)
Fixpoint load_keys (env : option string) (now : nat -> Z) (i : nat) (l : list (string * string))
    (keys : gmap string ApiKey) (limits : gmap string (list Z)) : gmap string ApiKey * gmap string (list Z) :=
  match l with
  | [] => (keys, limits)
  | (name, apikey) :: l' =>
      load_keys env now (S i) l' (<[apikey := ApiKey_new env (now i) apikey name]> keys) (<[apikey := []]> limits)
  end.

Definition ApiKeyStore_new (from_str : string -> option (list (string * string))) (env : option string)
    (now : nat -> Z) (api_keys : string) : ApiKeyStore :=
  if bool_decide (api_keys = ""%string) then disabled_store
  else match from_str api_keys with
       | Some map => let '(keys, limits) := load_keys env now 0 map ∅ ∅ in mkStore true keys limits
       | None => disabled_store
       end.

Definition add_key (st : ApiKeyStore) (k : ApiKey) : ApiKeyStore :=
  mkStore (st_enabled st) (<[ak_key k := k]> (st_keys st)) (st_rate_limits st).

Definition remove_key (st : ApiKeyStore) (key : string) : ApiKeyStore * outcome string () :=
  match st_keys st !! key with
  | Some _ => (mkStore (st_enabled st) (delete key (st_keys st)) (st_rate_limits st), Ok ())
  | None => (st, Err "API key not found"%string)
  end.

Definition get_key (st : ApiKeyStore) (key : string) : option ApiKey := st_keys st !! key.

Definition list_keys (st : ApiKeyStore) : list ApiKey := (map_to_list (st_keys st)).*2.

Definition update_key_usage (st : ApiKeyStore) (key : string) (now : Z) : ApiKeyStore :=
  mkStore (st_enabled st) (alter (set_last_used now) key (st_keys st)) (st_rate_limits st).

(** [chrono::Duration::minutes(1)] in nanoseconds. *)
Definition minute : Z := 60 * 10 ^ 9.

(** The part of [check_rate_limit] under the lock of the table. *)
Definition take_slot (st : ApiKeyStore) (key : string) (rate_limit now : Z) : ApiKeyStore * bool :=
  let window_start := now - minute in
  let requests := filter (fun time => window_start <= time) (default [] (st_rate_limits st !! key)) in
  let put l := mkStore (st_enabled st) (st_keys st) (<[key := l]> (st_rate_limits st)) in
  if rate_limit <=? Z.of_nat (length requests) then (put requests, false)
  else (put (requests ++ [now]), true).

Definition check_rate_limit (st : ApiKeyStore) (key : string) (now : Z) : ApiKeyStore * outcome string bool :=
  match get_key st key with
  | Some api_key =>
      match ak_rate_limit api_key with
      | Some rate_limit => let '(st', b) := take_slot st key rate_limit now in (st', Ok b)
      | None => (st, Ok true)
      end
  | None => (st, Err "API key not found"%string)
  end.

(** ** The middleware *)
Record AuthenticatedApiKey := mkAuth { auth_key : string; auth_name : string }.

Inductive StatusCode : Type := UNAUTHORIZED | TOO_MANY_REQUESTS | INTERNAL_SERVER_ERROR.

(** [Forward a]: the request runs with [a] in its extensions. *)
Inductive Reply : Type := Forward (a : AuthenticatedApiKey) | Reject (s : StatusCode).
#[global] Instance AuthenticatedApiKey_eq : EqDecision AuthenticatedApiKey.
Proof. solve_decision. Defined.
#[global] Instance StatusCode_eq : EqDecision StatusCode.
Proof. solve_decision. Defined.
#[global] Instance Reply_eq : EqDecision Reply.
Proof. solve_decision. Defined.

(** [extract_api_key_from_request]: the header as the HTTP library yields it
    and the library's conversion of a header value to a string. *)
Definition extract_api_key_from_request {HeaderValue} (to_str : HeaderValue -> option string)
    (headers_get : string -> option HeaderValue) : string :=
  match headers_get "x-api-key"%string with
  | Some h => match to_str h with Some s => s | None => ""%string end
  | None => ""%string
  end.

(** [api_key_auth_middleware] on a store nobody else uses: [now] is the clock of
    the rate limit, [used] the clock of [update_key_usage]. *)
Definition api_key_auth_middleware (st : ApiKeyStore) (api_key : string) (now used : Z) : ApiKeyStore * Reply :=
  if negb (st_enabled st) then (st, Forward (mkAuth "anonymous" "anonymous"))
  else if bool_decide (api_key = ""%string) then (st, Reject UNAUTHORIZED)
  else match get_key st api_key with
       | Some key_info =>
           if negb (ak_is_active key_info) then (st, Reject UNAUTHORIZED)
           else match check_rate_limit st api_key now with
                | (st', Ok true) => (update_key_usage st' api_key used, Forward (mkAuth api_key (ak_name key_info)))
                | (st', Ok false) => (st', Reject TOO_MANY_REQUESTS)
                | (st', _) => (st', Reject INTERNAL_SERVER_ERROR)
                end
       | None => (st, Reject UNAUTHORIZED)
       end.

(** ** Managing keys: [random] is what the generator draws, [hex_encode] the
    library's hexadecimal encoder. *)
Definition generate_api_key (hex_encode : bytes -> string) (random : bytes) : string :=
  ("raiko_" ++ hex_encode random)%string.

Definition create_api_key (hex_encode : bytes -> string) (st : ApiKeyStore) (env : option string) (now : Z)
    (random : bytes) (name : string) : ApiKeyStore * string :=
  let key := generate_api_key hex_encode random in (add_key st (ApiKey_new env now key name), key).
Definition revoke_api_key (st : ApiKeyStore) (key : string) : ApiKeyStore * outcome string () := remove_key st key.
Definition list_api_keys (st : ApiKeyStore) : list ApiKey := list_keys st.

(** ** Concurrent requests

    A request passes through these phases; between two of them other requests
    and the managing functions may run. [Waiting] has read the key and the clock
    and waits for the lock of the rate limits. *)
Inductive AuthPhase : Type :=
| Arrived (key : string)
| Found (key : string) (info : ApiKey)
| Waiting (key : string) (info : ApiKey) (rate_limit now : Z)
| Using (key : string) (info : ApiKey)
| Done (r : Reply).

(** The world: the shared store, the requests by number, and two logs: the
    requests that passed the rate limit and the times at which the table of rate
    limits was visited. *)
Record World := mkWorld {
  w_store : ApiKeyStore;
  w_requests : gmap nat AuthPhase;
  w_admitted : list (nat * string * Z);
  w_visits : list (string * Z) }.

Inductive Label : Type :=
| LAdd (k : ApiKey)
| LRemove (key : string)
| LArrive (id : nat) (key : string)
| LStep (id : nat) (now : Z).

Definition set_phase (w : World) (id : nat) (p : AuthPhase) : World :=
  mkWorld (w_store w) (<[id := p]> (w_requests w)) (w_admitted w) (w_visits w).
Definition set_store (w : World) (st : ApiKeyStore) : World :=
  mkWorld st (w_requests w) (w_admitted w) (w_visits w).
Definition admit_request (w : World) (id : nat) (key : string) (t : Z) : World :=
  mkWorld (w_store w) (w_requests w) (w_admitted w ++ [(id, key, t)]) (w_visits w).
Definition visit (w : World) (key : string) (t : Z) : World :=
  mkWorld (w_store w) (w_requests w) (w_admitted w) (w_visits w ++ [(key, t)]).

(** One atomic step of a request in a phase; [now] is the clock. *)
Definition request_step (w : World) (id : nat) (p : AuthPhase) (now : Z) : option World :=
  match p with
  | Arrived key =>
      Some (set_phase w id
        (if negb (st_enabled (w_store w)) then Done (Forward (mkAuth "anonymous" "anonymous"))
         else if bool_decide (key = ""%string) then Done (Reject UNAUTHORIZED)
         else match get_key (w_store w) key with
              | Some info => if negb (ak_is_active info) then Done (Reject UNAUTHORIZED) else Found key info
              | None => Done (Reject UNAUTHORIZED)
              end))
  | Found key info =>
      match get_key (w_store w) key with
      | Some k =>
          match ak_rate_limit k with
          | Some rate_limit => Some (set_phase w id (Waiting key info rate_limit now))
          | None => Some (set_phase (admit_request w id key now) id (Using key info))
          end
      | None => Some (set_phase w id (Done (Reject INTERNAL_SERVER_ERROR)))
      end
  | Waiting key info rate_limit t =>
      let '(st', b) := take_slot (w_store w) key rate_limit t in
      let w' := visit (set_store w st') key t in
      Some (if (b : bool) then set_phase (admit_request w' id key t) id (Using key info)
            else set_phase w' id (Done (Reject TOO_MANY_REQUESTS)))
  | Using key info =>
      Some (set_phase (set_store w (update_key_usage (w_store w) key now)) id
              (Done (Forward (mkAuth key (ak_name info)))))
  | Done _ => None
  end.

Definition world_step (w : World) (l : Label) : option World :=
  match l with
  | LAdd k => Some (set_store w (add_key (w_store w) k))
  | LRemove key => Some (set_store w (remove_key (w_store w) key).1)
  | LArrive id key =>
      match w_requests w !! id with
      | None => Some (set_phase w id (Arrived key))
      | Some _ => None
      end
  | LStep id now =>
      match w_requests w !! id with
      | Some p => request_step w id p now
      | None => None
      end
  end.

Fixpoint world_run (w : World) (ls : list Label) : option World :=
  match ls with
  | [] => Some w
  | l :: ls' => match world_step w l with Some w' => world_run w' ls' | None => None end
  end.

Definition world_init (st : ApiKeyStore) : World := mkWorld st ∅ [] [].

(** ** Properties of the middleware *)

(** The requests a key has left in its window at a time. *)
Definition recent (st : ApiKeyStore) (key : string) (now : Z) : list Z :=
  filter (fun t => now - minute <= t) (default [] (st_rate_limits st !! key)).

(** A key that may be used at a time. *)
Definition admissible (st : ApiKeyStore) (key : string) (now : Z) (info : ApiKey) : Prop :=
  key <> ""%string /\ st_keys st !! key = Some info /\ ak_is_active info = true /\
  match ak_rate_limit info with Some r => Z.of_nat (length (recent st key now)) < r | None => True end.

Lemma take_slot_spec st key r now :
  take_slot st key r now =
  (mkStore (st_enabled st) (st_keys st)
     (<[key := recent st key now ++ (if bool_decide (Z.of_nat (length (recent st key now)) < r) then [now] else [])]>
        (st_rate_limits st)),
   bool_decide (Z.of_nat (length (recent st key now)) < r)).
Proof.
  unfold take_slot; fold (recent st key now).
  destruct (Z.leb_spec r (Z.of_nat (length (recent st key now)))).
  - rewrite bool_decide_eq_false_2 by lia. by rewrite app_nil_r.
  - by rewrite bool_decide_eq_true_2 by lia.
Qed.

(** Decide the equivalences of an outcome once the reply is known. *)
Ltac solve_reply :=
  split_and!; [intros a; split | split | split | discriminate];
  intros;
  repeat match goal with
  | H : ex _ |- _ => destruct H
  | H : _ /\ _ |- _ => destruct H
  | H : _ \/ _ |- _ => destruct H
  | H : ~ ex _ |- _ => exfalso; apply H; by eauto
  end; simplify_eq; simplify_option_eq; try lia; try done;
  first [ by (eexists; split; [split_and!; [done|done|done|]; by simplify_option_eq|done])
        | by (split; [done|eexists _, _; split_and!; eauto; lia])
        | by left
        | by (right; intros (?&?&?); simplify_eq; congruence)
        | congruence ].

(** With the store enabled, a request is forwarded exactly when its key is
    stored, active and below its rate limit in the last minute, and then it
    carries the key and its stored name; every other request is rejected: with
    429 when only the rate limit stands against it, with 401 otherwise. The
    internal error never occurs without concurrency. *)
Theorem middleware_outcome st key now used :
  st_enabled st = true ->
  let r := (api_key_auth_middleware st key now used).2 in
  (forall a, r = Forward a <-> exists info, admissible st key now info /\ a = mkAuth key (ak_name info)) /\
  (r = Reject TOO_MANY_REQUESTS <->
   key <> ""%string /\ exists info l, st_keys st !! key = Some info /\ ak_is_active info = true /\
     ak_rate_limit info = Some l /\ l <= Z.of_nat (length (recent st key now))) /\
  (r = Reject UNAUTHORIZED <->
   key = ""%string \/ ~ exists info, st_keys st !! key = Some info /\ ak_is_active info = true) /\
  r <> Reject INTERNAL_SERVER_ERROR.
Proof.
  intros En; cbn zeta. unfold api_key_auth_middleware, check_rate_limit, get_key, admissible. rewrite En; cbn.
  case_bool_decide as Hk; [subst; solve_reply|].
  destruct (st_keys st !! key) as [info|] eqn:E; cbn; [|solve_reply].
  destruct (ak_is_active info) eqn:A; cbn; [|solve_reply].
  destruct (ak_rate_limit info) as [l|] eqn:R; cbn; [|solve_reply].
  rewrite take_slot_spec; case_bool_decide as Hl; cbn; solve_reply.
Qed.
(** ** The rate limit under concurrency *)
Section limit.
Variables (key : string) (L : nat) (skew : Z).

(** The times of the visits and of the admissions of the key. *)
Definition visits_of (l : list (string * Z)) : list Z := (filter (fun v => v.1 = key) l).*2.
Definition admissions_of (l : list (nat * string * Z)) : list Z := (filter (fun a => a.1.2 = key) l).*2.
#[local] Arguments visits_of : simpl never.
#[local] Arguments admissions_of : simpl never.

(** Clock readings that reach the table out of order by at most [skew]. *)
Definition skewed : list Z -> Prop := ForallOrdPairs (fun x y => x <= y + skew).

(** A stored key limits its requests to [L] per minute. *)
Definition limited (k : ApiKey) : Prop :=
  match ak_rate_limit k with Some r => r <= Z.of_nat L | None => False end.

Definition label_ok (l : Label) : Prop :=
  match l with LAdd k => ak_key k = key -> limited k | _ => True end.

Definition phase_ok (p : AuthPhase) : Prop :=
  match p with Waiting k _ r _ => k = key -> r <= Z.of_nat L | _ => True end.

Definition in_window (a : Z) (l : list Z) : list Z := filter (fun t => a <= t <= a + minute - skew) l.

Record limit_inv (w : World) : Prop := {
  li_keys : forall k, st_keys (w_store w) !! key = Some k -> limited k;
  li_phases : map_Forall (fun _ => phase_ok) (w_requests w);
  li_kept : forall a, Forall (fun t => t - minute <= a) (visits_of (w_visits w)) ->
    filter (fun t => a <= t) (default [] (st_rate_limits (w_store w) !! key)) =
    filter (fun t => a <= t) (admissions_of (w_admitted w));
  li_window : forall a, (length (in_window a (admissions_of (w_admitted w))) <= L)%nat }.

Lemma skewed_snoc l y : skewed (l ++ [y]) -> skewed l /\ Forall (fun x => x <= y + skew) l.
Proof.
  unfold skewed. induction l as [|x l IH]; cbn; intros H; [split; constructor|].
  inversion_clear H as [|? ? Hx Hl]. destruct (IH Hl) as [H1 H2].
  apply Forall_app in Hx as [Hx Hy]. split; constructor; auto. by inversion Hy.
Qed.

Lemma filter_filter_le (a b : Z) (l : list Z) : b <= a ->
  filter (fun t => a <= t) (filter (fun t => b <= t) l) = filter (fun t => a <= t) l.
Proof.
  intros. rewrite list_filter_filter_l; [done|]. intros; lia.
Qed.

Lemma skewed_prefix l k : skewed (l ++ k) -> skewed l.
Proof.
  induction k as [|y k IH] using rev_ind; [by rewrite app_nil_r|].
  rewrite app_assoc. intros [H _]%skewed_snoc. auto.
Qed.

(** The steps that leave the key's rate limit alone. *)
Lemma limit_frame w w' :
  limit_inv w ->
  (forall k, st_keys (w_store w') !! key = Some k -> limited k) ->
  map_Forall (fun _ => phase_ok) (w_requests w') ->
  st_rate_limits (w_store w') !! key = st_rate_limits (w_store w) !! key ->
  visits_of (w_visits w') = visits_of (w_visits w) ->
  admissions_of (w_admitted w') = admissions_of (w_admitted w) -> limit_inv w'.
Proof. intros [] ? ? E1 E2 E3. split; rewrite ?E1, ?E2, ?E3; auto. Qed.

Lemma visits_of_snoc l k t :
  visits_of (l ++ [(k, t)]) = visits_of l ++ (if bool_decide (k = key) then [t] else []).
Proof.
  unfold visits_of. rewrite filter_app, fmap_app. f_equal.
  rewrite filter_cons, filter_nil; cbn. by case_bool_decide; case_decide.
Qed.

Lemma admissions_of_snoc l id k t :
  admissions_of (l ++ [(id, k, t)]) = admissions_of l ++ (if bool_decide (k = key) then [t] else []).
Proof.
  unfold admissions_of. rewrite filter_app, fmap_app. f_equal.
  rewrite filter_cons, filter_nil; cbn. by case_bool_decide; case_decide.
Qed.

(** A visit that finds a free slot keeps every window within the limit. *)
Lemma window_admit (visits table admitted : list Z) r t a :
  0 <= skew -> r <= Z.of_nat L ->
  (forall a, Forall (fun t => t - minute <= a) visits ->
    filter (fun t => a <= t) table = filter (fun t => a <= t) admitted) ->
  Forall (fun x => x <= t + skew) visits ->
  Z.of_nat (length (filter (fun x => t - minute <= x) table)) < r ->
  (length (in_window a admitted) <= L)%nat ->
  (length (in_window a (admitted ++ [t])) <= L)%nat.
Proof.
  intros Hs Hr Hkept Hvis Hfree Hold. unfold in_window in *.
  rewrite filter_app, length_app, filter_cons, filter_nil. case_decide as Ht; cbn; [|lia].
  enough (length (filter (fun x => (a <= x <= a + minute - skew)%Z) admitted) <=
          length (filter (fun x => (t - minute <= x)%Z) table))%nat by lia.
  rewrite <- (list_filter_filter_l _ (fun x => (a <= x)%Z)) by (intros; lia).
  rewrite <- Hkept by (eapply Forall_impl; [done|]; cbn; intros; lia).
  rewrite list_filter_filter_l by (intros; lia).
  rewrite <- (list_filter_filter_l _ (fun x => (t - minute <= x)%Z)) by (intros; lia).
  apply length_filter.
Qed.

Lemma visit_rejected w id k r t st' w' :
  limit_inv w -> take_slot (w_store w) k r t = (st', false) ->
  w' = set_phase (visit (set_store w st') k t) id (Done (Reject TOO_MANY_REQUESTS)) -> limit_inv w'.
Proof.
  intros [Hk Hp Hkept Hw] E ->. rewrite take_slot_spec in E. case_bool_decide; simplify_eq.
  split; cbn; [done|by apply map_Forall_insert_2| |done].
  intros a. rewrite visits_of_snoc, app_nil_r. case_bool_decide as Ek.
  - intros [Hv [Ht _]%Forall_cons]%Forall_app. subst k. rewrite lookup_insert_eq; cbn.
    unfold recent. rewrite filter_filter_le by done. auto.
  - rewrite app_nil_r, lookup_insert_ne by done. auto.
Qed.

Lemma visit_admitted w id k info r t st' w' :
  0 <= skew -> limit_inv w -> (k = key -> r <= Z.of_nat L) ->
  take_slot (w_store w) k r t = (st', true) ->
  w' = set_phase (admit_request (visit (set_store w st') k t) id k t) id (Using k info) ->
  skewed (visits_of (w_visits w')) -> limit_inv w'.
Proof.
  intros Hs [Hk Hp Hkept Hw] Hr E ->. rewrite take_slot_spec in E. case_bool_decide as Hl; simplify_eq.
  cbn. rewrite visits_of_snoc. case_bool_decide as Ek; rewrite ?app_nil_r.
  - intros [_ Hv]%skewed_snoc. subst k.
    split; cbn; [done|by apply map_Forall_insert_2| |]; intros a;
      rewrite ?visits_of_snoc, admissions_of_snoc, bool_decide_eq_true_2 by done.
    + intros [Hv' [Ht _]%Forall_cons]%Forall_app. rewrite lookup_insert_eq; cbn.
      rewrite !filter_app. f_equal. unfold recent. rewrite filter_filter_le by done. auto.
    + eapply window_admit; eauto.
  - intros _. split; cbn; [done|by apply map_Forall_insert_2| |]; intros a;
      rewrite ?visits_of_snoc, admissions_of_snoc, bool_decide_eq_false_2, ?app_nil_r by done; auto.
    rewrite lookup_insert_ne by done. apply Hkept.
Qed.

Lemma visits_grow w l w' : world_step w l = Some w' ->
  exists vs, visits_of (w_visits w') = visits_of (w_visits w) ++ vs.
Proof.
  intros H. enough (exists vs, w_visits w' = w_visits w ++ vs) as [vs ->].
  { unfold visits_of. rewrite filter_app, fmap_app. eauto. }
  destruct l as [k|k|id k|id now]; cbn in H; [| |case_match|]; simplify_eq/=;
    try (exists []; by rewrite app_nil_r).
  destruct (w_requests w !! id) as [p|]; [|done].
  destruct p; cbn in H; repeat case_match; simplify_eq/=;
    first [by eexists | exists []; by rewrite app_nil_r].
Qed.

Lemma request_step_inv w id p now w' :
  0 <= skew -> limit_inv w -> w_requests w !! id = Some p -> request_step w id p now = Some w' ->
  skewed (visits_of (w_visits w')) -> limit_inv w'.
Proof.
  intros Hs Hi Hp H. pose proof (li_keys _ Hi) as Hk. pose proof (li_phases _ Hi) as Hph.
  assert (Hset : forall q, phase_ok q -> map_Forall (fun _ => phase_ok) (<[id := q]> (w_requests w)))
    by (intros; by apply map_Forall_insert_2).
  destruct p as [k|k info|k info r t|k info|]; cbn in H; simplify_eq/=.
  - intros _. apply (limit_frame w); cbn; auto. apply Hset. by repeat case_match.
  - destruct (get_key (w_store w) k) as [ak|] eqn:E; simplify_eq/=.
    + destruct (ak_rate_limit ak) as [r|] eqn:R; simplify_eq/=; intros _.
      * apply (limit_frame w); cbn; auto. apply Hset; cbn. intros ->.
        specialize (Hk _ E). unfold limited in Hk. by rewrite R in Hk.
      * assert (k <> key). { intros ->. specialize (Hk _ E). unfold limited in Hk. by rewrite R in Hk. }
        apply (limit_frame w); cbn; auto; [by apply Hset|].
        by rewrite admissions_of_snoc, bool_decide_eq_false_2, app_nil_r.
    + intros _. apply (limit_frame w); cbn; auto. by apply Hset.
  - destruct (take_slot (w_store w) k r t) as [st' []] eqn:E; simplify_eq.
    + eapply visit_admitted; eauto. apply (Hph _ _ Hp).
    + intros _. eapply visit_rejected; eauto.
  - intros _. apply (limit_frame w); cbn; auto; [|by apply Hset]. intros ak.
    destruct (decide (k = key)) as [->|]; [|rewrite lookup_alter_ne by done; auto].
    rewrite lookup_alter_eq. intros (ak0 & E & ->)%fmap_Some. by specialize (Hk _ E).
Qed.

Lemma world_step_inv w l w' :
  0 <= skew -> limit_inv w -> label_ok l -> world_step w l = Some w' ->
  skewed (visits_of (w_visits w')) -> limit_inv w'.
Proof.
  intros Hs Hi Hl H. destruct l as [k|k|id k|id now]; cbn in H; simplify_eq/=.
  - intros _. apply (limit_frame w); cbn; auto; [|apply Hi]. intros ak.
    destruct (decide (ak_key k = key)) as [<-|]; [rewrite lookup_insert_eq|rewrite lookup_insert_ne by done].
    + intros [= <-]. auto.
    + apply Hi.
  - intros _. unfold remove_key. destruct (st_keys _ !! k) eqn:E; [|apply (limit_frame w); auto; apply Hi].
    apply (limit_frame w); cbn; auto; [|apply Hi].
    intros ak [_ ?]%lookup_delete_Some. by eapply li_keys.
  - destruct (w_requests w !! id); simplify_eq. intros _.
    apply (limit_frame w); cbn; auto; [apply Hi|apply map_Forall_insert_2; [done|apply Hi]].
  - destruct (w_requests w !! id) eqn:E; simplify_eq. by eapply request_step_inv.
Qed.

Lemma world_run_inv w ls w' :
  0 <= skew -> limit_inv w -> Forall label_ok ls -> world_run w ls = Some w' ->
  skewed (visits_of (w_visits w')) -> limit_inv w'.
Proof.
  intros Hs. revert w; induction ls as [|l ls IH]; cbn; intros w Hi Hl H Hv; [by simplify_eq|].
  destruct (world_step w l) as [w1|] eqn:E; [|done]. apply Forall_cons in Hl as [Hl Hls].
  apply (IH w1); auto. eapply world_step_inv; eauto.
  enough (exists vs, visits_of (w_visits w') = visits_of (w_visits w1) ++ vs) as [vs Ev].
  { rewrite Ev in Hv. by eapply skewed_prefix. }
  clear IH Hls Hv E. revert w1 H; induction ls as [|l' ls IH]; cbn; intros w1 H.
  - simplify_eq. exists []. by rewrite app_nil_r.
  - destruct (world_step w1 l') as [w2|] eqn:E; [|done].
    destruct (visits_grow _ _ _ E) as [vs1 E1], (IH _ H) as [vs2 E2].
    rewrite E2, E1, <- app_assoc. eauto.
Qed.
End limit.

(** ** Requests one by one and together *)

(** Nothing enables or disables the store. *)
Lemma request_step_enabled w id p now w' :
  request_step w id p now = Some w' -> st_enabled (w_store w') = st_enabled (w_store w).
Proof.
  destruct p as [k|k info|k info r t|k info|]; cbn; intros; repeat case_match; simplify_eq/=; auto;
    match goal with H : take_slot _ _ _ _ = _ |- _ => rewrite take_slot_spec in H; by simplify_eq end.
Qed.

(** Where a request that passed the rate limit stands in the log. *)
Definition logged (log : list (nat * string * Z)) (id : nat) (p : AuthPhase) : Prop :=
  match p with
  | Using k _ => exists t, (id, k, t) ∈ log
  | Done (Forward a) => exists t, (id, auth_key a, t) ∈ log
  | _ => True
  end.

Lemma logged_app log log' id p : logged log id p -> logged (log ++ log') id p.
Proof. destruct p as [| | | |[]]; cbn; auto; intros [t ?]; exists t; apply elem_of_app; auto. Qed.

Definition log_inv (w : World) : Prop :=
  st_enabled (w_store w) = true /\ map_Forall (logged (w_admitted w)) (w_requests w).

Lemma log_inv_set w st id p log vs :
  log_inv w -> st_enabled st = true -> logged (w_admitted w ++ log) id p ->
  log_inv (mkWorld st (<[id := p]> (w_requests w)) (w_admitted w ++ log) vs).
Proof.
  intros [_ H] He Hp. split; cbn; [done|]. apply map_Forall_insert_2; [done|].
  intros i q Hq. by apply logged_app, H.
Qed.

Lemma log_inv_set_nil w st id p vs :
  log_inv w -> st_enabled st = true -> logged (w_admitted w) id p ->
  log_inv (mkWorld st (<[id := p]> (w_requests w)) (w_admitted w) vs).
Proof. intros. rewrite <- (app_nil_r (w_admitted w)). apply log_inv_set; auto. by rewrite app_nil_r. Qed.

Lemma request_step_logged w id p now w' :
  log_inv w -> w_requests w !! id = Some p -> request_step w id p now = Some w' -> log_inv w'.
Proof.
  intros Hi Hp H. pose proof (request_step_enabled _ _ _ _ _ H) as He. rewrite (proj1 Hi) in He.
  destruct p as [k|k info|k info r t|k info|]; cbn in H; simplify_eq/=.
  - apply log_inv_set_nil; auto. rewrite He; cbn. by repeat case_match.
  - repeat case_match; simplify_eq; [by apply (log_inv_set_nil w)| |by apply (log_inv_set_nil w)].
    apply (log_inv_set w); auto. exists now. set_solver.
  - case_match. case_match; simplify_eq; [|by apply (log_inv_set_nil w)].
    apply (log_inv_set w); auto. exists t. set_solver.
  - apply log_inv_set_nil; auto. apply (proj2 Hi _ _ Hp).
Qed.

Lemma world_run_logged w ls w' : log_inv w -> world_run w ls = Some w' -> log_inv w'.
Proof.
  revert w; induction ls as [|l ls IH]; cbn; intros w Hi H; [by simplify_eq|].
  destruct (world_step w l) as [w1|] eqn:E; [|done]. apply (IH w1); auto. clear IH H.
  destruct l as [k|k|id k|id now]; cbn in E; simplify_eq/=.
  - destruct Hi. by split.
  - destruct Hi. unfold remove_key, log_inv; cbn. by case_match.
  - case_match; simplify_eq. apply (log_inv_set_nil w); [done|apply Hi|done].
  - case_match; simplify_eq. by eapply request_step_logged.
Qed.

(** C32: The rate limit holds under every interleaving of requests with each
    other and with the creation and revocation of keys, even of the same key:
    when every version of a key allows at most [L] requests per minute, and the
    clock readings reach the table out of order by at most [skew], no window of
    a minute less the skew holds more than [L] admitted requests, and every
    request forwarded is one of the admitted. *)
Theorem rate_limit_window st key L skew ls w :
  0 <= skew -> st_enabled st = true -> default [] (st_rate_limits st !! key) = [] ->
  (forall k, st_keys st !! key = Some k -> limited L k) -> Forall (label_ok key L) ls ->
  world_run (world_init st) ls = Some w -> skewed skew (visits_of key (w_visits w)) ->
  (forall a, (length (in_window skew a (admissions_of key (w_admitted w))) <= L)%nat) /\
  (forall id a, w_requests w !! id = Some (Done (Forward a)) -> exists t, (id, auth_key a, t) ∈ w_admitted w).
Proof.
  intros Hs He Ht Hk Hl H Hv. split.
  - eapply li_window, (world_run_inv key L skew (world_init st)); eauto.
    split; cbn; auto; [apply map_Forall_empty|intros; by rewrite Ht|intros; lia].
  - intros id a Ha. assert (log_inv w) as [_ Hlog]; [|by apply (Hlog _ _ Ha)].
    eapply (world_run_logged (world_init st)); eauto. split; [done|apply map_Forall_empty].
Qed.

(** Take [n] steps of a request, with the tests of its steps in the context. *)
Ltac run_request n :=
  eexists _, n; split;
  [ cbn;
    repeat first
    [ progress rewrite lookup_insert_eq; cbn
    | progress unfold get_key
    | match goal with
      | H : _ !! _ = None |- _ => rewrite H; cbn
      | H : st_enabled _ = _ |- _ => rewrite H; cbn
      | H : ?k <> ""%string |- context [bool_decide (?k = ""%string)] => rewrite bool_decide_eq_false_2 by done; cbn
      | H : _ !! _ = Some _ |- _ => rewrite H; cbn
      | H : ak_is_active _ = _ |- _ => rewrite H; cbn
      | H : ak_rate_limit _ = _ |- _ => rewrite H; cbn
      | H : take_slot _ _ _ _ = _ |- _ => rewrite H; cbn
      end ]; reflexivity
  | split; cbn; rewrite ?insert_insert_eq; reflexivity ].

(** A request that runs alone goes through the steps to the reply and the store
    of the middleware. *)
Theorem middleware_steps w id key now used :
  w_requests w !! id = None ->
  exists w' n,
    world_run w (LArrive id key :: take n [LStep id 0; LStep id now; LStep id used; LStep id used]) = Some w' /\
    w_store w' = (api_key_auth_middleware (w_store w) key now used).1 /\
    w_requests w' = <[id := Done (api_key_auth_middleware (w_store w) key now used).2]> (w_requests w).
Proof.
  intros Hn. unfold api_key_auth_middleware, check_rate_limit, get_key.
  destruct (st_enabled (w_store w)) eqn:En; [|by run_request 1%nat].
  case_bool_decide as Hk; [subst key; by run_request 1%nat|].
  destruct (st_keys (w_store w) !! key) as [info|] eqn:E; [|by run_request 1%nat].
  destruct (ak_is_active info) eqn:A; [|by run_request 1%nat].
  destruct (ak_rate_limit info) as [l|] eqn:R; [|by run_request 3%nat].
  destruct (take_slot (w_store w) key l now) as [st' []] eqn:S; [by run_request 4%nat|by run_request 3%nat].
Qed.

(** ** Examples: a store with one key of two requests per minute. *)
Definition demo_store : ApiKeyStore :=
  ApiKeyStore_new (fun _ => Some [("alice", "k1")]) (Some "+2") (fun _ => 0) "{...}".

Example parse_u32_cases :
  parse_u32 "4294967295" = Some 4294967295 /\ parse_u32 "4294967296" = None /\
  parse_u32 "" = None /\ parse_u32 "+" = None /\ parse_u32 "-1" = None /\ parse_u32 "+07" = Some 7.
Proof. by vm_compute. Qed.

Lemma middleware_outcome_witness :
  (api_key_auth_middleware demo_store "k1" 5 6).2 = Forward (mkAuth "k1" "alice").
Proof.
  apply (middleware_outcome demo_store "k1" 5 6); [vm_compute; reflexivity|].
  exists (ApiKey_new (Some "+2"%string) 0 "k1" "alice").
  split; [|vm_compute; reflexivity]. split_and!; [done|vm_compute; reflexivity..].
Defined.

(** Three requests interleave; the key is revoked and created again meanwhile. *)
Definition demo_labels : list Label :=
  [LArrive 1 "k1"; LArrive 2 "k1"; LArrive 3 "k1"; LStep 1 0; LStep 2 0; LStep 3 0;
   LStep 2 10; LStep 1 12; LStep 1 13; LStep 2 14; LRemove "k1";
   LAdd (ApiKey_new (Some "2"%string) 15 "k1" "alice"); LStep 3 16; LStep 3 17; LStep 1 18; LStep 2 19].

Definition demo_end : World := default (world_init demo_store) (world_run (world_init demo_store) demo_labels).

Lemma demo_run : world_run (world_init demo_store) demo_labels = Some demo_end.
Proof. by vm_compute. Qed.

Lemma demo_replies :
  w_requests demo_end !! 1%nat = Some (Done (Forward (mkAuth "k1" "alice"))) /\
  w_requests demo_end !! 3%nat = Some (Done (Reject TOO_MANY_REQUESTS)).
Proof. by vm_compute. Qed.

Lemma rate_limit_window_witness : (length (in_window 2 0 (admissions_of "k1" (w_admitted demo_end))) <= 2)%nat.
Proof.
  apply (proj1 (A := forall a, (length (in_window 2 a (admissions_of "k1" (w_admitted demo_end))) <= 2)%nat)
           (B := forall id a, w_requests demo_end !! id = Some (Done (Forward a)) ->
              exists t, (id, auth_key a, t) ∈ w_admitted demo_end)).
  apply (rate_limit_window demo_store "k1" 2 2 demo_labels demo_end); [lia|vm_compute; reflexivity..| | | |].
  - intros k E. vm_compute in E. injection E as <-. vm_compute. discriminate.
  - repeat constructor; vm_compute; discriminate.
  - apply demo_run.
  - vm_compute. repeat constructor; discriminate.
Defined.
