(* ===== verification/Server.v ===== *)
(** * Server: the HTTP interface

    Models [host/src/server]: the handlers that submit requests to the actor
    ([handler.rs]), the conversions of results ([utils.rs]), the endpoints under
    [api/] and the authentication that the router installs, with the errors of
    [host/src/interfaces.rs]. Many requests are served at once: before every
    section in which a handler holds a lock of the actor, the others may have
    changed the actor in any way. Metrics, logging and the generated API
    documentation are left out. *)
From stdpp Require Import base list list_numbers gmap sets fin_maps strings.
From Stdlib Require Import ZArith Lia.
From S2P Require Import Prelude Text Effect Types Interfaces Request Lru Pool Queue ChainSpec Ballot Rpc Actor Auth.
Local Open Scope string_scope.
Local Open Scope Z_scope.
Local Open Scope list_scope.

(** ** Errors *)
Module Host.
Inductive HostError : Type :=
| HandleDropped
| CapacityFull
| InvalidAddress (e : string)
| InvalidRequestConfig (e : string)
| Io (e : string)
| Conversion (e : string)
| RPC (e : string)
| Serde (e : string)
| JoinHandle (e : string)
| Guest (e : ProverError)
| Core (e : RaikoError)
| FeatureNotSupportedError (p : ProofType)
| Anyhow (e : string)
| SystemPaused.
End Host.
Abbreviation HostError := Host.HostError.
Abbreviation HostResult := (outcome Host.HostError) (only parsing).

(** The name and message of an error in the response. *)
Definition host_error_response (e : HostError) : string * string :=
  match e with
  | Host.InvalidRequestConfig e => ("invalid_request_config", e)
  | Host.InvalidAddress e => ("invalid_address", e)
  | Host.Io e => ("io_error", e)
  | Host.Conversion e => ("conversion_error", e)
  | Host.RPC e => ("rpc_error", e)
  | Host.Serde e => ("serde_error", e)
  | Host.JoinHandle e => ("join_handle_error", e)
  | Host.Guest e => ("guest_error", ProverError_to_string e)
  | Host.Core e => ("core_error", RaikoError_to_string e)
  | Host.FeatureNotSupportedError p => ("feature_not_supported", proof_type_to_string p)
  | Host.Anyhow e => ("anyhow_error", e)
  | Host.HandleDropped => ("handle_dropped", "")
  | Host.CapacityFull => ("capacity_full", "")
  | Host.SystemPaused => ("system_paused", "")
  end.

(** [From<HostError> for TaskStatus] and [From<&HostError>], which differ. *)
Definition task_status_of_error (e : HostError) : outcome string TaskStatus :=
  match e with
  | Host.HandleDropped | Host.CapacityFull | Host.JoinHandle _ | Host.InvalidAddress _ | Host.InvalidRequestConfig _ => Panic
  | Host.Conversion e => Ok (IoFailure e)
  | Host.Serde e => Ok (IoFailure e)
  | Host.Core e => Ok (GuestProverFailure (RaikoError_to_string e))
  | Host.Anyhow e => Ok (AnyhowError e)
  | Host.FeatureNotSupportedError _ => Ok InvalidOrUnsupportedBlock
  | Host.Io e => Ok (IoFailure e)
  | Host.RPC e => Ok (NetworkFailure e)
  | Host.Guest e => Ok (GuestProverFailure (ProverError_to_string e))
  | Host.SystemPaused => Ok SystemPaused
  end.

Definition task_status_of_error_ref (e : HostError) : outcome string TaskStatus :=
  match e with
  | Host.HandleDropped | Host.CapacityFull | Host.JoinHandle _ | Host.InvalidAddress _ | Host.InvalidRequestConfig _ => Panic
  | Host.Conversion e => Ok (GuestProverFailure e)
  | Host.Serde e => Ok (GuestProverFailure e)
  | Host.Core e => Ok (GuestProverFailure (RaikoError_to_string e))
  | Host.Anyhow e => Ok (AnyhowError e)
  | Host.FeatureNotSupportedError p => Ok (GuestProverFailure (proof_type_to_string p))
  | Host.Io e => Ok (GuestProverFailure e)
  | Host.RPC e => Ok (NetworkFailure e)
  | Host.Guest e => Ok (GuestProverFailure (ProverError_to_string e))
  | Host.SystemPaused => Ok SystemPaused
  end.

(** ** Responses *)
Inductive ProofResponse : Type :=
| ResponseStatus (status : TaskStatus)
| ResponseProof (proof : Proof_).

Inductive ApiStatus : Type :=
| ApiOk (proof_type : ProofType) (batch_id : option Z) (data : ProofResponse)
| ApiError (error message : string).

Inductive CancelStatus : Type :=
| CancelOk
| CancelError (error message : string).

Definition status_text (s : Status) : string :=
  match s with
  | Registered => "Registered"
  | WorkInProgress => "WorkInProgress"
  | Success _ => "Success"
  | Cancelled => "Cancelled"
  | Failed error => "Failed(" +:+ error +:+ ")"
  end.

Definition response_of (s : Status) : ProofResponse :=
  match s with
  | Registered => ResponseStatus TRegistered
  | WorkInProgress => ResponseStatus TWorkInProgress
  | Cancelled => ResponseStatus TCancelled
  | Failed error => ResponseStatus (AnyhowError error)
  | Success proof => ResponseProof proof
  end.

(** A panic drops the connection: there is no response. *)
Definition to_v2_status (proof_type : ProofType) (batch_id : option Z) (result : outcome string Status) : HostResult ApiStatus :=
  match result with
  | Ok status => Ok (ApiOk proof_type batch_id (response_of status))
  | Err e => Ok (ApiError "task_failed" e)
  | Panic => Panic
  end.

Definition to_v2_cancel_status (result : outcome string Status) : HostResult CancelStatus :=
  match result with
  | Ok (Success _) | Ok Cancelled | Ok (Failed _) => Ok CancelOk
  | Ok status => Ok (CancelError "cancel_failed" ("cancallation response unexpected status " +:+ status_text status))
  | Err e => Ok (CancelError "cancel_failed" e)
  | Panic => Panic
  end.

Definition is_zk_any_request (proof_request_opt : Value) : bool :=
  bool_decide (as_str (index proof_request_opt "proof_type") = Some "zk_any").

(** ** The state a handler sees *)
Section server.
Context {C R BC : Type} `{LC : LruCache RequestKey Stored C} `{RS : RedisServer R}
  `{BLC : LruCache bytes (option ProofType) BC}.
#[local] Abbreviation Actor := (Actor C R BC).

(** [others] is what the rest of the system does before each section that the
    handler runs under a lock; [sent] records the requests that this handler gave
    to the actor, with their results. *)
Record Server := mkServer {
  served : Actor;
  others : list (Actor -> Actor);
  sent : list (RequestKey * RequestEntity * outcome string Status)
}.
#[local] Abbreviation M := (St Server).

Definition locked {E A} (f : Actor -> Actor * outcome E A) : M E A := fun w =>
  let '(a, fs) := match others w with [] => (served w, []) | g :: fs => (g (served w), fs) end in
  let '(a', r) := f a in (mkServer a' fs (sent w), r).

(** The clock, read once per request to the actor. *)
Variable now : nat -> Z.

(** [Actor::act], section by section. *)
Definition act_sections (start : Z) (k : RequestKey) (e : RequestEntity) : M string StatusWithContext :=
  pool_status_opt ← locked (fun a => act_pool_get_status a k);
  match pool_status_opt with
  | Some (mkStatus (Success _) _ as s) => mret s
  | _ => _ ← locked (fun a => act_register a k e start pool_status_opt); locked (fun a => act_enqueue a k e start)
  end.

Definition submit (k : RequestKey) (e : RequestEntity) : M string Status := fun w =>
  let '(w', r) := act_sections (now (length (sent w))) k e w in
  let r := s ← r; Ok (into_status s) in
  (mkServer (served w') (others w') (sent w' ++ [(k, e, r)]), r).

(** *** [handler.rs] *)
Definition prove (request_key : RequestKey) (request_entity : RequestEntity) : M string Status :=
  paused ← locked (fun a => (a, Ok (is_paused a)));
  if paused : bool then lift (Err "System is paused") else submit request_key request_entity.

Definition cancel (request_key : RequestKey) : M string Status := lift Panic.

(** The kinds of requests that are proved together. *)
Definition paired (k : RequestKey) (e : RequestEntity) : bool :=
  match k, e with
  | KSingleProof _, ESingleProof _ | KBatchProof _, EBatchProof _ | KBatchGuestInput _, EBatchGuestInput _ => true
  | _, _ => false
  end.

Fixpoint prove_pairs (l : list (RequestKey * RequestEntity)) : M string (list Status) :=
  match l with
  | [] => mret []
  | (k, e) :: rest =>
      if paired k e then status ← prove k e; statuses ← prove_pairs rest; mret (status :: statuses)
      else lift (Err "Invalid request key and entity")
  end.

Definition prove_many (request_keys : list RequestKey) (request_entities : list RequestEntity) : M string (list Status) :=
  prove_pairs (zip request_keys request_entities).

Definition success_proof (s : Status) : outcome string Proof_ := match s with Success proof => Ok proof | _ => Panic end.

Definition prove_aggregation (request_key : AggregationRequestKey) (request_entity_without_proofs : AggregationRequestEntity)
    (sub_request_keys : list RequestKey) (sub_request_entities : list RequestEntity) : M string Status :=
  statuses ← prove_many sub_request_keys sub_request_entities;
  if forallb is_success statuses then
    proofs ← lift (collect success_proof statuses);
    prove (KAggregation request_key)
      (EAggregation (mkAggregationRequestEntity (age_aggregation_ids request_entity_without_proofs) proofs
         (age_proof_type request_entity_without_proofs) (age_prover_args request_entity_without_proofs)))
  else mret Registered.

Fixpoint cancel_aggregation (request_key : AggregationRequestKey) (sub_request_keys : list SingleProofRequestKey) : M string Status :=
  match sub_request_keys with
  | [] => cancel (KAggregation request_key)
  | k :: rest => _ ← cancel (KSingleProof k); cancel_aggregation request_key rest
  end.

(** *** Endpoints

    [default_request_config] is the configuration of the server, [client] the
    RPC clients, [env] the environment; [address_text] is the [Display] of an
    address. *)
Variable default_request_config : ProofRequestOpt.
Variables (parse_b256 parse_address : string -> option bytes) (address_text : bytes -> string).
Variables (parse_url : string -> bool) (client : string -> RpcClient).
Variable env : string -> option string.

(** [?] on an error of the core and on a text. *)
Definition core {A} (r : RaikoResult A) : M HostError A := lift (map_err Host.Core r).
Definition text {A} (m : M string A) : M HostError A := map_st_err Host.Anyhow m.
(** A result that is kept, not propagated. *)
Definition attempt {A} (m : M string A) : M HostError (outcome string A) := fun w =>
  let '(w', r) := m w in (w', match r with Panic => Panic | _ => Ok r end).

Definition get_task_data_of (network : string) (block_number : Z) : M HostError (Z * bytes) :=
  specs ← locked (fun a => (a, Ok (chain_specs a)));
  core (get_task_data parse_url client 0 network block_number specs).

Definition draw_hash (blockhash : bytes) : M HostError (option ProofType) := fun w =>
  locked (fun a => let '(a', r) := actor_draw (now (length (sent w))) a blockhash in (a', Ok r)) w.

Definition draw_for_zk_any_request (proof_request_opt : Value) : M HostError (option ProofType) :=
  disabled ← locked (fun a => (a, Ok (is_ballot_disabled (ballot a))));
  if disabled : bool then mret None
  else
    network ← core (ok_or (as_str (index proof_request_opt "network")) (InvalidRequestConfig "Missing network"));
    block_number ← core (ok_or (as_u64 (index proof_request_opt "block_number")) (InvalidRequestConfig "Missing block number"));
    '(_, blockhash) ← get_task_data_of network block_number;
    draw_hash blockhash.

Definition draw_for_zk_any_batch_request (batch_proof_request_opt : Value) : M HostError (option ProofType) :=
  disabled ← locked (fun a => (a, Ok (is_ballot_disabled (ballot a))));
  if disabled : bool then mret None
  else
    l1_network ← core (ok_or (as_str (index batch_proof_request_opt "l1_network")) (InvalidRequestConfig "Missing network"));
    batches ← core (ok_or (as_array (index batch_proof_request_opt "batches")) (InvalidRequestConfig "Missing batches"));
    first_batch ← core (ok_or (head batches) (InvalidRequestConfig "batches is empty"));
    l1_inclusion_block_number ← core (ok_or (as_u64 (index first_batch "l1_inclusion_block_number"))
      (InvalidRequestConfig "Missing l1_inclusion_block_number"));
    '(_, blockhash) ← get_task_data_of l1_network l1_inclusion_block_number;
    draw_hash blockhash.

(** **** Version 2 *)
Definition with_proof_type (config : ProofRequestOpt) (p : string) : ProofRequestOpt :=
  mkProofRequestOpt (ro_block_number config) (ro_batch_id config) (ro_l1_inclusion_block_number config)
    (ro_l2_block_numbers config) (ro_network config) (ro_l1_network config) (ro_graffiti config) (ro_prover config) (Some p)
    (ro_blob_proof_type config) (ro_prover_args config).

Definition single_key (chain_id : Z) (blockhash : bytes) (r : ProofRequest) : SingleProofRequestKey :=
  SingleProofRequestKey_new chain_id (block_number r) blockhash (proof_type r) (address_text (prover r)).
Definition single_entity (r : ProofRequest) (args : gmap string Value) : SingleProofRequestEntity :=
  mkSingleProofRequestEntity (block_number r) (l1_inclusion_block_number r) (network r) (l1_network r) (graffiti r) (prover r)
    (proof_type r) (blob_proof_type r) args.
Definition input_key (chain_id : Z) (blockhash : bytes) (r : ProofRequest) : GuestInputRequestKey :=
  mkGuestInputRequestKey chain_id (block_number r) blockhash.
Definition input_entity (r : ProofRequest) : GuestInputRequestEntity :=
  mkGuestInputRequestEntity (block_number r) (l1_inclusion_block_number r) (network r) (l1_network r) (graffiti r)
    (blob_proof_type r) (prover_args r).

(** The input first; the proof only when the input is there. *)
Definition submit_block (config : ProofRequestOpt) : M HostError ApiStatus :=
  proof_request ← core (request_try_from parse_b256 parse_address config);
  '(chain_id, blockhash) ← get_task_data_of (network proof_request) (block_number proof_request);
  result ← attempt (prove (KGuestInput (input_key chain_id blockhash proof_request)) (EGuestInput (input_entity proof_request)));
  match result with
  | Ok (Success proof) =>
      let prover_args := <["guest_input" := opt_value JString (Types.proof proof)]> (prover_args proof_request) in
      result ← attempt (prove (KSingleProof (single_key chain_id blockhash proof_request))
                          (ESingleProof (single_entity proof_request prover_args)));
      lift (to_v2_status (proof_type proof_request) None result)
  | _ => lift (to_v2_status (proof_type proof_request) None result)
  end.

Definition proof_handler_v2 (req : Value) : M HostError ApiStatus :=
  config ← core (opt_merge default_request_config req);
  if is_zk_any_request req then
    drawn ← draw_for_zk_any_request (opt_to_value config);
    match drawn with
    | Some proof_type => submit_block (with_proof_type config (proof_type_to_string proof_type))
    | None => mret (ApiOk Native None (ResponseStatus ZKAnyNotDrawn))
    end
  else submit_block config.

Definition cancel_handler_v2 (req : Value) : M HostError CancelStatus :=
  config ← core (opt_merge default_request_config req);
  proof_request ← core (request_try_from parse_b256 parse_address config);
  '(chain_id, block_hash) ← get_task_data_of (network proof_request) (block_number proof_request);
  result ← attempt (cancel (KSingleProof (single_key chain_id block_hash proof_request)));
  lift (to_v2_cancel_status result).

(** [list_handler]: not implemented. *)
Definition list_handler : M HostError Value := lift Panic.

(** The map of statuses is iterated in some order. *)
Fixpoint prune_each (in_queue : bool) (keys : list RequestKey) : M HostError () :=
  match keys with
  | [] => mret tt
  | key :: rest =>
      _ ← text (locked (fun a => pool_remove_request a key));
      _ ← (if in_queue then locked (fun a => (queue_remove a key, Ok ())) else mret ());
      prune_each in_queue rest
  end.
Definition prune_handler : M HostError () :=
  statuses ← text (locked pool_list_status);
  prune_each true (map_to_list statuses).*1.

Inductive TaskDescriptor : Type :=
| GuestInputTask (chain_id block_id : Z) (blockhash : bytes)
| SingleProofTask (chain_id block_id : Z) (blockhash : bytes) (proof_system : ProofType) (prover : string)
| AggregationTask (aggregation_ids : list Z) (proof_type : option string)
| BatchProofTask (chain_id batch_id l1_height : Z) (proof_system : ProofType) (prover : string)
| BatchGuestInputTask (chain_id batch_id l1_height : Z).

Definition to_task_status (s : StatusWithContext) : TaskStatus :=
  match into_status s with
  | Registered => TRegistered
  | WorkInProgress => TWorkInProgress
  | Cancelled => TCancelled
  | Success _ => TSuccess
  | Failed error => AnyhowError error
  end.

Definition to_task_descriptor (k : RequestKey) : TaskDescriptor :=
  match k with
  | KGuestInput key => GuestInputTask (gik_chain_id key) (gik_block_number key) (gik_block_hash key)
  | KSingleProof key => SingleProofTask (spk_chain_id key) (spk_block_number key) (spk_block_hash key) (spk_proof_type key) (spk_prover_address key)
  | KAggregation key => AggregationTask (agk_block_numbers key) (Some (proof_type_to_string (agk_proof_type key)))
  | KBatchProof key =>
      let g := bpk_guest_input_key key in
      BatchProofTask (bgk_chain_id g) (bgk_batch_id g) (bgk_l1_inclusion_height g) (bpk_proof_type key) (bpk_prover_address key)
  | KBatchGuestInput key => BatchGuestInputTask (bgk_chain_id key) (bgk_batch_id key) (bgk_l1_inclusion_height key)
  end.

Definition report_handler : M HostError (list (TaskDescriptor * TaskStatus)) :=
  statuses ← text (locked pool_list_status);
  mret ((fun ks => (to_task_descriptor ks.1, to_task_status ks.2)) <$> map_to_list statuses).

(** **** Version 3 *)

(** The proof of each block of an aggregation. *)
Fixpoint sub_requests (opts : list ProofRequestOpt) : M HostError (list (SingleProofRequestKey * SingleProofRequestEntity)) :=
  match opts with
  | [] => mret []
  | opt :: rest =>
      proof_request ← core (request_try_from parse_b256 parse_address opt);
      '(chain_id, blockhash) ← get_task_data_of (network proof_request) (block_number proof_request);
      l ← sub_requests rest;
      mret ((single_key chain_id blockhash proof_request, single_entity proof_request (prover_args proof_request)) :: l)
  end.

Definition proof_handler_v3 (aggregation_request : AggregationRequest) : M HostError ApiStatus :=
  aggregation_request ← core (agg_merge aggregation_request default_request_config);
  let proof_request_opts := agg_into_opts aggregation_request in
  match proof_request_opts with
  | [] => lift (Err (Host.Anyhow "No blocks for proving provided"))
  | _ =>
      subs ← sub_requests proof_request_opts;
      let sub_request_keys := KSingleProof <$> subs.*1 in
      first ← lift (unwrap (head sub_request_keys));
      let proof_type := request_proof_type first in
      let block_numbers := (ar_block_numbers aggregation_request).*1 in
      result ← attempt (prove_aggregation (AggregationRequestKey_new proof_type block_numbers)
        (mkAggregationRequestEntity block_numbers [] proof_type (ar_prover_args aggregation_request))
        sub_request_keys (ESingleProof <$> subs.*2));
      lift (to_v2_status proof_type None result)
  end.

Definition cancel_handler_v3 (aggregation_request : AggregationRequest) : M HostError CancelStatus :=
  aggregation_request ← core (agg_merge aggregation_request default_request_config);
  subs ← sub_requests (agg_into_opts aggregation_request);
  let sub_request_keys := subs.*1 in
  first ← lift (unwrap (head sub_request_keys));
  result ← attempt (cancel_aggregation (AggregationRequestKey_new (spk_proof_type first) (spk_block_number <$> sub_request_keys))
    sub_request_keys);
  lift (to_v2_cancel_status result).

(** **** Aggregation of given proofs *)
Variable b256_text : bytes -> string.

Definition only_proof_type (r : AggregationOnlyRequest) : M HostError ProofType :=
  lift (map_err Host.Conversion (proof_type_from_str (default "" (ao_proof_type r)))).

Definition aggregation_handler (aggregation_request : AggregationOnlyRequest) : M HostError ApiStatus :=
  aggregation_request ← core (only_merge b256_text parse_b256 aggregation_request default_request_config);
  proof_type ← only_proof_type aggregation_request;
  match ao_proofs aggregation_request with
  | [] => lift (Err (Host.Anyhow "No proofs provided"))
  | proofs =>
      result ← attempt (prove (KAggregation (AggregationRequestKey_new proof_type (ao_aggregation_ids aggregation_request)))
        (EAggregation (mkAggregationRequestEntity (ao_aggregation_ids aggregation_request) proofs proof_type
           (ao_prover_args aggregation_request))));
      lift (to_v2_status proof_type None result)
  end.

Definition aggregation_cancel_handler (aggregation_request : AggregationOnlyRequest) : M HostError CancelStatus :=
  aggregation_request ← core (only_merge b256_text parse_b256 aggregation_request default_request_config);
  proof_type ← only_proof_type aggregation_request;
  result ← attempt (cancel (KAggregation (AggregationRequestKey_new proof_type (ao_aggregation_ids aggregation_request))));
  lift (to_v2_cancel_status result).

(** The requests stay in the queue. *)
Definition aggregation_prune_handler : M HostError () :=
  statuses ← text (locked pool_list_status);
  prune_each false (map_to_list statuses).*1.

Definition aggregation_report_handler : M HostError Value := lift Panic.

(** **** Batches *)

(** The variant names, as serde writes them. *)
Definition proof_type_value (p : ProofType) : Value :=
  JString (match p with Native => "Native" | Sp1 => "Sp1" | Sgx => "Sgx" | Risc0 => "Risc0" | SgxGeth => "SgxGeth" end).

(** [opts[key] = value] on an object. *)
Definition set_field (opts : Value) (key : string) (value : Value) : outcome HostError Value :=
  match opts with JObject l => Ok (JObject (upsert key value l)) | JNull => Ok (JObject [(key, value)]) | _ => Panic end.

Definition first_batch_id (opts : Value) : M HostError Z :=
  batches ← core (ok_or (as_array (index opts "batches")) (InvalidRequestConfig "Missing batches"));
  first_batch ← core (ok_or (head batches) (InvalidRequestConfig "batches is empty"));
  lift (unwrap (as_u64 (index first_batch "batch_id"))).

Definition serde_text (e : RaikoError) : string := match e with Serde m => m | _ => RaikoError_to_string e end.

Definition batch_request_of (opts : Value) : M HostError BatchProofRequest :=
  batch_request_opt ← lift (map_err (fun e => Host.Serde (serde_text e)) (batch_opt_from_value opts));
  batch_request ← core (batch_request_try_from parse_b256 parse_address batch_request_opt);
  match br_batches batch_request with
  | [] => lift (Err (Host.Anyhow "batches is empty"))
  | _ => mret batch_request
  end.

Section batch.
Variables (batch_request : BatchProofRequest) (chain_id : Z) (image : ImageId).

Definition batch_input_key (b : BatchMetadata) : RequestKey :=
  batch_guest_input chain_id (bm_batch_id b) (bm_l1_inclusion_block_number b).
Definition batch_key (b : BatchMetadata) : RequestKey :=
  batch_proof_with_image_id chain_id (bm_batch_id b) (bm_l1_inclusion_block_number b) (br_proof_type batch_request)
    (address_text (br_prover batch_request)) image.
Definition batch_input_entity (b : BatchMetadata) : BatchGuestInputRequestEntity :=
  mkBatchGuestInputRequestEntity (bm_batch_id b) (bm_l1_inclusion_block_number b) (br_network batch_request)
    (br_l1_network batch_request) (br_graffiti batch_request) (br_blob_proof_type batch_request).
Definition batch_entity (b : BatchMetadata) : BatchProofRequestEntity :=
  new_with_guest_input_entity (batch_input_entity b) (br_prover batch_request) (br_proof_type batch_request)
    (opts_to_map (br_prover_args batch_request)).

(** A proof request with the input that was made for it. *)
Definition add_batch_input (e : BatchProofRequestEntity) (guest_input : string) : BatchProofRequestEntity :=
  new_with_guest_input_entity (bpe_guest_input_entity e) (bpe_prover e) (bpe_proof_type e)
    (<["batch_guest_input" := JString guest_input]> (bpe_prover_args e)).

Definition input_text (s : Status) : outcome HostError string :=
  match s with Success p => unwrap (Types.proof p) | _ => Panic end.

(** The result of the batches is the proof of the first one. *)
Definition batch_status (statuses : list Status) : Status :=
  if forallb is_success statuses then
    match head statuses with Some (Success proof) => Success proof | _ => Success Proof_default end
  else WorkInProgress.

Definition prove_batches : M HostError (outcome string Status) :=
  let batches := br_batches batch_request in
  statuses ← text (prove_many (batch_input_key <$> batches) ((fun b => EBatchGuestInput (batch_input_entity b)) <$> batches));
  if forallb is_success statuses then
    guest_inputs ← lift (collect input_text statuses);
    let entities := zip_with (fun b i => EBatchProof (add_batch_input (batch_entity b) i)) batches guest_inputs in
    attempt (statuses ← prove_many (batch_key <$> batches) entities; mret (batch_status statuses))
  else mret (Ok Registered).

Definition aggregate_batches : M HostError (outcome string Status) :=
  let batches := br_batches batch_request in
  let sub_batch_ids := bm_batch_id <$> batches in
  attempt (prove_aggregation (AggregationRequestKey_new_with_image_id (br_proof_type batch_request) sub_batch_ids image)
    (mkAggregationRequestEntity sub_batch_ids [] (br_proof_type batch_request) (br_prover_args batch_request))
    (batch_key <$> batches) ((fun b => EBatchProof (batch_entity b)) <$> batches)).
End batch.

Definition prove_batch_request (batch_request : BatchProofRequest) : M HostError ApiStatus :=
  spec ← text (locked (fun a => (a, actor_get_chain_spec a (br_network batch_request))));
  image ← text (lift (from_proof_type_and_request_type env (br_proof_type batch_request) (br_aggregate batch_request)));
  result ← (if br_aggregate batch_request then aggregate_batches batch_request (chain_id spec) image
            else prove_batches batch_request (chain_id spec) image);
  first ← lift (unwrap (head (br_batches batch_request)));
  lift (to_v2_status (br_proof_type batch_request) (Some (bm_batch_id first)) result).

Definition batch_handler (authenticated_key : AuthenticatedApiKey) (batch_request_opt : Value) : M HostError ApiStatus :=
  let opts := merge (opt_to_value default_request_config) batch_request_opt in
  first_batch_id ← first_batch_id opts;
  if is_zk_any_request opts then
    drawn ← draw_for_zk_any_batch_request opts;
    match drawn with
    | Some proof_type =>
        opts ← lift (set_field opts "proof_type" (proof_type_value proof_type));
        batch_request ← batch_request_of opts; prove_batch_request batch_request
    | None => mret (ApiOk Native (Some first_batch_id) (ResponseStatus ZKAnyNotDrawn))
    end
  else batch_request ← batch_request_of opts; prove_batch_request batch_request.

(** **** Administration *)
Definition pause_handler : M HostError string := locked (fun a => (pause a, Ok "System paused successfully")).

Definition set_ballot_handler (probs : BallotConfig) : M HostError string := fun w =>
  text (b ← lift (Ballot_new (now (length (sent w))) probs); _ ← locked (fun a => (set_ballot a b, Ok ()));
        mret "Ballot set successfully") w.

Definition get_ballot_handler : M HostError (list (ProofType * f64)) := locked (fun a => (a, Ok (ballot_probabilities (ballot a)))).

(** **** All endpoints *)
Inductive Endpoint : Type :=
| ProofV2 (req : Value) | CancelV2 (req : Value) | ListV2 | PruneV2 | ReportV2
| ProofV3 (req : AggregationRequest) | CancelV3 (req : AggregationRequest)
| Aggregate (req : AggregationOnlyRequest) | AggregateCancel (req : AggregationOnlyRequest) | AggregatePrune | AggregateReport
| Batch (key : AuthenticatedApiKey) (req : Value)
| Pause | SetBallot (probs : BallotConfig) | GetBallot.

Inductive Response : Type :=
| RStatus (s : ApiStatus) | RCancel (s : CancelStatus) | RUnit (u : ()) | RValue (v : Value)
| RReport (l : list (TaskDescriptor * TaskStatus)) | RText (t : string) | RBallot (l : list (ProofType * f64)).

Definition serve (e : Endpoint) : M HostError Response :=
  match e with
  | ProofV2 req => s ← proof_handler_v2 req; mret (RStatus s)
  | CancelV2 req => s ← cancel_handler_v2 req; mret (RCancel s)
  | ListV2 => s ← list_handler; mret (RValue s)
  | PruneV2 => s ← prune_handler; mret (RUnit s)
  | ReportV2 => s ← report_handler; mret (RReport s)
  | ProofV3 req => s ← proof_handler_v3 req; mret (RStatus s)
  | CancelV3 req => s ← cancel_handler_v3 req; mret (RCancel s)
  | Aggregate req => s ← aggregation_handler req; mret (RStatus s)
  | AggregateCancel req => s ← aggregation_cancel_handler req; mret (RCancel s)
  | AggregatePrune => s ← aggregation_prune_handler; mret (RUnit s)
  | AggregateReport => s ← aggregation_report_handler; mret (RValue s)
  | Batch key req => s ← batch_handler key req; mret (RStatus s)
  | Pause => s ← pause_handler; mret (RText s)
  | SetBallot probs => s ← set_ballot_handler probs; mret (RText s)
  | GetBallot => s ← get_ballot_handler; mret (RBallot s)
  end.
End server.
Arguments Server C R BC : clear implicits.

(** ** Authentication

    The layer that the router puts around every route but the public ones (the
    health check and the metrics). *)
Inductive AuthLayer : Type :=
| ApiKeyLayer (store : ApiKeyStore)
| BearerLayer (jwt_secret : string)
| NoAuth.

Definition auth_layer (jwt_secret : option string) (api_key_store : option ApiKeyStore) : AuthLayer :=
  match api_key_store with
  | Some store => ApiKeyLayer store
  | None => match jwt_secret with Some secret => BearerLayer secret | None => NoAuth end
  end.

(** A request that passes may carry the key it was authenticated with. *)
Definition gate (l : AuthLayer) (api_key : string) (authorization : option string) (now used : Z) :
    AuthLayer * (option AuthenticatedApiKey + StatusCode) :=
  match l with
  | ApiKeyLayer st =>
      let '(st', r) := api_key_auth_middleware st api_key now used in
      (ApiKeyLayer st', match r with Forward a => inl (Some a) | Reject s => inr s end)
  | BearerLayer secret =>
      (l, if bool_decide (authorization = Some ("Bearer " +:+ secret)) then inl None else inr UNAUTHORIZED)
  | NoAuth => (l, inl None)
  end.

(** [main]: the store is always there. *)
Definition main_layer (from_str : string -> option (list (string * string))) (rate_limit : option string) (now : nat -> Z)
    (api_keys : string) (jwt_secret : option string) : AuthLayer :=
  auth_layer jwt_secret (Some (ApiKeyStore_new from_str rate_limit now api_keys)).

(** Without API keys every request passes as anonymous, whatever JWT secret is
    configured. *)
Theorem jwt_secret_ignored from_str rate_limit clock jwt_secret api_key authorization now used :
  (gate (main_layer from_str rate_limit clock "" jwt_secret) api_key authorization now used).2 =
  inl (Some (mkAuth "anonymous" "anonymous")).
Proof. reflexivity. Qed.

(** ** A paused server *)
Section paused.
Context {C R BC : Type} `{LC : LruCache RequestKey Stored C} `{RS : RedisServer R}
  `{BLC : LruCache bytes (option ProofType) BC}.
#[local] Abbreviation Server := (Server C R BC).
#[local] Abbreviation M := (St Server).
Implicit Types (a : Actor C R BC) (w : Server).

(** Nobody resumes it. *)
Definition stays_paused w : Prop :=
  is_paused (served w) = true /\ Forall (fun g => forall a, is_paused a = true -> is_paused (g a) = true) (others w).

(** A handler that submits nothing while the server is paused. *)
Definition quiet {E A} (m : M E A) : Prop :=
  forall w, stays_paused w -> sent (m w).1 = sent w /\ stays_paused (m w).1.

Lemma quiet_ret {E A} (a : A) : quiet (mret a : M E A).
Proof. by intros w Hw. Qed.
Lemma quiet_lift {E A} (r : outcome E A) : quiet (lift r : M E A).
Proof. by intros w Hw. Qed.

Lemma quiet_bind {E A B} (m : M E A) (f : A -> M E B) : quiet m -> (forall x, quiet (f x)) -> quiet (m ≫= f).
Proof.
  intros Hm Hf w Hw. unfold mbind, st_bind. destruct (Hm w Hw) as [Hs Hp].
  destruct (m w) as [w1 [a|e|]]; cbn in *; try done. destruct (Hf a w1 Hp) as [Hs' Hp']. by rewrite Hs'.
Qed.

Lemma quiet_locked {E A} (f : Actor C R BC -> Actor C R BC * outcome E A) :
  (forall a, is_paused a = true -> is_paused (f a).1 = true) -> quiet (locked f).
Proof.
  intros Hf w [Hp Ho]. unfold locked. destruct (others w) as [|g fs] eqn:Eo.
  - specialize (Hf _ Hp). destruct (f (served w)) as [a' r]. cbn in *. done.
  - apply Forall_cons in Ho as [Hg Hfs]. specialize (Hf _ (Hg _ Hp)). destruct (f (g (served w))) as [a' r]. done.
Qed.

Lemma quiet_map_err {E F A} (f : E -> F) (m : M E A) : quiet m -> quiet (map_st_err f m).
Proof. intros Hm w Hw. unfold map_st_err. destruct (Hm w Hw). by destruct (m w). Qed.
Lemma quiet_attempt {A} (m : M string A) : quiet m -> quiet (attempt m).
Proof. intros Hm w Hw. unfold attempt. destruct (Hm w Hw). by destruct (m w). Qed.
Lemma quiet_fun {E A} (m : Server -> M E A) : (forall w, quiet (m w)) -> quiet (fun w => m w w).
Proof. intros Hm w Hw. by apply Hm. Qed.

(** Submitting does not resume it. *)
Lemma act_paused a k e start : is_paused (act a k e start).1 = is_paused a.
Proof.
  assert (forall b : Actor C R BC, is_paused (act_enqueue b k e start).1 = is_paused b) as He.
  { intros b. unfold act_enqueue, act_pool_update_status. destruct (contains _ _); [done|].
    destruct (add_pending _ _ _) as [q [[]|x|]]; try done. by destruct (pool_update_status _ _ _) as [? [?|?|]]. }
  assert (forall (b : Actor C R BC) o, is_paused (act_register b k e start o).1 = is_paused b) as Hr.
  { intros b o. unfold act_register, act_pool_add_new, act_pool_update_status.
    destruct o; [by destruct (pool_update_status _ _ _)|by destruct (pool_add _ _ _ _)]. }
  unfold act, act_pool_get_status. destruct (pool_get_status _ _) as [p [o|x|]]; try done.
  specialize (Hr (set_pool a p) o). destruct (act_register _ _ _ _ _) as [a1 r1]. cbn in Hr.
  destruct o as [[[] ?]|]; try done; destruct r1; try done; by rewrite He.
Qed.

Lemma quiet_prove now k e : quiet (prove now k e).
Proof.
  intros w Hw. unfold prove. pose proof (quiet_locked (E := string) (fun a => (a, Ok (is_paused a))) (fun a H => H) w Hw) as Hq.
  assert (exists w', locked (E := string) (fun a : Actor C R BC => (a, Ok (is_paused a))) w = (w', Ok true)) as [w' Hl].
  { destruct Hw as [Hp Ho]. unfold locked. destruct (others w) as [|g fs]; [rewrite Hp; by eexists|].
    apply Forall_cons in Ho as [Hg _]. rewrite (Hg _ Hp). by eexists. }
  unfold mbind, st_bind. rewrite Hl in *. exact Hq.
Qed.

Lemma quiet_remove k : quiet (locked (fun a : Actor C R BC => pool_remove_request a k)).
Proof. apply quiet_locked. intros a Ha. unfold pool_remove_request. by destruct (pool_remove _ _). Qed.

Lemma quiet_list : quiet (locked (pool_list_status (C := C) (R := R) (BC := BC))).
Proof. apply quiet_locked. intros a Ha. unfold pool_list_status. by destruct (pool_list _). Qed.

(** Compositions of quiet parts. *)
Ltac quiet_step :=
  match goal with
  | |- quiet (mret _) => apply quiet_ret
  | |- quiet (lift _) => apply quiet_lift
  | |- quiet (mbind _ _) => apply quiet_bind; [|intros]
  | |- quiet (map_st_err _ _) => apply quiet_map_err
  | |- quiet (text _) => apply quiet_map_err
  | |- quiet (core _) => apply quiet_lift
  | |- quiet (attempt _) => apply quiet_attempt
  | |- quiet (prove _ _ _) => apply quiet_prove
  | |- quiet (locked _) => first [apply quiet_list | apply quiet_locked; intros]
  | |- quiet (match ?x with _ => _ end) => destruct x
  end.
Ltac quietly := repeat quiet_step; auto.

Variable now : nat -> Z.
Variable default_request_config : ProofRequestOpt.
Variables (parse_b256 parse_address : string -> option bytes) (address_text : bytes -> string).
Variables (parse_url : string -> bool) (client : string -> RpcClient).
Variable env : string -> option string.
Variable b256_text : bytes -> string.

Lemma quiet_prove_pairs l : quiet (prove_pairs now l).
Proof. induction l as [|[k e] l IH]; cbn [prove_pairs]; quietly. Qed.

Lemma quiet_prove_aggregation k e ks es : quiet (prove_aggregation now k e ks es).
Proof. unfold prove_aggregation, prove_many. apply quiet_bind; [apply quiet_prove_pairs|intros]. quietly. Qed.

Lemma quiet_task_data n b : quiet (get_task_data_of parse_url client n b).
Proof. unfold get_task_data_of. quietly. Qed.

Lemma quiet_draw h : quiet (draw_hash now h).
Proof.
  intros w. unfold draw_hash. apply quiet_locked. intros a Ha. unfold actor_draw.
  by destruct (draw_with_poisson _ _ _).
Qed.

Lemma quiet_prune b keys : quiet (prune_each b keys).
Proof.
  induction keys as [|k keys IH]; cbn [prune_each]; [quietly|]. apply quiet_bind; [apply quiet_map_err, quiet_remove|intros].
  quietly.
Qed.

Lemma quiet_draw_request v : quiet (draw_for_zk_any_request now parse_url client v).
Proof. unfold draw_for_zk_any_request. quietly; [apply quiet_task_data|apply quiet_draw]. Qed.
Lemma quiet_draw_batch v : quiet (draw_for_zk_any_batch_request now parse_url client v).
Proof. unfold draw_for_zk_any_batch_request. quietly; [apply quiet_task_data|apply quiet_draw]. Qed.

Lemma quiet_submit_block c : quiet (submit_block now parse_b256 parse_address address_text parse_url client c).
Proof. unfold submit_block. quietly; apply quiet_task_data. Qed.

Lemma quiet_sub_requests l : quiet (sub_requests parse_b256 parse_address address_text parse_url client l).
Proof. induction l as [|o l IH]; cbn [sub_requests]; quietly; apply quiet_task_data. Qed.

Lemma quiet_batches r c i : quiet (prove_batches now address_text r c i).
Proof. unfold prove_batches, prove_many. quietly; apply quiet_prove_pairs. Qed.

Lemma quiet_batch_request r : quiet (prove_batch_request now address_text env r).
Proof.
  unfold prove_batch_request, aggregate_batches. quietly; [apply quiet_prove_aggregation|apply quiet_batches].
Qed.

(** While the server is paused no endpoint submits a request, whatever the other
    requests do meanwhile. *)
Theorem paused_submits_nothing e w :
  stays_paused w ->
  sent (serve now default_request_config parse_b256 parse_address address_text parse_url client env b256_text e w).1 = sent w.
Proof.
  intros Hw. revert w Hw. cut (quiet (serve now default_request_config parse_b256 parse_address address_text parse_url client env b256_text e)).
  { intros H w Hw. by apply H. }
  assert (forall c r, quiet (cancel_aggregation (C := C) (R := R) (BC := BC) c r)) as Hcancel.
  { intros c r. induction r; cbn [cancel_aggregation]; unfold cancel; quietly. }
  destruct e; cbn [serve]; apply quiet_bind; try (intros; apply quiet_ret).
  - unfold proof_handler_v2. quietly; try apply quiet_submit_block. apply quiet_draw_request.
  - unfold cancel_handler_v2, cancel. quietly. apply quiet_task_data.
  - apply quiet_lift.
  - unfold prune_handler. quietly. apply quiet_prune.
  - unfold report_handler. quietly.
  - unfold proof_handler_v3. quietly; [apply quiet_sub_requests|apply quiet_prove_aggregation].
  - unfold cancel_handler_v3. quietly. apply quiet_sub_requests.
  - unfold aggregation_handler, only_proof_type. quietly.
  - unfold aggregation_cancel_handler, only_proof_type, cancel. quietly.
  - unfold aggregation_prune_handler. quietly. apply quiet_prune.
  - apply quiet_lift.
  - unfold batch_handler, first_batch_id, batch_request_of. quietly; try apply quiet_batch_request. apply quiet_draw_batch.
  - unfold pause_handler. quietly.
  - intros w. unfold set_ballot_handler. apply quiet_map_err. quietly.
  - unfold get_ballot_handler. quietly.
Qed.
End paused.

(** ** What a handler submits *)
Section exchanges.
Context {C R BC : Type} `{LC : LruCache RequestKey Stored C} `{RS : RedisServer R}
  `{BLC : LruCache bytes (option ProofType) BC}.
#[local] Abbreviation Server := (Server C R BC).
#[local] Abbreviation M := (St Server).
Implicit Types (w : Server).
Variable now : nat -> Z.

Lemma locked_sent {E A} (f : Actor C R BC -> Actor C R BC * outcome E A) w : sent (locked f w).1 = sent w.
Proof. unfold locked. destruct (others w) as [|g fs]; [by destruct (f _)|by destruct (f _)]. Qed.

Lemma bind_sent {E A B} (m : M E A) (f : A -> M E B) w :
  (forall w, sent (m w).1 = sent w) -> (forall x w, sent (f x w).1 = sent w) -> sent ((m ≫= f) w).1 = sent w.
Proof.
  intros Hm Hf. unfold mbind, st_bind. specialize (Hm w). destruct (m w) as [w1 [x|e|]]; cbn in *; try done.
  by rewrite Hf.
Qed.

Lemma act_sections_sent start k e w : sent (act_sections start k e w).1 = sent w.
Proof.
  unfold act_sections. apply bind_sent; [intros; apply locked_sent|]. intros o w1.
  destruct o as [[[] ?]|]; try done; apply bind_sent; intros; apply locked_sent.
Qed.

(** A request is refused while paused, or submitted once. *)
Lemma prove_sent k e w w' r : prove now k e w = (w', r) ->
  (r = Err "System is paused" /\ sent w' = sent w) \/ sent w' = sent w ++ [(k, e, r)].
Proof.
  unfold prove, mbind, st_bind. pose proof (locked_sent (E := string) (fun a => (a, Ok (is_paused a))) w) as Hs.
  destruct (locked _ w) as [w1 [[]|e1|]] eqn:El; cbn in *; try (by intros [= <- <-]; left).
  - unfold submit. pose proof (act_sections_sent (now (length (sent w1))) k e w1) as Ha.
    destruct (act_sections _ _ _ w1) as [w2 r2]. cbn in Ha. intros [= <- <-]. right. cbn. by rewrite Ha, Hs.
  - unfold locked in El. by destruct (others w) in El; simplify_eq.
  - unfold locked in El. by destruct (others w) in El; simplify_eq.
Qed.

Lemma prove_Ok_sent k e w w' s : prove now k e w = (w', Ok s) -> sent w' = sent w ++ [(k, e, Ok s)].
Proof. intros H. by destruct (prove_sent _ _ _ _ _ H) as [[? _]|]. Qed.

(** Requests with their results. *)
Definition answered (l : list (RequestKey * RequestEntity)) (ss : list Status) : list (RequestKey * RequestEntity * outcome string Status) :=
  zip_with (fun ke s => (ke.1, ke.2, Ok s)) l ss.

Lemma prove_pairs_sent l w w' ss : prove_pairs now l w = (w', Ok ss) ->
  length ss = length l /\ sent w' = sent w ++ answered l ss.
Proof.
  revert w w' ss. induction l as [|[k e] l IH]; intros w w' ss H; cbn [prove_pairs] in H.
  - injection H as <- <-. by rewrite app_nil_r.
  - destruct (paired k e); [|done]. apply st_bind_Ok in H as (w1 & s & Hp & H). apply st_bind_Ok in H as (w2 & ss' & Hq & H).
    injection H as <- <-. apply IH in Hq as [Hl Hq]. split; [cbn; by rewrite Hl|].
    rewrite Hq, (prove_Ok_sent _ _ _ _ _ Hp), <- (assoc_L (++)). done.
Qed.

Lemma collect_success ss proofs : collect success_proof ss = Ok proofs -> ss = Success <$> proofs.
Proof.
  revert proofs. induction ss as [|s ss IH]; intros proofs H; cbn in H; [by injection H as <-|].
  destruct s; cbn in H; try done. destruct (collect success_proof ss) eqn:E; cbn in H; try done. injection H as <-.
  by rewrite (IH _ eq_refl).
Qed.

(** C18: an aggregation is submitted exactly when every part of it is proved, after
    them, with their proofs in the order of the request; until then the parts are
    (re)submitted and the answer is [Registered]. *)
Theorem aggregation_exchange key ent keys ents w w' s :
  length keys = length ents ->
  prove_aggregation now key ent keys ents w = (w', Ok s) ->
  (exists ss, forallb is_success ss = false /\ length ss = length keys /\ s = Registered /\
     sent w' = sent w ++ answered (zip keys ents) ss) \/
  (exists proofs, length proofs = length keys /\
     sent w' = sent w ++ answered (zip keys ents) (Success <$> proofs) ++
       [(KAggregation key, EAggregation (mkAggregationRequestEntity (age_aggregation_ids ent) proofs (age_proof_type ent) (age_prover_args ent)),
         Ok s)]).
Proof.
  intros Hlen H. unfold prove_aggregation, prove_many in H. apply st_bind_Ok in H as (w1 & ss & Hp & H).
  apply prove_pairs_sent in Hp as [Hl Hs]. rewrite length_zip_with, Hlen, Nat.min_id, <- Hlen in Hl.
  destruct (forallb is_success ss) eqn:Ef.
  - right. apply st_bind_Ok in H as (w2 & proofs & Hc & H). injection Hc as <- Hc.
    apply collect_success in Hc as ->. rewrite length_fmap in Hl. exists proofs. split; [done|].
    rewrite (prove_Ok_sent _ _ _ _ _ H), Hs. by rewrite <- (assoc_L (++)).
  - left. injection H as <- <-. exists ss. done.
Qed.

(** *** Batches *)
Variable address_text : bytes -> string.

Lemma collect_inputs ss inputs : collect input_text ss = Ok inputs ->
  exists proofs, ss = Success <$> proofs /\ Types.proof <$> proofs = Some <$> inputs.
Proof.
  revert inputs. induction ss as [|s ss IH]; intros inputs H; cbn in H; [injection H as <-; by exists []|].
  destruct s; cbn in H; try done. destruct (Types.proof proof) as [t|] eqn:Et; cbn in H; try done.
  destruct (collect input_text ss) eqn:E; cbn in H; try done. injection H as <-.
  destruct (IH _ eq_refl) as (ps & -> & Hp). exists (proof :: ps). by rewrite !fmap_cons, Et, Hp.
Qed.

Lemma all_success ss : forallb is_success ss = true -> exists proofs, ss = Success <$> proofs.
Proof.
  induction ss as [|s ss IH]; cbn; [by exists []|]. destruct s; cbn; try done. intros [ps ->]%IH. by exists (proof :: ps).
Qed.

(** C19: batches that are proved without aggregation: a proof is answered only when
    every batch is proved, each from the input that was made for it; the answer
    is the proof of the first batch. *)
Theorem batches_exchange r chain image w w' p :
  br_batches r <> [] ->
  prove_batches now address_text r chain image w = (w', Ok (Ok (Success p))) ->
  exists input_proofs inputs proofs,
    Types.proof <$> input_proofs = Some <$> inputs /\ length inputs = length (br_batches r) /\
    length proofs = length (br_batches r) /\ head proofs = Some p /\
    sent w' = sent w
      ++ answered (zip (batch_input_key chain <$> br_batches r) ((fun b => EBatchGuestInput (batch_input_entity r b)) <$> br_batches r))
           (Success <$> input_proofs)
      ++ answered (zip (batch_key address_text r chain image <$> br_batches r)
           (zip_with (fun b i => EBatchProof (add_batch_input (batch_entity r b) i)) (br_batches r) inputs)) (Success <$> proofs).
Proof.
  intros Hne H. unfold prove_batches, prove_many in H. apply st_bind_Ok in H as (w1 & ss & Hp & H).
  assert (prove_pairs now (zip (batch_input_key chain <$> br_batches r)
    ((fun b => EBatchGuestInput (batch_input_entity r b)) <$> br_batches r)) w = (w1, Ok ss)) as [Hl Hs]%prove_pairs_sent.
  { unfold text, map_st_err in Hp. destruct (prove_pairs _ _ w) as [w2 [ss'| |]]; cbn in Hp; by simplify_eq. }
  rewrite length_zip_with, !length_fmap, Nat.min_id in Hl.
  destruct (forallb is_success ss) eqn:Ef; [|done].
  apply st_bind_Ok in H as (w2 & inputs & Hc & H). injection Hc as <- Hc. apply collect_inputs in Hc as (ips & -> & Hi).
  rewrite length_fmap in Hl. assert (length inputs = length (br_batches r)) as Hli.
  { rewrite <- Hl. apply (f_equal length) in Hi. by rewrite !length_fmap in Hi. }
  unfold attempt in H. match type of H with (let '(_, _) := ?m w1 in _) = _ => destruct (m w1) as [w3 [s| |]] eqn:Em end;
    try (by injection H). injection H as -> ->.
  apply st_bind_Ok in Em as (w4 & ss & Hq & [= -> Hst]). apply prove_pairs_sent in Hq as [Hl2 Hs2].
  rewrite length_zip_with, length_zip_with, length_fmap, Hli, !Nat.min_id in Hl2.
  unfold batch_status in Hst. destruct (forallb is_success ss) eqn:Ef2; [|done]. apply all_success in Ef2 as [ps ->].
  rewrite length_fmap in Hl2. exists ips, inputs, ps. split_and!; try done.
  - destruct ps as [|p0 ps]; [|cbn in Hst; by injection Hst as <-]. cbn in Hl2. by destruct (br_batches r).
  - rewrite Hs2, Hs, <- (assoc_L (++)). done.
Qed.

(** *** Blocks *)
Variable default_request_config : ProofRequestOpt.
Variables (parse_b256 parse_address : string -> option bytes).
Variables (parse_url : string -> bool) (client : string -> RpcClient).

Definition gives_proof (r : HostResult ApiStatus) : Prop := exists pt b p, r = Ok (ApiOk pt b (ResponseProof p)).

Lemma attempt_inv {A} (m : M string A) w w' ra : attempt m w = (w', ra) ->
  exists r, m w = (w', r) /\ ra = match r with Panic => Panic | _ => Ok r end.
Proof. unfold attempt. destruct (m w) as [w1 r]. intros [= <- <-]. by exists r. Qed.

(** What a request for the proof of a block submits and answers. *)
Definition block_exchange w w' (r : HostResult ApiStatus) : Prop :=
  (~ gives_proof r /\ (sent w' = sent w \/ exists pr chain hash res,
     sent w' = sent w ++ [(KGuestInput (input_key chain hash pr), EGuestInput (input_entity pr), res)])) \/
  exists pr chain hash p res,
    sent w' = sent w ++ [(KGuestInput (input_key chain hash pr), EGuestInput (input_entity pr), Ok (Success p));
      (KSingleProof (single_key address_text chain hash pr),
       ESingleProof (single_entity pr (<["guest_input" := opt_value JString (Types.proof p)]> (prover_args pr))), res)] /\
    r = to_v2_status (proof_type pr) None res.

Lemma no_proof (x : HostResult ApiStatus) : (forall s, x <> Ok s) -> ~ gives_proof x.
Proof. intros Hx (pt & b & p & ->). by eapply Hx. Qed.

Lemma silent_exchange {A} (m : M HostError A) f w w' r :
  (forall w, sent (m w).1 = sent w) -> (forall x w1, sent w1 = sent w -> f x w1 = (w', r) -> block_exchange w1 w' r) ->
  (m ≫= f) w = (w', r) -> block_exchange w w' r.
Proof.
  intros Hm Hf. specialize (Hm w). unfold mbind, st_bind. destruct (m w) as [w1 [x| |]]; cbn in *.
  - intros H. pose proof (Hf x w1 Hm H) as Hb. unfold block_exchange in *. by rewrite Hm in Hb.
  - intros [= <- <-]. left. split; [by apply no_proof|by left].
  - intros [= <- <-]. left. split; [by apply no_proof|by left].
Qed.

Lemma task_data_sent n b w : sent (get_task_data_of parse_url client n b w).1 = sent w.
Proof. unfold get_task_data_of. apply bind_sent; intros; [apply locked_sent|done]. Qed.

Lemma submit_block_exchange config w w' r :
  submit_block now parse_b256 parse_address address_text parse_url client config w = (w', r) -> block_exchange w w' r.
Proof.
  unfold submit_block. apply silent_exchange; [done|]. intros pr w1 _. apply silent_exchange; [apply task_data_sent|].
  intros [chain hash] w2 _. unfold mbind at 1, st_bind at 1.
  match goal with |- context [attempt ?m w2] => destruct (attempt m w2) as [w3 ra] eqn:Ea end.
  apply attempt_inv in Ea as (res & Hp & ->). pose proof (prove_sent _ _ _ _ _ Hp) as Hs. destruct res as [s|e|].
  2,3: intros [= <- <-]; left; split; [by intros (?&?&?&?)|]; destruct Hs as [[_ Hs]|Hs]; rewrite Hs; [by left|right; eauto].
  destruct Hs as [[? _]|Hs]; [done|]. destruct s as [| |p| |].
  1,2,4,5: intros [= <- <-]; left; split; [by intros (?&?&?&?)|]; right; eauto.
  unfold mbind at 1, st_bind at 1.
  match goal with |- context [attempt ?m w3] => destruct (attempt m w3) as [w4 ra] eqn:Ea end.
  apply attempt_inv in Ea as (res & Hp2 & ->). destruct (prove_sent _ _ _ _ _ Hp2) as [[-> Hs2]|Hs2].
  - intros [= <- <-]. left. split; [by intros (?&?&?&?)|]. right. rewrite Hs2, Hs. eauto.
  - intros H. right. exists pr, chain, hash, p, res. rewrite Hs, <- (assoc_L (++)) in Hs2.
    by destruct res; injection H as <- <-.
Qed.

(** A request for the proof of a block first has its input made; the proof is
    submitted only with the input that the actor gave for the same block, and a
    proof is answered only if it is the one of that request. *)
Theorem block_proof_from_input req w w' r :
  proof_handler_v2 now default_request_config parse_b256 parse_address address_text parse_url client req w = (w', r) ->
  block_exchange w w' r.
Proof.
  unfold proof_handler_v2. apply silent_exchange; [done|]. intros config w1 _. destruct (is_zk_any_request req).
  - apply silent_exchange.
    + intros w2. unfold draw_for_zk_any_request. apply bind_sent; [intros; apply locked_sent|]. intros [] w3; [done|].
      apply bind_sent; [done|]. intros n w4. apply bind_sent; [done|]. intros b w5. apply bind_sent; [intros; apply task_data_sent|].
      intros [? h] w6. apply locked_sent.
    + intros [pt|] w2 _; [apply submit_block_exchange|]. intros [= <- <-]. left. split; [by intros (?&?&?&?)|by left].
  - apply submit_block_exchange.
Qed.
End exchanges.

(** ** Endpoints that do not do their work *)
Section defects.
Context {C R BC : Type} `{LC : LruCache RequestKey Stored C} `{RS : RedisServer R}
  `{BLC : LruCache bytes (option ProofType) BC}.
#[local] Abbreviation Server := (Server C R BC).
#[local] Abbreviation M := (St Server).
Implicit Types (w : Server).
Variable now : nat -> Z.
Variable default_request_config : ProofRequestOpt.
Variables (parse_b256 parse_address : string -> option bytes) (address_text b256_text : bytes -> string).
Variables (parse_url : string -> bool) (client : string -> RpcClient).
Variable env : string -> option string.

Definition unanswered {E A} (m : M E A) : Prop := forall w x, (m w).2 <> Ok x.

Lemma unanswered_bind {E A B} (m : M E A) (f : A -> M E B) : (forall x, unanswered (f x)) -> unanswered (m ≫= f).
Proof. intros Hf w x. unfold mbind, st_bind. destruct (m w) as [w1 [a|e|]]; try done. apply Hf. Qed.
Lemma unanswered_first {E A B} (m : M E A) (f : A -> M E B) : unanswered m -> unanswered (m ≫= f).
Proof. intros Hm w x. specialize (Hm w). unfold mbind, st_bind. destruct (m w) as [w1 [a|e|]]; try done. by destruct (Hm a). Qed.

Lemma cancel_aggregation_unanswered k ks : unanswered (attempt (cancel_aggregation (C := C) (R := R) (BC := BC) k ks)).
Proof. by destruct ks. Qed.

(** No endpoint that cancels a request ever answers: each refuses the request or
    panics. *)
Theorem cancel_never_answers :
  (forall req, unanswered (cancel_handler_v2 (C := C) (R := R) (BC := BC) default_request_config parse_b256 parse_address address_text parse_url client req)) /\
  (forall req, unanswered (cancel_handler_v3 (C := C) (R := R) (BC := BC) default_request_config parse_b256 parse_address address_text parse_url client req)) /\
  (forall req, unanswered (aggregation_cancel_handler (C := C) (R := R) (BC := BC) default_request_config parse_b256 b256_text req)).
Proof.
  split_and!; intros req.
  - apply unanswered_bind. intros config. apply unanswered_bind. intros r. apply unanswered_bind. intros [chain hash].
    by apply unanswered_first.
  - apply unanswered_bind. intros r. apply unanswered_bind. intros subs. apply unanswered_bind. intros first.
    apply unanswered_first, cancel_aggregation_unanswered.
  - apply unanswered_bind. intros r. apply unanswered_bind. intros pt. by apply unanswered_first.
Qed.

(** A batch request whose first batch has no number panics, with nothing done. *)
Theorem missing_batch_id_panics key req b batches w :
  as_array (index (merge (opt_to_value default_request_config) req) "batches") = Some (b :: batches) ->
  as_u64 (index b "batch_id") = None ->
  batch_handler now default_request_config parse_b256 parse_address address_text parse_url client env key req w = (w, Panic).
Proof.
  intros Hb Hn. unfold batch_handler, first_batch_id, core, lift, mbind, st_bind. rewrite Hb. cbn. by rewrite Hn.
Qed.

(** *** Pruning *)
Lemma pool_remove_queue (a : Actor C R BC) k : queue (pool_remove_request a k).1 = queue a.
Proof. unfold pool_remove_request. by destruct (pool_remove _ _). Qed.

Definition keeps_pending {E A} (m : M E A) : Prop := forall w, others w = [] ->
  others (m w).1 = [] /\ pending (queue (served (m w).1)) = pending (queue (served w)).

Lemma keeps_pending_bind {E A B} (m : M E A) (f : A -> M E B) :
  keeps_pending m -> (forall x, keeps_pending (f x)) -> keeps_pending (m ≫= f).
Proof.
  intros Hm Hf w Ho. destruct (Hm w Ho) as [H1 H2]. unfold mbind, st_bind. destruct (m w) as [w1 [x|e|]]; cbn in *; try done.
  destruct (Hf x w1 H1) as [H3 H4]. by rewrite H4.
Qed.

Lemma keeps_pending_locked {E A} (f : Actor C R BC -> Actor C R BC * outcome E A) :
  (forall a, pending (queue (f a).1) = pending (queue a)) -> keeps_pending (locked f).
Proof. intros Hf w Ho. unfold locked. rewrite Ho. specialize (Hf (served w)). by destruct (f (served w)). Qed.

Lemma keeps_pending_text {A} (m : M string A) : keeps_pending m -> keeps_pending (text m).
Proof. intros Hm w Ho. specialize (Hm w Ho). unfold text, map_st_err. by destruct (m w). Qed.

Lemma prune_each_pending b keys : keeps_pending (prune_each b keys).
Proof.
  induction keys as [|k keys IH]; cbn [prune_each]; [done|]. apply keeps_pending_bind; [|intros n; apply keeps_pending_bind].
  - apply keeps_pending_text, keeps_pending_locked. intros a. by rewrite pool_remove_queue.
  - destruct b; [by apply keeps_pending_locked|done].
  - done.
Qed.

(** Pruning leaves every pending request in the queue, although the queue no
    longer knows its key. *)
Theorem prune_leaves_pending w : others w = [] -> pending (queue (served (prune_handler w).1)) = pending (queue (served w)).
Proof.
  intros Ho. assert (keeps_pending prune_handler) as H; [|by apply H].
  apply keeps_pending_bind; [|intros; apply prune_each_pending].
  apply keeps_pending_text, keeps_pending_locked. intros a. unfold pool_list_status. by destruct (pool_list _).
Qed.
End defects.

(** ** Examples *)
Module ServerExample.
#[local] Instance node : RpcClient := {|
  add_call _ := true;
  send _ _ _ := Ok ();
  block_response _ _ _ := Ok (ProviderDb.mkRpcBlock (Some 10) (Some [10]) [] 0 None None);
  uint_response _ _ _ := Err "";
  bytes_response _ _ _ := Err "";
  proof_response _ _ _ := Err "";
  Rpc.hash_slow _ := []
|}.
Abbreviation state := (Server (ListCache RequestKey Stored) () (ListCache bytes (option ProofType))).

Definition clock (n : nat) : Z := Z.of_nat n.
Definition l2 : ChainSpec := new_single "taiko" 167 3 Eip1559Constants_default true.
Definition parse_hash (s : string) : option bytes := Some [1].
Definition show (b : bytes) : string := "0x".
Definition config : ProofRequestOpt :=
  mkProofRequestOpt None None None None (Some "taiko") (Some "ethereum") (Some "00") (Some "01") (Some "sgx") None opts_none.
Definition body : Value := JObject [("block_number", JNumber 10)].

(** A pool with some requests proved. *)
Fixpoint proved (l : list (RequestKey * RequestEntity * Proof_)) (p : Pool (ListCache RequestKey Stored) ()) :=
  match l with
  | [] => p
  | (k, e, q) :: l => proved l (pool_add p k e (mkStatus (Success q) 0)).1
  end.
Definition server (l : list (RequestKey * RequestEntity * Proof_)) : state :=
  mkServer (Actor_new (proved l memory_fixture) ballot_fixture {[ "taiko" := l2 ]} (Queue_new 4)) [] [].

Definition text_proof (t : string) : Proof_ := mkProof (Some t) None None None None.

(** The input of the block is there: its proof is requested. *)
Definition request_10 : ProofRequest := mkProofRequest 10 0 0 [] "taiko" "ethereum" [1] [1] Sgx ProofOfEquivalence ∅.
Definition with_input_10 : state := server [(KGuestInput (input_key 167 [10] request_10), EGuestInput (input_entity request_10), text_proof "{}")].
Definition proof_10 := proof_handler_v2 clock config parse_hash parse_hash show (fun _ => true) (fun _ => node) body with_input_10.

Lemma block_proof_from_input_witness :
  length (sent proof_10.1) = 2%nat /\ proof_10.2 = Ok (ApiOk Sgx None (ResponseStatus TRegistered)) /\
  block_exchange show with_input_10 proof_10.1 proof_10.2.
Proof.
  split; [vm_compute; reflexivity|]. split; [vm_compute; reflexivity|].
  exact (block_proof_from_input clock show config parse_hash parse_hash (fun _ => true) (fun _ => node) body with_input_10 proof_10.1 proof_10.2
    (surjective_pairing proof_10)).
Defined.

(** Two batches with their inputs and proofs. *)
Definition two_batches : BatchProofRequest :=
  mkBatchProofRequest [mkBatchMeta 3 50; mkBatchMeta 4 51] false Sgx "taiko" "ethereum" [1] [1] ProofOfEquivalence opts_none.
Definition input_of (b : BatchMetadata) := (batch_input_key 167 b, EBatchGuestInput (batch_input_entity two_batches b), text_proof "i").
Definition proof_of_batch (t : string) (b : BatchMetadata) :=
  (batch_key show two_batches 167 ImageId_new b, EBatchProof (batch_entity two_batches b), text_proof t).
Definition batches_proved : state :=
  server [input_of (mkBatchMeta 3 50); input_of (mkBatchMeta 4 51); proof_of_batch "p3" (mkBatchMeta 3 50); proof_of_batch "p4" (mkBatchMeta 4 51)].
Lemma batches_result_ok : exists w', prove_batches clock show two_batches 167 ImageId_new batches_proved = (w', Ok (Ok (Success (text_proof "p3")))).
Proof. eexists. vm_compute. reflexivity. Qed.

Lemma some_batches : br_batches two_batches <> [].
Proof. discriminate. Qed.

Lemma batches_exchange_witness : exists proofs, head proofs = Some (text_proof "p3") /\ length proofs = 2%nat.
Proof.
  destruct batches_result_ok as [w' Hw].
  destruct (batches_exchange clock show two_batches 167 ImageId_new batches_proved w' (text_proof "p3") some_batches Hw)
    as (ips & ins & ps & _ & _ & Hl & Hh & _).
  exists ps. split; [exact Hh|exact Hl].
Defined.

(** Their aggregation. *)
Definition agg_key : AggregationRequestKey := AggregationRequestKey_new Sgx [3; 4].
Definition agg_entity : AggregationRequestEntity := mkAggregationRequestEntity [3; 4] [] Sgx opts_none.
Definition sub_keys : list RequestKey := batch_key show two_batches 167 ImageId_new <$> br_batches two_batches.
Definition sub_entities : list RequestEntity := (fun b => EBatchProof (batch_entity two_batches b)) <$> br_batches two_batches.

Lemma agg_result_ok : let r := prove_aggregation clock agg_key agg_entity sub_keys sub_entities batches_proved in
  r.2 = Ok Registered /\ length (sent r.1) = 3%nat.
Proof. split; vm_compute; reflexivity. Qed.

Lemma aggregation_exchange_witness : exists (w' : state) proofs, length proofs = 2%nat /\
  sent w' = sent batches_proved ++ answered (zip sub_keys sub_entities) (Success <$> proofs) ++
     [(KAggregation agg_key, EAggregation (mkAggregationRequestEntity [3; 4] proofs Sgx opts_none), Ok Registered)].
Proof.
  pose proof agg_result_ok as [Hr Hl]. destruct (prove_aggregation clock agg_key agg_entity sub_keys sub_entities batches_proved) as [w' r] eqn:Hw.
  cbn [fst snd] in Hr, Hl. subst r.
  destruct (aggregation_exchange clock agg_key agg_entity sub_keys sub_entities batches_proved w' Registered eq_refl Hw)
    as [(ss & _ & Hs & _ & He)|(proofs & Hp & He)].
  - rewrite He, length_app in Hl. unfold answered in Hl. rewrite length_zip_with in Hl. rewrite Hs in Hl. vm_compute in Hl. discriminate.
  - exists w', proofs. split; [exact Hp|exact He].
Defined.

(** A paused server while another client submits. *)
Definition paused_server : state :=
  mkServer (pause (served batches_proved)) [fun a => (act a key_fixture ent_fixture 7).1] [].

Lemma paused_server_ok : stays_paused paused_server.
Proof. split; [reflexivity|]. constructor; [|constructor]. intros a Ha. by rewrite act_paused. Qed.

Lemma paused_submits_nothing_witness : sent (serve clock config parse_hash parse_hash show (fun _ => true) (fun _ => node) (fun _ => None) show
  (ProofV2 body) paused_server).1 = [].
Proof.
  exact (paused_submits_nothing clock config parse_hash parse_hash show (fun _ => true) (fun _ => node) (fun _ => None) show (ProofV2 body)
    paused_server paused_server_ok).
Defined.

(** A batch without a number. *)
Definition unnumbered : Value := JObject [("l1_inclusion_block_number", JNumber 50)].
Definition no_id : Value := JObject [("batches", JArray [unnumbered])].
Lemma no_id_batches : as_array (index (merge (opt_to_value config) no_id) "batches") = Some [unnumbered].
Proof. vm_compute. reflexivity. Qed.
Lemma missing_batch_id_panics_witness :
  batch_handler clock config parse_hash parse_hash show (fun _ => true) (fun _ => node) (fun _ => None) (mkAuth "k" "n") no_id paused_server
  = (paused_server, Panic).
Proof.
  exact (missing_batch_id_panics clock config parse_hash parse_hash show (fun _ => true) (fun _ => node) (fun _ => None) (mkAuth "k" "n") no_id
    unnumbered [] paused_server no_id_batches eq_refl).
Defined.

Lemma prune_leaves_pending_witness : pending (queue (served (prune_handler batches_proved).1)) = [].
Proof. exact (prune_leaves_pending batches_proved eq_refl). Defined.

Definition submitted : state := mkServer (act actor_fixture key_fixture ent_fixture 1).1 [] [].
Definition resubmitted := (act (served (prune_handler submitted).1) key_fixture ent_fixture 2).1.

(** Pruning does not remove a request from the queue: a request that is
    submitted, pruned and submitted again is taken twice from the queue, also
    while its first run is still in progress. *)
Theorem pruned_request_runs_twice :
  let first := try_next (queue resubmitted) in
  first.2 = Some (key_fixture, ent_fixture) /\ (try_next first.1).2 = Some (key_fixture, ent_fixture) /\
  elements (working_in_progress (try_next first.1).1) = [key_fixture].
Proof. cbv zeta. split_and!; vm_compute; reflexivity. Qed.
End ServerExample.
