(* ===== verification/Routes.v ===== *)
(** * Routes: the router of the HTTP server

    Models the routers of [host/src/server/api/*.rs]: which handler answers a
    method and a path, behind which layers. A path is the list of its segments; the
    pages of the API documentation are served by libraries. Merging two routers
    that have a route in common panics, as the library does when it builds them. *)
From stdpp Require Import base list gmap strings.
From Stdlib Require Import Lia.
From S2P Require Import Prelude Text Types Interfaces Auth Server.
Local Open Scope string_scope.
Local Open Scope list_scope.

Inductive Method := GET | POST.
#[global] Instance Method_eq_dec : EqDecision Method.
Proof. solve_decision. Defined.

Inductive Handler :=
| ProofHandlerV1 | HealthHandler | MetricsHandler
| ProofHandlerV2 | CancelHandlerV2 | ReportHandler | ListHandler | PruneHandler
| ProofHandlerV3 | CancelHandlerV3 | BatchHandler | AggregationHandler | AggregationCancelHandler | AggregationPruneHandler | AggregationReportHandler
| PauseHandler | SetBallotHandler | GetBallotHandler
| SwaggerPage | OpenApiDocument | ScalarPage.

(** The layers around a handler. *)
Record Layers := mkLayers { limited : option Z; authenticated : bool }.
Definition no_layers : Layers := mkLayers None false.

Record Route := mkRoute { route_path : list string; route_method : Method; route_handler : Handler; route_layers : Layers }.
Definition Router : Type := list Route.

Definition route (path : list string) (m : Method) (h : Handler) : Router := [mkRoute path m h no_layers].
Definition nest_at (prefix : list string) (r : Router) : Router :=
  (fun x => mkRoute (prefix ++ route_path x) (route_method x) (route_handler x) (route_layers x)) <$> r.
Definition layered (f : Layers -> Layers) (r : Router) : Router :=
  (fun x => mkRoute (route_path x) (route_method x) (route_handler x) (f (route_layers x))) <$> r.
Definition key_of (x : Route) : list string * Method := (route_path x, route_method x).

(** Add routes to a router. *)
Definition with_routes (a b : Router) : outcome string Router :=
  if forallb (fun x => negb (existsb (fun y => bool_decide (key_of x = key_of y)) a)) b then Ok (a ++ b) else Panic.
Definition nested (a : Router) (prefix : list string) (b : Router) : outcome string Router := with_routes a (nest_at prefix b).

Definition docs_routes : Router := route ["swagger-ui"] GET SwaggerPage ++ route ["api-docs"; "openapi.json"] GET OpenApiDocument.
Definition scalar_routes : Router := route ["scalar"] GET ScalarPage.

(** ** The routers of the versions *)
Definition v1_router (concurrency_limit : Z) : outcome string Router :=
  r ← nested [] ["proof"] (layered (fun l => mkLayers (Some concurrency_limit) (authenticated l)) (route [] POST ProofHandlerV1));
  r ← with_routes r docs_routes;
  with_routes r scalar_routes.

Definition v2_proof_router : outcome string Router :=
  r ← nested (route [] POST ProofHandlerV2) ["cancel"] (route [] POST CancelHandlerV2);
  r ← nested r ["report"] (route [] GET ReportHandler);
  r ← nested r ["list"] (route [] GET ListHandler);
  nested r ["prune"] (route [] POST PruneHandler).
Definition v2_router : outcome string Router :=
  proof ← v2_proof_router;
  r ← nested [] ["proof"] proof;
  r ← nested r ["aggregate"] proof;
  r ← with_routes r docs_routes;
  with_routes r scalar_routes.

Definition aggregate_router : outcome string Router :=
  r ← nested (route [] POST AggregationHandler) ["cancel"] (route [] POST AggregationCancelHandler);
  r ← nested r ["prune"] (route [] POST AggregationPruneHandler);
  nested r ["report"] (route [] GET AggregationReportHandler).
Definition v3_proof_router : outcome string Router :=
  aggregate ← aggregate_router;
  r ← nested (route [] POST ProofHandlerV3) ["cancel"] (route [] POST CancelHandlerV3);
  r ← nested r ["aggregate"] aggregate;
  r ← nested r ["batch"] (route [] POST BatchHandler);
  r ← nested r ["report"] (route [] GET ReportHandler);
  r ← nested r ["list"] (route [] GET ListHandler);
  nested r ["prune"] (route [] POST PruneHandler).
Definition v3_router : outcome string Router :=
  proof ← v3_proof_router;
  r ← nested [] ["proof"] proof;
  r ← with_routes r docs_routes;
  with_routes r scalar_routes.

Definition admin_router : outcome string Router :=
  r ← with_routes (route ["pause"] POST PauseHandler) (route ["set_ballot"] POST SetBallotHandler);
  with_routes r (route ["get_ballot"] GET GetBallotHandler).

Definition public_routes : outcome string Router :=
  r ← nested [] [] (route [] GET HealthHandler);
  r ← nested r ["healthz"] (route [] GET HealthHandler);
  r ← nested r ["health"] (route [] GET HealthHandler);
  nested r ["metrics"] (route [] GET MetricsHandler).

(** [create_router]: the routes that are merged last are outside the layers. *)
Definition requires_auth (l : AuthLayer) : bool := match l with NoAuth => false | _ => true end.
Definition create_router (concurrency_limit : Z) (jwt_secret : option string) (api_key_store : option ApiKeyStore) : outcome string Router :=
  v1_api ← v1_router concurrency_limit;
  v2_api ← v2_router;
  v3_api ← v3_router;
  admin_api ← admin_router;
  r ← nested [] ["v1"] v1_api;
  r ← nested r ["v2"] v2_api;
  r ← nested r ["v3"] v3_api;
  r ← with_routes r v3_api;
  r ← nested r ["admin"] admin_api;
  let r := layered (fun l => mkLayers (limited l) (requires_auth (auth_layer jwt_secret api_key_store))) r in
  public ← public_routes;
  with_routes r public.

(** The handler of a request and its layers; nothing is the fallback or a method
    that is not allowed. *)
Definition dispatch (r : Router) (m : Method) (path : list string) : option (Handler * Layers) :=
  x ← List.find (fun x => bool_decide (key_of x = (path, m))) r;
  Some (route_handler x, route_layers x).

(** ** Properties *)
Definition is_public (h : Handler) : bool := match h with HealthHandler | MetricsHandler => true | _ => false end.

Lemma find_Some_In {A} (f : A -> bool) l x : List.find f l = Some x -> In x l /\ f x = true.
Proof. apply List.find_some. Qed.

(** The router is built without a clash of routes. Whatever the paths and
    methods, a request reaches a handler without authentication only for the health
    and the metrics of the server; the endpoints of version 3 are found with and
    without their prefix; and the limit of concurrent requests guards nothing but
    the deprecated endpoint of version 1. *)
Theorem routes_guarded limit jwt store : exists r, create_router limit jwt (Some store) = Ok r /\
  (forall m p h l, dispatch r m p = Some (h, l) -> authenticated l = negb (is_public h)) /\
  (forall m p x, dispatch r m ("v3" :: p) = Some x -> dispatch r m p = Some x) /\
  (forall m p h l n, dispatch r m p = Some (h, l) -> limited l = Some n -> h = ProofHandlerV1 /\ n = limit).
Proof.
  eexists. split; [reflexivity|]. split_and!.
  - intros m p h l. unfold dispatch. destruct (List.find _ _) as [x|] eqn:E; [|done]. apply find_Some_In in E as [E _]. intros [= <- <-].
    cbn in E. by repeat (destruct E as [<-|E]; [reflexivity|]).
  - intros m p x H. pose proof H as H0. unfold dispatch in H0. destruct (List.find _ _) as [y|] eqn:E; [|done]. apply find_Some_In in E as [E K].
    apply bool_decide_eq_true in K. cbn in E.
    by repeat (destruct E as [<-|E]; [first [discriminate K|injection K as <- <-; exact H]|]).
  - intros m p h l n. unfold dispatch. destruct (List.find _ _) as [x|] eqn:E; [|done]. apply find_Some_In in E as [E _]. intros [= <- <-].
    cbn in E. by repeat (destruct E as [<-|E]; [by intros [= <-]|]).
Qed.
