(* ===== verification/Options.v ===== *)
(** * Options: the configuration of the host

    Models [host/src/lib.rs] (the options of the command line, their merge with
    the configuration file, the chain specifications and the ballot), the start of
    the host in [host/src/bin/main.rs] and the cache of inputs of
    [host/src/cache.rs]. Parsing the words of the command line is the work of a
    library: an [Args] is what was given. Files and the texts of JSON are
    parameters. *)
From stdpp Require Import base list list_numbers gmap fin_maps strings.
From Stdlib Require Import ZArith Lia Ascii.
From S2P Require Import Prelude Text Effect Types Interfaces Request Lru Pool ChainSpec Ballot Mpt Input ProviderDb Rpc Actor Auth Server.
Local Open Scope string_scope.
Local Open Scope list_scope.
Local Open Scope Z_scope.

(** ** The options *)
Record Opts := mkOpts {
  o_address : string; o_concurrency_limit : Z; o_log_path : option string; o_max_log : Z; o_config_path : string;
  o_chain_spec_path : option string; o_cache_path : option string; o_log_level : string; o_proof_request_opt : ProofRequestOpt;
  o_jwt_secret : option string; o_max_db_size : Z; o_redis_url : string; o_redis_ttl : Z; o_enable_redis_pool : bool;
  o_queue_limit : Z; o_api_keys : string; o_ballot : string }.

(** What was given on the command line. *)
Record Args := mkArgs {
  a_address : option string; a_concurrency_limit : option Z; a_log_path : option string; a_max_log : option Z; a_config_path : option string;
  a_chain_spec_path : option string; a_cache_path : option string; a_log_level : option string; a_proof_request_opt : ProofRequestOpt;
  a_jwt_secret : option string; a_max_db_size : option Z; a_redis_url : option string; a_redis_ttl : option Z; a_enable_redis_pool : bool;
  a_queue_limit : option Z; a_api_keys : option string; a_ballot : option string }.

(** The attributes [default_value], and the variable [RUST_LOG]. *)
Definition opts_parse (rust_log : option string) (a : Args) : Opts :=
  mkOpts (option.default "0.0.0.0:8080" (a_address a)) (option.default 2 (a_concurrency_limit a)) (a_log_path a) (option.default 7 (a_max_log a))
    (option.default "host/config/config.json" (a_config_path a)) (a_chain_spec_path a) (a_cache_path a)
    (option.default (option.default "info" rust_log) (a_log_level a)) (a_proof_request_opt a) (a_jwt_secret a)
    (option.default 1048576 (a_max_db_size a)) (option.default "redis://localhost:6379" (a_redis_url a)) (option.default 3600 (a_redis_ttl a))
    (a_enable_redis_pool a) (option.default 1000 (a_queue_limit a)) (option.default "" (a_api_keys a)) (option.default "{}" (a_ballot a)).

Definition default_address : string := "0.0.0.0:8080".
Definition default_concurrency_limit : Z := 16.
Definition default_max_log : Z := 16.
Definition default_config_path : string := "host/config/config.json".
Definition default_log_level : string := "info".
Definition default_queue_limit : Z := 1000.

(** ** The options as JSON; a field that is missing and has no default of its own
    takes the one of the derived [Default]. *)
Definition own_entries (o : Opts) : list (string * Value) :=
  [("address", JString (o_address o)); ("concurrency_limit", JNumber (o_concurrency_limit o)); ("log_path", opt_value JString (o_log_path o));
   ("max_log", JNumber (o_max_log o)); ("config_path", JString (o_config_path o)); ("chain_spec_path", opt_value JString (o_chain_spec_path o));
   ("cache_path", opt_value JString (o_cache_path o)); ("log_level", JString (o_log_level o)); ("jwt_secret", opt_value JString (o_jwt_secret o));
   ("max_db_size", JNumber (o_max_db_size o)); ("redis_url", JString (o_redis_url o)); ("redis_ttl", JNumber (o_redis_ttl o));
   ("enable_redis_pool", JBool (o_enable_redis_pool o)); ("queue_limit", JNumber (o_queue_limit o)); ("api_keys", JString (o_api_keys o));
   ("ballot", JString (o_ballot o))].
Definition entries_of (v : Value) : list (string * Value) := match v with JObject m => m | _ => [] end.
Definition opts_to_value (o : Opts) : Value := JObject (own_entries o ++ entries_of (opt_to_value (o_proof_request_opt o))).

Definition opts_from_value (v : Value) : RaikoResult Opts :=
  request ← opt_from_value v;
  address ← default_field as_str default_address (Interfaces.get "address" v);
  concurrency_limit ← default_field as_u64 default_concurrency_limit (Interfaces.get "concurrency_limit" v);
  log_path ← opt_field as_str (Interfaces.get "log_path" v);
  max_log ← default_field as_u64 default_max_log (Interfaces.get "max_log" v);
  config_path ← default_field as_str default_config_path (Interfaces.get "config_path" v);
  chain_spec_path ← opt_field as_str (Interfaces.get "chain_spec_path" v);
  cache_path ← opt_field as_str (Interfaces.get "cache_path" v);
  log_level ← default_field as_str default_log_level (Interfaces.get "log_level" v);
  jwt_secret ← opt_field as_str (Interfaces.get "jwt_secret" v);
  max_db_size ← default_field as_u64 0 (Interfaces.get "max_db_size" v);
  redis_url ← default_field as_str "" (Interfaces.get "redis_url" v);
  redis_ttl ← default_field as_u64 0 (Interfaces.get "redis_ttl" v);
  enable_redis_pool ← default_field as_bool false (Interfaces.get "enable_redis_pool" v);
  queue_limit ← default_field as_u64 default_queue_limit (Interfaces.get "queue_limit" v);
  api_keys ← default_field as_str "" (Interfaces.get "api_keys" v);
  ballot ← default_field as_str "" (Interfaces.get "ballot" v);
  Ok (mkOpts address concurrency_limit log_path max_log config_path chain_spec_path cache_path log_level request jwt_secret max_db_size
        redis_url redis_ttl enable_redis_pool queue_limit api_keys ballot).

Section start.
(** The text of a file, its value, and the environment. *)
Variable open_file : string -> option string.
Variable json_of_text : string -> option Value.
Variable env_var : string -> option string.

Definition set_config_path (o : Opts) (path : string) : Opts :=
  mkOpts (o_address o) (o_concurrency_limit o) (o_log_path o) (o_max_log o) path (o_chain_spec_path o) (o_cache_path o) (o_log_level o)
    (o_proof_request_opt o) (o_jwt_secret o) (o_max_db_size o) (o_redis_url o) (o_redis_ttl o) (o_enable_redis_pool o) (o_queue_limit o)
    (o_api_keys o) (o_ballot o).
Definition merge_from_env (o : Opts) : Opts := match env_var "CONFIG_PATH" with Some path => set_config_path o path | None => o end.

Definition merge_opts_from_file (o : Opts) : HostResult Opts :=
  text ← ok_or (open_file (o_config_path o)) (Host.Anyhow "Failed to open config file");
  config ← ok_or (json_of_text text) (Host.Anyhow "Failed to read config file");
  map_err (fun _ => Host.Serde "invalid value") (opts_from_value (merge config (opts_to_value o))).

Definition parse_opts (a : Args) : HostResult Opts := merge_opts_from_file (merge_from_env (opts_parse (env_var "RUST_LOG") a)).

(** [SupportedChainSpecs::merge_from_file] and its default, and the configuration
    of the ballot in JSON. *)
Context {Specs C : Type} `{LC : LruCache bytes (option ProofType) C}.
Variable specs_of_file : string -> HostResult Specs.
Variable default_specs : Specs.
Variable ballot_of_json : string -> option BallotConfig.

Definition parse_chain_specs (o : Opts) : HostResult Specs :=
  match o_chain_spec_path o with Some path => unwrap_ok (specs_of_file path) | None => Ok default_specs end.

Definition parse_ballot (now : Z) (o : Opts) : HostResult (Ballot C) :=
  let probs := option.default [] (ballot_of_json (o_ballot o)) in
  ballot ← unwrap_ok (Ballot_new now probs);
  _ ← unwrap_ok (validate ballot);
  Ok ballot.

(** What [main] starts the actor and the server with. *)
Record Startup := mkStartup {
  st_pool : RedisPoolConfig; st_ballot : Ballot C; st_specs : Specs; st_default_request_config : ProofRequestOpt;
  st_max_proving_concurrency : Z; st_queue_limit : Z; st_address : string; st_jwt_secret : option string; st_api_keys : string }.

Definition host_main (now : Z) (a : Args) : HostResult Startup :=
  opts ← parse_opts a;
  specs ← parse_chain_specs opts;
  ballot ← parse_ballot now opts;
  Ok (mkStartup (mkConfig (o_redis_url opts) (o_redis_ttl opts) (o_enable_redis_pool opts)) ballot specs (o_proof_request_opt opts)
        (o_concurrency_limit opts) (o_queue_limit opts) (o_address opts) (o_jwt_secret opts) (o_api_keys opts)).
End start.

(** ** The cache of inputs *)
Section cache.
Context {W Tx : Type} `{P : BlockDataProvider}.
Variable file_read : string -> W -> option bytes.
Variable file_create : string -> St W string ().
Variable file_write : string -> bytes -> St W string ().
Variable path_join : string -> string -> string.
Variable input_to_bincode : GuestInput Tx -> outcome string bytes.
Variable input_of_bincode : bytes -> option (GuestInput Tx).
Variable header_hash_slow : Header -> bytes.

Definition get_input_path (dir : string) (block_number : Z) (network : string) : string :=
  path_join dir ("input-" +:+ network +:+ "-" +:+ print_u64 block_number +:+ ".bin").

Definition get_input (cache_path : option string) (block_number : Z) (network : string) (w : W) : option (GuestInput Tx) :=
  dir ← cache_path;
  b ← file_read (get_input_path dir block_number network) w;
  input_of_bincode b.

Definition set_input (cache_path : option string) (block_number : Z) (network : string) (input : GuestInput Tx) : St W HostError () :=
  match cache_path with
  | None => mret ()
  | Some dir =>
      let path := get_input_path dir block_number network in
      _ ← map_st_err Host.Io (file_create path);
      b ← lift (map_err Host.Anyhow (input_to_bincode input));
      map_st_err Host.Anyhow (file_write path b)
  end.

(** [t] is the time of the call of the provider. *)
Definition validate_input (cached_input : option (GuestInput Tx)) (t : nat) : HostResult (GuestInput Tx) :=
  match cached_input with
  | Some cache_input =>
      blocks ← map_err Host.Core (get_blocks t [(number (block_header (block cache_input)), false)]);
      first ← ok_or (head blocks) (Host.Core (Interfaces.RPC "No block data for the requested block"));
      real_block_hash ← unwrap (rpc_hash first);
      if bool_decide (header_hash_slow (block_header (block cache_input)) = real_block_hash) then Ok cache_input
      else Err (Host.InvalidRequestConfig "Cached input is not valid")
  | None => Err (Host.InvalidRequestConfig "Cached input is not enabled")
  end.
End cache.

(** ** Properties *)

(** An option that is set on the command line wins; one that is not is read from
    the file. *)
Definition file_opt {A} (dec : Value -> option A) (own : option A) (o : option Value) : RaikoResult (option A) :=
  match own with Some a => Ok (Some a) | None => opt_field dec o end.
Definition file_arg (own o : option Value) : option Value :=
  match own with
  | Some v => Some (merge (option.default JNull o) v)
  | None => match o with Some JNull => None | _ => o end
  end.
Definition args_over (own : ProverSpecificOpts) (file : Value) : ProverSpecificOpts :=
  mkProverSpecificOpts (file_arg (opt_native own) (Interfaces.get "native" file)) (file_arg (opt_sgx own) (Interfaces.get "sgx" file))
    (file_arg (opt_sgxgeth own) (Interfaces.get "sgxgeth" file)) (file_arg (opt_sp1 own) (Interfaces.get "sp1" file))
    (file_arg (opt_risc0 own) (Interfaces.get "risc0" file)).
Definition request_over (own : ProofRequestOpt) (file : Value) : RaikoResult ProofRequestOpt :=
  block_number ← file_opt as_u64 (ro_block_number own) (Interfaces.get "block_number" file);
  batch_id ← file_opt as_u64 (ro_batch_id own) (Interfaces.get "batch_id" file);
  l1 ← file_opt as_u64 (ro_l1_inclusion_block_number own) (Interfaces.get "l1_inclusion_block_number" file);
  l2 ← file_opt (dec_list as_u64) (ro_l2_block_numbers own) (Interfaces.get "l2_block_numbers" file);
  network ← file_opt as_str (ro_network own) (Interfaces.get "network" file);
  l1_network ← file_opt as_str (ro_l1_network own) (Interfaces.get "l1_network" file);
  graffiti ← file_opt as_str (ro_graffiti own) (Interfaces.get "graffiti" file);
  prover ← file_opt as_str (ro_prover own) (Interfaces.get "prover" file);
  proof_type ← file_opt as_str (ro_proof_type own) (Interfaces.get "proof_type" file);
  blob_proof_type ← file_opt as_str (ro_blob_proof_type own) (Interfaces.get "blob_proof_type" file);
  Ok (mkProofRequestOpt block_number batch_id l1 l2 network l1_network graffiti prover proof_type blob_proof_type
        (args_over (ro_prover_args own) file)).

(** What remains of a configuration file: the request options, and the four
    options that have no default on the command line. *)
Definition opts_over (own : Opts) (file : Value) : RaikoResult Opts :=
  request ← request_over (o_proof_request_opt own) file;
  log_path ← file_opt as_str (o_log_path own) (Interfaces.get "log_path" file);
  chain_spec_path ← file_opt as_str (o_chain_spec_path own) (Interfaces.get "chain_spec_path" file);
  cache_path ← file_opt as_str (o_cache_path own) (Interfaces.get "cache_path" file);
  jwt_secret ← file_opt as_str (o_jwt_secret own) (Interfaces.get "jwt_secret" file);
  Ok (mkOpts (o_address own) (o_concurrency_limit own) log_path (o_max_log own) (o_config_path own) chain_spec_path cache_path
        (o_log_level own) request jwt_secret (o_max_db_size own) (o_redis_url own) (o_redis_ttl own) (o_enable_redis_pool own)
        (o_queue_limit own) (o_api_keys own) (o_ballot own)).

Definition opts_ok (o : Opts) : bool :=
  ro_wf (o_proof_request_opt o) && forallb u64b [o_concurrency_limit o; o_max_log o; o_max_db_size o; o_redis_ttl o; o_queue_limit o].

Lemma merge_over a b : is_object b = false -> is_null b = false -> merge a b = b.
Proof. by destruct b. Qed.

Section fields.
Variables (file own : list (string * Value)) (k : string).
Hypothesis own_unique : NoDup own.*1.

Lemma over_field {A} p enc dec (cur : option A) : codec p enc dec -> opt_wfb p cur = true -> assoc k own = Some (opt_value enc cur) ->
  opt_field dec (Interfaces.get k (JObject (merge_entries file own))) = file_opt dec cur (assoc k file).
Proof.
  intros Hc Hp Ha. cbn [Interfaces.get]. rewrite merge_entries_assoc, Ha by done. destruct cur as [a|]; cbn [opt_value file_opt].
  - destruct (Hc a Hp) as (Hd & Ho & Hn). rewrite merge_over by done. destruct (enc a) eqn:E; try done; cbn; by rewrite Hd.
  - rewrite merge_null_r. by destruct (assoc k file) as [[]|].
Qed.
Lemma over_str cur : assoc k own = Some (opt_value JString cur) ->
  opt_field as_str (Interfaces.get k (JObject (merge_entries file own))) = file_opt as_str cur (assoc k file).
Proof. apply over_field with (p := fun _ => true); [done|by destruct cur]. Qed.

Lemma over_arg cur : arg_wf cur = true -> assoc k own = Some (opt_value id cur) ->
  opt_field Some (Interfaces.get k (JObject (merge_entries file own))) = Ok (file_arg cur (assoc k file)).
Proof.
  intros Hw Ha. cbn [Interfaces.get]. rewrite merge_entries_assoc, Ha by done. destruct cur as [v|]; cbn [opt_value id file_arg].
  - assert (is_null v = false) as Hn by (by destruct v). pose proof (is_null_merge (option.default JNull (assoc k file)) v Hn).
    by destruct (merge _ v) eqn:E.
  - rewrite merge_null_r. by destruct (assoc k file) as [[]|].
Qed.

(** An option with a default on the command line never takes the value of the file. *)
Lemma own_value {A} (dec : Value -> option A) v d a : assoc k own = Some v -> is_object v = false -> is_null v = false -> dec v = Some a ->
  default_field dec d (Interfaces.get k (JObject (merge_entries file own))) = Ok a.
Proof. intros Ha Ho Hn Hd. cbn [Interfaces.get]. rewrite merge_entries_assoc, Ha by done. rewrite merge_over by done. cbn. by rewrite Hd. Qed.
End fields.

Lemma own_entries_unique o : NoDup (own_entries o ++ entries_of (opt_to_value (o_proof_request_opt o))).*1.
Proof. by apply (bool_decide_eq_true_1 (NoDup _)). Qed.

Lemma args_over_merged file own : NoDup own.*1 -> forall o, opts_wf o = true ->
  (forall k, k ∈ (opts_entries o).*1 -> assoc k own = assoc k (opts_entries o)) ->
  opts_from (JObject (merge_entries file own)) = Ok (args_over o (JObject file)).
Proof.
  intros Hn o Hw Ha. unfold opts_wf in Hw. breflect. unfold opts_from.
  rewrite (over_arg file own "native" Hn (opt_native o)), (over_arg file own "sgx" Hn (opt_sgx o)),
    (over_arg file own "sgxgeth" Hn (opt_sgxgeth o)), (over_arg file own "sp1" Hn (opt_sp1 o)),
    (over_arg file own "risc0" Hn (opt_risc0 o)); try done; apply Ha; cbn; set_solver.
Qed.

Lemma request_over_merged file own r : NoDup own.*1 -> ro_wf r = true ->
  (forall k, k ∈ (entries_of (opt_to_value r)).*1 -> assoc k own = assoc k (entries_of (opt_to_value r))) ->
  opt_from_value (JObject (merge_entries file own)) = request_over r (JObject file).
Proof.
  intros Hn Hw Ha. unfold ro_wf in Hw. breflect. unfold opt_from_value, request_over. cbn [mbind outcome_bind].
  pose proof codec_u64. pose proof (codec_list _ _ _ codec_u64).
  rewrite (over_field file own "block_number" Hn u64b JNumber _ (ro_block_number r)),
    (over_field file own "batch_id" Hn u64b JNumber _ (ro_batch_id r)),
    (over_field file own "l1_inclusion_block_number" Hn u64b JNumber _ (ro_l1_inclusion_block_number r)),
    (over_field file own "l2_block_numbers" Hn (forallb u64b) (fun l => JArray (JNumber <$> l)) _ (ro_l2_block_numbers r));
    try done; try (rewrite Ha; [done|cbn; set_solver]).
  rewrite (over_str file own "network" Hn (ro_network r)), (over_str file own "l1_network" Hn (ro_l1_network r)),
    (over_str file own "graffiti" Hn (ro_graffiti r)), (over_str file own "prover" Hn (ro_prover r)),
    (over_str file own "proof_type" Hn (ro_proof_type r)), (over_str file own "blob_proof_type" Hn (ro_blob_proof_type r));
    try done; try (rewrite Ha; [done|cbn; set_solver]).
  rewrite (args_over_merged file own Hn (ro_prover_args r)); [|done|].
  - by repeat (case_match; try done).
  - intros k Hk. rewrite Ha; [|cbn in *; set_solver]. cbn in Hk. set_unfold in Hk. by destruct_or?; subst.
Qed.

(** The entries of the options of the command line. *)
Definition all_entries (o : Opts) : list (string * Value) := own_entries o ++ entries_of (opt_to_value (o_proof_request_opt o)).
Lemma all_entries_own o k v : assoc k (own_entries o) = Some v -> assoc k (all_entries o) = Some v.
Proof. unfold all_entries. generalize (own_entries o). induction l as [|[k' v'] l IH]; [done|]. cbn. by case_bool_decide. Qed.
Lemma all_entries_request o k : k ∈ (entries_of (opt_to_value (o_proof_request_opt o))).*1 ->
  assoc k (all_entries o) = assoc k (entries_of (opt_to_value (o_proof_request_opt o))).
Proof. intros Hk. cbn in Hk. set_unfold in Hk. by destruct_or?; subst. Qed.

Section over.
Variables (file : list (string * Value)) (o : Opts).
Hypothesis ok : opts_ok o = true.
Abbreviation merged := (JObject (merge_entries file (all_entries o))).

Lemma over_text k d s : assoc k (own_entries o) = Some (JString s) -> default_field as_str d (Interfaces.get k merged) = Ok s.
Proof. intros Hk. by apply (own_value _ _ _ (own_entries_unique o) _ (JString s)); [apply all_entries_own|..]. Qed.
Lemma over_number k d n : assoc k (own_entries o) = Some (JNumber n) -> u64b n = true -> default_field as_u64 d (Interfaces.get k merged) = Ok n.
Proof. intros Hk Hn. apply (own_value _ _ _ (own_entries_unique o) _ (JNumber n)); [by apply all_entries_own|done..|]. cbn. by rewrite Hn. Qed.
Lemma over_bool k d b : assoc k (own_entries o) = Some (JBool b) -> default_field as_bool d (Interfaces.get k merged) = Ok b.
Proof. intros Hk. by apply (own_value _ _ _ (own_entries_unique o) _ (JBool b)); [apply all_entries_own|..]. Qed.
Lemma over_path k p : assoc k (own_entries o) = Some (opt_value JString p) ->
  opt_field as_str (Interfaces.get k merged) = file_opt as_str p (assoc k file).
Proof. intros Hk. apply (over_str _ _ _ (own_entries_unique o)). by apply all_entries_own. Qed.
Lemma over_request : opt_from_value merged = request_over (o_proof_request_opt o) (JObject file).
Proof.
  apply (request_over_merged _ _ _ (own_entries_unique o)); [|apply all_entries_request]. unfold opts_ok in ok. by breflect.
Qed.
End over.

(** C33: Merging the configuration file into the options of the command line, by way
    of JSON, leaves every option that has a default on the command line as it is,
    whatever the file says: only the paths of the log, of the chain specifications
    and of the cache, the secret of the server and the request options are read
    from the file, each when the command line does not set it; the settings of each
    prover are merged in depth, with those of the command line on top. *)
Theorem config_file_fills_options file own : opts_ok own = true ->
  opts_from_value (merge (JObject file) (opts_to_value own)) = opts_over own (JObject file).
Proof.
  intros Hok. pose proof Hok as Hw. unfold opts_ok in Hw. cbn [forallb] in Hw. breflect.
  unfold opts_to_value. rewrite merge_object. fold (all_entries own). unfold opts_from_value, opts_over. rewrite (over_request _ _ Hok).
  rewrite (over_text _ _ "address" _ (o_address own) eq_refl), (over_number _ _ "concurrency_limit" _ (o_concurrency_limit own) eq_refl),
    (over_path _ _ "log_path" (o_log_path own) eq_refl), (over_number _ _ "max_log" _ (o_max_log own) eq_refl),
    (over_text _ _ "config_path" _ (o_config_path own) eq_refl), (over_path _ _ "chain_spec_path" (o_chain_spec_path own) eq_refl),
    (over_path _ _ "cache_path" (o_cache_path own) eq_refl), (over_text _ _ "log_level" _ (o_log_level own) eq_refl),
    (over_path _ _ "jwt_secret" (o_jwt_secret own) eq_refl), (over_number _ _ "max_db_size" _ (o_max_db_size own) eq_refl),
    (over_text _ _ "redis_url" _ (o_redis_url own) eq_refl), (over_number _ _ "redis_ttl" _ (o_redis_ttl own) eq_refl),
    (over_bool _ _ "enable_redis_pool" _ (o_enable_redis_pool own) eq_refl), (over_number _ _ "queue_limit" _ (o_queue_limit own) eq_refl),
    (over_text _ _ "api_keys" _ (o_api_keys own) eq_refl), (over_text _ _ "ballot" _ (o_ballot own) eq_refl) by done.
  reflexivity.
Qed.

(** A ballot that cannot be read is an empty one: the host starts and never draws
    a zkVM. *)
Lemma unreadable_ballot_is_empty {C : Type} `{LC : LruCache bytes (option ProofType) C} ballot_of_json now o : ballot_of_json (o_ballot o) = None ->
  exists b : Ballot C, parse_ballot ballot_of_json now o = Ok b /\ ballot_probabilities b = [].
Proof. intros Hn. unfold parse_ballot. rewrite Hn. by eexists. Qed.

Section cached.
Context {W Tx : Type} `{P : BlockDataProvider}.
Variable file_read : string -> W -> option bytes.
Variable file_create : string -> St W string ().
Variable file_write : string -> bytes -> St W string ().
Variable path_join : string -> string -> string.
Variable input_to_bincode : GuestInput Tx -> outcome string bytes.
Variable input_of_bincode : bytes -> option (GuestInput Tx).
Variable header_hash_slow : Header -> bytes.
Hypothesis bincode_read : forall i b, input_to_bincode i = Ok b -> input_of_bincode b = Some i.
Hypothesis written_read : forall p b w w', file_write p b w = (w', Ok ()) -> file_read p w' = Some b.

Lemma cached_input_found dir n net i w w' : set_input file_create file_write path_join input_to_bincode (Some dir) n net i w = (w', Ok ()) ->
  get_input file_read path_join input_of_bincode (Some dir) n net w' = Some i.
Proof.
  intros Hs. unfold set_input in Hs. op_inv. destruct (input_to_bincode i) as [bs|e|] eqn:Ei; simplify_eq/=.
  unfold map_st_err in Hs. destruct (file_write _ _ _) as [w2 [[]|e|]] eqn:Ew; simplify_eq/=.
  unfold get_input. cbn. rewrite (written_read _ _ _ _ Ew). cbn. by apply bincode_read.
Qed.

(** An input that was cached is found under its block and network, and is used as
    long as the node has the block with the hash of the input. *)
Lemma cached_input_reused dir n net i w w' t b : set_input file_create file_write path_join input_to_bincode (Some dir) n net i w = (w', Ok ()) ->
  get_blocks t [(number (block_header (block i)), false)] = Ok [b] -> rpc_hash b = Some (header_hash_slow (block_header (block i))) ->
  validate_input header_hash_slow (get_input file_read path_join input_of_bincode (Some dir) n net w') t = Ok i.
Proof.
  intros Hs Hb Hh. rewrite (cached_input_found _ _ _ _ _ _ Hs). unfold validate_input. rewrite Hb. cbn. rewrite Hh. cbn. by rewrite bool_decide_eq_true_2.
Qed.
End cached.

(** ** Witnesses *)
Definition example_args : Args :=
  mkArgs None None None None None None None None (mkProofRequestOpt None None None None (Some "taiko_a7") None None None None None
    (mkProverSpecificOpts None None None None None)) None None None None false None None None.
Definition example_opts : Opts := opts_parse None example_args.
Definition example_file : list (string * Value) :=
  [("network", JString "taiko_mainnet"); ("proof_type", JString "sgx"); ("concurrency_limit", JNumber 64); ("cache_path", JString "/tmp")].
Lemma config_file_fills_options_witness :
  opts_from_value (merge (JObject example_file) (opts_to_value example_opts)) = opts_over example_opts (JObject example_file) /\
  (o_concurrency_limit <$> opts_over example_opts (JObject example_file)) = Ok 2 /\
  (o_cache_path <$> opts_over example_opts (JObject example_file)) = Ok (Some "/tmp").
Proof. split; [apply (config_file_fills_options example_file example_opts); reflexivity|split; reflexivity]. Defined.
