(* ===== verification/Pipeline.v ===== *)
(** * Pipeline: the commands that build the guest programs

    Models [pipeline/src] ([builder.rs], [executor.rs], [risc0_util.rs]): which
    command of the package manager builds a guest, in which environment, how the
    artifacts are found in its output and where they are placed. Processes, files
    and the zkVM tools are the operations of a machine; a path is its text. *)
From stdpp Require Import base list gmap fin_maps strings.
From Stdlib Require Import ZArith Lia Ascii.
From S2P Require Import Prelude Text Effect Types Risc0.
Local Open Scope string_scope.
Local Open Scope list_scope.

(** ** Packages *)
Record Target := mkTarget { t_name : string; t_kind : list string; t_test : bool }.
Record Metadata := mkMetadata { packages : list (list Target); target_directory : string }.

Definition targets_of (p : Target -> bool) (m : Metadata) : list Target :=
  foldl (fun acc targets => acc ++ List.filter p targets) [] (packages m).
Definition has_kind (k : string) (t : Target) : bool := existsb (fun x => bool_decide (x = k)) (t_kind t).
Definition tests (m : Metadata) : list Target := targets_of t_test m.
Definition bins (m : Metadata) : list Target := targets_of (has_kind "bin") m.
Definition benchs (m : Metadata) : list Target := targets_of (has_kind "bench") m.
Definition libs (m : Metadata) : list Target := targets_of (has_kind "lib") m.
Definition build_scripts (m : Metadata) : list Target := targets_of (has_kind "custom-build") m.
Definition get_tests (m : Metadata) (names : list string) : list string :=
  t_name <$> List.filter (fun t => existsb (fun n => contains_text n (t_name t)) names) (tests m).
Definition get_bins (m : Metadata) (names : list string) : list string :=
  t_name <$> List.filter (fun t => existsb (fun n => contains_text n (t_name t)) names) (bins m).

(** ** Commands

    The changes of the environment are kept per variable, the last one counts. *)
Record Command := mkCommand { cmd_program : string; cmd_args : list string; cmd_env : gmap string (option string); cmd_dir : option string }.
Definition Command_new (program : string) : Command := mkCommand program [] ∅ None.
Definition env_set (c : Command) (k v : string) : Command := mkCommand (cmd_program c) (cmd_args c) (<[k := Some v]> (cmd_env c)) (cmd_dir c).
Definition env_remove (c : Command) (k : string) : Command := mkCommand (cmd_program c) (cmd_args c) (<[k := None]> (cmd_env c)) (cmd_dir c).
Definition with_args (c : Command) (args : list string) : Command := mkCommand (cmd_program c) (cmd_args c ++ args) (cmd_env c) (cmd_dir c).
Definition current_dir (c : Command) (d : string) : Command := mkCommand (cmd_program c) (cmd_args c) (cmd_env c) (Some d).

(** What the process finds in a variable. *)
Definition child_var (c : Command) (vars : gmap string string) (k : string) : option string :=
  match cmd_env c !! k with Some v => v | None => vars !! k end.

Definition starts_with (p s : string) : bool := String.prefix p s.
Definition cargo_vars (vars : gmap string string) : list string := List.filter (starts_with "CARGO") (map_to_list vars).*1.

Definition sanitized_cmd (vars : gmap string string) (tool : string) : Command :=
  env_remove (foldl env_remove (Command_new tool) (cargo_vars vars)) "RUSTUP_TOOLCHAIN".

(** ** The builder *)
Record CommandBuilder := mkCommandBuilder {
  meta : Metadata; cb_target : string; cb_sanitized_env : list string; cargo : option string; rustc : option string;
  cb_rust_flags : option (list string); cb_rust_cfgs : option (list string); cb_z_flags : option (list string);
  cb_cc_compiler : option string; cb_c_flags : option (list string); cb_custom_args : list string; cb_custom_env : gmap string string }.

Definition unset_cargo (b : CommandBuilder) : CommandBuilder :=
  mkCommandBuilder (meta b) (cb_target b) (cb_sanitized_env b) None (rustc b) (cb_rust_flags b) (cb_rust_cfgs b) (cb_z_flags b)
    (cb_cc_compiler b) (cb_c_flags b) (cb_custom_args b) (cb_custom_env b).
Definition unset_rustc (b : CommandBuilder) : CommandBuilder :=
  mkCommandBuilder (meta b) (cb_target b) (cb_sanitized_env b) (cargo b) None (cb_rust_flags b) (cb_rust_cfgs b) (cb_z_flags b)
    (cb_cc_compiler b) (cb_c_flags b) (cb_custom_args b) (cb_custom_env b).
Definition sanitized_env (b : CommandBuilder) (env_vars : list string) : CommandBuilder :=
  mkCommandBuilder (meta b) (cb_target b) env_vars (cargo b) (rustc b) (cb_rust_flags b) (cb_rust_cfgs b) (cb_z_flags b)
    (cb_cc_compiler b) (cb_c_flags b) (cb_custom_args b) (cb_custom_env b).
Definition rust_flags (b : CommandBuilder) (flags : list string) : CommandBuilder :=
  mkCommandBuilder (meta b) (cb_target b) (cb_sanitized_env b) (cargo b) (rustc b) (Some flags) (cb_rust_cfgs b) (cb_z_flags b)
    (cb_cc_compiler b) (cb_c_flags b) (cb_custom_args b) (cb_custom_env b).
Definition rust_cfgs (b : CommandBuilder) (flags : list string) : CommandBuilder :=
  mkCommandBuilder (meta b) (cb_target b) (cb_sanitized_env b) (cargo b) (rustc b) (cb_rust_flags b) (Some flags) (cb_z_flags b)
    (cb_cc_compiler b) (cb_c_flags b) (cb_custom_args b) (cb_custom_env b).
Definition z_flags (b : CommandBuilder) (flags : list string) : CommandBuilder :=
  mkCommandBuilder (meta b) (cb_target b) (cb_sanitized_env b) (cargo b) (rustc b) (cb_rust_flags b) (cb_rust_cfgs b) (Some flags)
    (cb_cc_compiler b) (cb_c_flags b) (cb_custom_args b) (cb_custom_env b).
Definition cc_compiler (b : CommandBuilder) (compiler : string) : CommandBuilder :=
  mkCommandBuilder (meta b) (cb_target b) (cb_sanitized_env b) (cargo b) (rustc b) (cb_rust_flags b) (cb_rust_cfgs b) (cb_z_flags b)
    (Some compiler) (cb_c_flags b) (cb_custom_args b) (cb_custom_env b).
Definition c_flags (b : CommandBuilder) (flags : list string) : CommandBuilder :=
  mkCommandBuilder (meta b) (cb_target b) (cb_sanitized_env b) (cargo b) (rustc b) (cb_rust_flags b) (cb_rust_cfgs b) (cb_z_flags b)
    (cb_cc_compiler b) (Some flags) (cb_custom_args b) (cb_custom_env b).
Definition custom_args (b : CommandBuilder) (args : list string) : CommandBuilder :=
  mkCommandBuilder (meta b) (cb_target b) (cb_sanitized_env b) (cargo b) (rustc b) (cb_rust_flags b) (cb_rust_cfgs b) (cb_z_flags b)
    (cb_cc_compiler b) (cb_c_flags b) args (cb_custom_env b).
Definition custom_env (b : CommandBuilder) (env : gmap string string) : CommandBuilder :=
  mkCommandBuilder (meta b) (cb_target b) (cb_sanitized_env b) (cargo b) (rustc b) (cb_rust_flags b) (cb_rust_cfgs b) (cb_z_flags b)
    (cb_cc_compiler b) (cb_c_flags b) (cb_custom_args b) env.

Definition format_flags (flag : string) (items : list string) : list string := foldl (fun res i => res ++ [flag; i]) [] items.
Fixpoint join_texts (sep : string) (l : list string) : string :=
  match l with [] => "" | [x] => x | x :: rest => x +:+ sep +:+ join_texts sep rest end.
Fixpoint ends_with_slash (s : string) : bool :=
  match s with "" => false | String c "" => bool_decide (c = "/"%char) | String _ rest => ends_with_slash rest end.
Definition path_join (a b : string) : string :=
  if starts_with "/" b then b else if bool_decide (a = "") || ends_with_slash a then a +:+ b else a +:+ "/" +:+ b.

Definition extend_custom (b : CommandBuilder) (c : Command) (args : list string) : Command * list string :=
  (foldl (fun c '(k, v) => env_set c k v) c (map_to_list (cb_custom_env b)), args ++ cb_custom_args b).
Definition sanitize (b : CommandBuilder) (vars : gmap string string) (c : Command) (filter_cargo : bool) : Command :=
  foldl env_remove (if filter_cargo then foldl env_remove c (cargo_vars vars) else c) (cb_sanitized_env b).

(** The libraries and binaries among the names: a library is one whose name is part
    of a given name; a given name is left out only if it is exactly its name. *)
Definition target_flags (b : CommandBuilder) (names : list string) : list string :=
  if bool_decide (names = []) then []
  else
    let found := t_name <$> List.filter (fun t => existsb (fun n => contains_text (t_name t) n) names) (libs (meta b)) in
    format_flags "--lib" found ++ format_flags "--bin" (List.filter (fun n => negb (existsb (fun l => bool_decide (l = n)) found)) names).

(** The separator of encoded flags is the unit separator. *)
Definition unit_separator : string := String (ascii_of_nat 31) "".
Definition or_empty (o : option (list string)) (flag : string) : list string := match o with Some l => format_flags flag l | None => [] end.
Definition env_opt (c : Command) (k : string) (v : option string) : Command := match v with Some v => env_set c k v | None => c end.

Definition inner_command (root_dir : option string) (vars : gmap string string) (b : CommandBuilder) (args : list string) (profile : string)
    (names : list string) : outcome string Command :=
  let args := args ++ (if bool_decide (profile = "debug") then [] else ["--" +:+ profile]) ++ ["--target"; cb_target b]
    ++ target_flags b names ++ or_empty (cb_z_flags b) "-Z" in
  let cmd := sanitize b vars (Command_new (option.default "cargo" (cargo b))) true in
  root ← unwrap root_dir;
  let cmd := env_set (current_dir cmd root) "RUSTC" (option.default "rustc" (rustc b)) in
  let encoded_flags := or_empty (cb_rust_flags b) "-C" ++ or_empty (cb_rust_cfgs b) "--cfg" in
  let cmd := env_set cmd "CARGO_ENCODED_RUSTFLAGS" (join_texts unit_separator encoded_flags) in
  let cmd := env_opt cmd "CC" (cb_cc_compiler b) in
  let cmd := env_opt cmd ("CC_" +:+ cb_target b) (join_texts " " <$> cb_c_flags b) in
  let '(cmd, args) := extend_custom b cmd args in
  Ok (with_args cmd args).

Record Executor := mkExecutor { ex_cmd : Command; ex_artifacts : list string; ex_test : bool }.

Definition artifacts_in (dir : string) (ts : list Target) (names : list string) : list string :=
  (fun t => path_join dir (t_name t)) <$> List.filter (fun t => existsb (fun n => contains_text (t_name t) n) names) ts.
Definition build_command (root_dir : option string) (vars : gmap string string) (b : CommandBuilder) (profile : string) (names : list string) :
    outcome string Executor :=
  cmd ← inner_command root_dir vars b ["build"] profile names;
  let target_path := path_join (path_join (target_directory (meta b)) (cb_target b)) profile in
  Ok (mkExecutor cmd (artifacts_in target_path (bins (meta b)) names) false).
Definition test_command (root_dir : option string) (vars : gmap string string) (b : CommandBuilder) (profile : string) (names : list string) :
    outcome string Executor :=
  cmd ← inner_command root_dir vars b ["test"; "--no-run"] profile names;
  let target_path := path_join (path_join (path_join (target_directory (meta b)) (cb_target b)) profile) "deps" in
  Ok (mkExecutor cmd (artifacts_in target_path (tests (meta b)) names) true).

(** ** The executor *)

(** The first group in parentheses that is not empty. *)
Fixpoint until_close (s : string) : option string :=
  match s with
  | "" => None
  | String c rest => if bool_decide (c = ")"%char) then Some "" else String c <$> until_close rest
  end.
Fixpoint extract_path (line : string) : option string :=
  match line with
  | "" => None
  | String c rest =>
      if bool_decide (c = "("%char) then
        match until_close rest with Some (String d p) => Some (String d p) | _ => extract_path rest end
      else extract_path rest
  end.

Fixpoint split_on (sep : ascii) (s : string) : list string :=
  match s with
  | "" => [""]
  | String c rest =>
      if bool_decide (c = sep) then "" :: split_on sep rest
      else match split_on sep rest with x :: l => String c x :: l | [] => [String c ""] end
  end.
Definition file_name (path : string) : outcome string string :=
  match last (List.filter (fun x => negb (bool_decide (x = "")) && negb (bool_decide (x = "."))) (split_on "/"%char path)) with
  | Some name => if bool_decide (name = "..") then Panic else Ok name
  | None => Panic
  end.
Fixpoint replace_char (a b : ascii) (s : string) : string :=
  match s with "" => "" | String c rest => String (if bool_decide (c = a) then b else c) (replace_char a b rest) end.

(** [artifacts.iter_mut().find(..)] and the assignment; nothing when there is none. *)
Fixpoint replace_artifact (test_name test : string) (artifacts : list string) : outcome string (option (list string)) :=
  match artifacts with
  | [] => Ok None
  | a :: rest =>
      name ← file_name a;
      if contains_text (replace_char "-"%char "_"%char name) test_name then Ok (Some (test :: rest))
      else r ← replace_artifact test_name test rest; Ok (option_map (cons a) r)
  end.

(** The lines of the process on its error output; [None] is one that is not text. *)
Fixpoint read_lines (test : bool) (artifacts : list string) (lines : list (option string)) : outcome string (list string) :=
  match lines with
  | [] => Ok artifacts
  | None :: _ => Panic
  | Some line :: rest =>
      artifacts ← (if test && contains_text "Executable unittests" line then
                     match extract_path line with
                     | Some path =>
                         name ← (match artifacts with [] => Ok "" | _ => file_name path end);
                         r ← replace_artifact name path artifacts;
                         ok_or r "Failed to find test artifact"
                     | None => Ok artifacts
                     end
                   else Ok artifacts);
      read_lines test artifacts rest
  end.

(** A finished process: whether its output was text, its error lines, and its
    status; a process that fails ends this one with its code. *)
Record Finished := mkFinished { out_is_text : bool; err_lines : list (option string); exit_code : option Z }.
Inductive Executed := Continued (e : Executor) | Exits (code : Z).
Definition execute (spawn : Command -> option Finished) (e : Executor) : outcome string Executed :=
  p ← unwrap (spawn (ex_cmd e));
  artifacts ← read_lines (ex_test e) (ex_artifacts e) (err_lines p);
  _ ← assert (out_is_text p);
  Ok (if bool_decide (exit_code p = Some 0%Z) then Continued (mkExecutor (ex_cmd e) artifacts (ex_test e))
      else Exits (option.default 1%Z (exit_code p))).

(** ** Placing the artifacts *)
Definition placed_name (test : bool) (src : string) : outcome string string :=
  name ← file_name src;
  Ok (if test then "test-" +:+ option.default "" (head (split_on "-"%char name)) else name).

Class BuildMachine (W : Type) := {
  path_exists : string -> W -> bool;
  create_dir_all : string -> St W string ();
  copy_file : string -> string -> St W string ();
  file_read : string -> St W string bytes;
  create_file : string -> St W string ();
  write_file : string -> bytes -> St W string ();
  canonicalize : string -> St W string string;
  (** the path of a file relative to a directory *)
  diff_paths : string -> string -> option string;
  program_encode : bytes -> bytes;
  elf_image_id : bytes -> outcome string (list Z);
  to_upper : string -> string;
  words_text : list Z -> string;
  build_text_bytes : string -> bytes;
  sp1_setup : bytes -> outcome string ();
  (** [rustup] run for a tool: whether it succeeded, and its output *)
  rustup_which : Command -> St W string (bool * bytes);
  utf8 : bytes -> option string
}.

Section machine.
Context {W : Type} `{BM : BuildMachine W}.
Variable root_dir : option string.
Variable vars : gmap string string.

Definition get_path_buf (tool toolchain : string) : St W string (option string) := fun w =>
  match rustup_which (with_args (sanitized_cmd vars "rustup") ["+" +:+ toolchain; "which"; tool]) w with
  | (w', Ok (true, stdout)) => (w', Ok (trim <$> utf8 stdout))
  | (w', Panic) => (w', Panic)
  | (w', _) => (w', Ok None)
  end.
Definition CommandBuilder_new (m : Metadata) (target toolchain : string) : St W string CommandBuilder :=
  c ← get_path_buf "cargo" toolchain;
  r ← get_path_buf "rustc" toolchain;
  mret (mkCommandBuilder m target [] c r None None None None None [] ∅).

Definition must {A} (m : St W string A) : St W string A := fun w => let '(w', r) := m w in (w', unwrap_ok r).
Definition make_dir (dest : string) : St W string () := fun w => if path_exists dest w then (w, Ok ()) else must (create_dir_all dest) w.

Fixpoint for_artifacts (f : string -> St W string ()) (l : list string) : St W string () :=
  match l with [] => mret () | a :: rest => _ ← f a; for_artifacts f rest end.

Definition place_sp1 (root dest : string) (test : bool) (src : string) : St W string () :=
  name ← lift (placed_name test src);
  let to := path_join dest (replace_char "_"%char "-"%char name) in
  _ ← copy_file (path_join root src) to;
  elf ← file_read to;
  must (lift (sp1_setup elf)).
Definition sp1_placement (e : Executor) (dest : string) : St W string () :=
  root ← lift (unwrap root_dir);
  _ ← make_dir dest;
  for_artifacts (place_sp1 root dest (ex_test e)) (ex_artifacts e).

Record GuestListEntry := mkGuestListEntry { gl_name : string; gl_elf : bytes; gl_image_id : list Z; gl_path : string }.
Definition GuestListEntry_build (name elf_path : string) : St W string GuestListEntry :=
  user_elf ← file_read elf_path;
  let elf := program_encode user_elf in
  image_id ← lift (elf_image_id elf);
  let combined_path := elf_path +:+ ".bin" in
  _ ← write_file combined_path elf;
  mret (mkGuestListEntry name elf image_id combined_path).

Definition codegen_consts (g : GuestListEntry) (dest : string) : St W string string :=
  _ ← lift (assert (negb (contains_text "#" (gl_path g))));
  path ← must (canonicalize (gl_path g));
  relative_path ← lift (unwrap (diff_paths path dest));
  let upper := replace_char "-"%char "_"%char (to_upper (gl_name g)) in
  let newline := String (ascii_of_nat 10) "" in
  let quotes := String (ascii_of_nat 34) "" in
  mret (newline +:+ "pub const " +:+ upper +:+ "_ELF: &[u8] = include_bytes!(" +:+ quotes +:+ relative_path +:+ quotes +:+ ");" +:+ newline
    +:+ "pub const " +:+ upper +:+ "_ID: [u32; 8] = " +:+ words_text (gl_image_id g) +:+ ";" +:+ newline).

Definition place_risc0 (root dest_dir : string) (test : bool) (src : string) : St W string () :=
  name ← lift (placed_name test src);
  let dest_file := path_join dest_dir (replace_char "-"%char "_"%char name +:+ ".rs") in
  _ ← must (create_file dest_file);
  guest ← must (GuestListEntry_build name (path_join root src));
  dir ← must (canonicalize dest_dir);
  text ← codegen_consts guest dir;
  write_file dest_file (build_text_bytes text).
Definition risc0_placement (e : Executor) (dest : string) : St W string () :=
  root ← lift (unwrap root_dir);
  _ ← make_dir dest;
  for_artifacts (place_risc0 root dest (ex_test e)) (ex_artifacts e).
End machine.

(** ** Properties *)

Lemma removed_env l c k : cmd_env (foldl env_remove c l) !! k = if bool_decide (k ∈ l) then Some None else cmd_env c !! k.
Proof.
  revert c; induction l as [|x l IH]; intros c; cbn [foldl]; [by rewrite bool_decide_eq_false_2 by set_solver|]. rewrite IH.
  destruct (decide (k ∈ l)); [by rewrite !bool_decide_eq_true_2 by set_solver|].
  rewrite (bool_decide_eq_false_2 (k ∈ l)) by done. cbn [env_remove cmd_env]. destruct (decide (k = x)) as [->|].
  - rewrite lookup_insert_eq. by rewrite bool_decide_eq_true_2 by set_solver.
  - rewrite lookup_insert_ne by done. by rewrite bool_decide_eq_false_2 by set_solver.
Qed.
Lemma added_env (l : list (string * string)) c k : k ∉ l.*1 -> cmd_env (foldl (fun c '(k, v) => env_set c k v) c l) !! k = cmd_env c !! k.
Proof.
  revert c; induction l as [|[x v] l IH]; intros c Hk; [done|]. cbn [foldl]. cbn in Hk. rewrite IH by set_solver. cbn. apply lookup_insert_ne. set_solver.
Qed.

(** The variables that the builder sets itself. *)
Definition builder_vars (b : CommandBuilder) : list string := ["RUSTC"; "CARGO_ENCODED_RUSTFLAGS"; "CC"; "CC_" +:+ cb_target b] ++ (map_to_list (cb_custom_env b)).*1.

Lemma env_opt_other c k v j : j <> k -> cmd_env (env_opt c k v) !! j = cmd_env c !! j.
Proof. intros Hj. destruct v; [|done]. by apply lookup_insert_ne. Qed.

Lemma elem_cargo_vars vars k v : vars !! k = Some v -> starts_with "CARGO" k = true -> k ∈ cargo_vars vars.
Proof.
  intros Hv Hk. unfold cargo_vars. apply list_elem_of_In, filter_In. split; [|done].
  apply list_elem_of_In, list_elem_of_fmap. exists (k, v). by rewrite elem_of_map_to_list.
Qed.

(** A guest is built in a clean environment: in a variable of the package manager
    ([CARGO...]) or in one that was asked to be removed the process finds nothing,
    whatever the environment of the builder, unless the builder itself sets it. *)
Theorem build_environment_clean root vars b args profile names c k : inner_command root vars b args profile names = Ok c ->
  starts_with "CARGO" k = true \/ k ∈ cb_sanitized_env b -> k ∉ builder_vars b -> child_var c vars k = None.
Proof.
  unfold inner_command. intros H Hk Hb. destruct root as [root|]; [|done]. cbn in H. injection H as <-. unfold builder_vars in Hb.
  unfold child_var. cbn [with_args cmd_env]. rewrite added_env by set_solver. rewrite !env_opt_other by set_solver. cbn [env_set current_dir cmd_env].
  rewrite !lookup_insert_ne by set_solver. unfold sanitize. rewrite removed_env. case_bool_decide as Hs; [done|].
  destruct Hk as [Hk|]; [|done]. rewrite removed_env. case_bool_decide as Hc; [done|]. cbn.
  destruct (vars !! k) as [v|] eqn:Hv; [|done]. by apply (elem_cargo_vars _ _ _ Hv) in Hk.
Qed.

(** Only the artifacts of tests are changed, each to a path that the output names,
    and none is added or lost. *)
Lemma replace_artifact_length name test l l' : replace_artifact name test l = Ok (Some l') -> length l' = length l.
Proof.
  revert l'; induction l as [|a l IH]; intros l' H; [done|]. cbn in H. destruct (file_name a) as [n|e|]; cbn in H; try done.
  case_match; [by simplify_eq/=|]. destruct (replace_artifact name test l) as [[r|]|e|]; cbn in H; simplify_eq. cbn. by rewrite (IH r eq_refl).
Qed.
Lemma read_lines_length test l lines l' : read_lines test l lines = Ok l' -> length l' = length l /\ (test = false -> l' = l).
Proof.
  revert l; induction lines as [|[line|] lines IH]; intros l H; cbn [read_lines] in H; [by simplify_eq|..|done].
  destruct (test && _) eqn:Ht; [|by apply IH]. apply andb_true_iff in Ht as [-> _]. destruct (extract_path line) as [path|]; [|by apply IH].
  bind_inv. apply IH in H as [Hl _]. split; [|done]. rewrite Hl.
  match goal with H : ok_or ?r _ = Ok _ |- _ => destruct r as [r0|] eqn:E; cbn in H; simplify_eq end. by eapply replace_artifact_length.
Qed.
Theorem execute_artifacts spawn e e' : execute spawn e = Ok (Continued e') ->
  length (ex_artifacts e') = length (ex_artifacts e) /\ (ex_test e = false -> ex_artifacts e' = ex_artifacts e) /\
  exists p, spawn (ex_cmd e) = Some p /\ exit_code p = Some 0%Z.
Proof.
  unfold execute. destruct (spawn (ex_cmd e)) as [p|]; cbn; [|done]. destruct (read_lines _ _ _) as [l|x|] eqn:E; cbn; try done.
  destruct (out_is_text p); cbn; [|done]. case_bool_decide as Hc; [|done]. intros [= <-]. cbn. apply read_lines_length in E as [Hl Hn].
  split; [done|]. split; [done|]. by exists p.
Qed.

(** ** Witnesses *)
Definition example_builder : CommandBuilder :=
  rust_flags (sanitized_env (mkCommandBuilder (mkMetadata [[mkTarget "sp1-batch" ["bin"] false]] "target") "riscv32im-succinct-zkvm-elf" [] None None
    None None None None None [] ∅) ["RUSTUP_TOOLCHAIN"]) ["passes=loweratomic"].
Definition example_vars : gmap string string := {[ "CARGO_HOME" := "/root/.cargo"; "RUSTUP_TOOLCHAIN" := "stable" ]}.
Lemma build_environment_clean_witness : exists c,
  inner_command (Some "/raiko") example_vars example_builder ["build"] "release" ["sp1-batch"] = Ok c /\
  child_var c example_vars "CARGO_HOME" = None /\
  cmd_args c = ["build"; "--release"; "--target"; "riscv32im-succinct-zkvm-elf"; "--bin"; "sp1-batch"].
Proof.
  eexists. split; [reflexivity|]. split; [|reflexivity].
  apply (build_environment_clean (Some "/raiko") example_vars example_builder ["build"] "release" ["sp1-batch"] _ "CARGO_HOME" eq_refl).
  - left. reflexivity.
  - vm_compute. set_solver.
Defined.
